(** * Firehose loader: framing and transport core

    A shallow embedding of the C sources of the host-side loader
    (fh_cobs.c, fh_hsuart_packet.c, fh_transport_hsuart.c, fh_transport.c,
    fh_transfer.c) and the properties proved about it.

    Conventions.
    - A C integer of width w is a [Z] in [0, 2^w); every operation that can
      leave the range is followed by its wrap-around, written out.
    - A byte buffer is a [list Z] of bytes; a pointer into a buffer is a [Z]
      offset from the buffer's first byte.  The list is the memory that can be
      addressed through the pointer, which may be longer than the length the
      caller declares for it.  An access outside the list is undefined
      behaviour in C and stops the model with [Crash].
    - Loops run on fuel; the top-level functions supply enough fuel, and the
      theorems show results of the form [Done _]. *)

From Stdlib Require Import ZArith List Bool Lia Arith.
From Stdlib Require String Ascii QArith.
Import String.StringSyntax Ascii.AsciiSyntax.
Import ListNotations.
Open Scope Z_scope.

(* ===================================================================== *)
(** * Part I: the model                                                   *)
(* ===================================================================== *)

(** ** Machine integers and memory *)

Definition uint8 (z : Z) : Z := z mod 256.
Definition uint16 (z : Z) : Z := z mod 65536.
Definition uint32 (z : Z) : Z := z mod 4294967296.
Definition uint64 (z : Z) : Z := z mod 18446744073709551616.

Definition is_byte (z : Z) : Prop := 0 <= z < 256.

Definition zlen {A : Type} (l : list A) : Z := Z.of_nat (length l).

(** [load m p] is [*(m + p)]. *)
Definition load (m : list Z) (p : Z) : option Z :=
  if p <? 0 then None else nth_error m (Z.to_nat p).

(** [store m p v] is the memory after [*(m + p) = v] for an unsigned char
    object. *)
Definition store (m : list Z) (p : Z) (v : Z) : option (list Z) :=
  if (0 <=? p) && (p <? zlen m)
  then Some (firstn (Z.to_nat p) m ++ uint8 v :: skipn (S (Z.to_nat p)) m)
  else None.

(** [memset m 0 n]: the first [n] bytes of [m] become zero. *)
Definition memset0 (m : list Z) (n : Z) : option (list Z) :=
  if (0 <=? n) && (n <=? zlen m)
  then Some (repeat 0 (Z.to_nat n) ++ skipn (Z.to_nat n) m)
  else None.

(** How a run of the model ends. *)
Inductive outcome (R : Type) : Type :=
| Done (r : R)      (* the function returned [r] *)
| Crash             (* an access outside the addressable memory *)
| OutOfFuel.        (* the loop did not finish within the fuel *)
Arguments Done {R} r.
Arguments Crash {R}.
Arguments OutOfFuel {R}.

(** One turn of a loop body. *)
Inductive step (S R : Type) : Type :=
| Next (s : S)      (* go round again *)
| Stop (r : R)      (* [break] or [return] *)
| Trap              (* undefined behaviour *)
| Starve.           (* a loop inside the body did not finish *)
Arguments Next {S R} s.
Arguments Stop {S R} r.
Arguments Trap {S R}.
Arguments Starve {S R}.

Fixpoint iterate {S R : Type} (body : S -> step S R) (fuel : nat) (s : S)
  : outcome R :=
  match fuel with
  | O => OutOfFuel
  | Datatypes.S fuel' =>
      match body s with
      | Next s' => iterate body fuel' s'
      | Stop r => Done r
      | Trap => Crash
      | Starve => OutOfFuel
      end
  end.

(** A call inside a loop body: its result, or the way it failed. *)
Definition call {A S R : Type} (o : outcome A) (k : A -> step S R)
  : step S R :=
  match o with
  | Done a => k a
  | Crash => Trap
  | OutOfFuel => Starve
  end.

(** A call followed by the rest of a function. *)
Definition bind {A B : Type} (o : outcome A) (k : A -> outcome B)
  : outcome B :=
  match o with
  | Done a => k a
  | Crash => Crash
  | OutOfFuel => OutOfFuel
  end.

Notation "'access' x <- e ; k" :=
  (match e with Some x => k | None => Trap end)
  (at level 10, x name, e at level 100, k at level 200, only parsing).

(* --------------------------------------------------------------------- *)
(** ** fh_cobs.c: consistent overhead byte stuffing                       *)
(* --------------------------------------------------------------------- *)

Inductive fh_cobs_error_t : Type :=
| COBS_SUCCESS
| COBS_ERROR_NULL_SRC_BUFFER
| COBS_ERROR_NULL_DST_BUFFER
| COBS_ERROR_INVALID_LENGTH
| COBS_ERROR_INVALID_STUFFING
| COBS_ERROR_DST_BUFFER_OVERFLOW.

(** What a codec call leaves behind: the returned length, [*error], the
    destination memory, and (ghost) the offsets of the source bytes it loaded
    and of the destination bytes it stored, latest first. *)
Record cobs_result : Type := mk_cobs_result {
  cobs_ret : Z;
  cobs_error : fh_cobs_error_t;
  cobs_dst : list Z;
  cobs_loaded : list Z;
  cobs_stored : list Z
}.

(** The locals of [fh_cobs_stuff_bytes] together with the destination
    memory. *)
Record stuff_regs : Type := mk_stuff_regs {
  st_stuffed_length : Z;        (* uint32 *)
  st_encoded_value : Z;         (* unsigned char *)
  st_encoded_value_ptr : Z;     (* offset into dst *)
  st_dest_value_ptr : Z;        (* offset into dst *)
  st_index : Z;                 (* uint32 *)
  st_dst : list Z;
  st_loaded : list Z;
  st_stored : list Z
}.

Definition stuff_finish (ret : Z) (e : fh_cobs_error_t) (r : stuff_regs)
  : cobs_result :=
  mk_cobs_result ret e (st_dst r) (st_loaded r) (st_stored r).

(** [*(dst + p) = v] on the registers. *)
Definition stuff_poke (r : stuff_regs) (p v : Z) : option stuff_regs :=
  match store (st_dst r) p v with
  | Some m =>
      Some (mk_stuff_regs (st_stuffed_length r) (st_encoded_value r)
              (st_encoded_value_ptr r) (st_dest_value_ptr r) (st_index r)
              m (st_loaded r) (p :: st_stored r))
  | None => None
  end.

(** [encoded_value = 0x01; encoded_value_ptr = dest_value_ptr;] *)
Definition stuff_new_block (r : stuff_regs) : stuff_regs :=
  mk_stuff_regs (st_stuffed_length r) 1 (st_dest_value_ptr r)
    (st_dest_value_ptr r) (st_index r) (st_dst r) (st_loaded r) (st_stored r).

(** [encoded_value++;] *)
Definition stuff_count (r : stuff_regs) : stuff_regs :=
  mk_stuff_regs (st_stuffed_length r) (uint8 (st_encoded_value r + 1))
    (st_encoded_value_ptr r) (st_dest_value_ptr r) (st_index r) (st_dst r)
    (st_loaded r) (st_stored r).

(** [index++;] after the load of [*(src + index)]. *)
Definition stuff_consume (r : stuff_regs) : stuff_regs :=
  mk_stuff_regs (st_stuffed_length r) (st_encoded_value r)
    (st_encoded_value_ptr r) (st_dest_value_ptr r) (uint32 (st_index r + 1))
    (st_dst r) (st_index r :: st_loaded r) (st_stored r).

(** [dest_value_ptr++; stuffed_length++;] *)
Definition stuff_advance (r : stuff_regs) : stuff_regs :=
  mk_stuff_regs (uint32 (st_stuffed_length r + 1)) (st_encoded_value r)
    (st_encoded_value_ptr r) (st_dest_value_ptr r + 1) (st_index r) (st_dst r)
    (st_loaded r) (st_stored r).

(** Lines 124-150: the [if(encoded_value == 0xFF) ... else ...] statement
    followed by [dest_value_ptr++; stuffed_length++;]. *)
Definition stuff_encode_one (src : list Z) (r : stuff_regs)
  : option stuff_regs :=
  option_map stuff_advance
    (if st_encoded_value r =? 255
     then
       option_map stuff_new_block
         (stuff_poke r (st_encoded_value_ptr r) (st_encoded_value r))
     else
       match load src (st_index r) with
       | Some data_value =>
           option_map stuff_consume
             (if negb (data_value =? 0)
              then
                option_map stuff_count
                  (stuff_poke r (st_dest_value_ptr r) data_value)
              else
                option_map stuff_new_block
                  (stuff_poke r (st_encoded_value_ptr r)
                     (st_encoded_value r)))
       | None => None
       end).

(** Lines 152-158: [if(index == src_length) { ... }]. *)
Definition stuff_terminate (src_length : Z) (r : stuff_regs)
  : option stuff_regs :=
  if st_index r =? src_length
  then
    match stuff_poke r (st_encoded_value_ptr r) (st_encoded_value r) with
    | Some ra => option_map stuff_advance (stuff_poke ra (st_dest_value_ptr ra) 0)
    | None => None
    end
  else Some r.

(** The body of [while(index < src_length)], lines 122-165. *)
Definition stuff_body (src : list Z) (src_length dst_length : Z)
  (r : stuff_regs) : step stuff_regs cobs_result :=
  if negb (st_index r <? src_length)
  then Stop (stuff_finish (st_stuffed_length r) COBS_SUCCESS r)
  else
    access r2 <- stuff_encode_one src r;
    access r3 <- stuff_terminate src_length r2;
    if (st_stuffed_length r3 >=? dst_length) && (st_index r3 <? src_length)
    then Stop (stuff_finish 0 COBS_ERROR_DST_BUFFER_OVERFLOW r3)
    else Next r3.

(** [fh_cobs_stuff_bytes(src, src_length, dst, dst_length, &error)].
    A [None] buffer is the NULL pointer.  No byte has been stored when one of
    the argument checks fails. *)
Definition fh_cobs_stuff_bytes (src : option (list Z)) (src_length : Z)
  (dst : option (list Z)) (dst_length : Z) : outcome cobs_result :=
  match src with
  | None => Done (mk_cobs_result 0 COBS_ERROR_NULL_SRC_BUFFER
                    (match dst with Some d => d | None => [] end) [] [])
  | Some smem =>
      match dst with
      | None => Done (mk_cobs_result 0 COBS_ERROR_NULL_DST_BUFFER [] [] [])
      | Some dmem =>
          if src_length =? 0
          then Done (mk_cobs_result 0 COBS_ERROR_INVALID_LENGTH dmem [] [])
          else if dst_length =? 0
          then Done (mk_cobs_result 0 COBS_ERROR_INVALID_LENGTH dmem [] [])
          else
            match memset0 dmem dst_length with
            | None => Crash
            | Some d0 =>
                iterate (stuff_body smem src_length dst_length)
                  (2 * Z.to_nat src_length + 1)
                  (mk_stuff_regs 1 1 0 1 0 d0 [] [])
            end
      end
  end.

(** The locals of [fh_cobs_unstuff_bytes]; [src] and [dst] are moved by the
    loop, so both are kept as offsets from where they started. *)
Record unstuff_regs : Type := mk_unstuff_regs {
  us_unstuffed_length : Z;      (* uint32 *)
  us_encoded_value : Z;         (* unsigned char *)
  us_index : Z;                 (* unsigned char *)
  us_src : Z;                   (* offset into the source memory *)
  us_dst : Z;                   (* offset into the destination memory *)
  us_mem : list Z;              (* destination memory *)
  us_loaded : list Z;
  us_stored : list Z
}.

Definition unstuff_finish (ret : Z) (e : fh_cobs_error_t) (r : unstuff_regs)
  : cobs_result :=
  mk_cobs_result ret e (us_mem r) (us_loaded r) (us_stored r).

(** [*dst = v; unstuffed_length++; dst++;] (lines 233-235 and 248-250; the
    order of the two increments differs and does not matter). *)
Definition unstuff_emit (r : unstuff_regs) (v : Z) : option unstuff_regs :=
  match store (us_mem r) (us_dst r) v with
  | Some m =>
      Some (mk_unstuff_regs (uint32 (us_unstuffed_length r + 1))
              (us_encoded_value r) (us_index r) (us_src r) (us_dst r + 1) m
              (us_loaded r) (us_dst r :: us_stored r))
  | None => None
  end.

(** [*(src + index)], recording the offset. *)
Definition unstuff_fetch (smem : list Z) (r : unstuff_regs)
  : option (Z * unstuff_regs) :=
  match load smem (us_src r + us_index r) with
  | Some v =>
      Some (v, mk_unstuff_regs (us_unstuffed_length r) (us_encoded_value r)
                 (us_index r) (us_src r) (us_dst r) (us_mem r)
                 ((us_src r + us_index r) :: us_loaded r) (us_stored r))
  | None => None
  end.

Definition unstuff_set_index (r : unstuff_regs) (i : Z) : unstuff_regs :=
  mk_unstuff_regs (us_unstuffed_length r) (us_encoded_value r) i (us_src r)
    (us_dst r) (us_mem r) (us_loaded r) (us_stored r).

Definition unstuff_set_encoded_value (r : unstuff_regs) (v : Z)
  : unstuff_regs :=
  mk_unstuff_regs (us_unstuffed_length r) v (us_index r) (us_src r)
    (us_dst r) (us_mem r) (us_loaded r) (us_stored r).

(** [src = src + index; index = 1;] *)
Definition unstuff_next_block (r : unstuff_regs) : unstuff_regs :=
  mk_unstuff_regs (us_unstuffed_length r) (us_encoded_value r) 1
    (us_src r + us_index r) (us_dst r) (us_mem r) (us_loaded r) (us_stored r).

(** The body of [while(1)], lines 222-265. *)
Definition unstuff_body (smem : list Z) (dst_length : Z) (r : unstuff_regs)
  : step unstuff_regs cobs_result :=
  if (us_unstuffed_length r >=? dst_length)
     && negb (us_encoded_value r =? 0)
  then Stop (unstuff_finish 0 COBS_ERROR_DST_BUFFER_OVERFLOW r)
  else if negb (us_index r =? us_encoded_value r)
  then
    access fetched <- unstuff_fetch smem r;
    let (data_value, r1) := fetched in
    access r2 <- unstuff_emit r1 data_value;
    let r3 := unstuff_set_index r2 (uint8 (us_index r2 + 1)) in
    if us_index r3 =? 0
    then Stop (unstuff_finish 0 COBS_ERROR_INVALID_STUFFING r3)
    else Next r3
  else
    access fetched <- unstuff_fetch smem r;
    let (code, r1) := fetched in
    let r2 := unstuff_set_encoded_value r1 code in
    if us_encoded_value r2 =? 0
    then Stop (unstuff_finish (us_unstuffed_length r2) COBS_SUCCESS r2)
    else
      access r3 <-
        (if negb (us_index r2 =? 255) then unstuff_emit r2 0 else Some r2);
      Next (unstuff_next_block r3).

(** [fh_cobs_unstuff_bytes(src, src_length, dst, dst_length, &error)].
    The initialiser [encoded_value = *src] runs before the NULL tests, so a
    NULL or empty source is an invalid access.  [src_length] is only compared
    with zero. *)
Definition fh_cobs_unstuff_bytes (src : option (list Z)) (src_length : Z)
  (dst : option (list Z)) (dst_length : Z) : outcome cobs_result :=
  match src with
  | None => Crash
  | Some smem =>
      match load smem 0 with
      | None => Crash
      | Some first =>
          match dst with
          | None =>
              Done (mk_cobs_result 0 COBS_ERROR_NULL_DST_BUFFER [] [0] [])
          | Some dmem =>
              if src_length =? 0
              then Done (mk_cobs_result 0 COBS_ERROR_INVALID_LENGTH dmem [0] [])
              else if dst_length =? 0
              then Done (mk_cobs_result 0 COBS_ERROR_INVALID_LENGTH dmem [0] [])
              else
                iterate (unstuff_body smem dst_length) (S (length smem))
                  (mk_unstuff_regs 0 first 1 0 0 dmem [0] [])
          end
      end
  end.

(** The bytes a successful call produced: the first [cobs_ret] bytes of the
    destination. *)
Definition cobs_output (r : cobs_result) : list Z :=
  firstn (Z.to_nat (cobs_ret r)) (cobs_dst r).

(* --------------------------------------------------------------------- *)
(** ** stringl/memscpy.c and the byte images of 16-bit objects            *)
(* --------------------------------------------------------------------- *)

(** The [n] bytes at [m + off]. *)
Definition read_bytes (m : list Z) (off n : Z) : option (list Z) :=
  if n =? 0 then Some []
  else if (0 <=? off) && (0 <=? n) && (off + n <=? zlen m)
  then Some (firstn (Z.to_nat n) (skipn (Z.to_nat off) m))
  else None.

(** The memory after the bytes [bs] have been copied to [m + off]. *)
Definition write_bytes (m : list Z) (off : Z) (bs : list Z)
  : option (list Z) :=
  match bs with
  | [] => Some m
  | _ =>
      if (0 <=? off) && (off + zlen bs <=? zlen m)
      then Some (firstn (Z.to_nat off) m ++ map uint8 bs
                   ++ skipn (Z.to_nat off + length bs) m)
      else None
  end.

(** [memscpy(dst + doff, dst_size, src + soff, src_size)]: copies
    [min(dst_size, src_size)] bytes and returns the memory behind [dst]. *)
Definition memscpy (dst : list Z) (doff dst_size : Z) (src : list Z)
  (soff src_size : Z) : option (list Z) :=
  let copy_size := if dst_size <=? src_size then dst_size else src_size in
  match read_bytes src soff copy_size with
  | Some bs => write_bytes dst doff bs
  | None => None
  end.

(** The object representation of a [uint16] on the host. *)
Definition uint16_to_bytes (big_endian : bool) (v : Z) : list Z :=
  if big_endian then [v / 256; v mod 256] else [v mod 256; v / 256].

Definition uint16_of_bytes (big_endian : bool) (bs : list Z) : Z :=
  match bs with
  | [b0; b1] => if big_endian then 256 * b0 + b1 else b0 + 256 * b1
  | _ => 0
  end.

(* --------------------------------------------------------------------- *)
(** ** fh_hsuart_packet.c: typed packets                                  *)
(* --------------------------------------------------------------------- *)

(** [enum fh_packet_id_t], fh_packet_id.h. *)
Definition PROTOCOL_PACKET : Z := 240.          (* 0xF0 *)
Definition END_OF_TRANSFER_PACKET : Z := 85.    (* 0x55 *)
Definition ACK_PACKET : Z := 6.                 (* 0x06 *)
Definition NAK_PACKET : Z := 9.                 (* 0x09 *)
Definition VERSION_PACKET : Z := 170.           (* 0xAA *)
Definition READY_TO_READ_PACKET : Z := 15.      (* 0x0F *)

Inductive fh_packet_error_t : Type :=
| PACKET_SUCCESS
| PACKET_ERROR_NULL_SRC_BUFFER
| PACKET_ERROR_NULL_DST_BUFFER
| PACKET_ERROR_INVALID_LENGTH
| PACKET_ERROR_INVALID_PACKET_ID
| PACKET_ERROR_CRC
| PACKET_ERROR_VERSION_MISMATCH
| PACKET_ERROR_DST_BUFFER_OVERFLOW.

Definition MAX_HSUART_PACKET_SIZE : Z := 4 * 1024.
Definition PACKET_ID_SIZE : Z := 1.
Definition VERSION_PACKET_SIZE : Z := 2.
Definition PACKET_LAYER_MINOR_ID : Z := 0.
Definition PACKET_LAYER_MAJOR_ID : Z := 1.
Definition packet_id_size : Z := PACKET_ID_SIZE.
Definition version_packet_size : Z := VERSION_PACKET_SIZE.
Definition sizeof_crc_data : Z := 2.

(** [#define LITTLE_TO_BIG_SHORT(x)
      (uint16)((x & 0xff) << 8) | ((uint16)((x >> 8) & 0xff))],
    as assigned to a [uint16]. *)
Definition LITTLE_TO_BIG_SHORT (x : Z) : Z :=
  uint16 (Z.lor (uint16 (Z.shiftl (Z.land x 255) 8))
            (uint16 (Z.land (Z.shiftr x 8) 255))).

(** What a packet codec call leaves behind: the returned length, [*error],
    the destination memory and [*packet_id] ([None] while nothing has been
    assigned to it; only [fh_packet_decode] assigns). *)
Record packet_result : Type := mk_packet_result {
  pkt_ret : Z;
  pkt_error : fh_packet_error_t;
  pkt_dst : list Z;
  pkt_id : option Z
}.

Definition pkt_output (r : packet_result) : list Z :=
  firstn (Z.to_nat (pkt_ret r)) (pkt_dst r).

Definition crash_unless {R : Type} (o : option R) : outcome R :=
  match o with Some r => Done r | None => Crash end.

Section PacketCodec.

(** fh_crc.c is not among the sources: the CRC-16 of a byte run is a
    parameter, and so is the byte order of the host ([IS_BIG_ENDIAN()]). *)
Variable crc16 : list Z -> Z.
Variable big_endian : bool.

(** [fh_crc_calculate_crc16(buf_ptr, len)], of return type [word]. *)
Definition fh_crc_calculate_crc16 (buf : list Z) (len : Z) : option Z :=
  option_map (fun bs => uint16 (crc16 bs)) (read_bytes buf 0 len).

(** [if(!IS_BIG_ENDIAN()) crc_data = LITTLE_TO_BIG_SHORT(crc_data);] *)
Definition to_wire_order (crc_data : Z) : Z :=
  if negb big_endian then LITTLE_TO_BIG_SHORT crc_data else crc_data.

(** [memscpy(dst + doff, dst_size, &crc_data, sizeof(crc_data))]. *)
Definition memscpy_from_crc (dst : list Z) (doff dst_size crc_data : Z)
  : option (list Z) :=
  memscpy dst doff dst_size (uint16_to_bytes big_endian crc_data) 0
    sizeof_crc_data.

(** [memscpy(&rx_crc_data, sizeof(rx_crc_data), src + soff,
    sizeof(rx_crc_data))]. *)
Definition memscpy_to_crc (src : list Z) (soff : Z) : option Z :=
  option_map (uint16_of_bytes big_endian)
    (read_bytes src soff sizeof_crc_data).

(** [fh_packet_encode], lines 75-165. *)
Definition fh_packet_encode (packet_id : Z) (src : option (list Z))
  (src_length : Z) (dst : option (list Z)) (dst_length : Z)
  : outcome packet_result :=
  match dst with
  | None =>
      Done (mk_packet_result 0 PACKET_ERROR_NULL_DST_BUFFER [] None)
  | Some d =>
      if (packet_id =? ACK_PACKET) then
        crash_unless
          (option_map
             (fun d1 => mk_packet_result packet_id_size PACKET_SUCCESS d1 None)
             (store d 0 ACK_PACKET))
      else if (packet_id =? NAK_PACKET) then
        crash_unless
          (option_map
             (fun d1 => mk_packet_result packet_id_size PACKET_SUCCESS d1 None)
             (store d 0 NAK_PACKET))
      else if (packet_id =? VERSION_PACKET) then
        crash_unless
          (match store d 0 VERSION_PACKET with
           | Some d1 =>
               match store d1 1 PACKET_LAYER_MAJOR_ID with
               | Some d2 =>
                   match store d2 2 PACKET_LAYER_MINOR_ID with
                   | Some d3 =>
                       match
                         fh_crc_calculate_crc16 d3
                           (packet_id_size + version_packet_size)
                       with
                       | Some crc_data =>
                           option_map
                             (fun d4 =>
                                mk_packet_result
                                  (uint32 (packet_id_size
                                           + version_packet_size
                                           + sizeof_crc_data))
                                  PACKET_SUCCESS d4 None)
                             (memscpy_from_crc d3
                                (packet_id_size + version_packet_size)
                                (uint32 (dst_length
                                         - (packet_id_size
                                            + version_packet_size)))
                                (to_wire_order crc_data))
                       | None => None
                       end
                   | None => None
                   end
               | None => None
               end
           | None => None
           end)
      else if (packet_id =? READY_TO_READ_PACKET) then
        crash_unless
          (match store d 0 READY_TO_READ_PACKET with
           | Some d1 =>
               match fh_crc_calculate_crc16 d1 packet_id_size with
               | Some crc_data =>
                   option_map
                     (fun d2 =>
                        mk_packet_result
                          (uint32 (packet_id_size + sizeof_crc_data))
                          PACKET_SUCCESS d2 None)
                     (memscpy_from_crc d1 packet_id_size
                        (uint32 (dst_length - packet_id_size))
                        (to_wire_order crc_data))
               | None => None
               end
           | None => None
           end)
      else if (packet_id =? PROTOCOL_PACKET)
              || (packet_id =? END_OF_TRANSFER_PACKET) then
        match src with
        | None =>
            Done (mk_packet_result 0 PACKET_ERROR_NULL_SRC_BUFFER d None)
        | Some s =>
            if src_length =? 0
            then Done (mk_packet_result 0 PACKET_ERROR_INVALID_LENGTH d None)
            else
              crash_unless
                (match store d 0 packet_id with
                 | Some d1 =>
                     match
                       memscpy d1 packet_id_size
                         (uint32 (dst_length - packet_id_size)) s 0 src_length
                     with
                     | Some d2 =>
                         match
                           fh_crc_calculate_crc16 d2
                             (uint32 (packet_id_size + src_length))
                         with
                         | Some crc_data =>
                             option_map
                               (fun d3 =>
                                  mk_packet_result
                                    (uint32 (packet_id_size + src_length
                                             + sizeof_crc_data))
                                    PACKET_SUCCESS d3 None)
                               (memscpy_from_crc d2
                                  (packet_id_size + src_length)
                                  (uint32 (dst_length - packet_id_size))
                                  (to_wire_order crc_data))
                         | None => None
                         end
                     | None => None
                     end
                 | None => None
                 end)
        end
      else Done (mk_packet_result 0 PACKET_ERROR_INVALID_PACKET_ID d None)
  end.

(** The CRC test shared by the cases of [fh_packet_decode]: the CRC of the
    first [covered] bytes against the two bytes at [src + pos]. *)
Definition crc_matches (s : list Z) (covered pos : Z) : option bool :=
  match fh_crc_calculate_crc16 s covered with
  | Some crc_data =>
      match memscpy_to_crc s pos with
      | Some rx_crc_data => Some (to_wire_order rx_crc_data =? crc_data)
      | None => None
      end
  | None => None
  end.

(** [fh_packet_decode], lines 185-346. *)
Definition fh_packet_decode (src : option (list Z)) (src_length : Z)
  (dst : option (list Z)) (dst_length : Z) : outcome packet_result :=
  match src with
  | None =>
      Done (mk_packet_result 0 PACKET_ERROR_NULL_SRC_BUFFER
              (match dst with Some d => d | None => [] end) None)
  | Some s =>
      match dst with
      | None =>
          Done (mk_packet_result 0 PACKET_ERROR_NULL_DST_BUFFER [] None)
      | Some d =>
          if src_length =? 0
          then Done (mk_packet_result 0 PACKET_ERROR_INVALID_LENGTH d None)
          else
            match load s 0 with
            | None => Crash
            | Some id =>
                if id =? ACK_PACKET then
                  if negb (src_length =? 1)
                  then Done (mk_packet_result 0 PACKET_ERROR_INVALID_LENGTH
                               d None)
                  else Done (mk_packet_result 0 PACKET_SUCCESS d
                               (Some ACK_PACKET))
                else if id =? NAK_PACKET then
                  if negb (src_length =? 1)
                  then Done (mk_packet_result 0 PACKET_ERROR_INVALID_LENGTH
                               d None)
                  else Done (mk_packet_result 0 PACKET_SUCCESS d
                               (Some NAK_PACKET))
                else if id =? VERSION_PACKET then
                  if negb (src_length
                           =? packet_id_size + version_packet_size
                              + sizeof_crc_data)
                  then Done (mk_packet_result 0 PACKET_ERROR_INVALID_LENGTH
                               d None)
                  else
                    match
                      crc_matches s (packet_id_size + version_packet_size)
                        (packet_id_size + version_packet_size)
                    with
                    | None => Crash
                    | Some false =>
                        Done (mk_packet_result 0 PACKET_ERROR_CRC d
                                (Some VERSION_PACKET))
                    | Some true =>
                        match load s 1, load s 2 with
                        | Some major, Some minor =>
                            if (PACKET_LAYER_MAJOR_ID =? major)
                               && (PACKET_LAYER_MINOR_ID =? minor)
                            then Done (mk_packet_result 0 PACKET_SUCCESS d
                                         (Some VERSION_PACKET))
                            else Done (mk_packet_result 0
                                         PACKET_ERROR_VERSION_MISMATCH d
                                         (Some VERSION_PACKET))
                        | _, _ => Crash
                        end
                    end
                else if (id =? PROTOCOL_PACKET)
                        || (id =? END_OF_TRANSFER_PACKET) then
                  if src_length <? packet_id_size + sizeof_crc_data
                  then Done (mk_packet_result 0 PACKET_ERROR_INVALID_LENGTH
                               d (Some id))
                  else if dst_length
                          <? uint32 (src_length - packet_id_size
                                     - sizeof_crc_data)
                  then Done (mk_packet_result 0
                               PACKET_ERROR_DST_BUFFER_OVERFLOW d (Some id))
                  else
                    match
                      crc_matches s (uint32 (src_length - sizeof_crc_data))
                        (src_length - sizeof_crc_data)
                    with
                    | None => Crash
                    | Some false =>
                        Done (mk_packet_result 0 PACKET_ERROR_CRC d (Some id))
                    | Some true =>
                        crash_unless
                          (option_map
                             (fun d1 =>
                                mk_packet_result
                                  (uint32 (src_length - packet_id_size
                                           - sizeof_crc_data))
                                  PACKET_SUCCESS d1 (Some id))
                             (memscpy d 0 dst_length s packet_id_size
                                (src_length - packet_id_size
                                 - sizeof_crc_data)))
                    end
                else if id =? READY_TO_READ_PACKET then
                  if negb (src_length =? packet_id_size + sizeof_crc_data)
                  then Done (mk_packet_result 0 PACKET_ERROR_INVALID_LENGTH
                               d (Some id))
                  else
                    match
                      crc_matches s (uint32 (src_length - sizeof_crc_data))
                        packet_id_size
                    with
                    | None => Crash
                    | Some false =>
                        Done (mk_packet_result 0 PACKET_ERROR_CRC d (Some id))
                    | Some true =>
                        Done (mk_packet_result 0 PACKET_SUCCESS d (Some id))
                    end
                else
                  Done (mk_packet_result 0 PACKET_ERROR_INVALID_PACKET_ID d
                          None)
            end
      end
  end.

(** The two bytes that carry the CRC of [bs] on the wire. *)
Definition crc_bytes (bs : list Z) : list Z :=
  map uint8 (uint16_to_bytes big_endian (to_wire_order (uint16 (crc16 bs)))).

End PacketCodec.

(** The payloads [fh_packet_encode] takes for a packet id: at least one byte
    for the two data packets, none for the others (it does not look at [src]
    for them). *)
Definition valid_payload (id : Z) (p : list Z) : Prop :=
  if (id =? PROTOCOL_PACKET) || (id =? END_OF_TRANSFER_PACKET)
  then 1 <= zlen p /\ Forall is_byte p
  else p = [].

(** The length of the packet [fh_packet_encode] builds. *)
Definition packet_size (id : Z) (p : list Z) : Z :=
  if (id =? ACK_PACKET) || (id =? NAK_PACKET) then 1
  else if id =? VERSION_PACKET then 5
  else if id =? READY_TO_READ_PACKET then 3
  else zlen p + 3.

(** The CRC survives the trip through its byte image, whatever the host's
    byte order: checked for each of the 65536 values. *)
Definition wire_trip (big_endian : bool) (c : Z) : Z :=
  to_wire_order big_endian
    (uint16_of_bytes big_endian
       (map uint8 (uint16_to_bytes big_endian (to_wire_order big_endian c)))).
(** [fh_hsuart_packet_encode] and [fh_hsuart_packet_decode]: the packet codec
    composed with the byte stuffing. *)

Inductive fh_hsuart_packet_error_t : Type :=
| HSUART_PACKET_SUCCESS
| HSUART_INVALID_PARAM_ERROR
| HSUART_PACKET_CORRUPTION_ERROR
| HSUART_COBS_ERROR.

Record hsuart_packet_result : Type := mk_hsuart_packet_result {
  hp_ret : Z;
  hp_error : fh_hsuart_packet_error_t;
  hp_dst : list Z;
  hp_id : option Z
}.

(** [unsigned char temp_buffer[MAX_HSUART_PACKET_SIZE] = { 0 };] *)
Definition temp_buffer : list Z := repeat 0 (Z.to_nat MAX_HSUART_PACKET_SIZE).

Definition or_empty (b : option (list Z)) : list Z :=
  match b with Some m => m | None => [] end.

Section HsuartPacket.

Variable crc16 : list Z -> Z.
Variable big_endian : bool.

(** [fh_hsuart_packet_encode], lines 367-402. *)
Definition fh_hsuart_packet_encode (packet_id : Z) (src : option (list Z))
  (src_length : Z) (dst : option (list Z)) (dst_length : Z)
  : outcome hsuart_packet_result :=
  match
    fh_packet_encode crc16 big_endian packet_id src src_length
      (Some temp_buffer) MAX_HSUART_PACKET_SIZE
  with
  | Done p =>
      match pkt_error p with
      | PACKET_SUCCESS =>
          if negb (packet_id =? ACK_PACKET) && negb (packet_id =? NAK_PACKET)
          then
            match
              fh_cobs_stuff_bytes (Some (pkt_dst p)) (pkt_ret p) dst dst_length
            with
            | Done c =>
                Done (mk_hsuart_packet_result (cobs_ret c)
                        (match cobs_error c with
                         | COBS_SUCCESS => HSUART_PACKET_SUCCESS
                         | _ => HSUART_INVALID_PARAM_ERROR
                         end)
                        (cobs_dst c) None)
            | Crash => Crash
            | OutOfFuel => OutOfFuel
            end
          else
            match dst with
            | None => Crash
            | Some d =>
                crash_unless
                  (option_map
                     (fun d1 =>
                        mk_hsuart_packet_result (pkt_ret p)
                          HSUART_PACKET_SUCCESS d1 None)
                     (memscpy d 0 (pkt_ret p) (pkt_dst p) 0 packet_id_size))
            end
      | _ =>
          Done (mk_hsuart_packet_result (pkt_ret p) HSUART_INVALID_PARAM_ERROR
                  (or_empty dst) None)
      end
  | Crash => Crash
  | OutOfFuel => OutOfFuel
  end.

(** The error translation at the end of [fh_hsuart_packet_decode]. *)
Definition hsuart_error_of_packet (e : fh_packet_error_t)
  : fh_hsuart_packet_error_t :=
  match e with
  | PACKET_SUCCESS => HSUART_PACKET_SUCCESS
  | PACKET_ERROR_CRC | PACKET_ERROR_VERSION_MISMATCH =>
      HSUART_PACKET_CORRUPTION_ERROR
  | _ => HSUART_INVALID_PARAM_ERROR
  end.

Definition hsuart_of_packet (o : outcome packet_result)
  : outcome hsuart_packet_result :=
  match o with
  | Done p =>
      Done (mk_hsuart_packet_result (pkt_ret p)
              (hsuart_error_of_packet (pkt_error p)) (pkt_dst p) (pkt_id p))
  | Crash => Crash
  | OutOfFuel => OutOfFuel
  end.

(** [fh_hsuart_packet_decode], lines 423-480. *)
Definition fh_hsuart_packet_decode (src : option (list Z)) (length : Z)
  (dst : option (list Z)) (dst_length : Z) : outcome hsuart_packet_result :=
  if 1 <? length
  then
    match
      fh_cobs_unstuff_bytes src length (Some temp_buffer)
        MAX_HSUART_PACKET_SIZE
    with
    | Done c =>
        match cobs_error c with
        | COBS_SUCCESS =>
            hsuart_of_packet
              (fh_packet_decode crc16 big_endian (Some (cobs_dst c))
                 (cobs_ret c) dst dst_length)
        | COBS_ERROR_INVALID_STUFFING =>
            Done (mk_hsuart_packet_result (cobs_ret c) HSUART_COBS_ERROR
                    (or_empty dst) None)
        | _ =>
            Done (mk_hsuart_packet_result (cobs_ret c)
                    HSUART_INVALID_PARAM_ERROR (or_empty dst) None)
        end
    | Crash => Crash
    | OutOfFuel => OutOfFuel
    end
  else
    hsuart_of_packet
      (fh_packet_decode crc16 big_endian src length dst dst_length).

End HsuartPacket.

(* --------------------------------------------------------------------- *)
(** ** fh_transport_hsuart.c: the HSUART link                             *)
(* --------------------------------------------------------------------- *)

Definition MAX_HSUART_PACKET_DATA_SIZE : Z := 4000.
Definition ONE_MEGA_BYTE : Z := 1024 * 1024.
Definition END_OF_PACKET : Z := 0.

(** [enum firehose_errors], fh_comdef.h. *)
Inductive fh_res_t : Type :=
| SUCCESS
| INVALID_PARAMETER
| NOT_SUPPORTED
| TRANSPORT_TIMEOUT
| OPEN_PORT_FAILED
| CLOSE_PORT_ERROR
| READ_PORT_TIMEOUT
| READ_PORT_ERROR
| WRITE_PORT_TIMEOUT
| WRITE_PORT_ERROR
| NOT_INITALIZED
| SET_TIMEOUT_ERROR
| FILE_IO
| NO_MEMORY
| TARGET_NAK.

(** *** The receive ring

    The statics [fh_transport_hsuart_buffered_length],
    [fh_transport_hsuart_buffered_data] and the two pointers into it, kept as
    offsets from the first byte of the array. *)
Record hsuart_ring : Type := mk_hsuart_ring {
  buffered_length : Z;          (* uint32 *)
  buffered_data : list Z;       (* char [ONE_MEGA_BYTE] *)
  buffered_data_end_ptr : Z;
  buffered_data_start_ptr : Z
}.

Definition ring_init : hsuart_ring :=
  mk_hsuart_ring 0 (repeat 0 (Z.to_nat ONE_MEGA_BYTE)) 0 0.

(** [get_data_from_buffer(buffer, requested_length)], lines 979-1006: the
    returned length, the caller's buffer and the ring afterwards. *)
Definition get_data_from_buffer (r : hsuart_ring) (buffer : list Z)
  (requested_length : Z) : outcome (Z * list Z * hsuart_ring) :=
  if requested_length <? buffered_length r
  then
    crash_unless
      (option_map
         (fun buffer' =>
            (requested_length, buffer',
             mk_hsuart_ring (uint32 (buffered_length r - requested_length))
               (buffered_data r) (buffered_data_end_ptr r)
               (buffered_data_start_ptr r + requested_length)))
         (memscpy buffer 0 requested_length (buffered_data r)
            (buffered_data_start_ptr r) requested_length))
  else
    crash_unless
      (option_map
         (fun buffer' =>
            (buffered_length r, buffer',
             mk_hsuart_ring 0 (buffered_data r) 0 0))
         (memscpy buffer 0 (buffered_length r) (buffered_data r)
            (buffered_data_start_ptr r) (buffered_length r))).

(** [add_data_to_buffer(buffer, length)], lines 1076-1093.  The test
    subtracts a pointer difference from a [uint32]; where [ptrdiff_t] has 64
    bits (LP64 and LLP64, the hosts the loader is built for) the subtraction
    and the comparison are signed and cannot wrap. *)
Definition add_data_to_buffer (r : hsuart_ring) (buffer : list Z)
  (length : Z) : outcome (bool * hsuart_ring) :=
  if length
     <? uint32 (ONE_MEGA_BYTE - buffered_length r) - (buffered_data_end_ptr r - 0)
  then
    crash_unless
      (option_map
         (fun data' =>
            (true,
             mk_hsuart_ring (uint32 (buffered_length r + length)) data'
               (buffered_data_end_ptr r + length) (buffered_data_start_ptr r)))
         (memscpy (buffered_data r) (buffered_data_end_ptr r) length buffer 0
            length))
  else Done (false, r).

(** The ring invariant: the count is the distance between the two pointers,
    which stay inside the array in this order. *)
Definition ring_ok (r : hsuart_ring) : Prop :=
  buffered_length r = buffered_data_end_ptr r - buffered_data_start_ptr r
  /\ 0 <= buffered_data_start_ptr r
  /\ buffered_data_start_ptr r <= buffered_data_end_ptr r
  /\ buffered_data_end_ptr r <= ONE_MEGA_BYTE
  /\ zlen (buffered_data r) = ONE_MEGA_BYTE.

(** The rings that calls of the two functions produce from the initial one. *)
Inductive ring_reachable : hsuart_ring -> Prop :=
| reach_init : ring_reachable ring_init
| reach_add r buffer length ok r' :
    ring_reachable r -> 0 <= length < 4294967296 ->
    add_data_to_buffer r buffer length = Done (ok, r') ->
    ring_reachable r'
| reach_get r buffer requested_length n buffer' r' :
    ring_reachable r -> 0 <= requested_length < 4294967296 ->
    get_data_from_buffer r buffer requested_length = Done (n, buffer', r') ->
    ring_reachable r'.


(** *** The serial port

    The port driver ([fh_uart_read], [fh_uart_write]; Windows and Linux
    variants in the source) is outside the link layer.  It is modelled by the
    runs of bytes written so far and by the batches of bytes that the coming
    reads find in the driver.  While the port is up a write is accepted in
    full; while it is down the driver call fails and [fh_uart_write] returns
    [WRITE_PORT_ERROR].  A read takes at most the requested number of bytes
    from the first batch and leaves the rest of it; when no batch is left
    nothing arrives any more, and the timeout of the caller
    ([READ_TIMEOUT_SECONDS]) is what ends its wait. *)
Record uart : Type := mk_uart {
  uart_up : bool;
  uart_sent : list (list Z);
  uart_incoming : list (list Z)
}.

Definition fh_uart_write (u : uart) (write_buf : list Z) (write_len : Z)
  : option (fh_res_t * Z * uart) :=
  if uart_up u
  then
    option_map
      (fun bs =>
         (SUCCESS, write_len,
          mk_uart (uart_up u) (uart_sent u ++ [bs]) (uart_incoming u)))
      (read_bytes write_buf 0 write_len)
  else Some (WRITE_PORT_ERROR, 0, u).

Definition fh_uart_read (u : uart) (read_len : Z) : fh_res_t * list Z * uart :=
  match uart_incoming u with
  | [] => (SUCCESS, [], u)
  | batch :: rest =>
      (SUCCESS, firstn (Z.to_nat read_len) batch,
       mk_uart (uart_up u) (uart_sent u)
         (match skipn (Z.to_nat read_len) batch with
          | [] => rest
          | remainder => remainder :: rest
          end))
  end.

(** The statics of fh_transport_hsuart.c and the port. *)
Record hsuart : Type := mk_hsuart {
  is_target_in_read_mode : bool;
  ring : hsuart_ring;
  port : uart
}.

Definition with_port (h : hsuart) (u : uart) : hsuart :=
  mk_hsuart (is_target_in_read_mode h) (ring h) u.

Definition with_ring (h : hsuart) (r : hsuart_ring) : hsuart :=
  mk_hsuart (is_target_in_read_mode h) r (port h).

Definition with_read_mode (h : hsuart) (b : bool) : hsuart :=
  mk_hsuart b (ring h) (port h).

(** [transmit_hsuart_packet(buf, length)], lines 842-867. *)
Definition transmit_hsuart_packet (u : uart) (buf : list Z) (length : Z)
  : outcome (bool * uart) :=
  iterate
    (fun st : Z * uart =>
       let (total_bytes_written, u0) := st in
       match
         fh_uart_write u0 (skipn (Z.to_nat total_bytes_written) buf)
           (uint32 (length - total_bytes_written))
       with
       | None => Trap
       | Some (res, bytes_written, u1) =>
           match res with
           | SUCCESS =>
               let total :=
                 if 0 <? bytes_written
                 then uint32 (total_bytes_written + bytes_written)
                 else total_bytes_written in
               if length =? total then Stop (true, u1) else Next (total, u1)
           | _ => Stop (false, u1)
           end
       end)
    (S (Z.to_nat length)) (0, u).

(** [receive_hsuart_packet(buf, &length, waiting_for_ack)], lines 678-724,
    for a zeroed [buf] of [MAX_HSUART_PACKET_SIZE] bytes: the received
    length, the buffer and the port.  The function always returns TRUE. *)
Definition receive_hsuart_packet (u : uart) (waiting_for_ack : bool)
  : outcome (Z * list Z * uart) :=
  iterate
    (fun st : Z * list Z * uart =>
       let '(total_bytes_read, buf, u0) := st in
       let '(_, got, u1) :=
         fh_uart_read u0
           (if waiting_for_ack then PACKET_ID_SIZE else MAX_HSUART_PACKET_SIZE)
       in
       match write_bytes buf total_bytes_read got with
       | None => Trap
       | Some buf1 =>
           let total := uint32 (total_bytes_read + zlen got) in
           let at_end :=
             if 0 <? total
             then
               match load buf1 (total - 1) with
               | Some last => (END_OF_PACKET =? last) || waiting_for_ack
               | None => false
               end
             else false in
           if at_end then Stop (total, buf1, u1)
           else
             match uart_incoming u0 with
             | [] => Stop (total, buf1, u1)      (* the timeout *)
             | _ => Next (total, buf1, u1)
             end
       end)
    (S (length (concat (uart_incoming u)) + length (uart_incoming u)))
    (0, temp_buffer, u).

Section HsuartLink.

Variable crc16 : list Z -> Z.
Variable big_endian : bool.

(** [send_nak()] and [send_ack()], lines 571-609. *)
Definition send_reply (packet_id : Z) (u : uart) : outcome (bool * uart) :=
  bind
    (fh_hsuart_packet_encode crc16 big_endian packet_id None 0 (Some [0]) 1)
    (fun e =>
       match hp_error e with
       | HSUART_PACKET_SUCCESS => transmit_hsuart_packet u (hp_dst e) (hp_ret e)
       | _ => Done (false, u)
       end).

Definition send_nak : uart -> outcome (bool * uart) := send_reply NAK_PACKET.
Definition send_ack : uart -> outcome (bool * uart) := send_reply ACK_PACKET.

(** [wait_for_ack()], lines 621-661. *)
Definition wait_for_ack (u : uart) : outcome (bool * uart) :=
  bind (receive_hsuart_packet u true)
    (fun rcv =>
       let '(length, receive_buffer, u1) := rcv in
       bind
         (fh_hsuart_packet_decode crc16 big_endian (Some receive_buffer) length
            (Some temp_buffer) MAX_HSUART_PACKET_SIZE)
         (fun d =>
            match hp_error d with
            | HSUART_PACKET_SUCCESS =>
                match hp_id d with
                | Some packet_id => Done (ACK_PACKET =? packet_id, u1)
                | None => Crash
                end
            | _ => Done (false, u1)
            end)).

(** [write_hsuart_packet(buf, length, packet_id)], lines 885-910.  The
    [do ... while(!wait_for_ack())] loop has no bound of its own; the fuel
    covers one round per batch the port still holds. *)
Definition write_hsuart_packet (u : uart) (buf : option (list Z))
  (length : Z) (packet_id : Z) : outcome (bool * uart) :=
  bind
    (fh_hsuart_packet_encode crc16 big_endian packet_id buf length
       (Some temp_buffer) MAX_HSUART_PACKET_SIZE)
    (fun e =>
       match hp_error e with
       | HSUART_PACKET_SUCCESS =>
           iterate
             (fun u0 : uart =>
                call (transmit_hsuart_packet u0 (hp_dst e) (hp_ret e))
                  (fun t =>
                     let (sent, u1) := t in
                     if negb sent then Stop (false, u1)
                     else
                       call (wait_for_ack u1)
                         (fun a =>
                            let (acked, u2) := a in
                            if acked then Stop (true, u2) else Next u2)))
             (S (List.length (concat (uart_incoming u))
                 + List.length (uart_incoming u)))
             u
       | _ => Done (false, u)
       end).

(** What [read_hsuart_packet] leaves behind: its return value, the caller's
    buffer, [*length] and [*end_of_transfer] (as far as they were assigned)
    and the session. *)
Record read_packet_result : Type := mk_read_packet_result {
  rp_ok : bool;
  rp_buf : option (list Z);
  rp_length : option Z;
  rp_end_of_transfer : bool;
  rp_session : hsuart
}.

(** The label [SendResponse], lines 808-822. *)
Definition send_response (e : fh_hsuart_packet_error_t) (u : uart)
  : outcome (bool * uart) :=
  match e with
  | HSUART_PACKET_SUCCESS => send_ack u
  | _ => bind (send_nak u) (fun n => Done (false, snd n))
  end.

Definition is_invalid_param (e : fh_hsuart_packet_error_t) : bool :=
  match e with HSUART_INVALID_PARAM_ERROR => true | _ => false end.

(** [read_hsuart_packet(buf, &length, end_of_transfer)], lines 742-826.
    [pkt_id] is read by the [switch] whether or not the decoder assigned it;
    reading it unassigned is undefined. *)
Definition read_hsuart_packet (h : hsuart) (buf : option (list Z))
  : outcome read_packet_result :=
  bind (receive_hsuart_packet (port h) false)
    (fun rcv =>
       let '(received_packet_length, receive_buffer, u1) := rcv in
       bind
         (fh_hsuart_packet_decode crc16 big_endian (Some receive_buffer)
            received_packet_length (Some temp_buffer) MAX_HSUART_PACKET_SIZE)
         (fun d =>
            match hp_id d with
            | None => Crash
            | Some pkt_id =>
                if (pkt_id =? END_OF_TRANSFER_PACKET)
                   || (pkt_id =? PROTOCOL_PACKET)
                then
                  let end_of_transfer := pkt_id =? END_OF_TRANSFER_PACKET in
                  bind
                    (match hp_error d with
                     | HSUART_PACKET_SUCCESS =>
                         match buf with
                         | Some b =>
                             crash_unless
                               (option_map
                                  (fun b1 => (Some b1, Some (hp_ret d)))
                                  (memscpy b 0 (hp_ret d) (hp_dst d) 0
                                     (hp_ret d)))
                         | None => Crash
                         end
                     | _ => Done (buf, None)
                     end)
                    (fun out =>
                       let (buf1, length1) := out in
                       if negb (is_invalid_param (hp_error d))
                       then
                         bind (send_response (hp_error d) u1)
                           (fun s =>
                              Done (mk_read_packet_result (fst s) buf1 length1
                                      end_of_transfer (with_port h (snd s))))
                       else
                         Done (mk_read_packet_result false buf1 length1
                                 end_of_transfer (with_port h u1)))
                else if (pkt_id =? READY_TO_READ_PACKET)
                        || (pkt_id =? VERSION_PACKET)
                then
                  let h1 :=
                    if (pkt_id =? READY_TO_READ_PACKET)
                       && negb (is_invalid_param (hp_error d))
                    then with_read_mode h true else h in
                  if negb (is_invalid_param (hp_error d))
                  then
                    bind (send_response (hp_error d) u1)
                      (fun s =>
                         Done (mk_read_packet_result (fst s) buf None false
                                 (with_port h1 (snd s))))
                  else
                    Done (mk_read_packet_result false buf None false
                            (with_port h1 u1))
                else
                  Done (mk_read_packet_result false buf None false
                          (with_port h u1))
            end)).

Definition batches (h : hsuart) : nat :=
  S (List.length (concat (uart_incoming (port h)))
     + List.length (uart_incoming (port h))).

(** [wait_for_ready_to_read_packet()], lines 1105-1129. *)
Definition wait_for_ready_to_read_packet (h : hsuart)
  : outcome (bool * hsuart) :=
  iterate
    (fun h0 : hsuart =>
       if is_target_in_read_mode h0 then Stop (true, h0)
       else
         call (read_hsuart_packet h0 (Some temp_buffer))
           (fun r =>
              if rp_ok r
              then
                call
                  (add_data_to_buffer (ring (rp_session r))
                     (or_empty (rp_buf r))
                     (match rp_length r with Some n => n | None => 0 end))
                  (fun a =>
                     if fst a
                     then Next (with_ring (rp_session r) (snd a))
                     else Stop (false, rp_session r))
              else Stop (false, rp_session r)))
    (S (batches h)) h.

(** The locals of the [for] loop of [fh_transport_hsuart_write]. *)
Record write_regs : Type := mk_write_regs {
  wr_packet_index : Z;          (* uint32 *)
  wr_transfer_size : Z;         (* uint32 *)
  wr_packet_id : Z;
  wr_bytes_written : Z;         (* uint32, the caller's counter *)
  wr_port : uart
}.

(** One turn of the [for] loop of [fh_transport_hsuart_write], lines
    1165-1183, the test of the loop included. *)
Definition write_turn (write_buffer : list Z) (write_len packet_count : Z)
  (r : write_regs) : step write_regs write_regs :=
  if negb (wr_packet_index r <? packet_count) then Stop r
  else
    let last := uint32 (packet_count - wr_packet_index r) =? 1 in
    let transfer_size :=
      if last
      then write_len mod MAX_HSUART_PACKET_DATA_SIZE
      else wr_transfer_size r in
    let packet_id :=
      if last then END_OF_TRANSFER_PACKET else wr_packet_id r in
    call
      (write_hsuart_packet (wr_port r)
         (Some
            (skipn
               (Z.to_nat
                  (uint32 (wr_packet_index r * MAX_HSUART_PACKET_DATA_SIZE)))
               write_buffer))
         transfer_size packet_id)
      (fun s =>
         Next
           (mk_write_regs (uint32 (wr_packet_index r + 1))
              transfer_size packet_id
              (if fst s
               then uint32 (wr_bytes_written r + transfer_size)
               else wr_bytes_written r)
              (snd s))).

(** [fh_transport_hsuart_write(write_buffer, write_len, &bytes_written)],
    lines 1148-1189: the return value, [*bytes_written] and the session. *)
Definition fh_transport_hsuart_write (h : hsuart) (write_buffer : list Z)
  (write_len : Z) (bytes_written : Z) : outcome (bool * Z * hsuart) :=
  bind (wait_for_ready_to_read_packet h)
    (fun w =>
       let (ready, h1) := w in
       if ready
       then
         let packet_count :=
           if negb (write_len mod MAX_HSUART_PACKET_DATA_SIZE =? 0)
           then uint32 (write_len / MAX_HSUART_PACKET_DATA_SIZE + 1)
           else write_len / MAX_HSUART_PACKET_DATA_SIZE in
         bind
           (iterate (write_turn write_buffer write_len packet_count)
              (S (Z.to_nat packet_count))
              (mk_write_regs 0 MAX_HSUART_PACKET_DATA_SIZE PROTOCOL_PACKET
                 bytes_written (port h1)))
           (fun r =>
              Done (0 <? wr_bytes_written r, wr_bytes_written r,
                    with_read_mode (with_port h1 (wr_port r)) false))
       else Done (0 <? bytes_written, bytes_written, h1)).

(** [fh_transport_hsuart_read(read_buffer, read_len, &bytes_read)], lines
    1025-1059: the return value, the caller's buffer, [*bytes_read] and the
    session. *)
Definition fh_transport_hsuart_read (h : hsuart) (read_buffer : list Z)
  (read_len : Z) : outcome (bool * list Z * Z * hsuart) :=
  if negb (buffered_length (ring h) =? 0)
  then
    bind (get_data_from_buffer (ring h) read_buffer read_len)
      (fun g =>
         let '(n, buffer', r') := g in
         Done (0 <? n, buffer', n, with_ring h r'))
  else
    iterate
      (fun st : bool * list Z * Z * hsuart =>
         let '(end_of_transfer, rb, bytes_read, h0) := st in
         if end_of_transfer then Stop (0 <? bytes_read, rb, bytes_read, h0)
         else
           call (read_hsuart_packet h0 (Some temp_buffer))
             (fun r =>
                if rp_ok r
                then
                  let read_length :=
                    match rp_length r with Some n => n | None => 0 end in
                  match
                    memscpy rb bytes_read read_length (or_empty (rp_buf r)) 0
                      read_length
                  with
                  | Some rb1 =>
                      Next (rp_end_of_transfer r, rb1,
                            uint32 (bytes_read + read_length), rp_session r)
                  | None => Trap
                  end
                else Stop (0 <? bytes_read, rb, bytes_read, rp_session r)))
      (S (batches h)) (false, read_buffer, 0, h).

(** The loop state of the two blocking wrappers: the retries left, the
    attempts made so far (ghost) and what the attempts work on. *)
Record retry_regs (A : Type) : Type := mk_retry_regs {
  rt_retry : Z;                 (* int *)
  rt_attempts : nat;
  rt_state : A
}.
Arguments mk_retry_regs {A} _ _ _.
Arguments rt_retry {A} _.
Arguments rt_attempts {A} _.
Arguments rt_state {A} _.



(** [fh_transport_hsuart_tx_blocking(tx_data, size)], lines 1216-1239: the
    result, the number of write attempts made and the session. *)
Definition fh_transport_hsuart_tx_blocking (h : hsuart) (tx_data : list Z)
  (size : Z) : outcome (fh_res_t * nat * hsuart) :=
  iterate
    (fun r : retry_regs (Z * hsuart) =>
       let (bytes_written0, h0) := rt_state r in
       call (fh_transport_hsuart_write h0 tx_data (uint32 size) bytes_written0)
         (fun w =>
            let '(ok, bytes_written, h1) := w in
            let attempts := S (rt_attempts r) in
            if negb ok then Stop (READ_PORT_ERROR, attempts, h1)
            else
              let retry := rt_retry r - 1 in
              if retry =? 0 then Stop (READ_PORT_ERROR, attempts, h1)
              else if bytes_written <? size
              then Next (mk_retry_regs retry attempts (bytes_written, h1))
              else Stop (SUCCESS, attempts, h1)))
    100 (mk_retry_regs 100 0 (0, h)).

End HsuartLink.
Arguments mk_retry_regs {A} _ _ _.
Arguments rt_retry {A} _.
Arguments rt_attempts {A} _.
Arguments rt_state {A} _.

(* --------------------------------------------------------------------- *)
(** ** fh_transport.c: transport dispatch                                 *)
(* --------------------------------------------------------------------- *)

(** [enum fh_transport_type], fh_transfer.h.  The functions take the
    enumeration by value, so any integer can arrive; the type is kept as
    [Z]. *)
Definition FH_TRANSPORT_NONE : Z := 0.
Definition FH_TRANSPORT_COM : Z := 1.
Definition FH_TRANSPORT_HSUART : Z := 2.
Definition FH_TRANSPORT_VIP : Z := 3.
Definition FH_TRANSPORT_LINUX_PIPE_TEST : Z := 4.
Definition FH_TRANSPORT_MAX : Z := 5.

(** The members of [fh_transport_ops]. *)
Inductive transport_op : Type := op_open | op_rx_blocking | op_tx_blocking | op_close.

(** The statics of fh_transport.c: [session_transport_type], and
    [transport], kept as the [type] member of the [struct fh_transport] it
    points to ([None] while it has not been assigned).  [ops_called] is
    ghost: the operations of the installed transport that have been invoked,
    latest first. *)
Record dispatch : Type := mk_dispatch {
  session_transport_type : Z;
  transport : option Z;
  ops_called : list (Z * transport_op)
}.

Definition dispatch_init : dispatch := mk_dispatch FH_TRANSPORT_NONE None [].

Section TransportDispatch.

(** What an operation of a transport returns; the transports themselves
    (COM, HSUART, pipe) are behind the function pointers. *)
Variable run_op : Z -> transport_op -> fh_res_t.

(** [fh_transport_init(transport_type)], lines 40-73. *)
Definition fh_transport_init (d : dispatch) (transport_type : Z)
  : fh_res_t * dispatch :=
  if negb (session_transport_type d =? FH_TRANSPORT_NONE)
  then (INVALID_PARAMETER, d)
  else if transport_type =? FH_TRANSPORT_NONE then (INVALID_PARAMETER, d)
  else if transport_type =? FH_TRANSPORT_COM
  then (SUCCESS, mk_dispatch transport_type (Some FH_TRANSPORT_COM)
                   (ops_called d))
  else if transport_type =? FH_TRANSPORT_HSUART
  then (SUCCESS, mk_dispatch transport_type (Some FH_TRANSPORT_HSUART)
                   (ops_called d))
  else if transport_type =? FH_TRANSPORT_VIP then (INVALID_PARAMETER, d)
  else if transport_type =? FH_TRANSPORT_LINUX_PIPE_TEST
  then (SUCCESS, mk_dispatch transport_type (Some FH_TRANSPORT_LINUX_PIPE_TEST)
                   (ops_called d))
  else (INVALID_PARAMETER, d).

(** [fh_transport_get_type()]. *)
Definition fh_transport_get_type (d : dispatch) : Z := session_transport_type d.

(** [fh_transport_deinit()], lines 80-86. *)
Definition fh_transport_deinit (d : dispatch) : fh_res_t * dispatch :=
  if session_transport_type d =? FH_TRANSPORT_NONE
  then (NOT_INITALIZED, d)
  else (SUCCESS, d).

(** [transport->ops->op(...)]; with [transport] unassigned the call goes
    through an invalid pointer. *)
Definition through_ops (d : dispatch) (op : transport_op)
  : outcome (fh_res_t * dispatch) :=
  if session_transport_type d =? FH_TRANSPORT_NONE
  then Done (NOT_INITALIZED, d)
  else
    match transport d with
    | Some t =>
        Done (run_op t op,
              mk_dispatch (session_transport_type d) (transport d)
                ((t, op) :: ops_called d))
    | None => Crash
    end.

(** [fh_transport_open], [fh_transport_rx_blocking],
    [fh_transport_tx_blocking] and [fh_transport_close], lines 88-118. *)
Definition fh_transport_open (d : dispatch) := through_ops d op_open.
Definition fh_transport_rx_blocking (d : dispatch) := through_ops d op_rx_blocking.
Definition fh_transport_tx_blocking (d : dispatch) := through_ops d op_tx_blocking.
Definition fh_transport_close (d : dispatch) := through_ops d op_close.

(** The calls a client can make on the dispatch layer. *)
Inductive dispatch_call : Type :=
| call_init (transport_type : Z)
| call_deinit
| call_open
| call_rx_blocking
| call_tx_blocking
| call_close.

Definition dispatch_step (d : dispatch) (c : dispatch_call) : outcome dispatch :=
  match c with
  | call_init t => Done (snd (fh_transport_init d t))
  | call_deinit => Done (snd (fh_transport_deinit d))
  | call_open => bind (fh_transport_open d) (fun r => Done (snd r))
  | call_rx_blocking => bind (fh_transport_rx_blocking d) (fun r => Done (snd r))
  | call_tx_blocking => bind (fh_transport_tx_blocking d) (fun r => Done (snd r))
  | call_close => bind (fh_transport_close d) (fun r => Done (snd r))
  end.

(** The dispatch state after a sequence of calls. *)
Fixpoint dispatch_run (d : dispatch) (cs : list dispatch_call)
  : outcome dispatch :=
  match cs with
  | [] => Done d
  | c :: cs' => bind (dispatch_step d c) (fun d' => dispatch_run d' cs')
  end.

End TransportDispatch.

(** A session on which [fh_transport_init] has succeeded. *)
Definition initialized (d : dispatch) : Prop :=
  session_transport_type d <> FH_TRANSPORT_NONE /\ transport d <> None.

(* --------------------------------------------------------------------- *)
(** ** fh_transfer.c: the XML reassembler                                 *)
(* --------------------------------------------------------------------- *)

(** The character codes of a string literal. *)
Definition chars (s : String.string) : list Z :=
  map (fun c => Z.of_nat (Ascii.nat_of_ascii c)) (String.list_ascii_of_string s).
Arguments chars s%_string_scope.

(** The code of a character constant. *)
Definition char (c : Ascii.ascii) : Z := Z.of_nat (Ascii.nat_of_ascii c).
Arguments char c%_char_scope.

(** The code of the double quote character. *)
Definition double_quote : Z := 34.

Definition RX_TIMEOUT_SECONDS : Z := 120.

(** The chain [xml[offset++] == c1 && xml[offset++] == c2 && ...]: whether
    every comparison held, and [offset] afterwards.  The comparison that
    fails still increments; the ones after it are not evaluated. *)
Fixpoint match_chars (xml : list Z) (offset : Z) (pattern : list Z)
  : option (bool * Z) :=
  match pattern with
  | [] => Some (true, offset)
  | c :: pattern' =>
      match load xml offset with
      | Some x =>
          if x =? c then match_chars xml (uint64 (offset + 1)) pattern'
          else Some (false, uint64 (offset + 1))
      | None => None
      end
  end.

(** The chain [m[offset] == c1 && m[offset+1] == c2 && ...]. *)
Definition match_at (m : list Z) (offset : Z) (pattern : list Z)
  : option bool :=
  option_map fst (match_chars m offset pattern).

(** [memcmp(m + offset, pattern, n) == 0] with [n] the length of
    [pattern]. *)
Definition memcmp_eq (m : list Z) (offset : Z) (pattern : list Z)
  : option bool :=
  option_map (fun bs => if list_eq_dec Z.eq_dec bs pattern then true else false)
    (read_bytes m offset (zlen pattern)).

(** What [response_xml_parse] leaves behind: the returned size, and the
    offsets in [xml] that [*tag] and [*value] point to; [None] for a pointer
    that has not been assigned or is [NULL]. *)
Record parse_result : Type := mk_parse_result {
  parsed_size : Z;
  parsed_tag : option Z;
  parsed_value : option Z
}.

(** [while (xml[offset] != c) { offset++; if (offset > last_offset) return 0; }],
    lines 89-94 and 100-105: the offset of the character, or [None] for the
    [return 0]. *)
Definition scan_to (xml : list Z) (c : Z) (last_offset : Z) (offset : Z)
  (fuel : nat) : outcome (option Z) :=
  iterate
    (fun offset0 : Z =>
       match load xml offset0 with
       | Some x =>
           if negb (x =? c)
           then
             let offset1 := uint64 (offset0 + 1) in
             if last_offset <? offset1 then Stop None else Next offset1
           else Stop (Some offset0)
       | None => Trap
       end)
    fuel offset.

(** Lines 77-86: [offset] after the search for [<data>]. *)
Definition skip_data_open (xml : list Z) (last_offset : Z) (fuel : nat)
  : outcome Z :=
  iterate
    (fun offset : Z =>
       if negb (offset <? last_offset) then Stop offset
       else
         match match_chars xml offset (chars "<data>") with
         | Some (true, offset1) => Stop offset1
         | Some (false, offset1) => Next offset1
         | None => Trap
         end)
    fuel 6.

(** Lines 111-123: [offset] and [*value] after the search for the closing
    of the tag. *)
Definition find_tag_close (xml : list Z) (last_offset : Z) (offset : Z)
  (fuel : nat) : outcome (Z * option Z) :=
  iterate
    (fun st : Z * option Z =>
       let (offset0, value) := st in
       if negb (offset0 <? last_offset) then Stop st
       else
         match memcmp_eq xml offset0 (chars "value=" ++ [double_quote]) with
         | Some true =>
             Next (uint64 (offset0 + 7), Some (uint64 (offset0 + 7)))
         | Some false =>
             match match_chars xml offset0 (chars "/>") with
             | Some (true, offset1) => Stop (offset1, value)
             | Some (false, offset1) => Next (offset1, value)
             | None => Trap
             end
         | None => Trap
         end)
    fuel (offset, None).

(** Lines 125-137: the returned size. *)
Definition find_data_close (xml : list Z) (last_offset : Z) (offset : Z)
  (fuel : nat) : outcome Z :=
  iterate
    (fun offset0 : Z =>
       if negb (offset0 <=? last_offset) then Stop 0
       else
         match match_chars xml offset0 (chars "</data>") with
         | Some (true, offset1) => Stop offset1
         | Some (false, offset1) => Next offset1
         | None => Trap
         end)
    fuel offset.

(** [response_xml_parse(xml, xml_size, &tag, &value)], lines 67-138. *)
Definition response_xml_parse (xml : list Z) (xml_size : Z)
  : outcome parse_result :=
  if xml_size <? 12 then Done (mk_parse_result 0 None None)
  else
    let fuel := S (S (Z.to_nat xml_size)) in
    let last_offset := uint64 (xml_size - 7) in
    bind (skip_data_open xml last_offset fuel)
      (fun offset1 =>
         bind (scan_to xml (char "<") last_offset
                 offset1 fuel)
           (fun found =>
              match found with
              | None => Done (mk_parse_result 0 None None)
              | Some offset2 =>
                  let tag := uint64 (offset2 + 1) in
                  bind (scan_to xml (char " ")
                          last_offset tag fuel)
                    (fun found' =>
                       match found' with
                       | None => Done (mk_parse_result 0 (Some tag) None)
                       | Some offset3 =>
                           bind
                             (find_tag_close xml last_offset
                                (uint64 (offset3 + 1)) fuel)
                             (fun st =>
                                bind
                                  (find_data_close xml last_offset (fst st)
                                     fuel)
                                  (fun size =>
                                     Done (mk_parse_result size (Some tag)
                                             (snd st))))
                       end)
              end)).

(** The statics [fh_rx_buffer] and [fh_rx_buffer_bytes]. *)
Record scratch : Type := mk_scratch {
  fh_rx_buffer : list Z;        (* char [4*1024] *)
  fh_rx_buffer_bytes : Z        (* size_t *)
}.

Definition sizeof_fh_rx_buffer : Z := 4 * 1024.

Definition scratch_init : scratch :=
  mk_scratch (repeat 0 (Z.to_nat sizeof_fh_rx_buffer)) 0.

(** [memsmove(dst + doff, dst_size, src + soff, src_size)], memsmove.c:
    [memscpy] with [memmove]; the model of [memscpy] reads the source before
    it writes. *)
Definition memsmove (dst : list Z) (doff dst_size : Z) (src : list Z)
  (soff src_size : Z) : option (list Z) :=
  memscpy dst doff dst_size src soff src_size.

(** [memset(m + off, 0, n)]. *)
Definition zero_bytes (m : list Z) (off n : Z) : option (list Z) :=
  write_bytes m off (repeat 0 (Z.to_nat n)).

(** [shift_fh_rx_buffer_left(bytes)], lines 345-354. *)
Definition shift_fh_rx_buffer_left (s : scratch) (bytes : Z)
  : option scratch :=
  let buf_remain := uint64 (fh_rx_buffer_bytes s - bytes) in
  match
    memsmove (fh_rx_buffer s) 0 sizeof_fh_rx_buffer (fh_rx_buffer s) bytes
      buf_remain
  with
  | Some b1 =>
      option_map (fun b2 => mk_scratch b2 buf_remain)
        (zero_bytes b1 buf_remain bytes)
  | None => None
  end.

(** [start_buf_with_xml()], lines 373-407: the returned [int] and the
    scratch afterwards. *)
Definition start_buf_with_xml (s : scratch) : outcome (Z * scratch) :=
  if fh_rx_buffer_bytes s <? 6 then Done (1, s)
  else
    bind
      (iterate
         (fun offset : Z =>
            if negb (offset <? fh_rx_buffer_bytes s) then Stop offset
            else
              match match_at (fh_rx_buffer s) offset (chars "<?xml") with
              | Some true => Stop offset
              | Some false => Next (uint64 (offset + 1))
              | None => Trap
              end)
         (S (Z.to_nat (fh_rx_buffer_bytes s))) 0)
      (fun offset =>
         if offset =? 0 then Done (0, s)
         else if offset <? fh_rx_buffer_bytes s
         then
           crash_unless
             (option_map (fun s' => (0, s')) (shift_fh_rx_buffer_left s offset))
         else
           crash_unless
             (option_map (fun b => (-1, mk_scratch b 0))
                (zero_bytes (fh_rx_buffer s) 0 (fh_rx_buffer_bytes s)))).

(** Lines 460-472 of the [log] branch: the closing quote of the value is
    overwritten by a terminator, and [*end] is read once more. *)
Definition terminate_log (buf : list Z) (value xml_size : Z)
  : outcome (list Z) :=
  bind
    (iterate
       (fun st : Z * list Z =>
          let (end_, b) := st in
          if negb (end_ <? uint64 (xml_size - 7)) then Stop st
          else
            match load b end_ with
            | Some x =>
                if x =? double_quote
                then match store b end_ 0 with
                     | Some b' => Stop (end_, b')
                     | None => Trap
                     end
                else Next (uint64 (end_ + 1), b)
            | None => Trap
            end)
       (S (Z.to_nat xml_size)) (value, buf))
    (fun st => crash_unless (option_map (fun _ => snd st) (load (snd st) (fst st)))).

(** What a call of [fh_rx_blocking_response_xml] leaves behind. *)
Record rx_result (W : Type) : Type := mk_rx_result {
  rx_res : fh_res_t;
  rx_data : list Z;             (* the memory behind [data] *)
  rx_bytes_read : Z;            (* [*bytes_read] *)
  rx_scratch : scratch;
  rx_world : W
}.
Arguments mk_rx_result {W}.
Arguments rx_res {W}.
Arguments rx_data {W}.
Arguments rx_bytes_read {W}.
Arguments rx_scratch {W}.
Arguments rx_world {W}.

Section Reassembler.

(** The environment: the state [W] of everything outside this file, the
    transport behind [fh_transport_rx_blocking(data, size, &bytes_rx)] (its
    result and the bytes it has stored through [data], [*bytes_rx] being
    their number), the clock, and [ReturnTimeInSeconds], which the sources
    only declare; a finite [double] is a rational. *)
Variable W : Type.
Variable timeval : Type.
Variable transport_rx_blocking : W -> Z -> fh_res_t * list Z * W.
Variable gettimeofday : W -> timeval * W.
Variable ReturnTimeInSeconds : timeval -> timeval -> QArith_base.Q.

(** [fh_get_delta_seconds(&start_time)], fh_utils.h. *)
Definition fh_get_delta_seconds (start_time : timeval) (w : W)
  : QArith_base.Q * W :=
  let (end_time, w') := gettimeofday w in
  (ReturnTimeInSeconds start_time end_time, w').

(** [elapsed_time > RX_TIMEOUT_SECONDS] and
    [elapsed_time < RX_TIMEOUT_SECONDS]. *)
Definition above_timeout (elapsed_time : QArith_base.Q) : bool :=
  negb (QArith_base.Qle_bool elapsed_time
          (QArith_base.inject_Z RX_TIMEOUT_SECONDS)).
Definition below_timeout (elapsed_time : QArith_base.Q) : bool :=
  negb (QArith_base.Qle_bool (QArith_base.inject_Z RX_TIMEOUT_SECONDS)
          elapsed_time).

(** [read_more_data()], lines 356-369. *)
Definition read_more_data (s : scratch) (w : W)
  : outcome (fh_res_t * scratch * W) :=
  let offset := fh_rx_buffer_bytes s in
  let remain := uint64 (sizeof_fh_rx_buffer - offset) in
  let '(res, received, w') := transport_rx_blocking w remain in
  match write_bytes (fh_rx_buffer s) offset received with
  | Some b =>
      Done (res,
            mk_scratch b
              (match res with
               | SUCCESS => uint64 (fh_rx_buffer_bytes s + zlen received)
               | _ => fh_rx_buffer_bytes s
               end),
            w')
  | None => Crash
  end.

(** The loop state of [fh_rx_blocking_response_xml]. *)
Record rx_state : Type := mk_rx_state {
  now_scratch : scratch;
  now_world : W;
  start_time : timeval
}.

(** The body shared by the two inner loops, lines 427-433 and 440-446:
    [Some res] when the function returns [res] from there. *)
Definition timed_read (st : rx_state) : outcome (option fh_res_t * rx_state) :=
  let (elapsed_time, w1) := fh_get_delta_seconds (start_time st) (now_world st) in
  if above_timeout elapsed_time
  then Done (Some TRANSPORT_TIMEOUT,
             mk_rx_state (now_scratch st) w1 (start_time st))
  else
    bind (read_more_data (now_scratch st) w1)
      (fun r =>
         let '(res, s', w2) := r in
         Done (match res with SUCCESS => None | _ => Some res end,
               mk_rx_state s' w2 (start_time st))).

(** Lines 425-434. *)
Definition await_xml_start (fuel : nat) (st : rx_state)
  : outcome (option fh_res_t * rx_state) :=
  iterate
    (fun st0 : rx_state =>
       call (start_buf_with_xml (now_scratch st0))
         (fun r =>
            let st1 := mk_rx_state (snd r) (now_world st0) (start_time st0) in
            if negb (fst r =? 0)
            then
              call (timed_read st1)
                (fun r' =>
                   match fst r' with
                   | Some res => Stop (Some res, snd r')
                   | None => Next (snd r')
                   end)
            else Stop (None, st1)))
    fuel st.

(** Lines 436-450: the parse that found an envelope. *)
Definition await_envelope (fuel : nat) (st : rx_state)
  : outcome ((fh_res_t + parse_result) * rx_state) :=
  iterate
    (fun st0 : rx_state =>
       call
         (response_xml_parse (fh_rx_buffer (now_scratch st0))
            (fh_rx_buffer_bytes (now_scratch st0)))
         (fun p =>
            if parsed_size p =? 0
            then
              call (timed_read st0)
                (fun r' =>
                   match fst r' with
                   | Some res => Stop (inl res, snd r')
                   | None => Next (snd r')
                   end)
            else Stop (inr p, st0)))
    fuel st.

(** Lines 452-482, the [log] branch. *)
Definition discard_log (p : parse_result) (st : rx_state) : outcome rx_state :=
  let s := now_scratch st in
  bind
    (match parsed_value p with
     | None => Done (fh_rx_buffer s, now_world st, start_time st)
     | Some value =>
         bind (terminate_log (fh_rx_buffer s) value (parsed_size p))
           (fun b =>
              let (t, w') := gettimeofday (now_world st) in
              Done (b, w', t))
     end)
    (fun r =>
       let '(b, w', t) := r in
       crash_unless
         (option_map (fun s' => mk_rx_state s' w' t)
            (shift_fh_rx_buffer_left (mk_scratch b (fh_rx_buffer_bytes s))
               (parsed_size p)))).

(** Lines 484-496, the [response] branch. *)
Definition deliver_response (data : list Z) (size : Z) (p : parse_result)
  (st : rx_state) : outcome (rx_result W) :=
  let s := now_scratch st in
  let xml_size := parsed_size p in
  match memscpy data 0 size (fh_rx_buffer s) 0 xml_size with
  | Some data' =>
      let copied := if size <=? xml_size then size else xml_size in
      if copied <? xml_size
      then Done (mk_rx_result INVALID_PARAMETER data' 0 s (now_world st))
      else
        crash_unless
          (option_map
             (fun s' => mk_rx_result SUCCESS data' xml_size s' (now_world st))
             (shift_fh_rx_buffer_left s xml_size))
  | None => Crash
  end.

(** One turn of the [do ... while], lines 423-499. *)
Definition rx_turn (data : list Z) (size : Z) (fuel : nat) (st : rx_state)
  : step rx_state (rx_result W) :=
  call (await_xml_start fuel st)
    (fun r1 =>
       match fst r1 with
       | Some res =>
           Stop (mk_rx_result res data 0 (now_scratch (snd r1))
                   (now_world (snd r1)))
       | None =>
           call (await_envelope fuel (snd r1))
             (fun r2 =>
                let st2 := snd r2 in
                match fst r2 with
                | inl res =>
                    Stop (mk_rx_result res data 0 (now_scratch st2)
                            (now_world st2))
                | inr p =>
                    let buf := fh_rx_buffer (now_scratch st2) in
                    match parsed_tag p with
                    | None => Trap
                    | Some command =>
                        match memcmp_eq buf command (chars "log") with
                        | Some is_log =>
                            call
                              (if is_log
                               then bind (discard_log p st2)
                                      (fun st3 => Done (inr st3))
                               else
                                 match
                                   memcmp_eq buf command (chars "response")
                                 with
                                 | Some true =>
                                     bind (deliver_response data size p st2)
                                       (fun r => Done (inl r))
                                 | Some false => Done (inr st2)
                                 | None => Crash
                                 end)
                              (fun r3 =>
                                 match r3 with
                                 | inl r => Stop r
                                 | inr st3 =>
                                     let (elapsed_time, w') :=
                                       fh_get_delta_seconds (start_time st3)
                                         (now_world st3)
                                     in
                                     let st4 :=
                                       mk_rx_state (now_scratch st3) w'
                                         (start_time st3)
                                     in
                                     if below_timeout elapsed_time
                                     then Next st4
                                     else
                                       Stop
                                         (mk_rx_result TRANSPORT_TIMEOUT data 0
                                            (now_scratch st4) w')
                                 end)
                        | None => Trap
                        end
                    end
                end)
       end).

(** The [do ... while] from a given loop state. *)
Definition rx_loop (data : list Z) (size : Z) (fuel : nat) (st : rx_state)
  : outcome (rx_result W) :=
  iterate (rx_turn data size fuel) fuel st.

(** [fh_rx_blocking_response_xml(data, size, &bytes_read)], lines 411-502.
    The waits end when the environment says so; [fuel] bounds the turns of
    each loop. *)
Definition fh_rx_blocking_response_xml (data : list Z) (size : Z)
  (s : scratch) (w : W) (fuel : nat) : outcome (rx_result W) :=
  let (t, w') := gettimeofday w in
  rx_loop data size fuel (mk_rx_state s w' t).

End Reassembler.
Arguments mk_rx_state {W timeval}.
Arguments now_scratch {W timeval}.
Arguments now_world {W timeval}.
Arguments start_time {W timeval}.

(** The scratch as the code keeps it: an array of [sizeof(fh_rx_buffer)]
    characters and a count within it. *)
Definition scratch_ok (s : scratch) : Prop :=
  zlen (fh_rx_buffer s) = sizeof_fh_rx_buffer
  /\ Forall is_byte (fh_rx_buffer s)
  /\ 0 <= fh_rx_buffer_bytes s <= sizeof_fh_rx_buffer.

(** The scratch after its first [n] bytes have been consumed. *)
Definition advanced (s : scratch) (n : Z) : scratch :=
  mk_scratch
    (firstn (Z.to_nat (fh_rx_buffer_bytes s - n))
       (skipn (Z.to_nat n) (fh_rx_buffer s))
     ++ repeat 0 (Z.to_nat n)
     ++ skipn (Z.to_nat (fh_rx_buffer_bytes s)) (fh_rx_buffer s))
    (fh_rx_buffer_bytes s - n).

(* --------------------------------------------------------------------- *)
(** ** fh_transfer.c: the VIP injector                                    *)
(* --------------------------------------------------------------------- *)

Definition VIP_CHAINED_TABLE_SIZE : Z := 8192.

Inductive vip_state : Type :=
| VIP_DISABLED
| VIP_INIT
| VIP_SEND_NEXT_TABLE
| VIP_SEND_DATA
| VIP_MAX.

(** The members of [struct fh_transfer_data] that [fh_tx_blocking] uses;
    the file handles belong to the environment. *)
Record fh_transfer_data : Type := mk_fh_transfer_data {
  state : vip_state;
  frame_sent : Z;               (* size_t *)
  frames_to_next_table : Z      (* size_t *)
}.

(** Ghost: what [fh_tx_blocking] has asked for. *)
Inductive tx_event : Type :=
| signed_table_sent (res : fh_res_t)    (* [fh_vip_send_signed_table()] returned [res] *)
| chained_table_sent (res : fh_res_t)   (* [fh_vip_send_chained_table()] returned [res] *)
| data_sent (data : list Z) (size : Z). (* [fh_transport_tx_blocking(data, size)] *)

Record transfer (W : Type) : Type := mk_transfer {
  vip : fh_transfer_data;       (* [static_fh_transfer_data] *)
  world : W;
  tx_log : list tx_event        (* ghost, latest first *)
}.
Arguments mk_transfer {W}.
Arguments vip {W}.
Arguments world {W}.
Arguments tx_log {W}.

Section VipInjector.

(** The callees of [fh_tx_blocking] act on the files and on the link, not
    on the three members above; each is taken with its result and its
    effect on the environment. *)
Variable W : Type.
Variable fh_vip_send_signed_table : W -> fh_res_t * W.
Variable fh_vip_send_chained_table : W -> fh_res_t * W.
Variable transport_tx_blocking : W -> list Z -> Z -> fh_res_t * W.

(** Lines 554-567 and 569-582: a table is sent; [inl res] when the function
    returns [res] from there. *)
Definition vip_send_table
  (send : W -> fh_res_t * W) (sent : fh_res_t -> tx_event)
  (frames : Z) (t : transfer W) : (fh_res_t * transfer W) + transfer W :=
  let (res, w') := send (world t) in
  let log' := sent res :: tx_log t in
  match res with
  | SUCCESS => inr (mk_transfer (mk_fh_transfer_data VIP_SEND_DATA 0 frames) w' log')
  | _ => inl (res, mk_transfer (vip t) w' log')
  end.

(** Lines 585-592. *)
Definition vip_send_data (t : transfer W) (data : list Z) (size : Z)
  : fh_res_t * transfer W :=
  let frame_sent' := uint64 (frame_sent (vip t) + 1) in
  let state' :=
    if frames_to_next_table (vip t) <=? frame_sent'
    then VIP_SEND_NEXT_TABLE else state (vip t)
  in
  let (res, w') := transport_tx_blocking (world t) data size in
  (res,
   mk_transfer
     (mk_fh_transfer_data state' frame_sent' (frames_to_next_table (vip t)))
     w' (data_sent data size :: tx_log t)).

(** [fh_tx_blocking(data, size)], lines 546-593. *)
Definition fh_tx_blocking (t : transfer W) (data : list Z) (size : Z)
  : fh_res_t * transfer W :=
  match state (vip t) with
  | VIP_DISABLED =>
      let (res, w') := transport_tx_blocking (world t) data size in
      (res, mk_transfer (vip t) w' (data_sent data size :: tx_log t))
  | VIP_INIT =>
      match vip_send_table fh_vip_send_signed_table signed_table_sent 53 t with
      | inl r => r
      | inr t' => vip_send_data t' data size
      end
  | VIP_SEND_NEXT_TABLE =>
      match
        vip_send_table fh_vip_send_chained_table chained_table_sent
          (uint64 (VIP_CHAINED_TABLE_SIZE / 32 - 1)) t
      with
      | inl r => r
      | inr t' => vip_send_data t' data size
      end
  | _ => vip_send_data t data size
  end.

(** A sequence of calls of [fh_tx_blocking]. *)
Fixpoint tx_run (t : transfer W) (calls : list (list Z * Z)) : transfer W :=
  match calls with
  | [] => t
  | (data, size) :: calls' => tx_run (snd (fh_tx_blocking t data size)) calls'
  end.

End VipInjector.







(** What the caller of [fh_rx_blocking_response_xml] is left with when the
    scratch [s] starts with an envelope of [n] bytes whose tag is
    [response]: all of it, or the [size] bytes that fit. *)
Definition delivery {W : Type} (data : list Z) (size : Z) (s : scratch)
  (n : Z) (w : W) : rx_result W :=
  if n <=? size
  then mk_rx_result SUCCESS
         (firstn (Z.to_nat n) (fh_rx_buffer s) ++ skipn (Z.to_nat n) data)
         n (advanced s n) w
  else mk_rx_result INVALID_PARAMETER
         (firstn (Z.to_nat size) (fh_rx_buffer s) ++ skipn (Z.to_nat size) data)
         0 s w.


(** The scratch that holds [bs] and nothing else. *)
Definition scratch_with (bs : list Z) : scratch :=
  mk_scratch (bs ++ repeat 0 (Z.to_nat sizeof_fh_rx_buffer - length bs))
    (zlen bs).

(** [is_byte], decided. *)
Definition all_bytes (l : list Z) : bool :=
  forallb (fun b => (0 <=? b) && (b <? 256)) l.


(* --------------------------------------------------------------------- *)
(** ** fh_transport_hsuart.c: opening the link, and the read loop         *)
(* --------------------------------------------------------------------- *)

Section HsuartOpen.

Variable crc16 : list Z -> Z.
Variable big_endian : bool.

(** [fh_transport_hsuart_open(path)], lines 928-962.  The port driver is
    the environment: [opened] is what [fh_uart_open(path)] returned, and the
    second component of the result says whether [fh_uart_close()] has been
    called.  Both packet functions are called with null buffers. *)
Definition fh_transport_hsuart_open (opened : fh_res_t) (h : hsuart)
  : outcome (fh_res_t * bool * hsuart) :=
  match opened with
  | SUCCESS =>
      bind (write_hsuart_packet crc16 big_endian (port h) None 0 VERSION_PACKET)
        (fun w =>
           if fst w
           then
             bind (read_hsuart_packet crc16 big_endian (with_port h (snd w)) None)
               (fun r =>
                  if rp_ok r then Done (SUCCESS, false, rp_session r)
                  else Done (OPEN_PORT_FAILED, true, rp_session r))
           else Done (OPEN_PORT_FAILED, true, with_port h (snd w)))
  | _ => Done (OPEN_PORT_FAILED, false, h)
  end.

(** One turn of the [while] loop of [fh_transport_hsuart_read], lines
    1042-1056, as [fh_transport_hsuart_read] has it. *)
Definition read_turn (st : bool * list Z * Z * hsuart)
  : step (bool * list Z * Z * hsuart) (bool * list Z * Z * hsuart) :=
  let '(end_of_transfer, rb, bytes_read, h0) := st in
  if end_of_transfer then Stop (0 <? bytes_read, rb, bytes_read, h0)
  else
    call (read_hsuart_packet crc16 big_endian h0 (Some temp_buffer))
      (fun r =>
         if rp_ok r
         then
           let read_length :=
             match rp_length r with Some n => n | None => 0 end in
           match
             memscpy rb bytes_read read_length (or_empty (rp_buf r)) 0
               read_length
           with
           | Some rb1 =>
               Next (rp_end_of_transfer r, rb1,
                     uint32 (bytes_read + read_length), rp_session r)
           | None => Trap
           end
         else Stop (0 <? bytes_read, rb, bytes_read, rp_session r)).

End HsuartOpen.

(** The bytes the ring holds, oldest first. *)
Definition ring_content (r : hsuart_ring) : list Z :=
  firstn (Z.to_nat (buffered_length r))
    (skipn (Z.to_nat (buffered_data_start_ptr r)) (buffered_data r)).

(** A payload a data frame can carry: 1 to [MAX_HSUART_PACKET_DATA_SIZE]
    bytes. *)
Definition payload_ok (p : list Z) : Prop :=
  1 <= zlen p <= 4000 /\ Forall is_byte p.

(* --------------------------------------------------------------------- *)
(** ** fh_transfer.c: raw reads                                           *)
(* --------------------------------------------------------------------- *)

Section RawReceive.

(** The environment, as for the reassembler. *)
Variable W : Type.
Variable transport_rx_blocking : W -> Z -> fh_res_t * list Z * W.

(** Lines 510-533 of [fh_rx_blocking_raw]: the scratch is served first.
    The memory behind [data], [copied] and the scratch afterwards. *)
Definition serve_from_scratch (data : list Z) (size : Z) (s : scratch)
  : outcome (list Z * Z * scratch) :=
  if negb (fh_rx_buffer_bytes s =? 0)
  then
    match
      memscpy data 0 size (fh_rx_buffer s) 0 (fh_rx_buffer_bytes s)
    with
    | Some data1 =>
        let copied :=
          if size <=? fh_rx_buffer_bytes s then size
          else fh_rx_buffer_bytes s in
        if copied <? fh_rx_buffer_bytes s
        then
          let buf_remain := uint64 (fh_rx_buffer_bytes s - copied) in
          match
            memsmove (fh_rx_buffer s) 0 sizeof_fh_rx_buffer (fh_rx_buffer s)
              copied buf_remain
          with
          | Some b1 =>
              crash_unless
                (option_map
                   (fun b2 => (data1, copied, mk_scratch b2 buf_remain))
                   (zero_bytes b1 buf_remain copied))
          | None => Crash
          end
        else
          crash_unless
            (option_map (fun b => (data1, copied, mk_scratch b 0))
               (zero_bytes (fh_rx_buffer s) 0 (fh_rx_buffer_bytes s)))
    | None => Crash
    end
  else Done (data, 0, s).

(** [fh_rx_blocking_raw(data, size, &bytes_read)], lines 504-544. *)
Definition fh_rx_blocking_raw (data : list Z) (size : Z) (s : scratch)
  (w : W) : outcome (rx_result W) :=
  bind (serve_from_scratch data size s)
    (fun r =>
       let '(data1, copied, s1) := r in
       let remain := uint64 (size - copied) in
       if 0 <? remain
       then
         let '(res, received, w') := transport_rx_blocking w remain in
         match write_bytes data1 copied received with
         | Some data2 =>
             Done (mk_rx_result res data2
                     (match res with
                      | SUCCESS => uint64 (copied + zlen received)
                      | _ => copied
                      end)
                     s1 w')
         | None => Crash
         end
       else Done (mk_rx_result SUCCESS data1 copied s1 w)).

End RawReceive.

(** One turn of the search loop of [start_buf_with_xml], lines 380-388, as
    [start_buf_with_xml] has it. *)
Definition xml_search (s : scratch) (offset : Z) : step Z Z :=
  if negb (offset <? fh_rx_buffer_bytes s) then Stop offset
  else
    match match_at (fh_rx_buffer s) offset (chars "<?xml") with
    | Some true => Stop offset
    | Some false => Next (uint64 (offset + 1))
    | None => Trap
    end.

(* --------------------------------------------------------------------- *)
(** ** fh_transfer.c: the session                                         *)
(* --------------------------------------------------------------------- *)

(** The members of [struct fh_transfer_data] that the injector does not
    use.  A [FILE *] is kept as the number of the stream, [None] for a null
    pointer. *)
Record vip_files : Type := mk_vip_files {
  signed_table : option Z;
  chained_table : option Z;
  digests_per_table : Z;        (* size_t *)
  chained_table_size : Z        (* long *)
}.

(** [static_fh_transfer_data] and the statics of fh_transport.c.
    [fclose_calls] is ghost: the arguments of the calls of [fclose], latest
    first. *)
Record session : Type := mk_session {
  vip_data : fh_transfer_data;
  files : vip_files;
  slot : dispatch;
  fclose_calls : list (option Z)
}.


(** [fh_transfer_init(transport_type)], lines 305-319. *)
Definition fh_transfer_init (ss : session) (transport_type : Z)
  : fh_res_t * session :=
  if (transport_type =? FH_TRANSPORT_NONE)
     || (FH_TRANSPORT_MAX <=? transport_type)
  then (INVALID_PARAMETER, ss)
  else
    let v := vip_data ss in
    let v' :=
      match state v with
      | VIP_INIT => v
      | _ =>
          mk_fh_transfer_data VIP_DISABLED (frame_sent v)
            (frames_to_next_table v)
      end in
    let (res, d') := fh_transport_init (slot ss) transport_type in
    (res, mk_session v' (files ss) d' (fclose_calls ss)).

(** [fh_transfer_deinit()], lines 326-335. *)
Definition fh_transfer_deinit (ss : session) : fh_res_t * session :=
  let closed :=
    match state (vip_data ss) with
    | VIP_DISABLED => fclose_calls ss
    | _ =>
        chained_table (files ss) :: signed_table (files ss)
        :: fclose_calls ss
    end in
  let (res, d') := fh_transport_deinit (slot ss) in
  (res, mk_session (vip_data ss) (files ss) d' closed).

Section TableFiles.

(** The C library: what [fopen(path, "rb")] returns, the return value of
    [fseek(stream, 0, SEEK_END)] and that of [ftell(stream)]. *)
Variable fopen : String.string -> option Z.
Variable fseek_end : Z -> Z.
Variable ftell : Z -> Z.


End TableFiles.

(** [n] calls of [fh_transfer_deinit], one after the other: the results,
    first call first, and the session afterwards. *)
Fixpoint deinit_run (n : nat) (ss : session) : list fh_res_t * session :=
  match n with
  | O => ([], ss)
  | S n' =>
      let (res, ss1) := fh_transfer_deinit ss in
      let (rest, ss2) := deinit_run n' ss1 in
      (res :: rest, ss2)
  end.

(** An envelope with one element that has one attribute, as the target
    sends its responses and logs: a declaration [decl], [<data>], some
    filling [mid], then the element [tag] with the attribute [value] set
    to [v], closed at once, and [</data>]. *)
Definition envelope (decl mid tag v : list Z) : list Z :=
  decl ++ chars "<data>" ++ mid ++ [char "<"] ++ tag ++ [char " "]
  ++ chars "value=" ++ [double_quote] ++ v ++ [double_quote]
  ++ chars " /></data>".

(** What the parser needs of the parts: no [<] in the declaration behind
    its first six characters nor in the filling, no blank in the tag, and
    neither [=] nor [/] in the value. *)
Definition envelope_ok (decl mid tag v : list Z) : Prop :=
  6 <= zlen decl
  /\ Forall (fun c => c <> char "<") (skipn 6 decl)
  /\ Forall (fun c => c <> char "<") mid
  /\ Forall (fun c => c <> char " ") tag
  /\ Forall (fun c => c <> char "=" /\ c <> char "/") v.
(** *** The stuffed stream as a function of the source

    [block_code n s] is the code byte the loop of [fh_cobs_stuff_bytes] ends
    up writing for the block that is open when [n] data bytes of it have been
    stored and [s] is the source still to be read; [block_rest n s] is every
    byte the loop stores after those [n] data bytes, terminator included.
    Both follow the loop branch by branch ([stuff_encodes] shows that the
    loop computes them). *)

Fixpoint block_code (n : Z) (s : list Z) : Z :=
  match s with
  | [] => n + 1
  | b :: s' =>
      if n =? 254 then 255
      else if b =? 0 then n + 1
      else block_code (n + 1) s'
  end.

Fixpoint block_rest (n : Z) (s : list Z) : list Z :=
  match s with
  | [] => [0]
  | b :: s' =>
      if n =? 254
      then
        if b =? 0
        then 1 :: block_code 0 s' :: block_rest 0 s'
        else block_code 1 s' :: b :: block_rest 1 s'
      else if b =? 0
      then block_code 0 s' :: block_rest 0 s'
      else b :: block_rest (n + 1) s'
  end.

Definition cobs_encoding (s : list Z) : list Z :=
  block_code 0 s :: block_rest 0 s.


(** Proof-side views of the registers of the two loops. *)

(** The registers at the head of the loop when [s_done] has been consumed,
    [done] holds the finished blocks and [cur] the data bytes of the open
    block, whose code byte [x] is still to be written. *)
Definition stuff_at (s_done done cur : list Z) (x : Z) (free ld stl : list Z)
  : stuff_regs :=
  mk_stuff_regs (zlen done + 1 + zlen cur) (1 + zlen cur) (zlen done)
    (zlen done + 1 + zlen cur) (zlen s_done) (done ++ x :: cur ++ free) ld stl.

Definition stuff_total (done cur s : list Z) : Z :=
  zlen done + 1 + zlen cur + zlen (block_rest (zlen cur) s).

Definition stuff_memory (done cur s free : list Z) : list Z :=
  done ++ block_code (zlen cur) s :: cur ++ block_rest (zlen cur) s
    ++ skipn (length (block_rest (zlen cur) s)) free.

(** What the loop does from [stuff_at] on the remaining source [s]. *)
Definition stuff_runs (slack : nat) (limit : Z) (s : list Z) : Prop :=
  forall s_done done cur x free junk ld stl fuel src_length dst_length,
    src_length = zlen (s_done ++ s) -> src_length < 4294967296 ->
    Forall is_byte s -> zlen cur <= limit ->
    stuff_total done cur s < 4294967296 ->
    stuff_total done cur s <= dst_length + 1 ->
    zlen (block_rest (zlen cur) s) <= zlen free ->
    (2 * length s + slack <= fuel)%nat ->
    exists ld' stl',
      iterate (stuff_body (s_done ++ s ++ junk) src_length dst_length) fuel
        (stuff_at s_done done cur x free ld stl)
      = Done (mk_cobs_result (stuff_total done cur s) COBS_SUCCESS
                (stuff_memory done cur s free) ld'
                ((stuff_total done cur s - 1) :: stl')).


(** The registers of the decoder when it stands in a block whose code byte is
    at the end of [pre] and whose data bytes [cur] have been copied. *)
Definition unstuff_at (pre cur out free ld stl : list Z) (code : Z)
  : unstuff_regs :=
  mk_unstuff_regs (zlen out) code (1 + zlen cur) (zlen pre) (zlen out)
    (out ++ free) ld stl.

Definition unstuff_runs (limit : Z) (s : list Z) : Prop :=
  forall pre cur out free junk ld stl fuel dst_length,
    Forall is_byte s -> zlen cur <= limit ->
    zlen out + zlen s < dst_length -> zlen out + zlen s < 4294967296 ->
    zlen s <= zlen free ->
    (length (block_rest (zlen cur) s) <= fuel)%nat ->
    exists ld' stl',
      iterate
        (unstuff_body
           (pre ++ block_code (zlen cur) s :: cur
              ++ block_rest (zlen cur) s ++ junk) dst_length)
        fuel (unstuff_at pre cur out free ld stl (block_code (zlen cur) s))
      = Done (mk_cobs_result (zlen out + zlen s) COBS_SUCCESS
                (out ++ s ++ skipn (length s) free) ld' stl').


(** A CRC-16 stand-in for concrete runs: the sum of the bytes from 7. *)
Definition crc16_of_sum (bs : list Z) : Z := fold_left Z.add bs 7.

(** What the loop does from [unstuff_at] when the destination ends before
    the remaining source [s], or with it. *)
Definition unstuff_stops (limit : Z) (s : list Z) : Prop :=
  forall pre cur out free junk ld stl fuel dst_length,
    Forall is_byte s -> zlen cur <= limit ->
    zlen out <= dst_length <= zlen out + zlen s ->
    zlen out + zlen s < 4294967296 ->
    dst_length - zlen out <= zlen free ->
    (length (block_rest (zlen cur) s) <= fuel)%nat ->
    exists mem ld' stl',
      iterate
        (unstuff_body
           (pre ++ block_code (zlen cur) s :: cur
              ++ block_rest (zlen cur) s ++ junk) dst_length)
        fuel (unstuff_at pre cur out free ld stl (block_code (zlen cur) s))
      = Done (mk_cobs_result 0 COBS_ERROR_DST_BUFFER_OVERFLOW mem ld' stl')
      /\ forall o, In o stl' -> In o stl \/ o < dst_length.

(** The frame that carries the payload [p] under the id [id]: the packet
    with its CRC, stuffed. *)
Definition wire_frame (crc16 : list Z -> Z) (big_endian : bool)
  (id : Z) (p : list Z) : list Z :=
  cobs_encoding ((id :: p) ++ crc_bytes crc16 big_endian (id :: p)).

(** Modelled from the spec: [s] split into [count] fragments of 4000 bytes,
    a shorter last one allowed; all fragments carry [PROTOCOL_PACKET]
    except the last, which carries [END_OF_TRANSFER_PACKET]. *)
Fixpoint fragments_from (count : nat) (s : list Z) : list (Z * list Z) :=
  match count with
  | O => []
  | S count' =>
      match count' with
      | O => [(END_OF_TRANSFER_PACKET, s)]
      | S _ =>
          (PROTOCOL_PACKET, firstn 4000 s)
          :: fragments_from count' (skipn 4000 s)
      end
  end.

Definition fragments (s : list Z) : list (Z * list Z) :=
  fragments_from (Z.to_nat ((zlen s + 3999) / 4000)) s.
(* ===================================================================== *)
(** * Part II: properties                                                 *)
(* ===================================================================== *)

(** ** Lists, memory and loops *)

Lemma zlen_nil {A} : zlen (@nil A) = 0.
Proof. reflexivity. Qed.

Lemma zlen_cons {A} (x : A) l : zlen (x :: l) = zlen l + 1.
Proof. unfold zlen. simpl length. lia. Qed.

Lemma zlen_app {A} (l1 l2 : list A) : zlen (l1 ++ l2) = zlen l1 + zlen l2.
Proof. unfold zlen. rewrite length_app. lia. Qed.

Lemma zlen_nonneg {A} (l : list A) : 0 <= zlen l.
Proof. unfold zlen. lia. Qed.

Lemma uint8_small z : 0 <= z < 256 -> uint8 z = z.
Proof. intros. unfold uint8. apply Z.mod_small. lia. Qed.

Lemma uint32_small z : 0 <= z < 4294967296 -> uint32 z = z.
Proof. intros. unfold uint32. apply Z.mod_small. lia. Qed.

Lemma load_middle (a : list Z) (x : Z) (c : list Z) (p : Z) :
  p = zlen a -> load (a ++ x :: c) p = Some x.
Proof.
  intros ->. unfold load, zlen.
  destruct (Z.ltb_spec (Z.of_nat (length a)) 0); [lia|].
  rewrite Nat2Z.id, nth_error_app2 by lia.
  now rewrite Nat.sub_diag.
Qed.

Lemma store_middle (a : list Z) (x : Z) (c : list Z) (p v : Z) :
  p = zlen a -> store (a ++ x :: c) p v = Some (a ++ uint8 v :: c).
Proof.
  intros ->. unfold store.
  rewrite zlen_app, zlen_cons.
  pose proof (zlen_nonneg a). pose proof (zlen_nonneg c).
  destruct (Z.leb_spec 0 (zlen a)); [|lia].
  destruct (Z.ltb_spec (zlen a) (zlen a + (zlen c + 1))); [|lia].
  simpl andb. unfold zlen. rewrite Nat2Z.id.
  rewrite firstn_app, Nat.sub_diag, firstn_all. simpl firstn. rewrite app_nil_r.
  replace (S (length a)) with (length a + 1)%nat by lia.
  rewrite skipn_app. rewrite skipn_all2 by lia.
  replace (length a + 1 - length a)%nat with 1%nat by lia.
  reflexivity.
Qed.

Lemma iterate_next {S R} (body : S -> step S R) fuel s s' :
  body s = Next s' -> iterate body (Datatypes.S fuel) s = iterate body fuel s'.
Proof. intros H. simpl. now rewrite H. Qed.

Lemma iterate_stop {S R} (body : S -> step S R) fuel s r :
  body s = Stop r -> iterate body (Datatypes.S fuel) s = Done r.
Proof. intros H. simpl. now rewrite H. Qed.
(** ** fh_cobs.c *)

Lemma block_rest_full b s :
  block_rest 254 (b :: s) = block_code 0 (b :: s) :: block_rest 0 (b :: s).
Proof. simpl. destruct (b =? 0); reflexivity. Qed.

Lemma block_code_bounds s : forall n,
  0 <= n <= 254 -> n + 1 <= block_code n s <= 255.
Proof.
  induction s as [|b s IH]; intros n Hn; simpl.
  - lia.
  - destruct (Z.eqb_spec n 254); [lia|].
    destruct (Z.eqb_spec b 0); [lia|].
    specialize (IH (n + 1)). lia.
Qed.

Lemma block_rest_nonempty s n : 1 <= zlen (block_rest n s).
Proof.
  destruct s as [|b s]; simpl.
  - rewrite zlen_cons, zlen_nil. lia.
  - destruct (n =? 254), (b =? 0); rewrite ?zlen_cons;
      pose proof (zlen_nonneg (block_rest 0 s));
      pose proof (zlen_nonneg (block_rest 1 s));
      pose proof (zlen_nonneg (block_rest (n + 1) s)); lia.
Qed.

Lemma block_rest_cons_length b s n : 2 <= zlen (block_rest n (b :: s)).
Proof.
  simpl.
  pose proof (block_rest_nonempty s 0).
  pose proof (block_rest_nonempty s 1).
  pose proof (block_rest_nonempty s (n + 1)).
  destruct (n =? 254), (b =? 0); rewrite ?zlen_cons; lia.
Qed.

(** Stores into a destination of the shape the encoder keeps. *)
Lemma store_code (done : list Z) x tl p v :
  p = zlen done -> 0 <= v < 256 ->
  store (done ++ x :: tl) p v = Some (done ++ v :: tl).
Proof. intros. rewrite store_middle by assumption. now rewrite uint8_small. Qed.

Lemma store_data (done : list Z) x cur y tl p v :
  p = zlen done + 1 + zlen cur -> 0 <= v < 256 ->
  store (done ++ x :: cur ++ y :: tl) p v = Some (done ++ x :: cur ++ v :: tl).
Proof.
  intros Hp Hv.
  replace (done ++ x :: cur ++ y :: tl) with ((done ++ x :: cur) ++ y :: tl)
    by (rewrite <- app_assoc; reflexivity).
  rewrite store_middle, uint8_small by
    (try assumption; rewrite zlen_app, zlen_cons; lia).
  rewrite <- app_assoc. reflexivity.
Qed.

Section StuffSteps.
Variables (smem : list Z) (src_length dst_length : Z).

Lemma stuff_encode_full sl evp dvp i done x tl ld stl :
  evp = zlen done ->
  stuff_encode_one smem (mk_stuff_regs sl 255 evp dvp i (done ++ x :: tl) ld stl)
  = Some (mk_stuff_regs (uint32 (sl + 1)) 1 dvp (dvp + 1) i
            (done ++ 255 :: tl) ld (evp :: stl)).
Proof.
  intros He. unfold stuff_encode_one, stuff_poke. cbn [st_encoded_value st_encoded_value_ptr st_dst].
  change (255 =? 255) with true. cbv iota.
  rewrite store_code by (try assumption; lia). reflexivity.
Qed.

Lemma stuff_encode_data sl ev evp dvp i done x cur y tl ld stl b :
  ev <> 255 -> 0 <= ev < 255 -> load smem i = Some b -> b <> 0 -> is_byte b ->
  dvp = zlen done + 1 + zlen cur ->
  stuff_encode_one smem
    (mk_stuff_regs sl ev evp dvp i (done ++ x :: cur ++ y :: tl) ld stl)
  = Some (mk_stuff_regs (uint32 (sl + 1)) (ev + 1) evp (dvp + 1)
            (uint32 (i + 1)) (done ++ x :: cur ++ b :: tl) (i :: ld)
            (dvp :: stl)).
Proof.
  intros Hev Hr Hl Hb Hbyte Hd. unfold stuff_encode_one, stuff_poke.
  cbn [st_encoded_value st_encoded_value_ptr st_dst st_index st_dest_value_ptr].
  destruct (Z.eqb_spec ev 255); [contradiction|].
  rewrite Hl. destruct (Z.eqb_spec b 0); [contradiction|]. cbn [negb].
  rewrite store_data by assumption.
  cbn. unfold stuff_count, stuff_consume, stuff_advance; cbn.
  rewrite (uint8_small (ev + 1)) by lia. reflexivity.
Qed.

Lemma stuff_encode_zero sl ev evp dvp i done x tl ld stl :
  0 <= ev < 255 -> load smem i = Some 0 -> evp = zlen done ->
  stuff_encode_one smem (mk_stuff_regs sl ev evp dvp i (done ++ x :: tl) ld stl)
  = Some (mk_stuff_regs (uint32 (sl + 1)) 1 dvp (dvp + 1) (uint32 (i + 1))
            (done ++ ev :: tl) (i :: ld) (evp :: stl)).
Proof.
  intros Hr Hl He. unfold stuff_encode_one, stuff_poke.
  cbn [st_encoded_value st_encoded_value_ptr st_dst st_index st_dest_value_ptr].
  destruct (Z.eqb_spec ev 255); [lia|].
  rewrite Hl. change (0 =? 0) with true. cbn [negb].
  rewrite store_code by (try assumption; lia). reflexivity.
Qed.

Lemma stuff_terminate_skip r :
  st_index r <> src_length -> stuff_terminate src_length r = Some r.
Proof.
  intros H. unfold stuff_terminate.
  destruct (Z.eqb_spec (st_index r) src_length); [contradiction|reflexivity].
Qed.

Lemma stuff_terminate_last sl ev evp dvp done x cur y tl ld stl :
  0 <= ev < 256 -> evp = zlen done -> dvp = zlen done + 1 + zlen cur ->
  stuff_terminate src_length
    (mk_stuff_regs sl ev evp dvp src_length (done ++ x :: cur ++ y :: tl) ld stl)
  = Some (mk_stuff_regs (uint32 (sl + 1)) ev evp (dvp + 1) src_length
            (done ++ ev :: cur ++ 0 :: tl) ld (dvp :: evp :: stl)).
Proof.
  intros Hr He Hd. unfold stuff_terminate, stuff_poke.
  cbn [st_encoded_value st_encoded_value_ptr st_dst st_index st_dest_value_ptr].
  rewrite Z.eqb_refl.
  rewrite store_code by assumption.
  cbn [st_encoded_value st_encoded_value_ptr st_dst st_index st_dest_value_ptr st_stuffed_length st_loaded st_stored].
  rewrite store_data by (try assumption; lia). reflexivity.
Qed.
End StuffSteps.

Lemma block_code_data n b s :
  n <> 254 -> b <> 0 -> block_code n (b :: s) = block_code (n + 1) s.
Proof.
  intros Hn Hb. simpl.
  destruct (Z.eqb_spec n 254); [contradiction|].
  destruct (Z.eqb_spec b 0); [contradiction|reflexivity].
Qed.

Lemma block_rest_data n b s :
  n <> 254 -> b <> 0 -> block_rest n (b :: s) = b :: block_rest (n + 1) s.
Proof.
  intros Hn Hb. simpl.
  destruct (Z.eqb_spec n 254); [contradiction|].
  destruct (Z.eqb_spec b 0); [contradiction|reflexivity].
Qed.

Lemma block_code_zero n s : n <> 254 -> block_code n (0 :: s) = n + 1.
Proof. intros Hn. simpl. destruct (Z.eqb_spec n 254); [contradiction|reflexivity]. Qed.

Lemma block_rest_zero n s :
  n <> 254 -> block_rest n (0 :: s) = block_code 0 s :: block_rest 0 s.
Proof. intros Hn. simpl. destruct (Z.eqb_spec n 254); [contradiction|reflexivity]. Qed.

Lemma block_code_full b s : block_code 254 (b :: s) = 255.
Proof. reflexivity. Qed.

Lemma stuff_body_exit smem src_length dst_length r :
  st_index r = src_length ->
  stuff_body smem src_length dst_length r
  = Stop (stuff_finish (st_stuffed_length r) COBS_SUCCESS r).
Proof.
  intros H. unfold stuff_body. rewrite H, Z.ltb_irrefl. reflexivity.
Qed.

Lemma stuff_body_turn smem src_length dst_length r r2 r3 :
  st_index r < src_length ->
  stuff_encode_one smem r = Some r2 ->
  stuff_terminate src_length r2 = Some r3 ->
  st_stuffed_length r3 < dst_length \/ st_index r3 = src_length ->
  stuff_body smem src_length dst_length r = Next r3.
Proof.
  intros Hi H2 H3 Hc. unfold stuff_body.
  destruct (Z.ltb_spec (st_index r) src_length); [|lia]. cbn [negb].
  rewrite H2, H3. rewrite Z.geb_leb.
  destruct (Z.leb_spec dst_length (st_stuffed_length r3));
    destruct (Z.ltb_spec (st_index r3) src_length); try reflexivity; lia.
Qed.

Lemma zlen_one {A} (x : A) : zlen [x] = 1.
Proof. reflexivity. Qed.

Ltac zlens :=
  repeat (rewrite zlen_app in * || rewrite zlen_one in *
          || rewrite zlen_cons in *);
  change (@zlen Z []) with 0 in *.

Lemma reshape_block (done : list Z) c cur tl :
  done ++ c :: cur ++ tl = (done ++ c :: cur) ++ tl.
Proof. rewrite <- app_assoc. reflexivity. Qed.

Ltac wraps :=
  repeat match goal with
  | |- context [uint32 ?a] => rewrite (uint32_small a) by lia
  | |- context [uint8 ?a] => rewrite (uint8_small a) by lia
  end.

Ltac regs :=
  cbn [st_stuffed_length st_encoded_value st_encoded_value_ptr
       st_dest_value_ptr st_index st_dst st_loaded st_stored
       us_unstuffed_length us_encoded_value us_index us_src us_dst us_mem
       us_loaded us_stored cobs_ret cobs_error cobs_dst cobs_loaded
       cobs_stored app skipn length] in *.

Lemma free_cons (free : list Z) : 1 <= zlen free -> exists y tl, free = y :: tl.
Proof. destruct free; [zlens; lia|eauto]. Qed.

Lemma stuff_runs_last b : stuff_runs 0 253 [b].
Proof.
  intros s_done done cur x free junk ld stl fuel src_length dst_length
    Hlen Hmax Hbytes Hcur Htot Hcap Hfree Hfuel.
  pose proof (zlen_nonneg cur) as Hc0. pose proof (zlen_nonneg done) as Hd0.
  pose proof (zlen_nonneg s_done) as Hs0.
  zlens.
  inversion Hbytes as [|? ? Hb _]; subst.
  unfold stuff_total, stuff_memory in *.
  destruct fuel as [|[|fuel]]; [simpl in Hfuel; lia..|].
  destruct (Z.eq_dec b 0) as [->|Hnz].
  - rewrite block_rest_zero, block_code_zero in * by lia.
    cbn [block_rest block_code Z.add] in *.
    zlens.
    destruct free as [|y [|z tl]]; zlens; try lia.
    erewrite iterate_next; cycle 1.
    { eapply stuff_body_turn.
      - unfold stuff_at; regs; lia.
      - unfold stuff_at. apply stuff_encode_zero; [lia| |reflexivity].
        apply load_middle. reflexivity.
      - rewrite (uint32_small (zlen s_done + 1)) by lia.
        rewrite (reshape_block done _ cur).
        change (y :: z :: tl) with (y :: [] ++ z :: tl).
        apply stuff_terminate_last; [lia|zlens; lia|zlens; lia].
      - right. reflexivity. }
    erewrite iterate_stop; cycle 1.
    { apply stuff_body_exit. reflexivity. }
    unfold stuff_finish. regs. wraps.
    eexists _, _. f_equal. f_equal.
    + lia.
    + rewrite <- app_assoc. regs. do 2 f_equal. lia.
    + f_equal. lia.
  - rewrite block_rest_data, block_code_data in * by lia.
    cbn [block_rest block_code] in *.
    zlens.
    destruct free as [|y [|z tl]]; zlens; try lia.
    erewrite iterate_next; cycle 1.
    { eapply stuff_body_turn.
      - unfold stuff_at; regs; lia.
      - unfold stuff_at. apply stuff_encode_data with (b := b);
          try assumption; try lia.
        apply load_middle. reflexivity.
      - rewrite (uint32_small (zlen s_done + 1)) by lia.
        replace (done ++ x :: cur ++ b :: z :: tl)
          with (done ++ x :: (cur ++ [b]) ++ z :: tl)
          by (rewrite <- app_assoc; reflexivity).
        apply stuff_terminate_last;
          [lia|reflexivity|zlens; lia].
      - right. reflexivity. }
    erewrite iterate_stop; cycle 1.
    { apply stuff_body_exit. reflexivity. }
    unfold stuff_finish. regs. wraps.
    eexists _, _. f_equal. f_equal.
    + lia.
    + rewrite <- app_assoc. regs. do 2 f_equal. lia.
    + f_equal. lia.
Qed.

Lemma stuff_runs_more b b' s :
  stuff_runs 1 254 (b' :: s) -> stuff_runs 0 253 (b :: b' :: s).
Proof.
  intros IH s_done done cur x free junk ld stl fuel src_length dst_length
    Hlen Hmax Hbytes Hcur Htot Hcap Hfree Hfuel.
  pose proof (zlen_nonneg cur) as Hc0. pose proof (zlen_nonneg done) as Hd0.
  pose proof (zlen_nonneg s_done) as Hs0. pose proof (zlen_nonneg s) as Hs1.
  inversion Hbytes as [|? ? Hb Hbytes']; subst.
  unfold stuff_total, stuff_memory in *.
  destruct fuel as [|fuel]; [simpl in Hfuel; lia|].
  destruct (Z.eq_dec b 0) as [->|Hnz].
  - rewrite block_rest_zero, block_code_zero in * by lia.
    pose proof (block_rest_cons_length b' s 0) as Hrest.
    destruct free as [|y tl]; zlens; try lia.
    erewrite iterate_next; cycle 1.
    { eapply stuff_body_turn.
      - unfold stuff_at; regs; lia.
      - unfold stuff_at. apply stuff_encode_zero; [lia| |reflexivity].
        apply load_middle. reflexivity.
      - apply stuff_terminate_skip. regs. wraps. lia.
      - left. regs. wraps. lia. }
    destruct (IH (s_done ++ [0]) (done ++ (1 + zlen cur) :: cur) [] y tl junk
                (zlen s_done :: ld) (zlen done :: stl) fuel
                (zlen s_done + (zlen s + 1 + 1)) dst_length)
      as (ld' & stl' & Hrun);
      unfold stuff_total; zlens; try lia; try assumption.
    { simpl in Hfuel |- *. lia. }
    exists ld', stl'.
    replace (s_done ++ (0 :: b' :: s) ++ junk)
      with ((s_done ++ [0]) ++ (b' :: s) ++ junk)
      by (rewrite <- app_assoc; reflexivity).
    match goal with
    | |- iterate _ _ ?r = _ =>
        replace r with (stuff_at (s_done ++ [0]) (done ++ (1 + zlen cur) :: cur)
                          [] y tl (zlen s_done :: ld) (zlen done :: stl))
    end.
    2:{ unfold stuff_at. zlens. wraps. regs.
        rewrite <- app_assoc. regs.
        f_equal; lia. }
    rewrite Hrun. unfold stuff_total, stuff_memory. zlens. regs.
    f_equal. f_equal.
    + lia.
    + rewrite <- app_assoc. regs. do 2 f_equal. lia.
    + f_equal. lia.
  - rewrite block_rest_data, block_code_data in * by lia.
    pose proof (block_rest_nonempty s (zlen cur + 1 + 1)) as Hr0.
    assert (Hrest : 2 <= zlen (block_rest (zlen cur + 1) (b' :: s)))
      by apply block_rest_cons_length.
    destruct free as [|y tl]; zlens; try lia.
    erewrite iterate_next; cycle 1.
    { eapply stuff_body_turn.
      - unfold stuff_at; regs; lia.
      - unfold stuff_at. apply stuff_encode_data with (b := b);
          try assumption; try lia.
        apply load_middle. reflexivity.
      - apply stuff_terminate_skip. regs. wraps. lia.
      - left. regs. wraps. lia. }
    destruct (IH (s_done ++ [b]) done (cur ++ [b]) x tl junk
                (zlen s_done :: ld) ((zlen done + 1 + zlen cur) :: stl) fuel
                (zlen s_done + (zlen s + 1 + 1)) dst_length)
      as (ld' & stl' & Hrun);
      unfold stuff_total; zlens; try lia; try assumption.
    { simpl in Hfuel |- *. lia. }
    exists ld', stl'.
    replace (s_done ++ (b :: b' :: s) ++ junk)
      with ((s_done ++ [b]) ++ (b' :: s) ++ junk)
      by (rewrite <- app_assoc; reflexivity).
    match goal with
    | |- iterate _ _ ?r = _ =>
        replace r with (stuff_at (s_done ++ [b]) done (cur ++ [b]) x tl
                          (zlen s_done :: ld)
                          ((zlen done + 1 + zlen cur) :: stl))
    end.
    2:{ unfold stuff_at. zlens. wraps. regs.
        rewrite <- app_assoc. regs.
        f_equal; lia. }
    rewrite Hrun. unfold stuff_total, stuff_memory. zlens. regs.
    f_equal. f_equal.
    + lia.
    + rewrite <- app_assoc. regs. reflexivity.
    + f_equal. lia.
Qed.

Lemma stuff_runs_full b s : stuff_runs 0 253 (b :: s) -> stuff_runs 1 254 (b :: s).
Proof.
  intros Hnf s_done done cur x free junk ld stl fuel src_length dst_length
    Hlen Hmax Hbytes Hcur Htot Hcap Hfree Hfuel.
  destruct (Z.eq_dec (zlen cur) 254) as [Hfull|Hroom].
  2:{ apply Hnf; try assumption; lia. }
  subst src_length.
  pose proof (zlen_nonneg done) as Hd0.
  pose proof (zlen_nonneg s_done) as Hs0. pose proof (zlen_nonneg s) as Hs1.
  pose proof (block_rest_cons_length b s 0) as Hrest.
  unfold stuff_total, stuff_memory in *.
  rewrite Hfull in *. rewrite block_rest_full, block_code_full in *.
  destruct fuel as [|fuel]; [simpl in Hfuel; lia|].
  destruct free as [|y tl]; zlens; try lia.
  erewrite iterate_next; cycle 1.
  { eapply stuff_body_turn.
    - unfold stuff_at; regs; lia.
    - unfold stuff_at. rewrite Hfull. change (1 + 254) with 255.
      apply stuff_encode_full. reflexivity.
    - apply stuff_terminate_skip. regs. lia.
    - left. regs. wraps. lia. }
  destruct (Hnf s_done (done ++ 255 :: cur) [] y tl junk ld (zlen done :: stl)
              fuel (zlen s_done + (zlen s + 1)) dst_length)
    as (ld' & stl' & Hrun);
    unfold stuff_total; zlens; try lia; try assumption.
  exists ld', stl'.
  match goal with
  | |- iterate _ _ ?r = _ =>
      replace r with (stuff_at s_done (done ++ 255 :: cur) [] y tl ld
                        (zlen done :: stl))
  end.
  2:{ unfold stuff_at. zlens. wraps. regs.
      rewrite <- app_assoc. regs. rewrite Hfull.
      f_equal; lia. }
  rewrite Hrun. unfold stuff_total, stuff_memory. zlens. regs.
  f_equal. f_equal.
  + lia.
  + rewrite <- app_assoc. regs. reflexivity.
  + f_equal. lia.
Qed.

Lemma stuff_runs_all s : s <> [] -> stuff_runs 1 254 s.
Proof.
  induction s as [|b s IH]; [congruence|]. intros _.
  apply stuff_runs_full.
  destruct s as [|b' s].
  - apply stuff_runs_last.
  - apply stuff_runs_more, IH. discriminate.
Qed.

Section UnstuffSteps.
Variables (smem : list Z) (dst_length : Z).

Lemma unstuff_body_copy ul ev idx src dst out y tl ld stl v :
  idx <> ev -> ul < dst_length -> load smem (src + idx) = Some v ->
  is_byte v -> dst = zlen out -> 0 <= idx < 255 ->
  unstuff_body smem dst_length
    (mk_unstuff_regs ul ev idx src dst (out ++ y :: tl) ld stl)
  = Next (mk_unstuff_regs (uint32 (ul + 1)) ev (idx + 1) src (dst + 1)
            (out ++ v :: tl) ((src + idx) :: ld) (dst :: stl)).
Proof.
  intros Hne Hul Hl Hv Hd Hi. unfold unstuff_body, unstuff_fetch, unstuff_emit.
  regs. rewrite Z.geb_leb.
  destruct (Z.leb_spec dst_length ul); [lia|]. cbn [andb].
  destruct (Z.eqb_spec idx ev); [contradiction|]. cbn [negb].
  rewrite Hl. regs. rewrite store_middle by assumption.
  unfold unstuff_set_index. regs.
  unfold is_byte in Hv. wraps.
  destruct (Z.eqb_spec (idx + 1) 0); [lia|]. reflexivity.
Qed.

Lemma unstuff_body_zero ul ev src dst out y tl ld stl c :
  ul < dst_length -> load smem (src + ev) = Some c -> c <> 0 ->
  dst = zlen out -> ev <> 255 ->
  unstuff_body smem dst_length
    (mk_unstuff_regs ul ev ev src dst (out ++ y :: tl) ld stl)
  = Next (mk_unstuff_regs (uint32 (ul + 1)) c 1 (src + ev) (dst + 1)
            (out ++ 0 :: tl) ((src + ev) :: ld) (dst :: stl)).
Proof.
  intros Hul Hl Hc Hd He. unfold unstuff_body, unstuff_fetch, unstuff_emit.
  regs. rewrite Z.geb_leb.
  destruct (Z.leb_spec dst_length ul); [lia|]. cbn [andb].
  rewrite Z.eqb_refl. cbn [negb].
  rewrite Hl. unfold unstuff_set_encoded_value. regs.
  destruct (Z.eqb_spec c 0); [contradiction|].
  destruct (Z.eqb_spec ev 255); [contradiction|]. cbn [negb].
  rewrite store_middle by assumption. reflexivity.
Qed.

Lemma unstuff_body_full ul src dst mem ld stl c :
  ul < dst_length -> load smem (src + 255) = Some c -> c <> 0 ->
  unstuff_body smem dst_length (mk_unstuff_regs ul 255 255 src dst mem ld stl)
  = Next (mk_unstuff_regs ul c 1 (src + 255) dst mem ((src + 255) :: ld) stl).
Proof.
  intros Hul Hl Hc. unfold unstuff_body, unstuff_fetch.
  regs. rewrite Z.geb_leb.
  destruct (Z.leb_spec dst_length ul); [lia|]. cbn [andb].
  rewrite Z.eqb_refl. cbn [negb].
  rewrite Hl. unfold unstuff_set_encoded_value. regs.
  destruct (Z.eqb_spec c 0); [contradiction|]. reflexivity.
Qed.

Lemma unstuff_body_end ul ev src dst mem ld stl :
  ul < dst_length -> load smem (src + ev) = Some 0 ->
  unstuff_body smem dst_length (mk_unstuff_regs ul ev ev src dst mem ld stl)
  = Stop (mk_cobs_result ul COBS_SUCCESS mem ((src + ev) :: ld) stl).
Proof.
  intros Hul Hl. unfold unstuff_body, unstuff_fetch.
  regs. rewrite Z.geb_leb.
  destruct (Z.leb_spec dst_length ul); [lia|]. cbn [andb].
  rewrite Z.eqb_refl. cbn [negb].
  rewrite Hl. reflexivity.
Qed.
End UnstuffSteps.

Lemma unstuff_runs_nil : unstuff_runs 254 [].
Proof.
  intros pre cur out free junk ld stl fuel dst_length
    Hbytes Hcur Hcap Hmax Hfree Hfuel.
  cbn [block_rest block_code] in *. zlens.
  destruct fuel as [|fuel]; [simpl in Hfuel; lia|].
  erewrite iterate_stop; cycle 1.
  { unfold unstuff_at. replace (zlen cur + 1) with (1 + zlen cur) by lia.
    apply unstuff_body_end; [lia|].
    rewrite (reshape_block pre _ cur). apply load_middle. zlens. lia. }
  exists (zlen pre + (1 + zlen cur) :: ld), stl. regs.
  rewrite Z.add_0_r. reflexivity.
Qed.

Lemma unstuff_runs_more b s : unstuff_runs 254 s -> unstuff_runs 253 (b :: s).
Proof.
  intros IH pre cur out free junk ld stl fuel dst_length
    Hbytes Hcur Hcap Hmax Hfree Hfuel.
  pose proof (zlen_nonneg cur) as Hc0. pose proof (zlen_nonneg out) as Ho0.
  pose proof (zlen_nonneg pre) as Hp0. pose proof (zlen_nonneg s) as Hs0.
  inversion Hbytes as [|? ? Hb Hbytes']; subst.
  destruct (Z.eq_dec b 0) as [->|Hnz].
  - rewrite block_rest_zero, block_code_zero in * by lia.
    pose proof (block_code_bounds s 0 ltac:(lia)) as Hcode.
    destruct fuel as [|fuel]; [simpl in Hfuel; lia|].
    destruct free as [|y tl]; zlens; try lia.
    erewrite iterate_next; cycle 1.
    { unfold unstuff_at. replace (zlen cur + 1) with (1 + zlen cur) by lia.
      apply unstuff_body_zero with (c := block_code 0 s); try lia.
      rewrite (reshape_block pre _ cur). apply load_middle. zlens. lia. }
    destruct (IH (pre ++ (1 + zlen cur) :: cur) [] (out ++ [0]) tl junk
                (zlen pre + (1 + zlen cur) :: ld) (zlen out :: stl) fuel
                dst_length)
      as (ld' & stl' & Hrun); zlens; try lia; try assumption.
    { simpl in Hfuel. lia. }
    exists ld', stl'.
    replace (pre ++ zlen cur + 1 :: cur ++ (block_code 0 s :: block_rest 0 s) ++ junk)
      with ((pre ++ 1 + zlen cur :: cur) ++ block_code 0 s :: []
              ++ block_rest 0 s ++ junk)
      by (rewrite <- app_assoc; regs; do 2 f_equal; lia).
    match goal with
    | |- iterate _ _ ?r = _ =>
        replace r with (unstuff_at (pre ++ (1 + zlen cur) :: cur) [] (out ++ [0])
                          tl (zlen pre + (1 + zlen cur) :: ld)
                          (zlen out :: stl) (block_code 0 s))
    end.
    2:{ unfold unstuff_at. zlens. wraps. rewrite <- app_assoc. regs.
        f_equal; lia. }
    change (@zlen Z []) with 0 in Hrun. rewrite Hrun.
    rewrite <- app_assoc. regs. do 2 f_equal. lia.
  - rewrite block_rest_data, block_code_data in * by lia.
    pose proof (block_code_bounds s (zlen cur + 1) ltac:(lia)) as Hcode.
    destruct fuel as [|fuel]; [simpl in Hfuel; lia|].
    destruct free as [|y tl]; zlens; try lia.
    erewrite iterate_next; cycle 1.
    { unfold unstuff_at.
      apply unstuff_body_copy with (v := b); try assumption; try lia.
      replace (pre ++ block_code (zlen cur + 1) s :: cur
                 ++ (b :: block_rest (zlen cur + 1) s) ++ junk)
        with ((pre ++ block_code (zlen cur + 1) s :: cur)
                ++ b :: block_rest (zlen cur + 1) s ++ junk)
        by (rewrite <- app_assoc; reflexivity).
      apply load_middle. zlens. lia. }
    destruct (IH pre (cur ++ [b]) (out ++ [b]) tl junk
                (zlen pre + (1 + zlen cur) :: ld) (zlen out :: stl) fuel
                dst_length)
      as (ld' & stl' & Hrun); zlens; try lia; try assumption.
    { simpl in Hfuel. lia. }
    exists ld', stl'.
    replace (pre ++ block_code (zlen cur + 1) s :: cur
               ++ (b :: block_rest (zlen cur + 1) s) ++ junk)
      with (pre ++ block_code (zlen cur + 1) s :: (cur ++ [b])
              ++ block_rest (zlen cur + 1) s ++ junk)
      by (rewrite <- app_assoc; reflexivity).
    match goal with
    | |- iterate _ _ ?r = _ =>
        replace r with (unstuff_at pre (cur ++ [b]) (out ++ [b]) tl
                          (zlen pre + (1 + zlen cur) :: ld) (zlen out :: stl)
                          (block_code (zlen cur + 1) s))
    end.
    2:{ unfold unstuff_at. zlens. wraps. rewrite <- app_assoc. regs.
        f_equal; lia. }
    rewrite Hrun.
    rewrite <- app_assoc. regs. do 2 f_equal. lia.
Qed.

Lemma unstuff_runs_full b s :
  unstuff_runs 253 (b :: s) -> unstuff_runs 254 (b :: s).
Proof.
  intros Hnf pre cur out free junk ld stl fuel dst_length
    Hbytes Hcur Hcap Hmax Hfree Hfuel.
  destruct (Z.eq_dec (zlen cur) 254) as [Hfull|Hroom].
  2:{ apply Hnf; try assumption; lia. }
  pose proof (zlen_nonneg out) as Ho0. pose proof (zlen_nonneg pre) as Hp0.
  pose proof (zlen_nonneg s) as Hs0.
  pose proof (block_code_bounds (b :: s) 0 ltac:(lia)) as Hcode.
  rewrite Hfull in *. rewrite block_rest_full, block_code_full in *.
  destruct fuel as [|fuel]; [simpl in Hfuel; lia|].
  zlens.
  erewrite iterate_next; cycle 1.
  { unfold unstuff_at. rewrite Hfull. change (1 + 254) with 255.
    apply unstuff_body_full with (c := block_code 0 (b :: s)); try lia.
    rewrite (reshape_block pre _ cur). apply load_middle. zlens. lia. }
  destruct (Hnf (pre ++ 255 :: cur) [] out free junk
              (zlen pre + 255 :: ld) stl fuel dst_length)
    as (ld' & stl' & Hrun); zlens; try lia; try assumption.
  { simpl in Hfuel |- *. lia. }
  exists ld', stl'.
  replace (pre ++ 255 :: cur
             ++ (block_code 0 (b :: s) :: block_rest 0 (b :: s)) ++ junk)
    with ((pre ++ 255 :: cur) ++ block_code 0 (b :: s) :: []
            ++ block_rest 0 (b :: s) ++ junk)
    by (rewrite <- app_assoc; reflexivity).
  match goal with
  | |- iterate _ _ ?r = _ =>
      replace r with (unstuff_at (pre ++ 255 :: cur) [] out free
                        (zlen pre + 255 :: ld) stl (block_code 0 (b :: s)))
  end.
  2:{ unfold unstuff_at. zlens. f_equal; lia. }
  change (@zlen Z []) with 0 in Hrun. rewrite Hrun. reflexivity.
Qed.

Lemma unstuff_runs_all s : unstuff_runs 254 s.
Proof.
  induction s as [|b s IH].
  - apply unstuff_runs_nil.
  - apply unstuff_runs_full, unstuff_runs_more, IH.
Qed.

Lemma memset0_shape dmem n :
  1 <= n <= zlen dmem ->
  exists free, memset0 dmem n = Some (0 :: free) /\ zlen free = zlen dmem - 1.
Proof.
  intros Hn. unfold memset0.
  destruct (Z.leb_spec 0 n); [|lia]. destruct (Z.leb_spec n (zlen dmem)); [|lia].
  cbn [andb].
  destruct (Z.to_nat n) as [|k] eqn:Hk; [lia|].
  cbn [repeat app]. eexists. split; [reflexivity|].
  unfold zlen in *. rewrite length_app, repeat_length, length_skipn. lia.
Qed.

Lemma stuff_encodes s junk dmem cap :
  s <> [] -> Forall is_byte s -> zlen s < 4294967296 ->
  zlen (cobs_encoding s) < 4294967296 ->
  zlen (cobs_encoding s) <= cap + 1 -> 1 <= cap <= zlen dmem ->
  zlen (cobs_encoding s) <= zlen dmem ->
  exists tail ld stl,
    fh_cobs_stuff_bytes (Some (s ++ junk)) (zlen s) (Some dmem) cap
    = Done (mk_cobs_result (zlen (cobs_encoding s)) COBS_SUCCESS
              (cobs_encoding s ++ tail) ld
              ((zlen (cobs_encoding s) - 1) :: stl))
    /\ zlen (cobs_encoding s ++ tail) = zlen dmem.
Proof.
  intros Hne Hbytes Hlen Hmax Hcap Hcap' Hmem.
  unfold fh_cobs_stuff_bytes.
  assert (Hs : 1 <= zlen s).
  { destruct s; [congruence|]. zlens. pose proof (zlen_nonneg s). lia. }
  destruct (Z.eqb_spec (zlen s) 0); [lia|].
  destruct (Z.eqb_spec cap 0); [lia|].
  destruct (memset0_shape dmem cap Hcap') as (free & -> & Hfree).
  unfold cobs_encoding in *. zlens.
  destruct (stuff_runs_all s Hne [] [] [] 0 free junk [] []
              (2 * Z.to_nat (zlen s) + 1)%nat (zlen s) cap)
    as (ld' & stl' & Hrun); unfold stuff_total; zlens;
    try lia; try assumption; try reflexivity.
  { unfold zlen. rewrite Nat2Z.id. lia. }
  unfold stuff_at in Hrun. change (@zlen Z []) with 0 in Hrun.
  cbn [app] in Hrun. change (0 + 1 + 0) with 1 in Hrun. change (1 + 0) with 1 in Hrun.
  rewrite Hrun. unfold stuff_total, stuff_memory. zlens. regs.
  exists (skipn (length (block_rest 0 s)) free), ld', stl'.
  split.
  - f_equal. f_equal; [lia|]. f_equal. lia.
  - zlens. unfold zlen in *. rewrite length_skipn. lia.
Qed.

Lemma unstuff_decodes s junk src_length dmem cap :
  Forall is_byte s -> src_length <> 0 ->
  zlen s < cap -> zlen s < 4294967296 -> zlen s <= zlen dmem ->
  exists ld stl,
    fh_cobs_unstuff_bytes (Some (cobs_encoding s ++ junk)) src_length
      (Some dmem) cap
    = Done (mk_cobs_result (zlen s) COBS_SUCCESS
              (s ++ skipn (length s) dmem) ld stl).
Proof.
  intros Hbytes Hsrc Hcap Hmax Hmem.
  pose proof (zlen_nonneg s) as Hs0.
  unfold fh_cobs_unstuff_bytes, cobs_encoding. cbn [app load Z.ltb Z.compare Z.to_nat nth_error].
  destruct (Z.eqb_spec src_length 0); [contradiction|].
  destruct (Z.eqb_spec cap 0); [lia|].
  destruct (unstuff_runs_all s [] [] [] dmem junk [0] []
              (S (length (block_code 0 s :: block_rest 0 s ++ junk))) cap)
    as (ld' & stl' & Hrun); zlens; try lia; try assumption.
  { cbn [length]. rewrite length_app. lia. }
  unfold unstuff_at in Hrun. change (@zlen Z []) with 0 in Hrun.
  cbn [app] in Hrun. change (1 + 0) with 1 in Hrun.
  rewrite Hrun. exists ld', stl'. reflexivity.
Qed.

(** Every byte of the stuffed stream but the last is non-zero. *)
Lemma block_rest_no_zero s : forall n,
  0 <= n <= 254 ->
  exists body, block_rest n s = body ++ [0] /\ Forall (fun b => b <> 0) body.
Proof.
  induction s as [|b s IH]; intros n Hn.
  - exists []. split; [reflexivity|constructor].
  - destruct (Z.eq_dec n 254) as [->|Hroom].
    + rewrite block_rest_full.
      pose proof (block_code_bounds (b :: s) 0 ltac:(lia)) as Hc.
      cbn [block_rest]. change (0 =? 254) with false. cbv iota.
      destruct (Z.eqb_spec b 0).
      * destruct (IH 0 ltac:(lia)) as (body & -> & Hbody).
        pose proof (block_code_bounds s 0 ltac:(lia)).
        exists (block_code 0 (b :: s) :: block_code 0 s :: body).
        split; [reflexivity|]. repeat constructor; try lia. assumption.
      * destruct (IH (0 + 1) ltac:(lia)) as (body & -> & Hbody).
        exists (block_code 0 (b :: s) :: b :: body).
        split; [reflexivity|]. repeat constructor; try lia. assumption.
    + destruct (Z.eq_dec b 0) as [->|Hnz].
      * rewrite block_rest_zero by assumption.
        destruct (IH 0 ltac:(lia)) as (body & -> & Hbody).
        pose proof (block_code_bounds s 0 ltac:(lia)).
        exists (block_code 0 s :: body).
        split; [reflexivity|]. constructor; [lia|assumption].
      * rewrite block_rest_data by assumption.
        destruct (IH (n + 1) ltac:(lia)) as (body & -> & Hbody).
        exists (b :: body). split; [reflexivity|]. constructor; assumption.
Qed.

Lemma cobs_encoding_no_zero s :
  exists body, cobs_encoding s = body ++ [0] /\ Forall (fun b => b <> 0) body.
Proof.
  destruct (block_rest_no_zero s 0 ltac:(lia)) as (body & Hb & Hnz).
  pose proof (block_code_bounds s 0 ltac:(lia)).
  exists (block_code 0 s :: body). unfold cobs_encoding. rewrite Hb.
  split; [reflexivity|]. constructor; [lia|assumption].
Qed.

(** The stuffed stream is at most one byte per started run of 254 source
    bytes longer than the source, plus the code byte and the terminator. *)
Lemma block_rest_length s : forall n,
  0 <= n <= 254 ->
  254 * (zlen (block_rest n s) - zlen s - 1) <= n + zlen s.
Proof.
  induction s as [|b s IH]; intros n Hn.
  - cbn [block_rest]. zlens. lia.
  - pose proof (zlen_nonneg s).
    destruct (Z.eq_dec n 254) as [->|Hroom].
    + cbn [block_rest]. change (254 =? 254) with true. cbv iota.
      destruct (b =? 0); zlens.
      * specialize (IH 0). lia.
      * specialize (IH 1). lia.
    + destruct (Z.eq_dec b 0) as [->|Hnz].
      * rewrite block_rest_zero by assumption. zlens. specialize (IH 0). lia.
      * rewrite block_rest_data by assumption. zlens. specialize (IH (n + 1)). lia.
Qed.

Lemma cobs_encoding_length s :
  zlen s + 2 <= zlen (cobs_encoding s) <= zlen s + zlen s / 254 + 2.
Proof.
  unfold cobs_encoding. zlens.
  pose proof (block_rest_length s 0 ltac:(lia)) as Hup.
  assert (Hlow : forall n, zlen s + 1 <= zlen (block_rest n s)).
  { clear Hup. induction s as [|b s IH]; intros n; cbn [block_rest]; zlens; [lia|].
    destruct (n =? 254), (b =? 0); zlens;
      try (specialize (IH 0); lia); try (specialize (IH 1); lia).
    specialize (IH (n + 1)); lia. }
  specialize (Hlow 0).
  pose proof (Z.div_mod (zlen s) 254 ltac:(lia)).
  pose proof (Z.mod_pos_bound (zlen s) 254 ltac:(lia)).
  lia.
Qed.

Lemma firstn_zlen_app {A} (l tail : list A) :
  firstn (Z.to_nat (zlen l)) (l ++ tail) = l.
Proof.
  unfold zlen. rewrite Nat2Z.id, firstn_app, Nat.sub_diag, firstn_all.
  cbn [firstn]. apply app_nil_r.
Qed.

(** *** Round trip *)


(** ** fh_hsuart_packet.c *)

Lemma map_uint8_bytes l : Forall is_byte l -> map uint8 l = l.
Proof.
  induction 1 as [|b l Hb _ IH]; [reflexivity|].
  cbn [map]. rewrite IH, uint8_small by exact Hb. reflexivity.
Qed.

Lemma read_bytes_middle (a b c : list Z) off n :
  off = zlen a -> n = zlen b -> read_bytes (a ++ b ++ c) off n = Some b.
Proof.
  intros -> ->. unfold read_bytes.
  destruct (Z.eqb_spec (zlen b) 0) as [H0|H0].
  - destruct b; [reflexivity|]. zlens. pose proof (zlen_nonneg b). lia.
  - pose proof (zlen_nonneg a). pose proof (zlen_nonneg b).
    pose proof (zlen_nonneg c). zlens.
    destruct (Z.leb_spec 0 (zlen a)); [|lia].
    destruct (Z.leb_spec 0 (zlen b)); [|lia].
    destruct (Z.leb_spec (zlen a + zlen b) (zlen a + (zlen b + zlen c))); [|lia].
    cbn [andb]. unfold zlen. rewrite !Nat2Z.id.
    rewrite skipn_app, skipn_all, Nat.sub_diag. cbn [skipn app].
    rewrite firstn_app, Nat.sub_diag, firstn_all. cbn [firstn].
    rewrite app_nil_r. reflexivity.
Qed.

Lemma write_bytes_middle (a b c bs : list Z) off :
  off = zlen a -> zlen bs = zlen b ->
  write_bytes (a ++ b ++ c) off bs = Some (a ++ map uint8 bs ++ c).
Proof.
  intros -> Hlen. unfold write_bytes.
  destruct bs as [|x bs].
  - destruct b; [reflexivity|]. zlens. pose proof (zlen_nonneg b). lia.
  - pose proof (zlen_nonneg a). pose proof (zlen_nonneg c). zlens.
    destruct (Z.leb_spec 0 (zlen a)); [|lia].
    destruct (Z.leb_spec (zlen a + (zlen bs + 1)) (zlen a + (zlen b + zlen c)));
      [|lia].
    cbn [andb]. unfold zlen in *. rewrite Nat2Z.id.
    rewrite firstn_app, Nat.sub_diag, firstn_all. cbn [firstn].
    rewrite app_nil_r. do 2 f_equal.
    rewrite skipn_app. rewrite (skipn_all2 a) by lia. cbn [app].
    replace (length a + length (x :: bs) - length a)%nat with (length b)
      by (cbn [length]; lia).
    rewrite skipn_app, skipn_all, Nat.sub_diag. reflexivity.
Qed.

Lemma split_zlen {A} (l : list A) n :
  0 <= n <= zlen l -> exists a c, l = a ++ c /\ zlen a = n.
Proof.
  intros Hn. exists (firstn (Z.to_nat n) l), (skipn (Z.to_nat n) l).
  split; [symmetry; apply firstn_skipn|].
  unfold zlen in *. rewrite length_firstn. lia.
Qed.

Lemma wire_trip_checked :
  forallb
    (fun h =>
       forallb
         (fun l =>
            let c := 256 * Z.of_nat h + Z.of_nat l in
            (wire_trip true c =? c) && (wire_trip false c =? c))
         (seq 0 256))
    (seq 0 256) = true.
Proof. vm_compute. reflexivity. Qed.

Lemma wire_trip_id big_endian c : 0 <= c < 65536 -> wire_trip big_endian c = c.
Proof.
  intros Hc. pose proof wire_trip_checked as H.
  rewrite forallb_forall in H.
  specialize (H (Z.to_nat (c / 256))).
  assert (Hh : In (Z.to_nat (c / 256)) (seq 0 256)).
  { apply in_seq. pose proof (Z.div_lt_upper_bound c 256 256).
    pose proof (Z.div_pos c 256). lia. }
  apply H in Hh. rewrite forallb_forall in Hh.
  specialize (Hh (Z.to_nat (c mod 256))).
  assert (Hl : In (Z.to_nat (c mod 256)) (seq 0 256)).
  { apply in_seq. pose proof (Z.mod_pos_bound c 256). lia. }
  apply Hh in Hl. cbv zeta in Hl.
  rewrite !Z2Nat.id in Hl
    by (try apply Z.div_pos; try apply Z.mod_pos_bound; lia).
  rewrite <- Z.div_mod in Hl by lia.
  apply andb_true_iff in Hl. destruct Hl as [Ht Hf].
  destruct big_endian; apply Z.eqb_eq; assumption.
Qed.

Section PacketProofs.
Variable crc16 : list Z -> Z.
Variable big_endian : bool.

Lemma crc_bytes_length bs : zlen (crc_bytes crc16 big_endian bs) = 2.
Proof. unfold crc_bytes, uint16_to_bytes. destruct big_endian; reflexivity. Qed.

Lemma crc_bytes_shape bs : exists c0 c1, crc_bytes crc16 big_endian bs = [c0; c1].
Proof.
  unfold crc_bytes, uint16_to_bytes. destruct big_endian; cbn [map]; eauto.
Qed.

Lemma uint16_range z : 0 <= uint16 z < 65536.
Proof. unfold uint16. apply Z.mod_pos_bound. lia. Qed.

(** Storing the CRC of the packet head behind it. *)
Lemma memscpy_from_crc_fits (a y c : list Z) doff dst_size v :
  doff = zlen a -> zlen y = 2 -> 2 <= dst_size ->
  memscpy_from_crc big_endian (a ++ y ++ c) doff dst_size v
  = Some (a ++ map uint8 (uint16_to_bytes big_endian v) ++ c).
Proof.
  intros Hd Hy Hs. unfold memscpy_from_crc, memscpy, sizeof_crc_data.
  destruct (Z.leb_spec dst_size 2).
  - assert (dst_size = 2) by lia. subst dst_size.
    replace (read_bytes (uint16_to_bytes big_endian v) 0 2)
      with (Some (uint16_to_bytes big_endian v))
      by (unfold uint16_to_bytes; destruct big_endian; reflexivity).
    apply write_bytes_middle; [assumption|].
    rewrite Hy. unfold uint16_to_bytes. destruct big_endian; reflexivity.
  - replace (read_bytes (uint16_to_bytes big_endian v) 0 2)
      with (Some (uint16_to_bytes big_endian v))
      by (unfold uint16_to_bytes; destruct big_endian; reflexivity).
    apply write_bytes_middle; [assumption|].
    rewrite Hy. unfold uint16_to_bytes. destruct big_endian; reflexivity.
Qed.

(** A packet head followed by its CRC passes the CRC test. *)
Lemma crc_matches_own (head tail : list Z) covered pos :
  covered = zlen head -> pos = zlen head ->
  crc_matches crc16 big_endian (head ++ crc_bytes crc16 big_endian head ++ tail) covered pos
  = Some true.
Proof.
  intros -> ->. unfold crc_matches, fh_crc_calculate_crc16, memscpy_to_crc.
  replace (read_bytes (head ++ crc_bytes crc16 big_endian head ++ tail) 0 (zlen head))
    with (Some head)
    by (symmetry; apply (read_bytes_middle [] head); reflexivity).
  cbn [option_map].
  rewrite (read_bytes_middle head (crc_bytes crc16 big_endian head) tail)
    by (try reflexivity; unfold sizeof_crc_data; now rewrite crc_bytes_length).
  cbn [option_map]. unfold crc_bytes.
  change (to_wire_order big_endian
            (uint16_of_bytes big_endian
               (map uint8
                  (uint16_to_bytes big_endian
                     (to_wire_order big_endian (uint16 (crc16 head)))))))
    with (wire_trip big_endian (uint16 (crc16 head))).
  rewrite wire_trip_id by apply uint16_range.
  now rewrite Z.eqb_refl.
Qed.


Lemma split3 (d : list Z) n :
  0 <= n -> n + 3 <= zlen d ->
  exists x b y c, d = [x] ++ b ++ y ++ c /\ zlen b = n /\ zlen y = 2.
Proof.
  intros Hn Hd.
  destruct d as [|x d]; [change (@zlen Z []) with 0 in Hd; lia|].
  zlens.
  destruct (split_zlen d n ltac:(lia)) as (b & d' & -> & Hb). zlens.
  destruct (split_zlen d' 2 ltac:(lia)) as (y & c & -> & Hy).
  exists x, b, y, c. auto.
Qed.

Lemma encode_data id p junk dmem cap :
  id = PROTOCOL_PACKET \/ id = END_OF_TRANSFER_PACKET ->
  1 <= zlen p -> Forall is_byte p ->
  zlen p + 3 <= cap < 4294967296 -> cap <= zlen dmem ->
  exists tail,
    fh_packet_encode crc16 big_endian id (Some (p ++ junk)) (zlen p)
      (Some dmem) cap
    = Done (mk_packet_result (zlen p + 3) PACKET_SUCCESS
              ((id :: p) ++ crc_bytes crc16 big_endian (id :: p) ++ tail)
              None).
Proof.
  intros Hid Hlen Hbytes Hcap Hmem.
  destruct (split3 dmem (zlen p)) as (x & b & y & c & -> & Hb & Hy);
    [lia|lia|].
  exists c. unfold fh_packet_encode.
  assert (Hsel : (id =? ACK_PACKET) = false /\ (id =? NAK_PACKET) = false
                 /\ (id =? VERSION_PACKET) = false
                 /\ (id =? READY_TO_READ_PACKET) = false
                 /\ ((id =? PROTOCOL_PACKET)
                     || (id =? END_OF_TRANSFER_PACKET)) = true
                 /\ uint8 id = id)
    by (destruct Hid; subst id; repeat split; reflexivity).
  destruct Hsel as (-> & -> & -> & -> & -> & Hu).
  destruct (Z.eqb_spec (zlen p) 0); [lia|].
  change (store ([x] ++ b ++ y ++ c) 0 id)
    with (store ([] ++ x :: b ++ y ++ c) 0 id).
  rewrite (store_middle [] x (b ++ y ++ c) 0 id) by reflexivity.
  rewrite Hu. cbn [app].
  change (id :: b ++ y ++ c) with ([id] ++ b ++ y ++ c).
  change (p ++ junk) with ([] ++ p ++ junk).
  unfold memscpy, packet_id_size, PACKET_ID_SIZE, sizeof_crc_data.
  rewrite (uint32_small (cap - 1)) by lia.
  destruct (Z.leb_spec (cap - 1) (zlen p)); [lia|].
  rewrite (read_bytes_middle [] p junk) by reflexivity.
  rewrite (write_bytes_middle [id] b (y ++ c) p) by (try reflexivity; lia).
  rewrite map_uint8_bytes by assumption.
  unfold fh_crc_calculate_crc16.
  rewrite (uint32_small (1 + zlen p)) by lia.
  change ([id] ++ p ++ y ++ c) with ([] ++ ([id] ++ p) ++ y ++ c).
  rewrite (read_bytes_middle [] ([id] ++ p) (y ++ c))
    by (try reflexivity; zlens; lia).
  cbn [app].
  change (id :: p ++ y ++ c) with ((id :: p) ++ y ++ c).
  cbn [option_map].
  rewrite memscpy_from_crc_fits by (try assumption; zlens; lia).
  cbn [option_map crash_unless].
  rewrite (uint32_small (1 + zlen p + 2)) by lia.
  do 2 f_equal. lia.
Qed.

Lemma decode_data id p tail dmem cap :
  id = PROTOCOL_PACKET \/ id = END_OF_TRANSFER_PACKET ->
  1 <= zlen p -> Forall is_byte p -> zlen p + 3 < 4294967296 ->
  zlen p <= cap -> zlen p <= zlen dmem ->
  fh_packet_decode crc16 big_endian
    (Some ((id :: p) ++ crc_bytes crc16 big_endian (id :: p) ++ tail))
    (zlen p + 3) (Some dmem) cap
  = Done (mk_packet_result (zlen p) PACKET_SUCCESS
            (p ++ skipn (length p) dmem) (Some id)).
Proof.
  intros Hid Hlen Hbytes Hmax Hcap Hmem.
  unfold fh_packet_decode.
  destruct (Z.eqb_spec (zlen p + 3) 0); [lia|].
  cbn [app load Z.ltb Z.compare Z.to_nat nth_error].
  assert (Hsel : (id =? ACK_PACKET) = false /\ (id =? NAK_PACKET) = false
                 /\ (id =? VERSION_PACKET) = false
                 /\ ((id =? PROTOCOL_PACKET)
                     || (id =? END_OF_TRANSFER_PACKET)) = true)
    by (destruct Hid; subst id; repeat split; reflexivity).
  destruct Hsel as (-> & -> & -> & ->).
  unfold packet_id_size, PACKET_ID_SIZE, sizeof_crc_data.
  destruct (Z.ltb_spec (zlen p + 3) (1 + 2)); [lia|].
  rewrite (uint32_small (zlen p + 3 - 1 - 2)) by lia.
  destruct (Z.ltb_spec cap (zlen p + 3 - 1 - 2)); [lia|].
  rewrite (uint32_small (zlen p + 3 - 2)) by lia.
  change (id :: p ++ crc_bytes crc16 big_endian (id :: p) ++ tail)
    with ((id :: p) ++ crc_bytes crc16 big_endian (id :: p) ++ tail).
  rewrite crc_matches_own by (zlens; lia).
  unfold memscpy.
  replace (if cap <=? zlen p + 3 - 1 - 2 then cap else zlen p + 3 - 1 - 2)
    with (zlen p) by (destruct (Z.leb_spec cap (zlen p + 3 - 1 - 2)); lia).
  change ((id :: p) ++ crc_bytes crc16 big_endian (id :: p) ++ tail)
    with ([id] ++ p ++ crc_bytes crc16 big_endian (id :: p) ++ tail).
  rewrite (read_bytes_middle [id] p) by reflexivity.
  destruct (split_zlen dmem (zlen p) ltac:(pose proof (zlen_nonneg p); lia))
    as (b & c & -> & Hb).
  change (b ++ c) with ([] ++ b ++ c) at 1.
  rewrite (write_bytes_middle [] b c p) by (try reflexivity; lia).
  rewrite map_uint8_bytes by assumption.
  cbn [option_map crash_unless app].
  do 2 f_equal; [lia|].
  f_equal. unfold zlen in Hb. apply Nat2Z.inj in Hb. rewrite <- Hb.
  rewrite skipn_app, skipn_all, Nat.sub_diag. reflexivity.
Qed.

Lemma store_0 x tl v : store (x :: tl) 0 v = Some (uint8 v :: tl).
Proof. apply (store_middle [] x tl 0 v). reflexivity. Qed.

Lemma store_1 x0 x tl v :
  store (x0 :: x :: tl) 1 v = Some (x0 :: uint8 v :: tl).
Proof. apply (store_middle [x0] x tl 1 v). reflexivity. Qed.

Lemma store_2 x0 x1 x tl v :
  store (x0 :: x1 :: x :: tl) 2 v = Some (x0 :: x1 :: uint8 v :: tl).
Proof. apply (store_middle [x0; x1] x tl 2 v). reflexivity. Qed.

Lemma encode_version src src_length dmem cap :
  5 <= cap < 4294967296 -> cap <= zlen dmem ->
  exists tail,
    fh_packet_encode crc16 big_endian VERSION_PACKET src src_length
      (Some dmem) cap
    = Done (mk_packet_result 5 PACKET_SUCCESS
              ([VERSION_PACKET; PACKET_LAYER_MAJOR_ID; PACKET_LAYER_MINOR_ID]
                 ++ crc_bytes crc16 big_endian
                      [VERSION_PACKET; PACKET_LAYER_MAJOR_ID;
                       PACKET_LAYER_MINOR_ID] ++ tail) None).
Proof.
  intros Hcap Hmem.
  destruct dmem as [|x0 [|x1 [|x2 d]]]; zlens; try lia.
  destruct (split_zlen d 2 ltac:(lia)) as (y & c & -> & Hy).
  exists c. unfold fh_packet_encode.
  change (VERSION_PACKET =? ACK_PACKET) with false.
  change (VERSION_PACKET =? NAK_PACKET) with false.
  change (VERSION_PACKET =? VERSION_PACKET) with true. cbv iota.
  rewrite store_0, store_1, store_2.
  change (uint8 VERSION_PACKET) with VERSION_PACKET.
  change (uint8 PACKET_LAYER_MAJOR_ID) with PACKET_LAYER_MAJOR_ID.
  change (uint8 PACKET_LAYER_MINOR_ID) with PACKET_LAYER_MINOR_ID.
  unfold fh_crc_calculate_crc16.
  set (head := [VERSION_PACKET; PACKET_LAYER_MAJOR_ID; PACKET_LAYER_MINOR_ID]).
  change (VERSION_PACKET :: PACKET_LAYER_MAJOR_ID :: PACKET_LAYER_MINOR_ID
            :: y ++ c) with ([] ++ head ++ y ++ c).
  rewrite (read_bytes_middle [] head (y ++ c)) by reflexivity.
  cbn [option_map app].
  change (packet_id_size + version_packet_size) with 3.
  rewrite (uint32_small (cap - 3)) by lia.
  rewrite memscpy_from_crc_fits by (try assumption; try reflexivity; lia).
  reflexivity.
Qed.

Lemma decode_version tail dmem cap :
  fh_packet_decode crc16 big_endian
    (Some ([VERSION_PACKET; PACKET_LAYER_MAJOR_ID; PACKET_LAYER_MINOR_ID]
             ++ crc_bytes crc16 big_endian
                  [VERSION_PACKET; PACKET_LAYER_MAJOR_ID;
                   PACKET_LAYER_MINOR_ID] ++ tail))
    5 (Some dmem) cap
  = Done (mk_packet_result 0 PACKET_SUCCESS dmem (Some VERSION_PACKET)).
Proof.
  unfold fh_packet_decode.
  change (5 =? 0) with false. cbv iota.
  set (head := [VERSION_PACKET; PACKET_LAYER_MAJOR_ID; PACKET_LAYER_MINOR_ID]).
  replace (load (head ++ crc_bytes crc16 big_endian head ++ tail) 0)
    with (Some VERSION_PACKET) by reflexivity.
  change (VERSION_PACKET =? ACK_PACKET) with false.
  change (VERSION_PACKET =? NAK_PACKET) with false.
  change (VERSION_PACKET =? VERSION_PACKET) with true. cbv iota.
  change (5 =? packet_id_size + version_packet_size + sizeof_crc_data)
    with true. cbn [negb].
  rewrite crc_matches_own by reflexivity.
  reflexivity.
Qed.

Lemma encode_ready src src_length dmem cap :
  3 <= cap < 4294967296 -> cap <= zlen dmem ->
  exists tail,
    fh_packet_encode crc16 big_endian READY_TO_READ_PACKET src src_length
      (Some dmem) cap
    = Done (mk_packet_result 3 PACKET_SUCCESS
              ([READY_TO_READ_PACKET]
                 ++ crc_bytes crc16 big_endian [READY_TO_READ_PACKET]
                 ++ tail) None).
Proof.
  intros Hcap Hmem.
  destruct dmem as [|x0 d]; zlens; try lia.
  destruct (split_zlen d 2 ltac:(lia)) as (y & c & -> & Hy).
  exists c. unfold fh_packet_encode.
  change (READY_TO_READ_PACKET =? ACK_PACKET) with false.
  change (READY_TO_READ_PACKET =? NAK_PACKET) with false.
  change (READY_TO_READ_PACKET =? VERSION_PACKET) with false.
  change (READY_TO_READ_PACKET =? READY_TO_READ_PACKET) with true. cbv iota.
  rewrite store_0.
  change (uint8 READY_TO_READ_PACKET) with READY_TO_READ_PACKET.
  unfold fh_crc_calculate_crc16.
  change (READY_TO_READ_PACKET :: y ++ c)
    with ([] ++ [READY_TO_READ_PACKET] ++ y ++ c).
  rewrite (read_bytes_middle [] [READY_TO_READ_PACKET] (y ++ c))
    by reflexivity.
  cbn [option_map app].
  change packet_id_size with 1.
  rewrite (uint32_small (cap - 1)) by lia.
  change (READY_TO_READ_PACKET :: y ++ c)
    with ([READY_TO_READ_PACKET] ++ y ++ c).
  rewrite memscpy_from_crc_fits by (try assumption; try reflexivity; lia).
  reflexivity.
Qed.

Lemma decode_ready tail dmem cap :
  fh_packet_decode crc16 big_endian
    (Some ([READY_TO_READ_PACKET]
             ++ crc_bytes crc16 big_endian [READY_TO_READ_PACKET] ++ tail))
    3 (Some dmem) cap
  = Done (mk_packet_result 0 PACKET_SUCCESS dmem (Some READY_TO_READ_PACKET)).
Proof.
  unfold fh_packet_decode.
  change (3 =? 0) with false. cbv iota.
  replace (load ([READY_TO_READ_PACKET]
                   ++ crc_bytes crc16 big_endian [READY_TO_READ_PACKET]
                   ++ tail) 0)
    with (Some READY_TO_READ_PACKET) by reflexivity.
  change (READY_TO_READ_PACKET =? ACK_PACKET) with false.
  change (READY_TO_READ_PACKET =? NAK_PACKET) with false.
  change (READY_TO_READ_PACKET =? VERSION_PACKET) with false.
  change ((READY_TO_READ_PACKET =? PROTOCOL_PACKET)
          || (READY_TO_READ_PACKET =? END_OF_TRANSFER_PACKET)) with false.
  change (READY_TO_READ_PACKET =? READY_TO_READ_PACKET) with true. cbv iota.
  change (3 =? packet_id_size + sizeof_crc_data) with true. cbn [negb].
  change (uint32 (3 - sizeof_crc_data)) with 1.
  change packet_id_size with 1.
  rewrite crc_matches_own by reflexivity.
  reflexivity.
Qed.

Lemma encode_ack_nak id src src_length dmem cap :
  id = ACK_PACKET \/ id = NAK_PACKET -> 1 <= zlen dmem ->
  exists tail,
    fh_packet_encode crc16 big_endian id src src_length (Some dmem) cap
    = Done (mk_packet_result 1 PACKET_SUCCESS (id :: tail) None).
Proof.
  intros Hid Hmem.
  destruct dmem as [|x d]; zlens; try lia.
  exists d. unfold fh_packet_encode.
  destruct Hid; subst id.
  - change (ACK_PACKET =? ACK_PACKET) with true. cbv iota.
    rewrite store_0. reflexivity.
  - change (NAK_PACKET =? ACK_PACKET) with false.
    change (NAK_PACKET =? NAK_PACKET) with true. cbv iota.
    rewrite store_0. reflexivity.
Qed.

Lemma decode_ack_nak id tail dmem cap :
  id = ACK_PACKET \/ id = NAK_PACKET ->
  fh_packet_decode crc16 big_endian (Some (id :: tail)) 1 (Some dmem) cap
  = Done (mk_packet_result 0 PACKET_SUCCESS dmem (Some id)).
Proof. intros [->| ->]; reflexivity. Qed.

End PacketProofs.

(** C2.  For each of the six packet ids and every payload that is valid for
    it (at least one byte for [PROTOCOL_PACKET] and
    [END_OF_TRANSFER_PACKET], none for the four control packets), whatever
    the CRC-16 function and the byte order of the host: [fh_packet_encode]
    into a destination that holds the packet returns its size with
    [PACKET_SUCCESS], and [fh_packet_decode] of the bytes it produced, into
    a destination that holds the payload, returns the length of the payload
    with [PACKET_SUCCESS], the same id and the same payload. *)
Theorem packet_round_trip (crc16 : list Z -> Z) (big_endian : bool)
  (id : Z) (p junk dmem1 dmem2 : list Z) (cap1 cap2 : Z) :
  In id [PROTOCOL_PACKET; END_OF_TRANSFER_PACKET; VERSION_PACKET;
         READY_TO_READ_PACKET; ACK_PACKET; NAK_PACKET] ->
  valid_payload id p ->
  packet_size id p <= cap1 < 4294967296 -> cap1 <= zlen dmem1 ->
  zlen p <= cap2 -> cap2 <= zlen dmem2 ->
  exists r1 r2,
    fh_packet_encode crc16 big_endian id (Some (p ++ junk)) (zlen p)
      (Some dmem1) cap1 = Done r1
    /\ pkt_error r1 = PACKET_SUCCESS
    /\ pkt_ret r1 = packet_size id p
    /\ fh_packet_decode crc16 big_endian (Some (pkt_dst r1)) (pkt_ret r1)
         (Some dmem2) cap2 = Done r2
    /\ pkt_error r2 = PACKET_SUCCESS
    /\ pkt_id r2 = Some id
    /\ pkt_ret r2 = zlen p
    /\ pkt_output r2 = p.
Proof.
  intros Hid Hvalid Hcap1 Hmem1 Hcap2 Hmem2.
  cbn [In] in Hid.
  destruct Hid as [Hid|[Hid|[Hid|[Hid|[Hid|[Hid|[]]]]]]]; subst id;
    unfold valid_payload in Hvalid; cbn in Hvalid.
  - destruct Hvalid as [Hlen Hbytes].
    change (packet_size PROTOCOL_PACKET p) with (zlen p + 3) in *.
    destruct (encode_data crc16 big_endian PROTOCOL_PACKET p junk dmem1 cap1)
      as (tail & Henc); auto.
    eexists _, _. split; [exact Henc|]. cbn [pkt_error pkt_ret pkt_dst].
    split; [reflexivity|]. split; [reflexivity|].
    split; [apply decode_data; auto; lia|].
    unfold pkt_output. cbn [pkt_error pkt_ret pkt_dst pkt_id].
    rewrite firstn_zlen_app. auto.
  - destruct Hvalid as [Hlen Hbytes].
    change (packet_size END_OF_TRANSFER_PACKET p) with (zlen p + 3) in *.
    destruct (encode_data crc16 big_endian END_OF_TRANSFER_PACKET p junk dmem1
                cap1) as (tail & Henc); auto.
    eexists _, _. split; [exact Henc|]. cbn [pkt_error pkt_ret pkt_dst].
    split; [reflexivity|]. split; [reflexivity|].
    split; [apply decode_data; auto; lia|].
    unfold pkt_output. cbn [pkt_error pkt_ret pkt_dst pkt_id].
    rewrite firstn_zlen_app. auto.
  - subst p. change (packet_size VERSION_PACKET []) with 5 in *.
    destruct (encode_version crc16 big_endian (Some ([] ++ junk)) (zlen (@nil Z))
                dmem1 cap1) as (tail & Henc); [exact Hcap1|exact Hmem1|].
    eexists _, _. split; [exact Henc|]. cbn [pkt_error pkt_ret pkt_dst].
    split; [reflexivity|]. split; [reflexivity|].
    split; [apply decode_version|]. auto.
  - subst p. change (packet_size READY_TO_READ_PACKET []) with 3 in *.
    destruct (encode_ready crc16 big_endian (Some ([] ++ junk)) (zlen (@nil Z))
                dmem1 cap1) as (tail & Henc); [exact Hcap1|exact Hmem1|].
    eexists _, _. split; [exact Henc|]. cbn [pkt_error pkt_ret pkt_dst].
    split; [reflexivity|]. split; [reflexivity|].
    split; [apply decode_ready|]. auto.
  - subst p. change (packet_size ACK_PACKET []) with 1 in *.
    destruct (encode_ack_nak crc16 big_endian ACK_PACKET (Some ([] ++ junk))
                (zlen (@nil Z)) dmem1 cap1) as (tail & Henc); [auto|lia|].
    eexists _, _. split; [exact Henc|]. cbn [pkt_error pkt_ret pkt_dst].
    split; [reflexivity|]. split; [reflexivity|].
    split; [apply decode_ack_nak; auto|]. auto.
  - subst p. change (packet_size NAK_PACKET []) with 1 in *.
    destruct (encode_ack_nak crc16 big_endian NAK_PACKET (Some ([] ++ junk))
                (zlen (@nil Z)) dmem1 cap1) as (tail & Henc); [auto|lia|].
    eexists _, _. split; [exact Henc|]. cbn [pkt_error pkt_ret pkt_dst].
    split; [reflexivity|]. split; [reflexivity|].
    split; [apply decode_ack_nak; auto|]. auto.
Qed.

Lemma packet_round_trip_witness :
  exists r1 r2,
    fh_packet_encode crc16_of_sum false PROTOCOL_PACKET
      (Some ([1; 0; 3] ++ [])) (zlen [1; 0; 3]) (Some (repeat 170 8)) 8
    = Done r1
    /\ pkt_error r1 = PACKET_SUCCESS
    /\ pkt_ret r1 = packet_size PROTOCOL_PACKET [1; 0; 3]
    /\ fh_packet_decode crc16_of_sum false
         (Some (pkt_dst r1)) (pkt_ret r1) (Some (repeat 170 4)) 4 = Done r2
    /\ pkt_error r2 = PACKET_SUCCESS
    /\ pkt_id r2 = Some PROTOCOL_PACKET
    /\ pkt_ret r2 = zlen [1; 0; 3]
    /\ pkt_output r2 = [1; 0; 3].
Proof.
  apply (packet_round_trip crc16_of_sum false
           PROTOCOL_PACKET [1; 0; 3] [] (repeat 170 8) (repeat 170 4) 8 4).
  - left. reflexivity.
  - split; [vm_compute; discriminate|].
    repeat constructor; unfold is_byte; lia.
  - vm_compute. split; [discriminate|reflexivity].
  - vm_compute. discriminate.
  - vm_compute. discriminate.
  - vm_compute. discriminate.
Defined.
(** ** fh_transport_hsuart.c: the receive ring *)

Lemma zlen_firstn {A} (l : list A) n :
  0 <= n <= zlen l -> zlen (firstn (Z.to_nat n) l) = n.
Proof. intros H. unfold zlen in *. rewrite length_firstn. lia. Qed.

Lemma zlen_skipn {A} (l : list A) n :
  0 <= n <= zlen l -> zlen (skipn (Z.to_nat n) l) = zlen l - n.
Proof. intros H. unfold zlen in *. rewrite length_skipn. lia. Qed.

Lemma zlen_map {A B} (f : A -> B) l : zlen (map f l) = zlen l.
Proof. unfold zlen. now rewrite length_map. Qed.

Lemma read_bytes_some m off n :
  0 <= off -> 0 <= n -> off + n <= zlen m ->
  exists bs, read_bytes m off n = Some bs /\ zlen bs = n.
Proof.
  intros Ho Hn Hm. unfold read_bytes.
  destruct (Z.eqb_spec n 0) as [->|Hn0]; [exists []; auto|].
  destruct (Z.leb_spec 0 off); [|lia]. destruct (Z.leb_spec 0 n); [|lia].
  destruct (Z.leb_spec (off + n) (zlen m)); [|lia]. cbn [andb].
  eexists. split; [reflexivity|].
  rewrite zlen_firstn; [reflexivity|]. rewrite zlen_skipn; lia.
Qed.

Lemma read_bytes_length m off n bs :
  0 <= n -> read_bytes m off n = Some bs -> zlen bs = n.
Proof.
  intros Hn. unfold read_bytes.
  destruct (Z.eqb_spec n 0) as [->|Hn0]; [intros [= <-]; reflexivity|].
  destruct (Z.leb_spec 0 off); [|discriminate].
  destruct (Z.leb_spec 0 n); [|discriminate].
  destruct (Z.leb_spec (off + n) (zlen m)); [|discriminate]. cbn [andb].
  intros [= <-]. rewrite zlen_firstn; [reflexivity|]. rewrite zlen_skipn; lia.
Qed.

Lemma write_bytes_length m off bs m' :
  write_bytes m off bs = Some m' -> zlen m' = zlen m.
Proof.
  unfold write_bytes. destruct bs as [|b bs]; [intros [= <-]; reflexivity|].
  destruct (Z.leb_spec 0 off); [|discriminate].
  destruct (Z.leb_spec (off + zlen (b :: bs)) (zlen m)); [|discriminate].
  cbn [andb]. intros [= <-].
  pose proof (zlen_nonneg bs). rewrite zlen_cons in *.
  rewrite zlen_app, zlen_cons, zlen_app, zlen_map, zlen_firstn by lia.
  replace (Z.to_nat off + S (length bs))%nat
    with (Z.to_nat (off + (zlen bs + 1))) by (unfold zlen; lia).
  rewrite zlen_skipn by lia. lia.
Qed.


Lemma memscpy_length dst doff dst_size src soff src_size dst' :
  memscpy dst doff dst_size src soff src_size = Some dst' ->
  zlen dst' = zlen dst.
Proof.
  unfold memscpy. destruct (read_bytes _ _ _); [|discriminate].
  apply write_bytes_length.
Qed.


Lemma ring_init_ok : ring_ok ring_init.
Proof.
  assert (Hmb : 0 <= ONE_MEGA_BYTE) by (unfold ONE_MEGA_BYTE; lia).
  unfold ring_ok, ring_init. cbn [buffered_length buffered_data_end_ptr
    buffered_data_start_ptr buffered_data].
  split; [reflexivity|]. split; [apply Z.le_refl|]. split; [apply Z.le_refl|].
  split; [exact Hmb|].
  unfold zlen. rewrite repeat_length. apply Z2Nat.id. exact Hmb.
Qed.

Ltac ring_fields :=
  cbn [buffered_length buffered_data_end_ptr buffered_data_start_ptr
       buffered_data fst snd] in *.

Lemma add_data_to_buffer_ok r buffer length ok r' :
  ring_ok r -> 0 <= length < 4294967296 ->
  add_data_to_buffer r buffer length = Done (ok, r') ->
  ring_ok r'
  /\ (ok = false -> r' = r)
  /\ (ONE_MEGA_BYTE - buffered_length r - buffered_data_end_ptr r <= length ->
      ok = false)
  /\ (ok = true ->
      buffered_length r' = buffered_length r + length
      /\ buffered_data_end_ptr r' = buffered_data_end_ptr r + length
      /\ buffered_data_start_ptr r' = buffered_data_start_ptr r).
Proof.
  intros (Hbl & Hs & Hse & He & Hd) Hlen. unfold add_data_to_buffer.
  rewrite (uint32_small (ONE_MEGA_BYTE - buffered_length r))
    by (unfold ONE_MEGA_BYTE in *; lia).
  destruct (Z.ltb_spec length
              (ONE_MEGA_BYTE - buffered_length r
               - (buffered_data_end_ptr r - 0))) as [Hfit|Hfull].
  - destruct (memscpy _ _ _ _ _ _) as [data'|] eqn:Hcopy; [|discriminate].
    cbn [option_map crash_unless]. intros [= <- <-].
    apply memscpy_length in Hcopy.
    rewrite (uint32_small (buffered_length r + length))
      by (unfold ONE_MEGA_BYTE in *; lia).
    unfold ring_ok. ring_fields.
    repeat split; try lia; try discriminate.
  - intros [= <- <-]. unfold ring_ok. repeat split; try lia; try discriminate.
Qed.


Lemma get_data_from_buffer_ok r buffer requested_length n buffer' r' :
  ring_ok r -> 0 <= requested_length < 4294967296 ->
  get_data_from_buffer r buffer requested_length = Done (n, buffer', r') ->
  n = Z.min requested_length (buffered_length r)
  /\ ring_ok r'
  /\ buffered_length r' = buffered_length r - n
  /\ ((buffered_data_start_ptr r' = 0 /\ buffered_data_end_ptr r' = 0)
      <-> buffered_length r' = 0).
Proof.
  intros (Hbl & Hs & Hse & He & Hd) Hreq. unfold get_data_from_buffer.
  destruct (Z.ltb_spec requested_length (buffered_length r)) as [Hpart|Hall].
  - destruct (memscpy _ _ _ _ _ _) as [b'|]; [|discriminate].
    cbn [option_map crash_unless]. intros [= <- <- <-].
    rewrite (uint32_small (buffered_length r - requested_length))
      by (unfold ONE_MEGA_BYTE in *; lia).
    unfold ring_ok. ring_fields. repeat split; try lia.
  - destruct (memscpy _ _ _ _ _ _) as [b'|]; [|discriminate].
    cbn [option_map crash_unless]. intros [= <- <- <-].
    unfold ring_ok. ring_fields.
    repeat split; try lia; unfold ONE_MEGA_BYTE; lia.
Qed.


Lemma ring_reachable_ok r : ring_reachable r -> ring_ok r.
Proof.
  induction 1 as [|r buffer length ok r' _ IH Hlen Hadd
                  |r buffer req n buffer' r' _ IH Hreq Hget].
  - apply ring_init_ok.
  - apply (add_data_to_buffer_ok r buffer length ok r' IH Hlen Hadd).
  - apply (get_data_from_buffer_ok r buffer req n buffer' r' IH Hreq Hget).
Qed.



(* --------------------------------------------------------------------- *)
(** ** Transport dispatch                                                 *)
(* --------------------------------------------------------------------- *)

Section TransportProofs.

Variable run_op : Z -> transport_op -> fh_res_t.

Lemma fh_transport_init_installs (t : Z) (d : dispatch) :
  fh_transport_init dispatch_init t = (SUCCESS, d) -> initialized d.
Proof.
  unfold fh_transport_init, initialized, dispatch_init. cbn.
  destruct (t =? FH_TRANSPORT_NONE) eqn:E0; [discriminate|].
  apply Z.eqb_neq in E0.
  repeat match goal with
  | |- context [if ?b then _ else _] => destruct b
  end; intros H; inversion H; subst; cbn; split; (assumption || discriminate).
Qed.

Lemma fh_transport_init_refused (d : dispatch) (t : Z) :
  session_transport_type d <> FH_TRANSPORT_NONE ->
  fh_transport_init d t = (INVALID_PARAMETER, d).
Proof.
  intros H. unfold fh_transport_init.
  apply Z.eqb_neq in H. rewrite H. reflexivity.
Qed.

Lemma fh_transport_deinit_idle (d : dispatch) :
  session_transport_type d <> FH_TRANSPORT_NONE ->
  fh_transport_deinit d = (SUCCESS, d).
Proof.
  intros H. unfold fh_transport_deinit.
  apply Z.eqb_neq in H. rewrite H. reflexivity.
Qed.

Lemma through_ops_installed (d : dispatch) (op : transport_op) :
  initialized d ->
  exists r d',
    through_ops run_op d op = Done (r, d')
    /\ session_transport_type d' = session_transport_type d
    /\ transport d' = transport d.
Proof.
  intros [H1 H2]. unfold through_ops.
  apply Z.eqb_neq in H1. rewrite H1.
  destruct (transport d) as [t|] eqn:E; [|congruence].
  eexists. eexists. split; [reflexivity|]. cbn. auto.
Qed.

Lemma dispatch_step_installed (d : dispatch) (c : dispatch_call) :
  initialized d ->
  exists d',
    dispatch_step run_op d c = Done d'
    /\ session_transport_type d' = session_transport_type d
    /\ transport d' = transport d.
Proof.
  intros H.
  assert (T : forall op,
             exists d',
               bind (through_ops run_op d op) (fun r => Done (snd r)) = Done d'
               /\ session_transport_type d' = session_transport_type d
               /\ transport d' = transport d).
  { intros op.
    destruct (through_ops_installed d op H) as (r & d' & E & Hs & Ht).
    rewrite E. cbn. eauto. }
  destruct c; cbn [dispatch_step].
  - rewrite fh_transport_init_refused by apply H. cbn. eauto.
  - rewrite fh_transport_deinit_idle by apply H. cbn. eauto.
  - apply (T op_open).
  - apply (T op_rx_blocking).
  - apply (T op_tx_blocking).
  - apply (T op_close).
Qed.

Lemma dispatch_run_installed (cs : list dispatch_call) (d : dispatch) :
  initialized d ->
  exists d',
    dispatch_run run_op d cs = Done d'
    /\ session_transport_type d' = session_transport_type d
    /\ transport d' = transport d.
Proof.
  revert d. induction cs as [|c cs IH]; intros d H.
  - exists d. cbn. auto.
  - destruct (dispatch_step_installed d c H) as (d1 & E & Hs & Ht).
    assert (H1 : initialized d1).
    { destruct H. split; congruence. }
    destruct (IH d1 H1) as (d2 & E2 & Hs2 & Ht2).
    exists d2. cbn [dispatch_run]. rewrite E. cbn. rewrite E2.
    split; [reflexivity|]. split; congruence.
Qed.

End TransportProofs.

(** C10.  On an initialized session [fh_transport_deinit] returns [SUCCESS]
    and leaves the dispatch state as it was: the operations of the selected
    transport that have been invoked are the same, none added, [close]
    included, and the current-transport slot still holds the type.  Whatever
    calls follow, they all return, the slot keeps its value, and every
    [fh_transport_init], with any transport type, returns
    [INVALID_PARAMETER] and changes nothing. *)
Theorem deinit_keeps_session_installed
  (run_op : Z -> transport_op -> fh_res_t) (d : dispatch) :
  initialized d ->
  fh_transport_deinit d = (SUCCESS, d)
  /\ ops_called (snd (fh_transport_deinit d)) = ops_called d
  /\ session_transport_type (snd (fh_transport_deinit d))
     = session_transport_type d
  /\ forall cs : list dispatch_call,
       exists d',
         dispatch_run run_op (snd (fh_transport_deinit d)) cs = Done d'
         /\ session_transport_type d' = session_transport_type d
         /\ forall t : Z, fh_transport_init d' t = (INVALID_PARAMETER, d').
Proof.
  intros H.
  rewrite (fh_transport_deinit_idle d) by apply H. cbn [snd].
  split; [reflexivity|]. split; [reflexivity|]. split; [reflexivity|].
  intros cs.
  destruct (dispatch_run_installed run_op cs d H) as (d' & E & Hs & Ht).
  exists d'. split; [exact E|]. split; [exact Hs|].
  intros t. apply fh_transport_init_refused. rewrite Hs. apply H.
Qed.

Lemma deinit_keeps_session_installed_witness :
  let d := snd (fh_transport_init dispatch_init FH_TRANSPORT_HSUART) in
  fh_transport_deinit d = (SUCCESS, d)
  /\ fh_transport_init (snd (fh_transport_deinit d)) FH_TRANSPORT_COM
     = (INVALID_PARAMETER, d).
Proof.
  cbv zeta.
  assert (H : initialized (snd (fh_transport_init dispatch_init FH_TRANSPORT_HSUART))).
  { split; cbn; discriminate. }
  destruct (deinit_keeps_session_installed (fun _ _ => SUCCESS) _ H)
    as (E & _ & _ & _).
  split; [exact E|]. rewrite E. reflexivity.
Defined.

(* --------------------------------------------------------------------- *)
(** ** The VIP injector                                                   *)
(* --------------------------------------------------------------------- *)

Lemma uint64_small (a : Z) : 0 <= a < 18446744073709551616 -> uint64 a = a.
Proof. intros H. unfold uint64. apply Z.mod_small. exact H. Qed.

Section VipProofs.

Variable W : Type.
Variable send_signed send_chained : W -> fh_res_t * W.
Variable tx : W -> list Z -> Z -> fh_res_t * W.

Local Abbreviation tx_blocking := (fh_tx_blocking W send_signed send_chained tx).
Local Abbreviation run := (tx_run W send_signed send_chained tx).










End VipProofs.





(* --------------------------------------------------------------------- *)
(** ** The XML reassembler                                                *)
(* --------------------------------------------------------------------- *)

Lemma Forall_firstn_keep {A} (P : A -> Prop) (n : nat) (l : list A) :
  Forall P l -> Forall P (firstn n l).
Proof.
  intros H. revert n. induction H as [|x l Hx _ IH]; intros [|n]; cbn;
    constructor; auto.
Qed.

Lemma Forall_skipn_keep {A} (P : A -> Prop) (n : nat) (l : list A) :
  Forall P l -> Forall P (skipn n l).
Proof.
  intros H. revert n. induction H as [|x l Hx Hl IH]; intros [|n]; cbn;
    try constructor; auto.
Qed.

Lemma Forall_repeat_zero (n : nat) : Forall is_byte (repeat 0 n).
Proof. induction n; cbn; constructor; [unfold is_byte; lia|assumption]. Qed.

Lemma load_range (m : list Z) (p x : Z) :
  load m p = Some x -> 0 <= p < zlen m.
Proof.
  unfold load. destruct (Z.ltb_spec p 0); [discriminate|].
  intros Hl. assert (Hn : nth_error m (Z.to_nat p) <> None) by congruence.
  apply nth_error_Some in Hn. unfold zlen. lia.
Qed.

(** A loop that returns has met a turn that stops, in a state that the
    turns before it have kept within any invariant. *)
Lemma iterate_invariant {S R : Type} (P : S -> Prop) (body : S -> step S R)
  (fuel : nat) (s : S) (r : R) :
  P s -> (forall s0 s1, P s0 -> body s0 = Next s1 -> P s1) ->
  iterate body fuel s = Done r -> exists s', P s' /\ body s' = Stop r.
Proof.
  intros Hs Hk. revert s Hs. induction fuel as [|fuel IH]; intros s Hs.
  - discriminate.
  - cbn [iterate]. destruct (body s) as [s1|r1| |] eqn:E; try discriminate.
    + apply IH. apply (Hk s s1 Hs E).
    + intros [= <-]. exists s. auto.
Qed.

Lemma match_chars_true (xml : list Z) (pattern : list Z) (offset offset' : Z) :
  zlen xml < 18446744073709551616 -> pattern <> [] ->
  match_chars xml offset pattern = Some (true, offset') ->
  0 <= offset /\ offset' = offset + zlen pattern
  /\ offset + zlen pattern <= zlen xml.
Proof.
  intros Hx. revert offset. induction pattern as [|c pattern IH]; intros offset Hp.
  - congruence.
  - cbn [match_chars]. destruct (load xml offset) as [x|] eqn:El; [|discriminate].
    apply load_range in El.
    destruct (x =? c); [|discriminate].
    rewrite uint64_small by lia.
    destruct pattern as [|c' pattern].
    + cbn [match_chars]. intros [= <-]. zlens. lia.
    + intros H. apply IH in H; [|discriminate]. revert H. zlens. lia.
Qed.

Lemma find_data_close_bound (xml : list Z) (last_offset offset : Z)
  (fuel : nat) (size : Z) :
  zlen xml < 18446744073709551616 ->
  find_data_close xml last_offset offset fuel = Done size ->
  size = 0 \/ 7 <= size <= last_offset + 7.
Proof.
  intros Hx H. unfold find_data_close in H.
  apply (iterate_invariant (fun _ => True)) in H; [|exact I|auto].
  destruct H as (o & _ & H).
  destruct (Z.leb_spec o last_offset); cbn [negb] in H.
  - destruct (match_chars xml o (chars "</data>")) as [[[|] o1]|] eqn:E;
      try discriminate.
    injection H as <-.
    apply match_chars_true in E; [|exact Hx|discriminate].
    change (zlen (chars "</data>")) with 7 in E. right. lia.
  - injection H as <-. left. reflexivity.
Qed.

Lemma bind_done {A B : Type} (o : outcome A) (k : A -> outcome B) (b : B) :
  bind o k = Done b -> exists a, o = Done a /\ k a = Done b.
Proof. destruct o; cbn; try discriminate. eauto. Qed.

Lemma response_xml_parse_bound (xml : list Z) (xml_size : Z) (p : parse_result) :
  zlen xml < 18446744073709551616 ->
  0 <= xml_size < 18446744073709551616 ->
  response_xml_parse xml xml_size = Done p ->
  parsed_size p = 0 \/ 7 <= parsed_size p <= xml_size.
Proof.
  intros Hx Hs. unfold response_xml_parse.
  destruct (Z.ltb_spec xml_size 12) as [Hlt|Hge].
  - intros [= <-]. left. reflexivity.
  - rewrite uint64_small by lia. intros H.
    apply bind_done in H. destruct H as (o1 & _ & H).
    apply bind_done in H. destruct H as ([o2|] & _ & H).
    2:{ injection H as <-. left. reflexivity. }
    apply bind_done in H. destruct H as ([o3|] & _ & H).
    2:{ injection H as <-. left. reflexivity. }
    apply bind_done in H. destruct H as (st & _ & H).
    apply bind_done in H. destruct H as (size & H & E).
    injection E as <-. cbn [parsed_size].
    apply find_data_close_bound in H; [|exact Hx]. lia.
Qed.

Lemma read_bytes_exact (m : list Z) (off n : Z) :
  0 <= off -> 0 <= n -> off + n <= zlen m ->
  read_bytes m off n
  = Some (firstn (Z.to_nat n) (skipn (Z.to_nat off) m)).
Proof.
  intros Ho Hn Hm. unfold read_bytes.
  destruct (Z.eqb_spec n 0) as [->|Hn0]; [reflexivity|].
  destruct (Z.leb_spec 0 off); [|lia]. destruct (Z.leb_spec 0 n); [|lia].
  destruct (Z.leb_spec (off + n) (zlen m)); [|lia]. reflexivity.
Qed.

Lemma write_bytes_exact (m : list Z) (off : Z) (bs : list Z) :
  0 <= off -> off + zlen bs <= zlen m ->
  write_bytes m off bs
  = Some (firstn (Z.to_nat off) m ++ map uint8 bs
          ++ skipn (Z.to_nat off + length bs) m).
Proof.
  intros Ho Hm. unfold write_bytes. destruct bs as [|b bs].
  - cbn [map length app]. rewrite Nat.add_0_r, firstn_skipn. reflexivity.
  - destruct (Z.leb_spec 0 off); [|lia].
    destruct (Z.leb_spec (off + zlen (b :: bs)) (zlen m)); [|lia].
    reflexivity.
Qed.

Lemma map_uint8_repeat_zero (n : nat) : map uint8 (repeat 0 n) = repeat 0 n.
Proof. apply map_uint8_bytes, Forall_repeat_zero. Qed.

Lemma shift_fh_rx_buffer_left_advances (s : scratch) (n : Z) :
  scratch_ok s -> 0 <= n <= fh_rx_buffer_bytes s ->
  shift_fh_rx_buffer_left s n = Some (advanced s n).
Proof.
  intros (Hlen & Hb & Hc) Hn.
  unfold shift_fh_rx_buffer_left, memsmove, memscpy, zero_bytes, advanced.
  destruct s as [buf k]. cbn [fh_rx_buffer fh_rx_buffer_bytes] in *.
  unfold sizeof_fh_rx_buffer in *.
  rewrite uint64_small by lia.
  replace (if 4 * 1024 <=? k - n then 4 * 1024 else k - n) with (k - n)
    by (destruct (Z.leb_spec (4 * 1024) (k - n)); lia).
  rewrite read_bytes_exact by lia.
  set (b := firstn (Z.to_nat (k - n)) (skipn (Z.to_nat n) buf)).
  assert (Hbl : length b = Z.to_nat (k - n)).
  { unfold b. rewrite length_firstn, length_skipn. unfold zlen in Hlen. lia. }
  assert (Hbb : Forall is_byte b).
  { unfold b. apply Forall_firstn_keep, Forall_skipn_keep, Hb. }
  rewrite write_bytes_exact by (unfold zlen in *; lia).
  rewrite (map_uint8_bytes b Hbb). cbn [Z.to_nat firstn app Nat.add].
  rewrite write_bytes_exact;
    [|lia|unfold zlen in *; rewrite length_app, length_skipn, repeat_length; lia].
  cbn [option_map]. rewrite map_uint8_repeat_zero, repeat_length.
  rewrite <- Hbl at 1. rewrite firstn_app, Nat.sub_diag, firstn_all.
  cbn [firstn]. rewrite app_nil_r.
  rewrite skipn_app, Hbl.
  rewrite (skipn_all2 b) by lia. cbn [app].
  rewrite skipn_skipn.
  replace (Z.to_nat (k - n) + Z.to_nat n - Z.to_nat (k - n) + Z.to_nat (k - n))%nat
    with (Z.to_nat k) by lia.
  reflexivity.
Qed.

Lemma advanced_ok (s : scratch) (n : Z) :
  scratch_ok s -> 0 <= n <= fh_rx_buffer_bytes s -> scratch_ok (advanced s n).
Proof.
  intros (Hlen & Hb & Hc) Hn. unfold scratch_ok, advanced.
  cbn [fh_rx_buffer fh_rx_buffer_bytes].
  split; [|split].
  - unfold zlen in *.
    rewrite !length_app, length_firstn, !length_skipn, repeat_length. lia.
  - apply Forall_app. split; [apply Forall_firstn_keep, Forall_skipn_keep, Hb|].
    apply Forall_app. split; [apply Forall_repeat_zero|].
    apply Forall_skipn_keep, Hb.
  - lia.
Qed.

Lemma start_buf_with_xml_ok (s : scratch) (r : Z) (s1 : scratch) :
  scratch_ok s -> start_buf_with_xml s = Done (r, s1) -> scratch_ok s1.
Proof.
  intros Hs. pose proof Hs as (Hlen & Hb & Hc). unfold start_buf_with_xml.
  destruct (Z.ltb_spec (fh_rx_buffer_bytes s) 6) as [Hlt|Hge].
  - intros [= _ <-]. exact Hs.
  - intros H. apply bind_done in H. destruct H as (offset & Hi & H).
    apply (iterate_invariant (fun o => 0 <= o <= fh_rx_buffer_bytes s)) in Hi.
    + destruct Hi as (o & Ho & Hi).
      assert (Hoff : 0 <= offset <= fh_rx_buffer_bytes s).
      { destruct (Z.ltb_spec o (fh_rx_buffer_bytes s)); cbn [negb] in Hi.
        - destruct (match_at (fh_rx_buffer s) o (chars "<?xml")) as [[|]|];
            try discriminate.
          injection Hi as <-. exact Ho.
        - injection Hi as <-. exact Ho. }
      destruct (Z.eqb_spec offset 0).
      * injection H as _ <-. exact Hs.
      * destruct (Z.ltb_spec offset (fh_rx_buffer_bytes s)).
        -- rewrite shift_fh_rx_buffer_left_advances in H by (auto; lia).
           cbn in H. injection H as _ <-. apply advanced_ok; auto; lia.
        -- unfold zero_bytes in H.
           destruct (write_bytes (fh_rx_buffer s) 0
                       (repeat 0 (Z.to_nat (fh_rx_buffer_bytes s)))) as [b|] eqn:E;
             [|discriminate].
           cbn in H. injection H as _ <-.
           rewrite write_bytes_exact in E
             by (unfold zlen in *; rewrite ?repeat_length; lia).
           injection E as <-. unfold scratch_ok. cbn [fh_rx_buffer fh_rx_buffer_bytes].
           split; [|split].
           ++ unfold zlen in *. cbn [Z.to_nat firstn app Nat.add].
              rewrite length_app, length_map, length_skipn, !repeat_length. lia.
           ++ cbn [Z.to_nat firstn app]. rewrite map_uint8_repeat_zero.
              apply Forall_app. split; [apply Forall_repeat_zero|].
              apply Forall_skipn_keep, Hb.
           ++ unfold sizeof_fh_rx_buffer. lia.
    + lia.
    + intros o o1 Ho. unfold sizeof_fh_rx_buffer in *.
      destruct (Z.ltb_spec o (fh_rx_buffer_bytes s)); cbn [negb]; [|discriminate].
      destruct (match_at (fh_rx_buffer s) o (chars "<?xml")) as [[|]|];
        try discriminate.
      intros [= <-]. rewrite uint64_small by lia. lia.
Qed.

Lemma read_bytes_prefix (m : list Z) (off n k : Z) (bs : list Z) :
  read_bytes m off n = Some bs -> 0 < k <= n ->
  read_bytes m off k = Some (firstn (Z.to_nat k) bs).
Proof.
  unfold read_bytes. intros H Hk.
  destruct (Z.eqb_spec n 0); [lia|]. destruct (Z.eqb_spec k 0); [lia|].
  destruct (Z.leb_spec 0 off); [|discriminate].
  destruct (Z.leb_spec 0 n); [|lia].
  destruct (Z.leb_spec (off + n) (zlen m)); [|discriminate].
  destruct (Z.leb_spec 0 k); [|lia].
  destruct (Z.leb_spec (off + k) (zlen m)); [|lia].
  cbn [andb] in *. injection H as <-.
  rewrite firstn_firstn. f_equal. f_equal. lia.
Qed.

Lemma response_is_not_log (m : list Z) (command : Z) :
  memcmp_eq m command (chars "response") = Some true ->
  memcmp_eq m command (chars "log") = Some false.
Proof.
  unfold memcmp_eq.
  destruct (read_bytes m command (zlen (chars "response"))) as [bs|] eqn:E;
    [|discriminate].
  cbn [option_map].
  destruct (list_eq_dec Z.eq_dec bs (chars "response")) as [->|]; [|discriminate].
  intros _.
  rewrite (read_bytes_prefix _ _ _ (zlen (chars "log")) _ E)
    by (vm_compute; split; [reflexivity|discriminate]).
  cbn [option_map].
  destruct (list_eq_dec Z.eq_dec _ (chars "log")) as [E'|]; [|reflexivity].
  vm_compute in E'. discriminate.
Qed.

Section ReassemblerProofs.

Variable W : Type.
Variable timeval : Type.
Variable transport_rx_blocking : W -> Z -> fh_res_t * list Z * W.
Variable gettimeofday : W -> timeval * W.
Variable ReturnTimeInSeconds : timeval -> timeval -> QArith_base.Q.

Lemma deliver_response_delivery (data : list Z) (size : Z) (p : parse_result)
  (st : rx_state W timeval) :
  scratch_ok (now_scratch st) ->
  0 <= size <= zlen data ->
  0 < parsed_size p <= fh_rx_buffer_bytes (now_scratch st) ->
  deliver_response W timeval data size p st
  = Done (delivery data size (now_scratch st) (parsed_size p) (now_world st)).
Proof.
  intros Hs Hd Hn. pose proof Hs as (Hlen & Hb & Hc).
  unfold deliver_response, delivery, memscpy.
  set (n := parsed_size p) in *. set (s := now_scratch st) in *.
  unfold sizeof_fh_rx_buffer in *.
  destruct (Z.leb_spec size n) as [Hsn|Hsn].
  - rewrite read_bytes_exact by lia.
    rewrite write_bytes_exact
      by (unfold zlen in *; rewrite ?length_firstn; cbn [skipn]; lia).
    cbn [Z.to_nat firstn skipn app Nat.add].
    rewrite map_uint8_bytes by (apply Forall_firstn_keep, Hb).
    rewrite length_firstn.
    replace (Nat.min (Z.to_nat size) (length (fh_rx_buffer s)))
      with (Z.to_nat size) by (unfold zlen in *; lia).
    destruct (Z.ltb_spec size n) as [Hlt|Hge].
    + destruct (Z.leb_spec n size); [lia|]. reflexivity.
    + assert (size = n) by lia. subst size.
      rewrite Z.leb_refl.
      rewrite shift_fh_rx_buffer_left_advances by (auto; lia).
      reflexivity.
  - rewrite read_bytes_exact by lia.
    rewrite write_bytes_exact
      by (unfold zlen in *; rewrite ?length_firstn; cbn [skipn]; lia).
    cbn [Z.to_nat firstn skipn app Nat.add].
    rewrite map_uint8_bytes by (apply Forall_firstn_keep, Hb).
    rewrite length_firstn.
    replace (Nat.min (Z.to_nat n) (length (fh_rx_buffer s)))
      with (Z.to_nat n) by (unfold zlen in *; lia).
    rewrite Z.ltb_irrefl.
    destruct (Z.leb_spec n size); [|lia].
    rewrite shift_fh_rx_buffer_left_advances by (auto; lia).
    reflexivity.
Qed.

Lemma rx_turn_delivers (data : list Z) (size : Z) (fuel : nat)
  (st : rx_state W timeval) (s1 : scratch) (p : parse_result) (command : Z) :
  scratch_ok (now_scratch st) ->
  0 <= size <= zlen data ->
  start_buf_with_xml (now_scratch st) = Done (0, s1) ->
  response_xml_parse (fh_rx_buffer s1) (fh_rx_buffer_bytes s1) = Done p ->
  parsed_size p <> 0 ->
  parsed_tag p = Some command ->
  memcmp_eq (fh_rx_buffer s1) command (chars "response") = Some true ->
  0 < parsed_size p <= fh_rx_buffer_bytes s1
  /\ rx_turn W timeval transport_rx_blocking gettimeofday ReturnTimeInSeconds
       data size (S fuel) st
     = Stop (delivery data size s1 (parsed_size p) (now_world st)).
Proof.
  intros Hs Hd H1 H2 H3 H4 H5.
  pose proof (start_buf_with_xml_ok _ _ _ Hs H1) as Hs1.
  pose proof Hs1 as (Hlen & Hb & Hc). unfold sizeof_fh_rx_buffer in *.
  assert (Hn : 0 < parsed_size p <= fh_rx_buffer_bytes s1).
  { apply response_xml_parse_bound in H2; lia. }
  split; [exact Hn|].
  unfold rx_turn, await_xml_start. cbn [iterate]. rewrite H1.
  cbn [call fst snd negb Z.eqb]. unfold await_envelope. cbn [iterate].
  cbn [now_scratch now_world start_time]. rewrite H2. cbn [call].
  destruct (Z.eqb_spec (parsed_size p) 0) as [|_]; [contradiction|].
  cbn [call fst snd now_scratch now_world]. rewrite H4.
  rewrite (response_is_not_log _ _ H5), H5.
  rewrite deliver_response_delivery by assumption.
  reflexivity.
Qed.

End ReassemblerProofs.


Lemma all_bytes_sound (l : list Z) : all_bytes l = true -> Forall is_byte l.
Proof.
  unfold all_bytes. intros H. apply Forall_forall. intros b Hb.
  apply (proj1 (forallb_forall _ l) H) in Hb.
  apply andb_true_iff in Hb. unfold is_byte. lia.
Qed.


(* --------------------------------------------------------------------- *)
(** ** Where the code departs from its description                        *)
(* --------------------------------------------------------------------- *)

(** C3.  The fragmentation does not hold for a length that is a multiple of
    4000.  With the target in read mode, a write of 4000 bytes computes one
    packet of [4000 % 4000 = 0] bytes with id [END_OF_TRANSFER_PACKET]; the
    encoder refuses the empty payload, so nothing is handed to the port, no
    byte is counted and the function returns FALSE.  This is so for every
    buffer, CRC, byte order, ring and port. *)
Theorem write_of_4000_bytes_sends_no_frame
  (crc16 : list Z -> Z) (big_endian : bool) (r : hsuart_ring) (u : uart)
  (s : list Z) :
  fh_transport_hsuart_write crc16 big_endian (mk_hsuart true r u) s 4000 0
  = Done (false, 0, mk_hsuart false r u).
Proof. vm_compute. reflexivity. Qed.

(** C5.  The stuffing half does not hold.  The three bytes 01 02 03 encode
    to the five bytes 04 01 02 03 00.  With a destination capacity of four,
    [fh_cobs_stuff_bytes] returns 5 with [COBS_SUCCESS], and the terminator
    has been stored at offset 4, one past the capacity, in whatever follows
    the destination; when nothing addressable follows it, the store is
    outside the memory. *)
Theorem stuff_one_byte_short_reports_success :
  cobs_encoding [1; 2; 3] = [4; 1; 2; 3; 0]
  /\ fh_cobs_stuff_bytes (Some [1; 2; 3]) 3 (Some [170; 170; 170; 170; 170]) 4
     = Done (mk_cobs_result 5 COBS_SUCCESS [4; 1; 2; 3; 0] [2; 1; 0]
               [4; 0; 3; 2; 1])
  /\ fh_cobs_stuff_bytes (Some [1; 2; 3]) 3 (Some [170; 170; 170; 170]) 4
     = Crash.
Proof. vm_compute. repeat split; reflexivity. Qed.

(** C6.  [fh_cobs_unstuff_bytes] tests [src_length] against zero and never
    again.  For the source 05 01 02 03 04 00 declared with a length of 2,
    the first code byte points past the declared end; the function follows
    it, reads the bytes at offsets 2 to 5, and returns 4 with
    [COBS_SUCCESS].  When the source really ends after two bytes, the read
    at offset 2 is outside the memory. *)
Theorem unstuff_reads_past_declared_length :
  fh_cobs_unstuff_bytes (Some [5; 1; 2; 3; 4; 0]) 2 (Some (repeat 170 8)) 8
  = Done (mk_cobs_result 4 COBS_SUCCESS [1; 2; 3; 4; 170; 170; 170; 170]
            [5; 4; 3; 2; 1; 0] [3; 2; 1; 0])
  /\ fh_cobs_unstuff_bytes (Some [5; 1]) 2 (Some (repeat 170 8)) 8 = Crash.
Proof. vm_compute. split; reflexivity. Qed.

(** C7.  [fh_transport_hsuart_tx_blocking] has no [WRITE_PORT_ERROR] to
    return.  With the port down the first write attempt fails, and the
    function returns [READ_PORT_ERROR] after that one attempt. *)
Theorem tx_blocking_reports_read_port_error (r : hsuart_ring) :
  fh_transport_hsuart_tx_blocking crc16_of_sum false
    (mk_hsuart true r (mk_uart false [] [])) [1; 2; 3] 3
  = Done (READ_PORT_ERROR, 1%nat, mk_hsuart false r (mk_uart false [] [])).
Proof. vm_compute. reflexivity. Qed.
(* --------------------------------------------------------------------- *)
(** ** Further properties of the code                                     *)
(* --------------------------------------------------------------------- *)

(** *** COBS *)

(** With a destination one byte shorter than the stuffed stream,
    [fh_cobs_stuff_bytes] still returns the full length with
    [COBS_SUCCESS]: the check after the terminator has been stored is
    skipped once the source is consumed, and the terminator has gone to the
    offset that equals the capacity. *)
Theorem stuff_one_byte_short (s junk dmem : list Z) :
  s <> [] -> Forall is_byte s ->
  zlen (cobs_encoding s) < 4294967296 ->
  zlen (cobs_encoding s) <= zlen dmem ->
  exists r,
    fh_cobs_stuff_bytes (Some (s ++ junk)) (zlen s) (Some dmem)
      (zlen (cobs_encoding s) - 1) = Done r
    /\ cobs_error r = COBS_SUCCESS
    /\ cobs_ret r = zlen (cobs_encoding s)
    /\ cobs_output r = cobs_encoding s
    /\ In (zlen (cobs_encoding s) - 1) (cobs_stored r).
Proof.
  intros Hne Hbytes Hmax Hmem.
  pose proof (cobs_encoding_length s) as Hsize.
  pose proof (zlen_nonneg s) as Hs0.
  destruct (stuff_encodes s junk dmem (zlen (cobs_encoding s) - 1))
    as (tail & ld & stl & Hrun & _); try assumption; try lia.
  eexists. split; [exact Hrun|]. regs.
  split; [reflexivity|]. split; [reflexivity|].
  split; [unfold cobs_output; regs; apply firstn_zlen_app|].
  left. reflexivity.
Qed.

Lemma stuff_one_byte_short_witness :
  exists r,
    fh_cobs_stuff_bytes (Some ([17; 34; 0; 51] ++ [])) (zlen [17; 34; 0; 51])
      (Some (repeat 170 6)) (zlen (cobs_encoding [17; 34; 0; 51]) - 1) = Done r
    /\ cobs_error r = COBS_SUCCESS
    /\ cobs_ret r = zlen (cobs_encoding [17; 34; 0; 51])
    /\ cobs_output r = cobs_encoding [17; 34; 0; 51]
    /\ In (zlen (cobs_encoding [17; 34; 0; 51]) - 1) (cobs_stored r).
Proof.
  apply (stuff_one_byte_short [17; 34; 0; 51] [] (repeat 170 6)).
  - discriminate.
  - repeat constructor; unfold is_byte; lia.
  - vm_compute. reflexivity.
  - vm_compute. discriminate.
Defined.

(** [fh_cobs_unstuff_bytes] uses the declared source length for nothing but
    the test against zero: two calls that differ only in a non-zero
    [src_length] end alike. *)
Theorem unstuff_ignores_src_length (src dst : option (list Z))
  (n1 n2 dst_length : Z) :
  n1 <> 0 -> n2 <> 0 ->
  fh_cobs_unstuff_bytes src n1 dst dst_length
  = fh_cobs_unstuff_bytes src n2 dst dst_length.
Proof.
  intros H1 H2. unfold fh_cobs_unstuff_bytes.
  destruct (Z.eqb_spec n1 0); [contradiction|].
  destruct (Z.eqb_spec n2 0); [contradiction|].
  reflexivity.
Qed.

Lemma unstuff_ignores_src_length_witness :
  fh_cobs_unstuff_bytes (Some [3; 17; 34; 2; 51; 0]) 1 (Some (repeat 170 8)) 8
  = fh_cobs_unstuff_bytes (Some [3; 17; 34; 2; 51; 0]) 6 (Some (repeat 170 8)) 8.
Proof.
  apply (unstuff_ignores_src_length (Some [3; 17; 34; 2; 51; 0])
           (Some (repeat 170 8)) 1 6 8); discriminate.
Defined.

(** The argument checks of the two functions.  [fh_cobs_stuff_bytes]
    reports a null source, a null destination and a zero length in that
    order.  [fh_cobs_unstuff_bytes] has read [*src] before it tests
    anything: a null source is dereferenced; with a readable source it
    reports a null destination and a zero length. *)
Theorem cobs_argument_checks :
  (forall n dst cap,
     exists r, fh_cobs_stuff_bytes None n dst cap = Done r
               /\ cobs_ret r = 0 /\ cobs_error r = COBS_ERROR_NULL_SRC_BUFFER)
  /\ (forall src n cap,
        exists r, fh_cobs_stuff_bytes (Some src) n None cap = Done r
                  /\ cobs_ret r = 0
                  /\ cobs_error r = COBS_ERROR_NULL_DST_BUFFER)
  /\ (forall src dst cap,
        exists r, fh_cobs_stuff_bytes (Some src) 0 (Some dst) cap = Done r
                  /\ cobs_ret r = 0 /\ cobs_error r = COBS_ERROR_INVALID_LENGTH)
  /\ (forall src dst n,
        exists r, fh_cobs_stuff_bytes (Some src) n (Some dst) 0 = Done r
                  /\ cobs_ret r = 0 /\ cobs_error r = COBS_ERROR_INVALID_LENGTH)
  /\ (forall n dst cap, fh_cobs_unstuff_bytes None n dst cap = Crash)
  /\ (forall b src n cap,
        exists r, fh_cobs_unstuff_bytes (Some (b :: src)) n None cap = Done r
                  /\ cobs_ret r = 0
                  /\ cobs_error r = COBS_ERROR_NULL_DST_BUFFER)
  /\ (forall b src dst cap,
        exists r,
          fh_cobs_unstuff_bytes (Some (b :: src)) 0 (Some dst) cap = Done r
          /\ cobs_ret r = 0 /\ cobs_error r = COBS_ERROR_INVALID_LENGTH)
  /\ (forall b src dst n,
        exists r,
          fh_cobs_unstuff_bytes (Some (b :: src)) n (Some dst) 0 = Done r
          /\ cobs_ret r = 0 /\ cobs_error r = COBS_ERROR_INVALID_LENGTH).
Proof.
  repeat split; intros; unfold fh_cobs_stuff_bytes, fh_cobs_unstuff_bytes;
    cbn [load Z.ltb Z.compare Z.to_nat nth_error Z.eqb];
    try reflexivity;
    try (eexists; split; [reflexivity|split; reflexivity]);
    destruct (n =? 0); eexists; split; try reflexivity; split; reflexivity.
Qed.

(** *** COBS: how much the stream grows, and a destination that is too
    short for the decoder *)

Lemma block_rest_growth s : forall n,
  0 <= n <= 254 ->
  zlen (block_rest n s) = zlen s + 1
  \/ 254 * (zlen (block_rest n s) - zlen s - 1) <= n + zlen s - 1.
Proof.
  induction s as [|b s IH]; intros n Hn.
  - left. reflexivity.
  - pose proof (zlen_nonneg s).
    destruct (Z.eq_dec n 254) as [->|Hroom].
    + right. cbn [block_rest]. change (254 =? 254) with true. cbv iota.
      destruct (b =? 0); zlens.
      * specialize (IH 0). lia.
      * specialize (IH 1). lia.
    + destruct (Z.eq_dec b 0) as [->|Hnz].
      * rewrite block_rest_zero by assumption. zlens. specialize (IH 0). lia.
      * rewrite block_rest_data by assumption. zlens.
        specialize (IH (n + 1)). lia.
Qed.

(** The stream that [fh_cobs_stuff_bytes] returns for [len] source bytes is
    at least two bytes longer than the source and at most
    [ceil(len/254) + 1]. *)
Theorem stuff_expansion (s junk dmem : list Z) (cap : Z) :
  s <> [] -> Forall is_byte s ->
  zlen (cobs_encoding s) <= cap < 4294967296 -> cap <= zlen dmem ->
  exists r,
    fh_cobs_stuff_bytes (Some (s ++ junk)) (zlen s) (Some dmem) cap = Done r
    /\ cobs_error r = COBS_SUCCESS
    /\ zlen s + 2 <= cobs_ret r <= zlen s + (zlen s + 253) / 254 + 1.
Proof.
  intros Hne Hbytes Hcap Hmem.
  pose proof (cobs_encoding_length s) as Hsize.
  pose proof (zlen_nonneg s) as Hs0.
  assert (Hs1 : 1 <= zlen s).
  { destruct s; [congruence|]. zlens. pose proof (zlen_nonneg s). lia. }
  destruct (stuff_encodes s junk dmem cap)
    as (tail & ld & stl & Hrun & _); try assumption; try lia.
  eexists. split; [exact Hrun|]. regs. split; [reflexivity|].
  split; [lia|].
  unfold cobs_encoding. zlens.
  pose proof (Z.div_mod (zlen s + 253) 254 ltac:(lia)).
  pose proof (Z.mod_pos_bound (zlen s + 253) 254 ltac:(lia)).
  destruct (block_rest_growth s 0 ltac:(lia)) as [E|E]; lia.
Qed.

Lemma stuff_expansion_witness :
  exists r,
    fh_cobs_stuff_bytes (Some (repeat 1 254 ++ [])) (zlen (repeat 1 254))
      (Some (repeat 170 256)) 256 = Done r
    /\ cobs_error r = COBS_SUCCESS
    /\ zlen (repeat 1 254) + 2 <= cobs_ret r
       <= zlen (repeat 1 254) + (zlen (repeat 1 254) + 253) / 254 + 1.
Proof.
  apply (stuff_expansion (repeat 1 254) [] (repeat 170 256) 256).
  - discriminate.
  - apply all_bytes_sound. vm_compute. reflexivity.
  - vm_compute. split; [discriminate|reflexivity].
  - vm_compute. discriminate.
Defined.

Section UnstuffStops.
Variables (smem : list Z) (dst_length : Z).

Lemma unstuff_body_overflow ul ev idx src dst mem ld stl :
  dst_length <= ul -> ev <> 0 ->
  unstuff_body smem dst_length (mk_unstuff_regs ul ev idx src dst mem ld stl)
  = Stop (mk_cobs_result 0 COBS_ERROR_DST_BUFFER_OVERFLOW mem ld stl).
Proof.
  intros Hul Hev. unfold unstuff_body. regs. rewrite Z.geb_leb.
  destruct (Z.leb_spec dst_length ul); [|lia].
  destruct (Z.eqb_spec ev 0); [contradiction|]. reflexivity.
Qed.
End UnstuffStops.

(** With the destination used up, the next turn stops. *)
Lemma unstuff_stops_now smem dst_length pre cur out free ld stl code fuel :
  dst_length <= zlen out -> code <> 0 -> (1 <= fuel)%nat ->
  exists mem ld' stl',
    iterate (unstuff_body smem dst_length) fuel
      (unstuff_at pre cur out free ld stl code)
    = Done (mk_cobs_result 0 COBS_ERROR_DST_BUFFER_OVERFLOW mem ld' stl')
    /\ forall o, In o stl' -> In o stl \/ o < dst_length.
Proof.
  intros Hcap Hcode Hfuel.
  destruct fuel as [|fuel]; [lia|].
  erewrite iterate_stop; cycle 1.
  { unfold unstuff_at. apply unstuff_body_overflow; assumption. }
  eexists _, _, _. split; [reflexivity|]. auto.
Qed.

Lemma unstuff_stops_nil : unstuff_stops 254 [].
Proof.
  intros pre cur out free junk ld stl fuel dst_length
    Hbytes Hcur Hcap Hmax Hfree Hfuel.
  pose proof (zlen_nonneg cur). zlens.
  apply unstuff_stops_now.
  - lia.
  - cbn [block_code]. lia.
  - cbn [block_rest length] in Hfuel. lia.
Qed.

Lemma unstuff_stops_more b s : unstuff_stops 254 s -> unstuff_stops 253 (b :: s).
Proof.
  intros IH pre cur out free junk ld stl fuel dst_length
    Hbytes Hcur Hcap Hmax Hfree Hfuel.
  pose proof (zlen_nonneg cur) as Hc0. pose proof (zlen_nonneg out) as Ho0.
  pose proof (zlen_nonneg pre) as Hp0. pose proof (zlen_nonneg s) as Hs0.
  destruct (Z.le_gt_cases dst_length (zlen out)) as [Hnow|Hlater].
  { apply unstuff_stops_now; [assumption| |].
    - pose proof (block_code_bounds (b :: s) (zlen cur) ltac:(lia)). lia.
    - pose proof (block_rest_nonempty (b :: s) (zlen cur)).
      unfold zlen in *. lia. }
  inversion Hbytes as [|? ? Hb Hbytes']; subst.
  destruct (Z.eq_dec b 0) as [->|Hnz].
  - rewrite block_rest_zero, block_code_zero in * by lia.
    pose proof (block_code_bounds s 0 ltac:(lia)) as Hcode.
    destruct fuel as [|fuel]; [simpl in Hfuel; lia|].
    destruct free as [|y tl]; zlens; try lia.
    erewrite iterate_next; cycle 1.
    { unfold unstuff_at. replace (zlen cur + 1) with (1 + zlen cur) by lia.
      apply unstuff_body_zero with (c := block_code 0 s); try lia.
      rewrite (reshape_block pre _ cur). apply load_middle. zlens. lia. }
    destruct (IH (pre ++ (1 + zlen cur) :: cur) [] (out ++ [0]) tl junk
                (zlen pre + (1 + zlen cur) :: ld) (zlen out :: stl) fuel
                dst_length)
      as (mem & ld' & stl' & Hrun & Hst); zlens; try lia; try assumption.
    { simpl in Hfuel. lia. }
    exists mem, ld', stl'.
    replace (pre ++ zlen cur + 1 :: cur ++ (block_code 0 s :: block_rest 0 s) ++ junk)
      with ((pre ++ 1 + zlen cur :: cur) ++ block_code 0 s :: []
              ++ block_rest 0 s ++ junk)
      by (rewrite <- app_assoc; regs; do 2 f_equal; lia).
    match goal with
    | |- iterate _ _ ?r = _ /\ _ =>
        replace r with (unstuff_at (pre ++ (1 + zlen cur) :: cur) [] (out ++ [0])
                          tl (zlen pre + (1 + zlen cur) :: ld)
                          (zlen out :: stl) (block_code 0 s))
    end.
    2:{ unfold unstuff_at. zlens. wraps. rewrite <- app_assoc. regs.
        f_equal; lia. }
    change (@zlen Z []) with 0 in Hrun. split; [exact Hrun|].
    intros o Ho. destruct (Hst o Ho) as [[<-|Hin]|Hlt]; auto.
  - rewrite block_rest_data, block_code_data in * by lia.
    pose proof (block_code_bounds s (zlen cur + 1) ltac:(lia)) as Hcode.
    destruct fuel as [|fuel]; [simpl in Hfuel; lia|].
    destruct free as [|y tl]; zlens; try lia.
    erewrite iterate_next; cycle 1.
    { unfold unstuff_at.
      apply unstuff_body_copy with (v := b); try assumption; try lia.
      replace (pre ++ block_code (zlen cur + 1) s :: cur
                 ++ (b :: block_rest (zlen cur + 1) s) ++ junk)
        with ((pre ++ block_code (zlen cur + 1) s :: cur)
                ++ b :: block_rest (zlen cur + 1) s ++ junk)
        by (rewrite <- app_assoc; reflexivity).
      apply load_middle. zlens. lia. }
    destruct (IH pre (cur ++ [b]) (out ++ [b]) tl junk
                (zlen pre + (1 + zlen cur) :: ld) (zlen out :: stl) fuel
                dst_length)
      as (mem & ld' & stl' & Hrun & Hst); zlens; try lia; try assumption.
    { simpl in Hfuel. lia. }
    exists mem, ld', stl'.
    replace (pre ++ block_code (zlen cur + 1) s :: cur
               ++ (b :: block_rest (zlen cur + 1) s) ++ junk)
      with (pre ++ block_code (zlen cur + 1) s :: (cur ++ [b])
              ++ block_rest (zlen cur + 1) s ++ junk)
      by (rewrite <- app_assoc; reflexivity).
    match goal with
    | |- iterate _ _ ?r = _ /\ _ =>
        replace r with (unstuff_at pre (cur ++ [b]) (out ++ [b]) tl
                          (zlen pre + (1 + zlen cur) :: ld) (zlen out :: stl)
                          (block_code (zlen cur + 1) s))
    end.
    2:{ unfold unstuff_at. zlens. wraps. rewrite <- app_assoc. regs.
        f_equal; lia. }
    split; [exact Hrun|].
    intros o Ho. destruct (Hst o Ho) as [[<-|Hin]|Hlt]; auto.
Qed.

Lemma unstuff_stops_full b s :
  unstuff_stops 253 (b :: s) -> unstuff_stops 254 (b :: s).
Proof.
  intros Hnf pre cur out free junk ld stl fuel dst_length
    Hbytes Hcur Hcap Hmax Hfree Hfuel.
  destruct (Z.eq_dec (zlen cur) 254) as [Hfull|Hroom].
  2:{ apply Hnf; try assumption; lia. }
  pose proof (zlen_nonneg out) as Ho0. pose proof (zlen_nonneg pre) as Hp0.
  pose proof (zlen_nonneg s) as Hs0.
  destruct (Z.le_gt_cases dst_length (zlen out)) as [Hnow|Hlater].
  { apply unstuff_stops_now; [assumption| |].
    - pose proof (block_code_bounds (b :: s) (zlen cur) ltac:(lia)). lia.
    - pose proof (block_rest_nonempty (b :: s) (zlen cur)).
      unfold zlen in *. lia. }
  pose proof (block_code_bounds (b :: s) 0 ltac:(lia)) as Hcode.
  rewrite Hfull in *. rewrite block_rest_full, block_code_full in *.
  destruct fuel as [|fuel]; [simpl in Hfuel; lia|].
  zlens.
  erewrite iterate_next; cycle 1.
  { unfold unstuff_at. rewrite Hfull. change (1 + 254) with 255.
    apply unstuff_body_full with (c := block_code 0 (b :: s)); try lia.
    rewrite (reshape_block pre _ cur). apply load_middle. zlens. lia. }
  destruct (Hnf (pre ++ 255 :: cur) [] out free junk
              (zlen pre + 255 :: ld) stl fuel dst_length)
    as (mem & ld' & stl' & Hrun & Hst); zlens; try lia; try assumption.
  { simpl in Hfuel |- *. lia. }
  exists mem, ld', stl'.
  replace (pre ++ 255 :: cur
             ++ (block_code 0 (b :: s) :: block_rest 0 (b :: s)) ++ junk)
    with ((pre ++ 255 :: cur) ++ block_code 0 (b :: s) :: []
            ++ block_rest 0 (b :: s) ++ junk)
    by (rewrite <- app_assoc; reflexivity).
  match goal with
  | |- iterate _ _ ?r = _ /\ _ =>
      replace r with (unstuff_at (pre ++ 255 :: cur) [] out free
                        (zlen pre + 255 :: ld) stl (block_code 0 (b :: s)))
  end.
  2:{ unfold unstuff_at. zlens. f_equal; lia. }
  change (@zlen Z []) with 0 in Hrun. split; [exact Hrun|exact Hst].
Qed.

Lemma unstuff_stops_all s : unstuff_stops 254 s.
Proof.
  induction s as [|b s IH].
  - apply unstuff_stops_nil.
  - apply unstuff_stops_full, unstuff_stops_more, IH.
Qed.

(** When the destination of [fh_cobs_unstuff_bytes] is no longer than the
    decoded data, exactly as long included, the call returns 0 with
    [COBS_ERROR_DST_BUFFER_OVERFLOW], and every store it has made is below
    the capacity. *)
Theorem unstuff_destination_too_short (s junk dmem : list Z)
  (src_length cap : Z) :
  Forall is_byte s -> src_length <> 0 ->
  1 <= cap <= zlen s -> zlen s < 4294967296 -> cap <= zlen dmem ->
  exists r,
    fh_cobs_unstuff_bytes (Some (cobs_encoding s ++ junk)) src_length
      (Some dmem) cap = Done r
    /\ cobs_ret r = 0
    /\ cobs_error r = COBS_ERROR_DST_BUFFER_OVERFLOW
    /\ forall o, In o (cobs_stored r) -> o < cap.
Proof.
  intros Hbytes Hsrc Hcap Hmax Hmem.
  pose proof (zlen_nonneg s) as Hs0.
  unfold fh_cobs_unstuff_bytes, cobs_encoding.
  cbn [app load Z.ltb Z.compare Z.to_nat nth_error].
  destruct (Z.eqb_spec src_length 0); [contradiction|].
  destruct (Z.eqb_spec cap 0); [lia|].
  destruct (unstuff_stops_all s [] [] [] dmem junk [0] []
              (S (length (block_code 0 s :: block_rest 0 s ++ junk))) cap)
    as (mem & ld' & stl' & Hrun & Hst); zlens; try lia; try assumption.
  { cbn [length]. rewrite length_app. lia. }
  unfold unstuff_at in Hrun. change (@zlen Z []) with 0 in Hrun.
  cbn [app] in Hrun. change (1 + 0) with 1 in Hrun.
  rewrite Hrun. eexists. split; [reflexivity|]. regs.
  split; [reflexivity|]. split; [reflexivity|].
  intros o Ho. destruct (Hst o Ho) as [[]|Hlt]. exact Hlt.
Qed.

Lemma unstuff_destination_too_short_witness :
  exists r,
    fh_cobs_unstuff_bytes (Some (cobs_encoding [1; 2; 3] ++ [])) 5
      (Some (repeat 170 2)) 2 = Done r
    /\ cobs_ret r = 0
    /\ cobs_error r = COBS_ERROR_DST_BUFFER_OVERFLOW
    /\ forall o, In o (cobs_stored r) -> o < 2.
Proof.
  apply (unstuff_destination_too_short [1; 2; 3] [] (repeat 170 2) 5 2).
  - repeat constructor; unfold is_byte; lia.
  - discriminate.
  - vm_compute. split; discriminate.
  - vm_compute. reflexivity.
  - vm_compute. discriminate.
Defined.

(** *** The VIP injector *)

(** A table that is not acknowledged ends the call: the result is what the
    sending of the table returned, the caller's data is not transmitted,
    and the state and the counters stay, so that the next call sends the
    table again. *)
Theorem vip_table_failure (W : Type)
  (send_signed send_chained : W -> fh_res_t * W)
  (tx : W -> list Z -> Z -> fh_res_t * W)
  (t : transfer W) (data : list Z) (size : Z) :
  (state (vip t) = VIP_INIT /\ fst (send_signed (world t)) <> SUCCESS ->
   fh_tx_blocking W send_signed send_chained tx t data size
   = (fst (send_signed (world t)),
      mk_transfer (vip t) (snd (send_signed (world t)))
        (signed_table_sent (fst (send_signed (world t))) :: tx_log t)))
  /\ (state (vip t) = VIP_SEND_NEXT_TABLE
      /\ fst (send_chained (world t)) <> SUCCESS ->
      fh_tx_blocking W send_signed send_chained tx t data size
      = (fst (send_chained (world t)),
         mk_transfer (vip t) (snd (send_chained (world t)))
           (chained_table_sent (fst (send_chained (world t))) :: tx_log t))).
Proof.
  split; intros [Hs Hne]; unfold fh_tx_blocking, vip_send_table; rewrite Hs.
  - destruct (send_signed (world t)) as [res w']. cbn [fst snd] in *.
    destruct res; try reflexivity. congruence.
  - destruct (send_chained (world t)) as [res w']. cbn [fst snd] in *.
    destruct res; try reflexivity. congruence.
Qed.

Lemma vip_table_failure_witness :
  fh_tx_blocking unit (fun w => (TARGET_NAK, w)) (fun w => (SUCCESS, w))
    (fun w _ _ => (SUCCESS, w))
    (mk_transfer (mk_fh_transfer_data VIP_INIT 0 0) tt []) [1] 1
  = (TARGET_NAK,
     mk_transfer (mk_fh_transfer_data VIP_INIT 0 0) tt
       [signed_table_sent TARGET_NAK]).
Proof.
  apply (proj1 (vip_table_failure unit (fun w => (TARGET_NAK, w))
                  (fun w => (SUCCESS, w)) (fun w _ _ => (SUCCESS, w))
                  (mk_transfer (mk_fh_transfer_data VIP_INIT 0 0) tt [])
                  [1] 1)).
  split; [reflexivity|discriminate].
Defined.

(** *** The blocking wrappers of the HSUART transport *)

Section RetryProofs.

Variable crc16 : list Z -> Z.
Variable big_endian : bool.



End RetryProofs.



(** *** Fragmentation on the HSUART write path *)

Lemma Forall_map_uint8 (l : list Z) : Forall is_byte (map uint8 l).
Proof.
  induction l; cbn [map]; constructor; [|assumption].
  unfold is_byte, uint8. apply Z.mod_pos_bound. lia.
Qed.

Lemma temp_buffer_length : zlen temp_buffer = 4096.
Proof. reflexivity. Qed.

Section FragmentProofs.

Variable crc16 : list Z -> Z.
Variable big_endian : bool.

Lemma packet_bytes (id : Z) (p : list Z) :
  is_byte id -> Forall is_byte p ->
  Forall is_byte ((id :: p) ++ crc_bytes crc16 big_endian (id :: p)).
Proof.
  intros Hid Hp. apply Forall_app. split; [constructor; assumption|].
  apply Forall_map_uint8.
Qed.

Lemma wire_frame_length (id : Z) (p : list Z) :
  zlen p <= 4000 -> zlen p + 5 <= zlen (wire_frame crc16 big_endian id p) <= 4020.
Proof.
  intros Hp. unfold wire_frame.
  pose proof (cobs_encoding_length
                ((id :: p) ++ crc_bytes crc16 big_endian (id :: p))) as H.
  pose proof (zlen_nonneg p).
  rewrite zlen_app, zlen_cons, crc_bytes_length in H.
  assert ((zlen p + 1 + 2) / 254 < 16).
  { apply Z.div_lt_upper_bound; lia. }
  lia.
Qed.

Lemma hsuart_encode_data (id : Z) (p junk : list Z) :
  id = PROTOCOL_PACKET \/ id = END_OF_TRANSFER_PACKET ->
  1 <= zlen p <= 4000 -> Forall is_byte p ->
  exists tail,
    fh_hsuart_packet_encode crc16 big_endian id (Some (p ++ junk)) (zlen p)
      (Some temp_buffer) MAX_HSUART_PACKET_SIZE
    = Done (mk_hsuart_packet_result
              (zlen (wire_frame crc16 big_endian id p)) HSUART_PACKET_SUCCESS
              (wire_frame crc16 big_endian id p ++ tail) None).
Proof.
  intros Hid Hlen Hbytes.
  pose proof (wire_frame_length id p ltac:(lia)) as Hframe.
  unfold fh_hsuart_packet_encode.
  destruct (encode_data crc16 big_endian id p junk temp_buffer
              MAX_HSUART_PACKET_SIZE) as (tail1 & ->);
    [assumption|lia|assumption|
     unfold MAX_HSUART_PACKET_SIZE; lia|
     rewrite temp_buffer_length; unfold MAX_HSUART_PACKET_SIZE; lia|].
  cbn [pkt_error pkt_ret pkt_dst].
  replace (negb (id =? ACK_PACKET) && negb (id =? NAK_PACKET)) with true
    by (destruct Hid as [->| ->]; reflexivity).
  assert (Hidb : is_byte id).
  { destruct Hid as [->| ->];
      unfold is_byte, PROTOCOL_PACKET, END_OF_TRANSFER_PACKET; lia. }
  destruct (stuff_encodes
              ((id :: p) ++ crc_bytes crc16 big_endian (id :: p)) tail1
              temp_buffer MAX_HSUART_PACKET_SIZE)
    as (tail & ld & stl & Hrun & _).
  - discriminate.
  - apply packet_bytes; assumption.
  - rewrite zlen_app, zlen_cons, crc_bytes_length. lia.
  - fold (wire_frame crc16 big_endian id p). lia.
  - fold (wire_frame crc16 big_endian id p). unfold MAX_HSUART_PACKET_SIZE. lia.
  - rewrite temp_buffer_length. unfold MAX_HSUART_PACKET_SIZE. lia.
  - fold (wire_frame crc16 big_endian id p). rewrite temp_buffer_length. lia.
  - rewrite zlen_app, zlen_cons, crc_bytes_length in Hrun.
    replace (zlen p + 3) with (zlen p + 1 + 2) by lia.
    rewrite app_assoc, Hrun. cbn [cobs_error cobs_ret cobs_dst].
    exists tail. reflexivity.
Qed.

Lemma transmit_hsuart_packet_up (u : uart) (buf : list Z) (length : Z) :
  uart_up u = true -> 0 < length < 4294967296 -> length <= zlen buf ->
  transmit_hsuart_packet u buf length
  = Done (true,
          mk_uart true (uart_sent u ++ [firstn (Z.to_nat length) buf])
            (uart_incoming u)).
Proof.
  intros Hup Hlen Hbuf. unfold transmit_hsuart_packet. cbn [iterate].
  unfold fh_uart_write. rewrite Hup. cbn [Z.to_nat skipn].
  rewrite Z.sub_0_r, uint32_small by lia.
  rewrite read_bytes_exact by lia. cbn [option_map Z.to_nat skipn].
  destruct (Z.ltb_spec 0 length); [|lia].
  rewrite uint32_small by lia. cbn [Z.add]. rewrite Z.eqb_refl.
  reflexivity.
Qed.

Lemma wait_for_ack_acked (up : bool) (sent rest : list (list Z)) :
  wait_for_ack crc16 big_endian (mk_uart up sent ([ACK_PACKET] :: rest))
  = Done (true, mk_uart up sent rest).
Proof. vm_compute. reflexivity. Qed.

Lemma write_hsuart_packet_acked (sent rest : list (list Z)) (id : Z)
  (p junk : list Z) (n : Z) :
  n = zlen p ->
  id = PROTOCOL_PACKET \/ id = END_OF_TRANSFER_PACKET ->
  1 <= zlen p <= 4000 -> Forall is_byte p ->
  write_hsuart_packet crc16 big_endian
    (mk_uart true sent ([ACK_PACKET] :: rest)) (Some (p ++ junk)) n id
  = Done (true,
          mk_uart true (sent ++ [wire_frame crc16 big_endian id p]) rest).
Proof.
  intros -> Hid Hlen Hbytes.
  pose proof (wire_frame_length id p ltac:(lia)) as Hframe.
  unfold write_hsuart_packet.
  destruct (hsuart_encode_data id p junk Hid Hlen Hbytes) as (tail & ->).
  cbn [bind hp_error hp_dst hp_ret iterate].
  rewrite transmit_hsuart_packet_up;
    [|reflexivity|lia|rewrite zlen_app; pose proof (zlen_nonneg tail); lia].
  cbn [call negb uart_sent uart_incoming]. rewrite firstn_zlen_app.
  rewrite wait_for_ack_acked. reflexivity.
Qed.


Lemma write_loop (s : list Z) (q r : Z) (rest : list (list Z)) :
  Forall is_byte s -> zlen s = 4000 * q + r -> 0 < r < 4000 ->
  zlen s < 4294967296 ->
  forall (k : nat) (i : Z) (sent : list (list Z)) (fuel : nat),
    i + Z.of_nat k = q -> 0 <= i -> (k + 2 <= fuel)%nat ->
    iterate (write_turn crc16 big_endian s (zlen s) (q + 1)) fuel
      (mk_write_regs i 4000 PROTOCOL_PACKET (4000 * i)
         (mk_uart true sent (repeat [ACK_PACKET] (S k) ++ rest)))
    = Done (mk_write_regs (q + 1) r END_OF_TRANSFER_PACKET (zlen s)
              (mk_uart true
                 (sent
                  ++ map (fun f => wire_frame crc16 big_endian (fst f) (snd f))
                       (fragments_from (S k)
                          (skipn (Z.to_nat (4000 * i)) s)))
                 rest)).
Proof.
  intros Hbytes Hlen Hr Hmax k.
  induction k as [|k IH]; intros i sent fuel Hi Hi0 Hfuel.
  - assert (i = q) by lia. subst i.
    destruct fuel as [|[|fuel]]; try lia.
    set (p := skipn (Z.to_nat (4000 * q)) s).
    assert (Hp : zlen p = r).
    { unfold p, zlen in *. rewrite length_skipn. lia. }
    cbn [iterate]. unfold write_turn at 1.
    cbn [wr_packet_index wr_transfer_size wr_packet_id wr_bytes_written
         wr_port].
    destruct (Z.ltb_spec q (q + 1)); [|lia]. cbn [negb].
    replace (q + 1 - q) with 1 by lia.
    change (uint32 1 =? 1) with true. cbv iota.
    unfold MAX_HSUART_PACKET_DATA_SIZE.
    replace (zlen s mod 4000) with r
      by (rewrite Hlen, Z.add_comm, Z.mul_comm, Z.mod_add by lia;
          symmetry; apply Z.mod_small; lia).
    rewrite (uint32_small (q * 4000)) by lia.
    replace (q * 4000) with (4000 * q) by lia. fold p.
    rewrite <- (app_nil_r p).
    cbn [repeat app].
    rewrite (write_hsuart_packet_acked sent rest END_OF_TRANSFER_PACKET p [] r);
      [|lia|right; reflexivity|lia|apply Forall_skipn_keep, Hbytes].
    cbn [call fst snd].
    rewrite (uint32_small (q + 1)), (uint32_small (4000 * q + r)) by lia.
    unfold write_turn. cbn [wr_packet_index].
    rewrite Z.ltb_irrefl. cbn [negb]. rewrite <- Hlen.
    cbn [fragments_from map fst snd]. rewrite app_nil_r. reflexivity.
  - destruct fuel as [|fuel]; [lia|].
    set (x := skipn (Z.to_nat (4000 * i)) s).
    assert (Hx : zlen x = zlen s - 4000 * i).
    { unfold x, zlen in *. rewrite length_skipn. lia. }
    set (p := firstn 4000 x).
    assert (Hp : zlen p = 4000).
    { unfold p, zlen in *. rewrite length_firstn. lia. }
    cbn [iterate]. unfold write_turn at 1.
    cbn [wr_packet_index wr_transfer_size wr_packet_id wr_bytes_written
         wr_port].
    destruct (Z.ltb_spec i (q + 1)); [|lia]. cbn [negb].
    rewrite (uint32_small (q + 1 - i)) by lia.
    destruct (Z.eqb_spec (q + 1 - i) 1); [lia|].
    unfold MAX_HSUART_PACKET_DATA_SIZE.
    rewrite (uint32_small (i * 4000)) by lia.
    replace (i * 4000) with (4000 * i) by lia. fold x.
    rewrite <- (firstn_skipn 4000 x). fold p.
    change (repeat [ACK_PACKET] (S (S k)) ++ rest)
      with ([ACK_PACKET] :: repeat [ACK_PACKET] (S k) ++ rest).
    rewrite (write_hsuart_packet_acked sent
               (repeat [ACK_PACKET] (S k) ++ rest) PROTOCOL_PACKET p
               (skipn 4000 x) 4000);
      [|lia|left; reflexivity|lia|
       apply Forall_firstn_keep, Forall_skipn_keep, Hbytes].
    cbn [call fst snd].
    rewrite (uint32_small (i + 1)), (uint32_small (4000 * i + 4000)) by lia.
    replace (4000 * i + 4000) with (4000 * (i + 1)) by lia.
    specialize (IH (i + 1) (sent ++ [wire_frame crc16 big_endian PROTOCOL_PACKET p])
                  fuel ltac:(lia) ltac:(lia) ltac:(lia)).
    rewrite IH.
    rewrite <- app_assoc. cbn [app].
    replace (skipn (Z.to_nat (4000 * (i + 1))) s) with (skipn 4000 x)
      by (unfold x; rewrite skipn_skipn; f_equal; lia).
    unfold p. rewrite (firstn_skipn 4000 x).
    change (fragments_from (S (S k)) x)
      with ((PROTOCOL_PACKET, firstn 4000 x) :: fragments_from (S k) (skipn 4000 x)).
    reflexivity.
Qed.

End FragmentProofs.

Lemma fragments_from_length (n : nat) (s : list Z) :
  length (fragments_from n s) = n.
Proof.
  revert s. induction n as [|n IH]; intros s; [reflexivity|].
  destruct n as [|n]; [reflexivity|].
  change (fragments_from (S (S n)) s)
    with ((PROTOCOL_PACKET, firstn 4000 s) :: fragments_from (S n) (skipn 4000 s)).
  cbn [length]. rewrite IH. reflexivity.
Qed.

Lemma fragments_from_concat (n : nat) (s : list Z) :
  concat (map snd (fragments_from (S n) s)) = s.
Proof.
  revert s. induction n as [|n IH]; intros s.
  - cbn. apply app_nil_r.
  - change (fragments_from (S (S n)) s)
      with ((PROTOCOL_PACKET, firstn 4000 s) :: fragments_from (S n) (skipn 4000 s)).
    cbn [map snd concat]. rewrite IH. apply firstn_skipn.
Qed.

Lemma fragments_from_ids (n : nat) (s : list Z) :
  map fst (fragments_from (S n) s)
  = repeat PROTOCOL_PACKET n ++ [END_OF_TRANSFER_PACKET].
Proof.
  revert s. induction n as [|n IH]; intros s; [reflexivity|].
  change (fragments_from (S (S n)) s)
    with ((PROTOCOL_PACKET, firstn 4000 s) :: fragments_from (S n) (skipn 4000 s)).
  cbn [map fst repeat app]. rewrite IH. reflexivity.
Qed.

Lemma fragments_from_sizes (n : nat) (s : list Z) (r : Z) :
  zlen s = 4000 * Z.of_nat n + r -> 0 < r <= 4000 ->
  Forall (fun f => 1 <= zlen (snd f) <= 4000) (fragments_from (S n) s).
Proof.
  revert s. induction n as [|n IH]; intros s Hs Hr.
  - cbn. constructor; [cbn [snd]; lia|constructor].
  - change (fragments_from (S (S n)) s)
      with ((PROTOCOL_PACKET, firstn 4000 s) :: fragments_from (S n) (skipn 4000 s)).
    constructor.
    + cbn [snd]. unfold zlen in *. rewrite length_firstn. lia.
    + apply IH; [|assumption]. unfold zlen in *. rewrite length_skipn. lia.
Qed.

Lemma write_fragments_run (crc16 : list Z -> Z) (big_endian : bool)
  (ring0 : hsuart_ring) (sent rest : list (list Z)) (s : list Z) (q r : Z) :
  Forall is_byte s -> zlen s = 4000 * q + r -> 0 < r < 4000 -> 0 <= q ->
  zlen s < 4294967296 ->
  fh_transport_hsuart_write crc16 big_endian
    (mk_hsuart true ring0
       (mk_uart true sent (repeat [ACK_PACKET] (S (Z.to_nat q)) ++ rest)))
    s (zlen s) 0
  = Done (true, zlen s,
          mk_hsuart false ring0
            (mk_uart true
               (sent
                ++ map (fun f => wire_frame crc16 big_endian (fst f) (snd f))
                     (fragments_from (S (Z.to_nat q)) s))
               rest)).
Proof.
  intros Hbytes Hdm Hr Hq0 Hmax.
  assert (Hmod : zlen s mod 4000 = r).
  { rewrite Hdm, Z.add_comm, Z.mul_comm, Z.mod_add by lia.
    apply Z.mod_small; lia. }
  assert (Hdiv : zlen s / 4000 = q).
  { symmetry. apply (Z.div_unique _ _ _ r); lia. }
  unfold fh_transport_hsuart_write.
  replace (wait_for_ready_to_read_packet crc16 big_endian
             (mk_hsuart true ring0
                (mk_uart true sent
                   (repeat [ACK_PACKET] (S (Z.to_nat q)) ++ rest))))
    with (Done (true,
                mk_hsuart true ring0
                  (mk_uart true sent
                     (repeat [ACK_PACKET] (S (Z.to_nat q)) ++ rest))))
    by reflexivity.
  cbn [bind port].
  unfold MAX_HSUART_PACKET_DATA_SIZE. rewrite Hmod, Hdiv.
  destruct (Z.eqb_spec r 0); [lia|]. cbn [negb].
  rewrite (uint32_small (q + 1)) by lia.
  pose proof (write_loop crc16 big_endian s q r rest Hbytes Hdm
                ltac:(lia) Hmax (Z.to_nat q) 0 sent
                (S (Z.to_nat (q + 1))) ltac:(lia) ltac:(lia) ltac:(lia))
    as Hloop.
  cbn [Z.mul Z.to_nat skipn] in Hloop. rewrite Hloop.
  cbn [bind wr_bytes_written wr_port with_port with_read_mode
       is_target_in_read_mode ring port].
  pose proof (zlen_nonneg s).
  destruct (Z.ltb_spec 0 (zlen s)); [reflexivity|lia].
Qed.

(** For every [s] whose length is not a multiple of 4000, written to a
    target that is in read mode and acknowledges every frame,
    [fh_transport_hsuart_write] hands the port one frame per fragment of
    [s], in order: [ceil(len/4000)] frames, each with at most 4000 bytes of
    payload, all [PROTOCOL_PACKET] but the last, which is
    [END_OF_TRANSFER_PACKET], and the payloads put together are [s].  It
    returns TRUE with all of [s] counted and clears the read-mode flag. *)
Theorem write_fragments (crc16 : list Z -> Z) (big_endian : bool)
  (ring0 : hsuart_ring) (sent rest : list (list Z)) (s : list Z) :
  Forall is_byte s -> zlen s mod 4000 <> 0 -> zlen s < 4294967296 ->
  fh_transport_hsuart_write crc16 big_endian
    (mk_hsuart true ring0
       (mk_uart true sent
          (repeat [ACK_PACKET] (length (fragments s)) ++ rest)))
    s (zlen s) 0
  = Done (true, zlen s,
          mk_hsuart false ring0
            (mk_uart true
               (sent
                ++ map (fun f => wire_frame crc16 big_endian (fst f) (snd f))
                     (fragments s))
               rest))
  /\ Z.of_nat (length (fragments s)) = (zlen s + 3999) / 4000
  /\ concat (map snd (fragments s)) = s
  /\ map fst (fragments s)
     = repeat PROTOCOL_PACKET (length (fragments s) - 1)
       ++ [END_OF_TRANSFER_PACKET]
  /\ Forall (fun f => 1 <= zlen (snd f) <= 4000) (fragments s).
Proof.
  intros Hbytes Hmod Hmax.
  pose proof (zlen_nonneg s) as Hs0.
  pose proof (Z.div_mod (zlen s) 4000 ltac:(lia)) as Hdm.
  pose proof (Z.mod_pos_bound (zlen s) 4000 ltac:(lia)) as Hmb.
  set (q := zlen s / 4000) in *. set (r := zlen s mod 4000) in *.
  assert (Hq0 : 0 <= q) by (apply Z.div_pos; lia).
  assert (Hcount : (zlen s + 3999) / 4000 = q + 1).
  { symmetry. apply (Z.div_unique _ _ _ (r - 1)); lia. }
  assert (Hfr : fragments s = fragments_from (S (Z.to_nat q)) s).
  { unfold fragments. rewrite Hcount. f_equal. lia. }
  rewrite Hfr, fragments_from_length.
  split; [|split; [lia|split; [apply fragments_from_concat|split]]].
  - apply (write_fragments_run crc16 big_endian ring0 sent rest s q r);
      try assumption; lia.
  - cbn [Nat.sub]. rewrite Nat.sub_0_r. apply fragments_from_ids.
  - apply (fragments_from_sizes _ _ r); lia.
Qed.

Lemma write_fragments_witness :
  fh_transport_hsuart_write crc16_of_sum false
    (mk_hsuart true (mk_hsuart_ring 0 [] 0 0)
       (mk_uart true []
          (repeat [ACK_PACKET] (length (fragments [1; 0; 3])) ++ [])))
    [1; 0; 3] (zlen [1; 0; 3]) 0
  = Done (true, zlen [1; 0; 3],
          mk_hsuart false (mk_hsuart_ring 0 [] 0 0)
            (mk_uart true
               ([]
                ++ map (fun f => wire_frame crc16_of_sum false (fst f) (snd f))
                     (fragments [1; 0; 3]))
               [])).
Proof.
  apply (write_fragments crc16_of_sum false (mk_hsuart_ring 0 [] 0 0) [] []
           [1; 0; 3]).
  - repeat constructor; unfold is_byte; lia.
  - vm_compute. discriminate.
  - vm_compute. reflexivity.
Defined.

(* --------------------------------------------------------------------- *)
(** ** The HSUART link: a length that is a multiple of 4000               *)
(* --------------------------------------------------------------------- *)

Section FullFragmentProofs.

Variable crc16 : list Z -> Z.
Variable big_endian : bool.

Lemma write_hsuart_packet_empty (u : uart) (buf : list Z) (id : Z) :
  id = PROTOCOL_PACKET \/ id = END_OF_TRANSFER_PACKET ->
  write_hsuart_packet crc16 big_endian u (Some buf) 0 id = Done (false, u).
Proof. intros [->| ->]; reflexivity. Qed.

Lemma removelast_fragments_from (k : nat) (x : list Z) :
  removelast (fragments_from (S (S k)) x)
  = (PROTOCOL_PACKET, firstn 4000 x)
    :: removelast (fragments_from (S k) (skipn 4000 x)).
Proof.
  change (fragments_from (S (S k)) x)
    with ((PROTOCOL_PACKET, firstn 4000 x)
          :: fragments_from (S k) (skipn 4000 x)).
  cbn [removelast].
  destruct (fragments_from (S k) (skipn 4000 x)) eqn:E; [|reflexivity].
  apply (f_equal (@length _)) in E. rewrite fragments_from_length in E.
  discriminate.
Qed.

(** The loop of [fh_transport_hsuart_write] on a multiple of 4000 bytes;
    [b0] is the value the caller's counter had at the call. *)
Lemma write_loop_full (s : list Z) (q b0 : Z) (rest : list (list Z)) :
  Forall is_byte s -> zlen s = 4000 * q -> 0 <= b0 ->
  b0 + zlen s < 4294967296 ->
  forall (k : nat) (i : Z) (sent : list (list Z)) (fuel : nat),
    i + Z.of_nat k + 1 = q -> 0 <= i -> (k + 2 <= fuel)%nat ->
    iterate (write_turn crc16 big_endian s (zlen s) q) fuel
      (mk_write_regs i 4000 PROTOCOL_PACKET (b0 + 4000 * i)
         (mk_uart true sent (repeat [ACK_PACKET] k ++ rest)))
    = Done (mk_write_regs q 0 END_OF_TRANSFER_PACKET (b0 + 4000 * (q - 1))
              (mk_uart true
                 (sent
                  ++ map (fun f => wire_frame crc16 big_endian (fst f) (snd f))
                       (removelast
                          (fragments_from (S k)
                             (skipn (Z.to_nat (4000 * i)) s))))
                 rest)).
Proof.
  intros Hbytes Hlen Hb0 Hmax k.
  induction k as [|k IH]; intros i sent fuel Hi Hi0 Hfuel.
  - assert (i = q - 1) by lia. subst i.
    destruct fuel as [|[|fuel]]; try lia.
    cbn [iterate]. unfold write_turn at 1.
    cbn [wr_packet_index wr_transfer_size wr_packet_id wr_bytes_written
         wr_port].
    destruct (Z.ltb_spec (q - 1) q); [|lia]. cbn [negb].
    replace (q - (q - 1)) with 1 by lia.
    change (uint32 1 =? 1) with true. cbv iota.
    unfold MAX_HSUART_PACKET_DATA_SIZE.
    replace (zlen s mod 4000) with 0
      by (rewrite Hlen, Z.mul_comm, Z.mod_mul by lia; reflexivity).
    rewrite write_hsuart_packet_empty by (right; reflexivity).
    cbn [call fst snd repeat app].
    rewrite (uint32_small (q - 1 + 1)) by lia.
    replace (q - 1 + 1) with q by lia.
    unfold write_turn. cbn [wr_packet_index].
    rewrite Z.ltb_irrefl. cbn [negb fragments_from removelast map].
    rewrite app_nil_r. reflexivity.
  - destruct fuel as [|fuel]; [lia|].
    set (x := skipn (Z.to_nat (4000 * i)) s).
    assert (Hx : zlen x = zlen s - 4000 * i).
    { unfold x, zlen in *. rewrite length_skipn. lia. }
    set (p := firstn 4000 x).
    assert (Hp : zlen p = 4000).
    { unfold p, zlen in *. rewrite length_firstn. lia. }
    cbn [iterate]. unfold write_turn at 1.
    cbn [wr_packet_index wr_transfer_size wr_packet_id wr_bytes_written
         wr_port].
    destruct (Z.ltb_spec i q); [|lia]. cbn [negb].
    rewrite (uint32_small (q - i)) by lia.
    destruct (Z.eqb_spec (q - i) 1); [lia|].
    unfold MAX_HSUART_PACKET_DATA_SIZE.
    rewrite (uint32_small (i * 4000)) by lia.
    replace (i * 4000) with (4000 * i) by lia. fold x.
    rewrite <- (firstn_skipn 4000 x). fold p.
    change (repeat [ACK_PACKET] (S k) ++ rest)
      with ([ACK_PACKET] :: repeat [ACK_PACKET] k ++ rest).
    rewrite (write_hsuart_packet_acked crc16 big_endian sent
               (repeat [ACK_PACKET] k ++ rest) PROTOCOL_PACKET p
               (skipn 4000 x) 4000);
      [|lia|left; reflexivity|lia|
       apply Forall_firstn_keep, Forall_skipn_keep, Hbytes].
    cbn [call fst snd].
    rewrite (uint32_small (i + 1)), (uint32_small (b0 + 4000 * i + 4000))
      by lia.
    replace (b0 + 4000 * i + 4000) with (b0 + 4000 * (i + 1)) by lia.
    specialize (IH (i + 1)
                  (sent ++ [wire_frame crc16 big_endian PROTOCOL_PACKET p])
                  fuel ltac:(lia) ltac:(lia) ltac:(lia)).
    rewrite IH.
    rewrite <- app_assoc. cbn [app].
    replace (skipn (Z.to_nat (4000 * (i + 1))) s) with (skipn 4000 x)
      by (unfold x; rewrite skipn_skipn; f_equal; lia).
    unfold p. rewrite (firstn_skipn 4000 x).
    rewrite removelast_fragments_from. reflexivity.
Qed.

End FullFragmentProofs.

Lemma firstn_plus {A : Type} (a b : nat) (l : list A) :
  firstn a l ++ firstn b (skipn a l) = firstn (a + b) l.
Proof.
  revert l. induction a as [|a IH]; intros l; [reflexivity|].
  destruct l as [|y l]; [destruct b; reflexivity|].
  cbn [firstn skipn Nat.add app]. rewrite IH. reflexivity.
Qed.

Lemma removelast_fragments_ids (k : nat) (x : list Z) :
  map fst (removelast (fragments_from (S k) x)) = repeat PROTOCOL_PACKET k.
Proof.
  revert x. induction k as [|k IH]; intros x; [reflexivity|].
  rewrite removelast_fragments_from. cbn [map fst repeat].
  rewrite IH. reflexivity.
Qed.

Lemma removelast_fragments_concat (k : nat) (x : list Z) :
  concat (map snd (removelast (fragments_from (S k) x)))
  = firstn (4000 * k) x.
Proof.
  revert x. induction k as [|k IH]; intros x.
  - rewrite Nat.mul_0_r. reflexivity.
  - rewrite removelast_fragments_from. cbn [map snd concat].
    rewrite IH, firstn_plus. f_equal. lia.
Qed.

(** For every [s] whose length is a positive multiple of 4000, written to a
    target that is in read mode and acknowledges every frame,
    [fh_transport_hsuart_write] hands the port the frames of all fragments
    of [s] but the last: the fragment that would carry
    [END_OF_TRANSFER_PACKET] is never sent, its 4000 bytes are not counted,
    and the acknowledgement it would have consumed stays unread.  The call
    returns TRUE exactly when [s] is longer than 4000 bytes, and clears the
    read-mode flag. *)
Theorem write_multiple_of_4000 (crc16 : list Z -> Z) (big_endian : bool)
  (ring0 : hsuart_ring) (sent rest : list (list Z)) (s : list Z) :
  Forall is_byte s -> zlen s mod 4000 = 0 -> 0 < zlen s < 4294967296 ->
  fh_transport_hsuart_write crc16 big_endian
    (mk_hsuart true ring0
       (mk_uart true sent
          (repeat [ACK_PACKET] (length (fragments s) - 1) ++ rest)))
    s (zlen s) 0
  = Done (4000 <? zlen s, zlen s - 4000,
          mk_hsuart false ring0
            (mk_uart true
               (sent
                ++ map (fun f => wire_frame crc16 big_endian (fst f) (snd f))
                     (removelast (fragments s)))
               rest))
  /\ Z.of_nat (length (fragments s)) = zlen s / 4000
  /\ map fst (removelast (fragments s))
     = repeat PROTOCOL_PACKET (length (fragments s) - 1)
  /\ concat (map snd (removelast (fragments s)))
     = firstn (Z.to_nat (zlen s - 4000)) s.
Proof.
  intros Hbytes Hmod Hlen.
  pose proof (Z.div_mod (zlen s) 4000 ltac:(lia)) as Hdm.
  set (q := zlen s / 4000) in *. rewrite Hmod, Z.add_0_r in Hdm.
  assert (Hq : 1 <= q) by lia.
  assert (Hcount : (zlen s + 3999) / 4000 = q).
  { symmetry. apply (Z.div_unique _ _ _ 3999); lia. }
  assert (Hfr : fragments s = fragments_from (S (Z.to_nat (q - 1))) s).
  { unfold fragments. rewrite Hcount. f_equal. lia. }
  rewrite Hfr, fragments_from_length.
  split; [|split; [lia|split]].
  - unfold fh_transport_hsuart_write.
    replace (wait_for_ready_to_read_packet crc16 big_endian
               (mk_hsuart true ring0
                  (mk_uart true sent
                     (repeat [ACK_PACKET] (S (Z.to_nat (q - 1)) - 1) ++ rest))))
      with (Done (true,
                  mk_hsuart true ring0
                    (mk_uart true sent
                       (repeat [ACK_PACKET] (S (Z.to_nat (q - 1)) - 1)
                        ++ rest))))
      by reflexivity.
    cbn [bind port].
    unfold MAX_HSUART_PACKET_DATA_SIZE. fold q. rewrite Hmod.
    cbn [Z.eqb negb].
    pose proof (write_loop_full crc16 big_endian s q 0 rest Hbytes Hdm
                  ltac:(lia) ltac:(lia) (Z.to_nat (q - 1)) 0 sent
                  (S (Z.to_nat q)) ltac:(lia) ltac:(lia) ltac:(lia))
      as Hloop.
    change (Z.to_nat (4000 * 0)) with 0%nat in Hloop.
    change (4000 * 0) with 0 in Hloop. cbn [skipn Z.add] in Hloop.
    replace (S (Z.to_nat (q - 1)) - 1)%nat with (Z.to_nat (q - 1)) by lia.
    rewrite Hloop.
    cbn [bind wr_bytes_written wr_port with_port with_read_mode
         is_target_in_read_mode ring port].
    replace (4000 * (q - 1)) with (zlen s - 4000) by lia.
    destruct (Z.ltb_spec 0 (zlen s - 4000)), (Z.ltb_spec 4000 (zlen s));
      try lia; reflexivity.
  - replace (S (Z.to_nat (q - 1)) - 1)%nat with (Z.to_nat (q - 1)) by lia.
    apply removelast_fragments_ids.
  - rewrite removelast_fragments_concat. f_equal. lia.
Qed.

Lemma write_multiple_of_4000_witness :
  fh_transport_hsuart_write crc16_of_sum false
    (mk_hsuart true (mk_hsuart_ring 0 [] 0 0)
       (mk_uart true []
          (repeat [ACK_PACKET] (length (fragments (repeat 1 4000)) - 1) ++ [])))
    (repeat 1 4000) (zlen (repeat 1 4000)) 0
  = Done (4000 <? zlen (repeat 1 4000), zlen (repeat 1 4000) - 4000,
          mk_hsuart false (mk_hsuart_ring 0 [] 0 0)
            (mk_uart true
               ([]
                ++ map (fun f => wire_frame crc16_of_sum false (fst f) (snd f))
                     (removelast (fragments (repeat 1 4000))))
               [])).
Proof.
  apply (write_multiple_of_4000 crc16_of_sum false (mk_hsuart_ring 0 [] 0 0)
           [] [] (repeat 1 4000)).
  - apply all_bytes_sound. vm_compute. reflexivity.
  - vm_compute. reflexivity.
  - vm_compute. split; reflexivity.
Defined.

(* --------------------------------------------------------------------- *)
(** ** The HSUART link: receiving frames                                  *)
(* --------------------------------------------------------------------- *)

Lemma block_code_byte (s : list Z) (n : Z) :
  0 <= n <= 254 -> is_byte (block_code n s).
Proof.
  intros Hn. pose proof (block_code_bounds s n Hn). unfold is_byte. lia.
Qed.

Lemma block_rest_bytes (s : list Z) : forall n,
  0 <= n <= 254 -> Forall is_byte s -> Forall is_byte (block_rest n s).
Proof.
  induction s as [|b s IH]; intros n Hn Hs.
  - cbn. constructor; [unfold is_byte; lia|constructor].
  - inversion Hs as [|? ? Hb Hs']; subst. cbn [block_rest].
    destruct (Z.eqb_spec n 254), (b =? 0).
    + constructor; [unfold is_byte; lia|].
      constructor; [apply block_code_byte; lia|]. apply IH; [lia|assumption].
    + constructor; [apply block_code_byte; lia|].
      constructor; [assumption|]. apply IH; [lia|assumption].
    + constructor; [apply block_code_byte; lia|]. apply IH; [lia|assumption].
    + constructor; [assumption|]. apply IH; [lia|assumption].
Qed.

Lemma cobs_encoding_bytes (s : list Z) :
  Forall is_byte s -> Forall is_byte (cobs_encoding s).
Proof.
  intros Hs. unfold cobs_encoding.
  constructor; [apply block_code_byte; lia|apply block_rest_bytes; [lia|assumption]].
Qed.

Lemma cobs_encoding_last (s : list Z) :
  load (cobs_encoding s) (zlen (cobs_encoding s) - 1) = Some 0.
Proof.
  destruct (cobs_encoding_no_zero s) as (body & -> & _).
  apply load_middle. zlens. lia.
Qed.

Section ReceiveProofs.

Variable crc16 : list Z -> Z.
Variable big_endian : bool.

(** A frame that arrives whole is received whole. *)
Lemma receive_hsuart_packet_frame (up : bool) (sent rest : list (list Z))
  (frame : list Z) :
  Forall is_byte frame -> 1 <= zlen frame <= 4096 ->
  load frame (zlen frame - 1) = Some 0 ->
  receive_hsuart_packet (mk_uart up sent (frame :: rest)) false
  = Done (zlen frame, frame ++ skipn (length frame) temp_buffer,
          mk_uart up sent rest).
Proof.
  intros Hbytes Hlen Hlast.
  unfold receive_hsuart_packet. cbn [iterate uart_incoming fh_uart_read].
  unfold MAX_HSUART_PACKET_SIZE.
  rewrite firstn_all2 by (unfold zlen in Hlen; lia).
  rewrite skipn_all2 by (unfold zlen in Hlen; lia).
  cbn [uart_up uart_sent].
  rewrite write_bytes_exact
    by (rewrite ?temp_buffer_length; lia).
  cbn [Z.to_nat firstn app Nat.add]. rewrite map_uint8_bytes by assumption.
  cbn [Z.add]. rewrite uint32_small by lia.
  destruct (Z.ltb_spec 0 (zlen frame)); [|lia].
  replace (load (frame ++ skipn (length frame) temp_buffer) (zlen frame - 1))
    with (Some 0).
  2:{ symmetry. unfold load in *. destruct (zlen frame - 1 <? 0); [discriminate|].
      rewrite nth_error_app1; [assumption|]. unfold zlen in *. lia. }
  reflexivity.
Qed.

Lemma hsuart_decode_data (id : Z) (p tail : list Z) :
  id = PROTOCOL_PACKET \/ id = END_OF_TRANSFER_PACKET ->
  1 <= zlen p <= 4000 -> Forall is_byte p ->
  fh_hsuart_packet_decode crc16 big_endian
    (Some (wire_frame crc16 big_endian id p ++ tail))
    (zlen (wire_frame crc16 big_endian id p)) (Some temp_buffer)
    MAX_HSUART_PACKET_SIZE
  = Done (mk_hsuart_packet_result (zlen p) HSUART_PACKET_SUCCESS
            (p ++ skipn (length p) temp_buffer) (Some id)).
Proof.
  intros Hid Hlen Hbytes.
  pose proof (wire_frame_length crc16 big_endian id p ltac:(lia)) as Hframe.
  assert (Hidb : is_byte id).
  { destruct Hid as [->| ->];
      unfold is_byte, PROTOCOL_PACKET, END_OF_TRANSFER_PACKET; lia. }
  unfold fh_hsuart_packet_decode.
  destruct (Z.ltb_spec 1 (zlen (wire_frame crc16 big_endian id p))); [|lia].
  unfold wire_frame.
  set (body := (id :: p) ++ crc_bytes crc16 big_endian (id :: p)).
  assert (Hbody : zlen body = zlen p + 3).
  { unfold body. rewrite zlen_app, zlen_cons, crc_bytes_length. lia. }
  destruct (unstuff_decodes body tail (zlen (cobs_encoding body)) temp_buffer
              MAX_HSUART_PACKET_SIZE) as (ld & stl & ->).
  - apply packet_bytes; assumption.
  - unfold body. fold (wire_frame crc16 big_endian id p). lia.
  - unfold MAX_HSUART_PACKET_SIZE. lia.
  - lia.
  - rewrite temp_buffer_length. unfold MAX_HSUART_PACKET_SIZE. lia.
  - cbn [cobs_error cobs_dst cobs_ret]. rewrite Hbody.
    unfold body. rewrite <- app_assoc.
    rewrite decode_data;
      [reflexivity|assumption|lia|assumption|lia|
       unfold MAX_HSUART_PACKET_SIZE; lia|rewrite temp_buffer_length; lia].
Qed.

Lemma send_ack_up (sent incoming : list (list Z)) :
  send_ack crc16 big_endian (mk_uart true sent incoming)
  = Done (true, mk_uart true (sent ++ [[ACK_PACKET]]) incoming).
Proof. reflexivity. Qed.

Lemma send_nak_up (sent incoming : list (list Z)) :
  send_nak crc16 big_endian (mk_uart true sent incoming)
  = Done (true, mk_uart true (sent ++ [[NAK_PACKET]]) incoming).
Proof. reflexivity. Qed.

Lemma wire_frame_bytes (id : Z) (p : list Z) :
  is_byte id -> Forall is_byte p ->
  Forall is_byte (wire_frame crc16 big_endian id p).
Proof. intros. apply cobs_encoding_bytes, packet_bytes; assumption. Qed.

(** A data frame is taken off the port, acknowledged and delivered. *)
Lemma read_hsuart_packet_data (m : bool) (ring0 : hsuart_ring)
  (sent rest : list (list Z)) (id : Z) (p : list Z) :
  id = PROTOCOL_PACKET \/ id = END_OF_TRANSFER_PACKET ->
  1 <= zlen p <= 4000 -> Forall is_byte p ->
  read_hsuart_packet crc16 big_endian
    (mk_hsuart m ring0
       (mk_uart true sent (wire_frame crc16 big_endian id p :: rest)))
    (Some temp_buffer)
  = Done (mk_read_packet_result true
            (Some (p ++ skipn (length p) temp_buffer)) (Some (zlen p))
            (id =? END_OF_TRANSFER_PACKET)
            (mk_hsuart m ring0
               (mk_uart true (sent ++ [[ACK_PACKET]]) rest))).
Proof.
  intros Hid Hlen Hbytes.
  pose proof (wire_frame_length crc16 big_endian id p ltac:(lia)) as Hframe.
  assert (Hidb : is_byte id).
  { destruct Hid as [->| ->];
      unfold is_byte, PROTOCOL_PACKET, END_OF_TRANSFER_PACKET; lia. }
  unfold read_hsuart_packet. cbn [port].
  rewrite receive_hsuart_packet_frame;
    [|apply wire_frame_bytes; assumption|lia|apply cobs_encoding_last].
  cbn [bind]. rewrite hsuart_decode_data by assumption.
  cbn [bind hp_id hp_error hp_ret hp_dst].
  replace ((id =? END_OF_TRANSFER_PACKET) || (id =? PROTOCOL_PACKET)) with true
    by (destruct Hid as [->| ->]; reflexivity).
  unfold memscpy. rewrite Z.leb_refl.
  rewrite read_bytes_exact
    by (rewrite ?zlen_app; pose proof (zlen_nonneg (skipn (length p) temp_buffer)); lia).
  cbn [Z.to_nat skipn]. rewrite firstn_zlen_app.
  rewrite write_bytes_exact by (rewrite ?temp_buffer_length; lia).
  cbn [Z.to_nat firstn app Nat.add option_map crash_unless bind].
  rewrite map_uint8_bytes by assumption.
  cbn [is_invalid_param negb send_response].
  rewrite send_ack_up. cbn [bind fst snd with_port is_target_in_read_mode ring].
  reflexivity.
Qed.

End ReceiveProofs.


Section ReadLoop.

Variable crc16 : list Z -> Z.
Variable big_endian : bool.

Lemma fh_transport_hsuart_read_loop (h : hsuart) (read_buffer : list Z)
  (read_len : Z) :
  buffered_length (ring h) = 0 ->
  fh_transport_hsuart_read crc16 big_endian h read_buffer read_len
  = iterate (read_turn crc16 big_endian) (S (batches h))
      (false, read_buffer, 0, h).
Proof. intros H. unfold fh_transport_hsuart_read. rewrite H. reflexivity. Qed.

Lemma memscpy_append (done p free tail : list Z) :
  Forall is_byte p -> zlen p <= zlen free ->
  memscpy (done ++ free) (zlen done) (zlen p) (p ++ tail) 0 (zlen p)
  = Some (done ++ p ++ skipn (length p) free).
Proof.
  intros Hp Hfree. unfold memscpy. rewrite Z.leb_refl.
  pose proof (zlen_nonneg p). pose proof (zlen_nonneg tail).
  rewrite read_bytes_exact by (rewrite ?zlen_app; lia).
  cbn [Z.to_nat skipn]. rewrite firstn_zlen_app.
  destruct (split_zlen free (zlen p) ltac:(lia)) as (b & c & -> & Hb).
  rewrite (write_bytes_middle done b c p) by (try reflexivity; lia).
  rewrite map_uint8_bytes by assumption.
  do 3 f_equal. unfold zlen in Hb. apply Nat2Z.inj in Hb. rewrite <- Hb.
  rewrite skipn_app, skipn_all, Nat.sub_diag. reflexivity.
Qed.

Lemma read_turn_data (m : bool) (ring0 : hsuart_ring)
  (sent rest : list (list Z)) (id : Z) (p done free : list Z) :
  id = PROTOCOL_PACKET \/ id = END_OF_TRANSFER_PACKET ->
  payload_ok p -> zlen p <= zlen free -> zlen done + zlen p < 4294967296 ->
  read_turn crc16 big_endian
    (false, done ++ free, zlen done,
     mk_hsuart m ring0
       (mk_uart true sent (wire_frame crc16 big_endian id p :: rest)))
  = Next (id =? END_OF_TRANSFER_PACKET,
          (done ++ p) ++ skipn (length p) free, zlen (done ++ p),
          mk_hsuart m ring0 (mk_uart true (sent ++ [[ACK_PACKET]]) rest)).
Proof.
  intros Hid [Hlen Hbytes] Hfree Hmax. unfold read_turn.
  rewrite read_hsuart_packet_data by assumption.
  cbn [call rp_ok rp_length rp_buf or_empty rp_end_of_transfer rp_session].
  rewrite memscpy_append by assumption.
  pose proof (zlen_nonneg done).
  rewrite uint32_small by lia. rewrite zlen_app, <- app_assoc. reflexivity.
Qed.

Lemma read_loop (m : bool) (ring0 : hsuart_ring) (rest : list (list Z))
  (pe : list Z) :
  payload_ok pe ->
  forall (ps : list (list Z)) (done free : list Z) (sent : list (list Z))
    (fuel : nat),
    Forall payload_ok ps ->
    zlen (concat ps ++ pe) <= zlen free ->
    zlen done + zlen (concat ps ++ pe) < 4294967296 ->
    (length ps + 2 <= fuel)%nat ->
    iterate (read_turn crc16 big_endian) fuel
      (false, done ++ free, zlen done,
       mk_hsuart m ring0
         (mk_uart true sent
            (map (wire_frame crc16 big_endian PROTOCOL_PACKET) ps
             ++ wire_frame crc16 big_endian END_OF_TRANSFER_PACKET pe :: rest)))
    = Done (true,
            (done ++ concat ps ++ pe)
            ++ skipn (length (concat ps ++ pe)) free,
            zlen done + zlen (concat ps ++ pe),
            mk_hsuart m ring0
              (mk_uart true (sent ++ repeat [ACK_PACKET] (S (length ps)))
                 rest)).
Proof.
  intros Hpe ps.
  induction ps as [|p ps IH]; intros done free sent fuel Hps Hfree Hmax Hfuel.
  - destruct fuel as [|[|fuel]]; try (cbn [length] in Hfuel; lia).
    cbn [map app concat length] in *.
    cbn [iterate].
    rewrite read_turn_data; [|right; reflexivity|assumption|lia|lia].
    cbn [read_turn Z.eqb Pos.eqb END_OF_TRANSFER_PACKET].
    change (END_OF_TRANSFER_PACKET =? END_OF_TRANSFER_PACKET) with true.
    cbv iota.
    pose proof (zlen_nonneg done). destruct Hpe as [Hlen _].
    rewrite zlen_app.
    destruct (Z.ltb_spec 0 (zlen done + zlen pe)); [|lia].
    reflexivity.
  - destruct fuel as [|fuel]; [cbn [length] in Hfuel; lia|].
    inversion Hps as [|? ? Hp Hps']; subst.
    cbn [map app concat length] in *.
    rewrite <- app_assoc in Hfree, Hmax. rewrite zlen_app in Hfree, Hmax.
    pose proof (zlen_nonneg (concat ps ++ pe)).
    cbn [iterate].
    rewrite read_turn_data; [|left; reflexivity|assumption|lia|lia].
    change (PROTOCOL_PACKET =? END_OF_TRANSFER_PACKET) with false.
    rewrite (IH (done ++ p) (skipn (length p) free)
               (sent ++ [[ACK_PACKET]]) fuel Hps');
      [|unfold zlen in *; rewrite length_skipn; lia|rewrite zlen_app; lia|lia].
    rewrite <- !app_assoc. cbn [app].
    rewrite skipn_skipn, zlen_app, !length_app.
    rewrite (zlen_app p).
    replace (length (concat ps) + length pe + length p)%nat
      with (length p + (length (concat ps) + length pe))%nat by lia.
    rewrite Z.add_assoc. reflexivity.
Qed.

End ReadLoop.

Section ReadOverrun.

Variable crc16 : list Z -> Z.
Variable big_endian : bool.

Lemma memscpy_overrun (done p free tail : list Z) :
  zlen free < zlen p ->
  memscpy (done ++ free) (zlen done) (zlen p) (p ++ tail) 0 (zlen p) = None.
Proof.
  intros Hfree. unfold memscpy. rewrite Z.leb_refl.
  pose proof (zlen_nonneg p). pose proof (zlen_nonneg tail).
  pose proof (zlen_nonneg free). pose proof (zlen_nonneg done).
  rewrite read_bytes_exact by (rewrite ?zlen_app; lia).
  cbn [Z.to_nat skipn]. rewrite firstn_zlen_app.
  unfold write_bytes. destruct p as [|b p]; [rewrite zlen_nil in *; lia|].
  rewrite zlen_app.
  destruct (Z.leb_spec (zlen done + zlen (b :: p)) (zlen done + zlen free));
    [lia|].
  rewrite andb_false_r. reflexivity.
Qed.

Lemma read_turn_overrun (m : bool) (ring0 : hsuart_ring)
  (sent rest : list (list Z)) (id : Z) (p done free : list Z) :
  id = PROTOCOL_PACKET \/ id = END_OF_TRANSFER_PACKET ->
  payload_ok p -> zlen free < zlen p ->
  read_turn crc16 big_endian
    (false, done ++ free, zlen done,
     mk_hsuart m ring0
       (mk_uart true sent (wire_frame crc16 big_endian id p :: rest)))
  = Trap.
Proof.
  intros Hid [Hlen Hbytes] Hfree. unfold read_turn.
  rewrite read_hsuart_packet_data by assumption.
  cbn [call rp_ok rp_length rp_buf or_empty rp_end_of_transfer rp_session].
  rewrite memscpy_overrun by assumption. reflexivity.
Qed.

Lemma read_loop_overrun (m : bool) (ring0 : hsuart_ring)
  (rest : list (list Z)) (pe : list Z) :
  payload_ok pe ->
  forall (ps : list (list Z)) (done free : list Z) (sent : list (list Z))
    (fuel : nat),
    Forall payload_ok ps ->
    zlen free < zlen (concat ps ++ pe) ->
    zlen done + zlen (concat ps ++ pe) < 4294967296 ->
    (length ps + 2 <= fuel)%nat ->
    iterate (read_turn crc16 big_endian) fuel
      (false, done ++ free, zlen done,
       mk_hsuart m ring0
         (mk_uart true sent
            (map (wire_frame crc16 big_endian PROTOCOL_PACKET) ps
             ++ wire_frame crc16 big_endian END_OF_TRANSFER_PACKET pe :: rest)))
    = Crash.
Proof.
  intros Hpe ps.
  induction ps as [|p ps IH]; intros done free sent fuel Hps Hfree Hmax Hfuel.
  - destruct fuel as [|fuel]; [cbn [length] in Hfuel; lia|].
    cbn [map app concat length] in *.
    cbn [iterate].
    rewrite read_turn_overrun; [reflexivity|right; reflexivity|assumption|lia].
  - destruct fuel as [|fuel]; [cbn [length] in Hfuel; lia|].
    inversion Hps as [|? ? Hp Hps']; subst.
    cbn [map app concat length] in *.
    rewrite <- app_assoc in Hfree, Hmax. rewrite zlen_app in Hfree, Hmax.
    pose proof (zlen_nonneg (concat ps ++ pe)).
    cbn [iterate].
    destruct (Z.lt_ge_cases (zlen free) (zlen p)) as [Hshort|Hfits].
    + rewrite read_turn_overrun;
        [reflexivity|left; reflexivity|assumption|assumption].
    + rewrite read_turn_data; [|left; reflexivity|assumption|lia|lia].
      apply IH; [assumption| | |lia].
      * unfold zlen in *. rewrite length_skipn. lia.
      * rewrite zlen_app. lia.
Qed.

End ReadOverrun.

Lemma read_loop_whole (crc16 : list Z -> Z) (big_endian : bool)
  (m : bool) (ring0 : hsuart_ring) (sent rest : list (list Z))
  (ps : list (list Z)) (pe : list Z) (read_buffer : list Z) (read_len : Z) :
  buffered_length ring0 = 0 ->
  Forall payload_ok ps -> payload_ok pe ->
  zlen (concat ps ++ pe) <= zlen read_buffer ->
  zlen (concat ps ++ pe) < 4294967296 ->
  fh_transport_hsuart_read crc16 big_endian
    (mk_hsuart m ring0
       (mk_uart true sent
          (map (wire_frame crc16 big_endian PROTOCOL_PACKET) ps
           ++ wire_frame crc16 big_endian END_OF_TRANSFER_PACKET pe :: rest)))
    read_buffer read_len
  = Done (true,
          (concat ps ++ pe) ++ skipn (length (concat ps ++ pe)) read_buffer,
          zlen (concat ps ++ pe),
          mk_hsuart m ring0
            (mk_uart true (sent ++ repeat [ACK_PACKET] (S (length ps)))
               rest)).
Proof.
  intros Hring Hps Hpe Hfits Hmax.
  rewrite fh_transport_hsuart_read_loop by assumption.
  apply (read_loop crc16 big_endian m ring0 rest pe Hpe ps [] read_buffer
           sent); try assumption.
  unfold batches. cbn [port uart_incoming].
  rewrite length_app, length_map. cbn [length]. lia.
Qed.

(** Whatever [read_len] is: when the target sends a transfer (frames with
    payloads of 1 to 4000 bytes, all [PROTOCOL_PACKET] but the last, which
    is [END_OF_TRANSFER_PACKET]) and the ring is empty,
    [fh_transport_hsuart_read] acknowledges every frame, copies all the
    payloads one after the other into [read_buffer] and returns TRUE with
    their total length in [*bytes_read]. *)
Theorem read_whole_transfer (crc16 : list Z -> Z) (big_endian : bool)
  (m : bool) (ring0 : hsuart_ring) (sent rest : list (list Z))
  (ps : list (list Z)) (pe : list Z) (read_buffer : list Z) (read_len : Z) :
  buffered_length ring0 = 0 ->
  Forall payload_ok ps -> payload_ok pe ->
  zlen (concat ps ++ pe) <= zlen read_buffer ->
  zlen (concat ps ++ pe) < 4294967296 ->
  fh_transport_hsuart_read crc16 big_endian
    (mk_hsuart m ring0
       (mk_uart true sent
          (map (wire_frame crc16 big_endian PROTOCOL_PACKET) ps
           ++ wire_frame crc16 big_endian END_OF_TRANSFER_PACKET pe :: rest)))
    read_buffer read_len
  = Done (true,
          (concat ps ++ pe) ++ skipn (length (concat ps ++ pe)) read_buffer,
          zlen (concat ps ++ pe),
          mk_hsuart m ring0
            (mk_uart true (sent ++ repeat [ACK_PACKET] (S (length ps)))
               rest)).
Proof. apply read_loop_whole. Qed.

Lemma read_whole_transfer_witness :
  fh_transport_hsuart_read crc16_of_sum false
    (mk_hsuart false (mk_hsuart_ring 0 [] 0 0)
       (mk_uart true []
          (map (wire_frame crc16_of_sum false PROTOCOL_PACKET) [[1; 0]]
           ++ wire_frame crc16_of_sum false END_OF_TRANSFER_PACKET [3] :: [])))
    [9; 9; 9; 9] 1
  = Done (true,
          (concat [[1; 0]] ++ [3])
          ++ skipn (length (concat [[1; 0]] ++ [3])) [9; 9; 9; 9],
          zlen (concat [[1; 0]] ++ [3]),
          mk_hsuart false (mk_hsuart_ring 0 [] 0 0)
            (mk_uart true ([] ++ repeat [ACK_PACKET] (S (length [[1; 0]])))
               [])).
Proof.
  apply (read_whole_transfer crc16_of_sum false false
           (mk_hsuart_ring 0 [] 0 0) [] [] [[1; 0]] [3] [9; 9; 9; 9] 1).
  - reflexivity.
  - repeat constructor; unfold is_byte; vm_compute; try discriminate; lia.
  - repeat constructor; unfold is_byte; vm_compute; try discriminate; lia.
  - vm_compute. discriminate.
  - vm_compute. reflexivity.
Defined.

(** [read_len] does not bound what [fh_transport_hsuart_read] stores: when
    the transfer the target sends is longer than [read_buffer], the copy of
    the first payload that does not fit runs past the end of the buffer,
    whatever [read_len] is. *)
Theorem read_overruns_short_buffer (crc16 : list Z -> Z) (big_endian : bool)
  (m : bool) (ring0 : hsuart_ring) (sent rest : list (list Z))
  (ps : list (list Z)) (pe : list Z) (read_buffer : list Z) (read_len : Z) :
  buffered_length ring0 = 0 ->
  Forall payload_ok ps -> payload_ok pe ->
  zlen read_buffer < zlen (concat ps ++ pe) ->
  zlen (concat ps ++ pe) < 4294967296 ->
  fh_transport_hsuart_read crc16 big_endian
    (mk_hsuart m ring0
       (mk_uart true sent
          (map (wire_frame crc16 big_endian PROTOCOL_PACKET) ps
           ++ wire_frame crc16 big_endian END_OF_TRANSFER_PACKET pe :: rest)))
    read_buffer read_len
  = Crash.
Proof.
  intros Hring Hps Hpe Hshort Hmax.
  rewrite fh_transport_hsuart_read_loop by assumption.
  apply (read_loop_overrun crc16 big_endian m ring0 rest pe Hpe ps []
           read_buffer sent); try assumption.
  unfold batches. cbn [port uart_incoming].
  rewrite length_app, length_map. cbn [length]. lia.
Qed.

Lemma read_overruns_short_buffer_witness :
  fh_transport_hsuart_read crc16_of_sum false
    (mk_hsuart false (mk_hsuart_ring 0 [] 0 0)
       (mk_uart true []
          (map (wire_frame crc16_of_sum false PROTOCOL_PACKET) [[1; 0]]
           ++ wire_frame crc16_of_sum false END_OF_TRANSFER_PACKET [3] :: [])))
    [9; 9] 2
  = Crash.
Proof.
  apply (read_overruns_short_buffer crc16_of_sum false false
           (mk_hsuart_ring 0 [] 0 0) [] [] [[1; 0]] [3] [9; 9] 2).
  - reflexivity.
  - repeat constructor; unfold is_byte; vm_compute; try discriminate; lia.
  - repeat constructor; unfold is_byte; vm_compute; try discriminate; lia.
  - vm_compute. reflexivity.
  - vm_compute. reflexivity.
Defined.

Lemma fragments_from_split (n : nat) : forall (s : list Z) (r : Z),
  zlen s = 4000 * Z.of_nat n + r -> 0 < r <= 4000 -> Forall is_byte s ->
  exists ps pe,
    fragments_from (S n) s
    = map (pair PROTOCOL_PACKET) ps ++ [(END_OF_TRANSFER_PACKET, pe)]
    /\ concat ps ++ pe = s /\ length ps = n
    /\ Forall payload_ok ps /\ payload_ok pe.
Proof.
  induction n as [|n IH]; intros s r Hs Hr Hbytes.
  - exists [], s. cbn [fragments_from map app concat length].
    split; [reflexivity|]. split; [reflexivity|]. split; [reflexivity|].
    split; [constructor|]. split; [lia|assumption].
  - change (fragments_from (S (S n)) s)
      with ((PROTOCOL_PACKET, firstn 4000 s) :: fragments_from (S n) (skipn 4000 s)).
    destruct (IH (skipn 4000 s) r) as (ps & pe & -> & Hcat & Hlen & Hps & Hpe).
    + unfold zlen in *. rewrite length_skipn. lia.
    + assumption.
    + apply Forall_skipn_keep, Hbytes.
    + exists (firstn 4000 s :: ps), pe. cbn [map app concat length].
      split; [reflexivity|]. split.
      { rewrite <- app_assoc, Hcat. apply firstn_skipn. }
      split; [congruence|]. split; [|assumption].
      constructor; [|assumption]. split.
      * unfold zlen in *. rewrite length_firstn. lia.
      * apply Forall_firstn_keep, Hbytes.
Qed.



(** What [fh_transport_hsuart_write] puts on the wire,
    [fh_transport_hsuart_read] takes off it: for every [s] whose length is
    not a multiple of 4000, the frames a writer sends for [s] (to a target
    in read mode that acknowledges each of them) make a reader with an empty
    ring and a buffer that holds [s] return TRUE with [s] in the buffer and
    its length in [*bytes_read], and the acknowledgements the reader sends
    are the ones the writer consumed. *)
Theorem link_round_trip (crc16 : list Z -> Z) (big_endian : bool)
  (ring_tx ring_rx : hsuart_ring) (mode_rx : bool)
  (sent_tx rest_tx sent_rx rest_rx : list (list Z))
  (s read_buffer : list Z) (read_len : Z) :
  Forall is_byte s -> zlen s mod 4000 <> 0 -> zlen s < 4294967296 ->
  buffered_length ring_rx = 0 -> zlen s <= zlen read_buffer ->
  let frames :=
    map (fun f => wire_frame crc16 big_endian (fst f) (snd f)) (fragments s) in
  let acks := repeat [ACK_PACKET] (length frames) in
  fh_transport_hsuart_write crc16 big_endian
    (mk_hsuart true ring_tx (mk_uart true sent_tx (acks ++ rest_tx)))
    s (zlen s) 0
  = Done (true, zlen s,
          mk_hsuart false ring_tx (mk_uart true (sent_tx ++ frames) rest_tx))
  /\ fh_transport_hsuart_read crc16 big_endian
       (mk_hsuart mode_rx ring_rx (mk_uart true sent_rx (frames ++ rest_rx)))
       read_buffer read_len
     = Done (true, s ++ skipn (length s) read_buffer, zlen s,
             mk_hsuart mode_rx ring_rx
               (mk_uart true (sent_rx ++ acks) rest_rx)).
Proof.
  intros Hbytes Hmod Hmax Hring Hfits frames acks.
  pose proof (zlen_nonneg s) as Hs0.
  pose proof (Z.div_mod (zlen s) 4000 ltac:(lia)) as Hdm.
  pose proof (Z.mod_pos_bound (zlen s) 4000 ltac:(lia)) as Hmb.
  set (q := zlen s / 4000) in *. set (r := zlen s mod 4000) in *.
  assert (Hq0 : 0 <= q) by (apply Z.div_pos; lia).
  assert (Hcount : (zlen s + 3999) / 4000 = q + 1).
  { symmetry. apply (Z.div_unique _ _ _ (r - 1)); lia. }
  assert (Hfr : fragments s = fragments_from (S (Z.to_nat q)) s).
  { unfold fragments. rewrite Hcount. f_equal. lia. }
  subst frames acks. rewrite length_map, Hfr, fragments_from_length.
  split.
  - apply (write_fragments_run crc16 big_endian ring_tx sent_tx rest_tx s q r);
      try assumption; lia.
  - destruct (fragments_from_split (Z.to_nat q) s r)
      as (ps & pe & -> & Hcat & Hlen & Hps & Hpe); [lia|lia|assumption|].
    rewrite map_app, map_map. cbn [map fst snd]. rewrite <- app_assoc.
    cbn [app]. rewrite <- Hlen, <- Hcat.
    apply read_loop_whole; try assumption; rewrite Hcat; assumption.
Qed.

Lemma link_round_trip_witness :
  let frames :=
    map (fun f => wire_frame crc16_of_sum false (fst f) (snd f))
      (fragments [1; 0; 3]) in
  let acks := repeat [ACK_PACKET] (length frames) in
  fh_transport_hsuart_write crc16_of_sum false
    (mk_hsuart true (mk_hsuart_ring 0 [] 0 0) (mk_uart true [] (acks ++ [])))
    [1; 0; 3] (zlen [1; 0; 3]) 0
  = Done (true, zlen [1; 0; 3],
          mk_hsuart false (mk_hsuart_ring 0 [] 0 0)
            (mk_uart true ([] ++ frames) []))
  /\ fh_transport_hsuart_read crc16_of_sum false
       (mk_hsuart false (mk_hsuart_ring 0 [] 0 0)
          (mk_uart true [] (frames ++ [])))
       [9; 9; 9; 9] 1
     = Done (true, [1; 0; 3] ++ skipn (length [1; 0; 3]) [9; 9; 9; 9],
             zlen [1; 0; 3],
             mk_hsuart false (mk_hsuart_ring 0 [] 0 0)
               (mk_uart true ([] ++ acks) [])).
Proof.
  apply (link_round_trip crc16_of_sum false (mk_hsuart_ring 0 [] 0 0)
           (mk_hsuart_ring 0 [] 0 0) false [] [] [] [] [1; 0; 3]
           [9; 9; 9; 9] 1).
  - repeat constructor; unfold is_byte; lia.
  - vm_compute. discriminate.
  - vm_compute. reflexivity.
  - reflexivity.
  - vm_compute. discriminate.
Defined.

(* --------------------------------------------------------------------- *)
(** ** The HSUART link: the version handshake                             *)
(* --------------------------------------------------------------------- *)

Section OpenProofs.

Variable crc16 : list Z -> Z.
Variable big_endian : bool.

Lemma version_frame_length (major minor : Z) :
  7 <= zlen (wire_frame crc16 big_endian VERSION_PACKET [major; minor]) <= 4020.
Proof. apply (wire_frame_length crc16 big_endian VERSION_PACKET [major; minor]). cbn. lia. Qed.

Lemma hsuart_encode_version :
  exists tail,
    fh_hsuart_packet_encode crc16 big_endian VERSION_PACKET None 0
      (Some temp_buffer) MAX_HSUART_PACKET_SIZE
    = Done (mk_hsuart_packet_result
              (zlen (wire_frame crc16 big_endian VERSION_PACKET
                       [PACKET_LAYER_MAJOR_ID; PACKET_LAYER_MINOR_ID]))
              HSUART_PACKET_SUCCESS
              (wire_frame crc16 big_endian VERSION_PACKET
                 [PACKET_LAYER_MAJOR_ID; PACKET_LAYER_MINOR_ID] ++ tail)
              None).
Proof.
  pose proof (version_frame_length PACKET_LAYER_MAJOR_ID PACKET_LAYER_MINOR_ID)
    as Hframe.
  unfold fh_hsuart_packet_encode.
  destruct (encode_version crc16 big_endian None 0 temp_buffer
              MAX_HSUART_PACKET_SIZE) as (tail1 & ->);
    [unfold MAX_HSUART_PACKET_SIZE; lia|
     rewrite temp_buffer_length; unfold MAX_HSUART_PACKET_SIZE; lia|].
  cbn [pkt_error pkt_ret pkt_dst].
  change (negb (VERSION_PACKET =? ACK_PACKET)
          && negb (VERSION_PACKET =? NAK_PACKET)) with true. cbv iota.
  set (head := [VERSION_PACKET; PACKET_LAYER_MAJOR_ID; PACKET_LAYER_MINOR_ID]).
  unfold wire_frame in Hframe.
  change (VERSION_PACKET :: [PACKET_LAYER_MAJOR_ID; PACKET_LAYER_MINOR_ID])
    with head in Hframe.
  destruct (stuff_encodes (head ++ crc_bytes crc16 big_endian head) tail1
              temp_buffer MAX_HSUART_PACKET_SIZE)
    as (tail & ld & stl & Hrun & _).
  - discriminate.
  - apply (packet_bytes crc16 big_endian VERSION_PACKET
             [PACKET_LAYER_MAJOR_ID; PACKET_LAYER_MINOR_ID]).
    + unfold is_byte, VERSION_PACKET; lia.
    + repeat constructor;
        unfold is_byte, PACKET_LAYER_MAJOR_ID, PACKET_LAYER_MINOR_ID; lia.
  - rewrite zlen_app, crc_bytes_length. cbn. lia.
  - lia.
  - unfold MAX_HSUART_PACKET_SIZE. lia.
  - rewrite temp_buffer_length. unfold MAX_HSUART_PACKET_SIZE. lia.
  - rewrite temp_buffer_length. lia.
  - rewrite zlen_app, crc_bytes_length in Hrun.
    change (zlen head + 2) with 5 in Hrun.
    rewrite app_assoc, Hrun. cbn [cobs_error cobs_ret cobs_dst].
    exists tail. reflexivity.
Qed.

Lemma write_hsuart_packet_version (sent rest : list (list Z)) :
  write_hsuart_packet crc16 big_endian
    (mk_uart true sent ([ACK_PACKET] :: rest)) None 0 VERSION_PACKET
  = Done (true,
          mk_uart true
            (sent ++ [wire_frame crc16 big_endian VERSION_PACKET
                        [PACKET_LAYER_MAJOR_ID; PACKET_LAYER_MINOR_ID]])
            rest).
Proof.
  pose proof (version_frame_length PACKET_LAYER_MAJOR_ID PACKET_LAYER_MINOR_ID)
    as Hframe.
  unfold write_hsuart_packet.
  destruct hsuart_encode_version as (tail & ->).
  cbn [bind hp_error hp_dst hp_ret iterate].
  rewrite transmit_hsuart_packet_up;
    [|reflexivity|lia|rewrite zlen_app; pose proof (zlen_nonneg tail); lia].
  cbn [call negb uart_sent uart_incoming]. rewrite firstn_zlen_app.
  rewrite wait_for_ack_acked. reflexivity.
Qed.

(** What the packet decoder makes of a version packet with a good CRC. *)
Lemma decode_version_of (major minor : Z) (tail dmem : list Z) (cap : Z) :
  fh_packet_decode crc16 big_endian
    (Some ([VERSION_PACKET; major; minor]
             ++ crc_bytes crc16 big_endian [VERSION_PACKET; major; minor]
             ++ tail))
    5 (Some dmem) cap
  = Done (mk_packet_result 0
            (if (PACKET_LAYER_MAJOR_ID =? major)
                && (PACKET_LAYER_MINOR_ID =? minor)
             then PACKET_SUCCESS else PACKET_ERROR_VERSION_MISMATCH)
            dmem (Some VERSION_PACKET)).
Proof.
  unfold fh_packet_decode.
  change (5 =? 0) with false. cbv iota.
  set (head := [VERSION_PACKET; major; minor]).
  replace (load (head ++ crc_bytes crc16 big_endian head ++ tail) 0)
    with (Some VERSION_PACKET) by reflexivity.
  change (VERSION_PACKET =? ACK_PACKET) with false.
  change (VERSION_PACKET =? NAK_PACKET) with false.
  change (VERSION_PACKET =? VERSION_PACKET) with true. cbv iota.
  change (5 =? packet_id_size + version_packet_size + sizeof_crc_data)
    with true. cbn [negb].
  rewrite crc_matches_own by reflexivity.
  replace (load (head ++ crc_bytes crc16 big_endian head ++ tail) 1)
    with (Some major) by reflexivity.
  replace (load (head ++ crc_bytes crc16 big_endian head ++ tail) 2)
    with (Some minor) by reflexivity.
  destruct ((PACKET_LAYER_MAJOR_ID =? major)
            && (PACKET_LAYER_MINOR_ID =? minor)); reflexivity.
Qed.

Lemma hsuart_decode_version (major minor : Z) (tail : list Z) :
  is_byte major -> is_byte minor ->
  fh_hsuart_packet_decode crc16 big_endian
    (Some (wire_frame crc16 big_endian VERSION_PACKET [major; minor] ++ tail))
    (zlen (wire_frame crc16 big_endian VERSION_PACKET [major; minor]))
    (Some temp_buffer) MAX_HSUART_PACKET_SIZE
  = Done (mk_hsuart_packet_result 0
            (if (PACKET_LAYER_MAJOR_ID =? major)
                && (PACKET_LAYER_MINOR_ID =? minor)
             then HSUART_PACKET_SUCCESS else HSUART_PACKET_CORRUPTION_ERROR)
            temp_buffer (Some VERSION_PACKET)).
Proof.
  intros Hmajor Hminor.
  pose proof (version_frame_length major minor) as Hframe.
  unfold fh_hsuart_packet_decode.
  destruct (Z.ltb_spec 1
              (zlen (wire_frame crc16 big_endian VERSION_PACKET
                       [major; minor]))); [|lia].
  unfold wire_frame in *.
  set (head := [VERSION_PACKET; major; minor]).
  change (VERSION_PACKET :: [major; minor]) with head in Hframe.
  assert (Hbody : zlen (head ++ crc_bytes crc16 big_endian head) = 5).
  { rewrite zlen_app, crc_bytes_length. reflexivity. }
  destruct (unstuff_decodes (head ++ crc_bytes crc16 big_endian head) tail
              (zlen (cobs_encoding (head ++ crc_bytes crc16 big_endian head)))
              temp_buffer MAX_HSUART_PACKET_SIZE) as (ld & stl & ->).
  - apply (packet_bytes crc16 big_endian VERSION_PACKET [major; minor]).
    + unfold is_byte, VERSION_PACKET; lia.
    + constructor; [assumption|]. constructor; [assumption|constructor].
  - lia.
  - rewrite Hbody. unfold MAX_HSUART_PACKET_SIZE. lia.
  - lia.
  - rewrite temp_buffer_length. lia.
  - cbn [cobs_error cobs_dst cobs_ret]. rewrite Hbody, <- app_assoc.
    subst head. rewrite decode_version_of. cbn [hsuart_of_packet pkt_ret pkt_error pkt_dst pkt_id].
    destruct ((PACKET_LAYER_MAJOR_ID =? major)
              && (PACKET_LAYER_MINOR_ID =? minor)); reflexivity.
Qed.

Lemma read_hsuart_packet_version (m : bool) (ring0 : hsuart_ring)
  (sent rest : list (list Z)) (major minor : Z) (buf : option (list Z)) :
  is_byte major -> is_byte minor ->
  read_hsuart_packet crc16 big_endian
    (mk_hsuart m ring0
       (mk_uart true sent
          (wire_frame crc16 big_endian VERSION_PACKET [major; minor] :: rest)))
    buf
  = Done (if (PACKET_LAYER_MAJOR_ID =? major)
             && (PACKET_LAYER_MINOR_ID =? minor)
          then
            mk_read_packet_result true buf None false
              (mk_hsuart m ring0
                 (mk_uart true (sent ++ [[ACK_PACKET]]) rest))
          else
            mk_read_packet_result false buf None false
              (mk_hsuart m ring0
                 (mk_uart true (sent ++ [[NAK_PACKET]]) rest))).
Proof.
  intros Hmajor Hminor.
  pose proof (version_frame_length major minor) as Hframe.
  unfold read_hsuart_packet. cbn [port].
  rewrite receive_hsuart_packet_frame;
    [|apply wire_frame_bytes;
      [unfold is_byte, VERSION_PACKET; lia|
       constructor; [assumption|]; constructor; [assumption|constructor]]
     |lia|apply cobs_encoding_last].
  cbn [bind]. rewrite hsuart_decode_version by assumption.
  cbn [bind hp_id hp_error hp_ret hp_dst].
  change ((VERSION_PACKET =? END_OF_TRANSFER_PACKET)
          || (VERSION_PACKET =? PROTOCOL_PACKET)) with false.
  change ((VERSION_PACKET =? READY_TO_READ_PACKET)
          || (VERSION_PACKET =? VERSION_PACKET)) with true.
  change (VERSION_PACKET =? READY_TO_READ_PACKET) with false.
  cbv iota. cbn [andb].
  destruct ((PACKET_LAYER_MAJOR_ID =? major)
            && (PACKET_LAYER_MINOR_ID =? minor)).
  - cbn [is_invalid_param negb send_response].
    rewrite send_ack_up. reflexivity.
  - cbn [is_invalid_param negb send_response].
    rewrite send_nak_up. reflexivity.
Qed.

End OpenProofs.

(** The version handshake of [fh_transport_hsuart_open], for a port that
    opened and a target that acknowledges the host's version packet and
    answers with its own, [major.minor]: the host sends the frame of its
    version packet (1.0); when the target's version is 1.0 too the host
    acknowledges it and the link is open; for any other version the host
    sends NAK, closes the port and reports [OPEN_PORT_FAILED]. *)
Theorem open_version_handshake (crc16 : list Z -> Z) (big_endian : bool)
  (m : bool) (ring0 : hsuart_ring) (sent rest : list (list Z))
  (major minor : Z) :
  is_byte major -> is_byte minor ->
  fh_transport_hsuart_open crc16 big_endian SUCCESS
    (mk_hsuart m ring0
       (mk_uart true sent
          ([ACK_PACKET]
           :: wire_frame crc16 big_endian VERSION_PACKET [major; minor]
           :: rest)))
  = Done
      (if (major =? 1) && (minor =? 0)
       then
         (SUCCESS, false,
          mk_hsuart m ring0
            (mk_uart true
               (sent ++ [wire_frame crc16 big_endian VERSION_PACKET [1; 0];
                         [ACK_PACKET]])
               rest))
       else
         (OPEN_PORT_FAILED, true,
          mk_hsuart m ring0
            (mk_uart true
               (sent ++ [wire_frame crc16 big_endian VERSION_PACKET [1; 0];
                         [NAK_PACKET]])
               rest))).
Proof.
  intros Hmajor Hminor. unfold fh_transport_hsuart_open. cbn [port].
  rewrite write_hsuart_packet_version. cbn [bind fst snd].
  unfold with_port. cbn [is_target_in_read_mode ring].
  rewrite read_hsuart_packet_version by assumption.
  cbn [bind]. unfold PACKET_LAYER_MAJOR_ID, PACKET_LAYER_MINOR_ID.
  rewrite (Z.eqb_sym 1 major), (Z.eqb_sym 0 minor).
  destruct ((major =? 1) && (minor =? 0));
    cbn [rp_ok rp_session]; rewrite <- app_assoc; reflexivity.
Qed.

Lemma open_version_handshake_witness :
  fh_transport_hsuart_open crc16_of_sum false SUCCESS
    (mk_hsuart false (mk_hsuart_ring 0 [] 0 0)
       (mk_uart true []
          ([ACK_PACKET]
           :: wire_frame crc16_of_sum false VERSION_PACKET [2; 0] :: [])))
  = Done
      (if (2 =? 1) && (0 =? 0)
       then
         (SUCCESS, false,
          mk_hsuart false (mk_hsuart_ring 0 [] 0 0)
            (mk_uart true
               ([] ++ [wire_frame crc16_of_sum false VERSION_PACKET [1; 0];
                       [ACK_PACKET]])
               []))
       else
         (OPEN_PORT_FAILED, true,
          mk_hsuart false (mk_hsuart_ring 0 [] 0 0)
            (mk_uart true
               ([] ++ [wire_frame crc16_of_sum false VERSION_PACKET [1; 0];
                       [NAK_PACKET]])
               []))).
Proof.
  apply (open_version_handshake crc16_of_sum false false
           (mk_hsuart_ring 0 [] 0 0) [] [] 2 0);
    unfold is_byte; lia.
Defined.

(* --------------------------------------------------------------------- *)
(** ** The receive ring: first in, first out                              *)
(* --------------------------------------------------------------------- *)




Lemma firstn_skipn_swap {A} (l : list A) (a n : nat) :
  firstn n (skipn a l) = skipn a (firstn (a + n) l).
Proof.
  revert l. induction a as [|a IH]; intros l; [reflexivity|].
  destruct l as [|x l]; [now rewrite firstn_nil|]. cbn. apply IH.
Qed.

Lemma add_data_to_buffer_content (r : hsuart_ring) (buffer : list Z)
  (length : Z) :
  ring_ok r -> Forall is_byte buffer -> 0 <= length <= zlen buffer ->
  length < ONE_MEGA_BYTE - buffered_length r - buffered_data_end_ptr r ->
  exists r',
    add_data_to_buffer r buffer length = Done (true, r')
    /\ ring_content r'
       = ring_content r ++ firstn (Z.to_nat length) buffer.
Proof.
  intros (Hbl & Hs & Hse & He & Hd) Hbytes Hlen Hfit.
  unfold add_data_to_buffer.
  rewrite (uint32_small (ONE_MEGA_BYTE - buffered_length r))
    by (unfold ONE_MEGA_BYTE in *; lia).
  destruct (Z.ltb_spec length
              (ONE_MEGA_BYTE - buffered_length r
               - (buffered_data_end_ptr r - 0))) as [_|Hfull]; [|lia].
  unfold memscpy. rewrite Z.leb_refl.
  rewrite read_bytes_exact by lia. cbn [Z.to_nat skipn].
  set (bs := firstn (Z.to_nat length) buffer).
  assert (Hbs : zlen bs = length) by (apply zlen_firstn; lia).
  rewrite write_bytes_exact by lia.
  rewrite map_uint8_bytes by (apply Forall_firstn_keep, Hbytes).
  cbn [option_map crash_unless]. eexists. split; [reflexivity|].
  unfold ring_content. ring_fields.
  rewrite (uint32_small (buffered_length r + length))
    by (unfold ONE_MEGA_BYTE in *; lia).
  set (e := Z.to_nat (buffered_data_end_ptr r)).
  set (a := Z.to_nat (buffered_data_start_ptr r)).
  set (d := buffered_data r).
  assert (Hd' : (e + Datatypes.length bs <= Datatypes.length d)%nat)
    by (unfold zlen, e, d, ONE_MEGA_BYTE in *; lia).
  assert (Hae : (a <= e)%nat) by (unfold a, e; lia).
  replace (Z.to_nat (buffered_length r)) with (e - a)%nat
    by (unfold a, e; lia).
  replace (Z.to_nat (buffered_length r + length))
    with ((e - a) + Datatypes.length bs)%nat by (unfold zlen, a, e in *; lia).
  rewrite (firstn_skipn_swap d a (e - a)).
  replace (a + (e - a))%nat with e by lia.
  rewrite skipn_app, length_firstn, Nat.min_l by lia.
  replace (a - e)%nat with 0%nat by lia. cbn [skipn].
  rewrite firstn_app, length_skipn, length_firstn, Nat.min_l by lia.
  rewrite firstn_all2 by (rewrite length_skipn, length_firstn; lia).
  f_equal.
  replace (e - a + Datatypes.length bs - (e - a))%nat
    with (Datatypes.length bs) by lia.
  rewrite firstn_app, firstn_all, Nat.sub_diag. cbn [firstn].
  apply app_nil_r.
Qed.


(** On every ring that calls of the two functions produce from the initial
    one: an [add_data_to_buffer] that passes the function's own space test
    returns TRUE and puts the bytes it was given behind the bytes the ring
    holds, in order. *)
Theorem ring_add_appends (r : hsuart_ring) (buffer : list Z) (length : Z) :
  ring_reachable r -> Forall is_byte buffer -> 0 <= length <= zlen buffer ->
  length < ONE_MEGA_BYTE - buffered_length r - buffered_data_end_ptr r ->
  exists r',
    add_data_to_buffer r buffer length = Done (true, r')
    /\ ring_content r'
       = ring_content r ++ firstn (Z.to_nat length) buffer.
Proof.
  intros Hreach. apply add_data_to_buffer_content, ring_reachable_ok, Hreach.
Qed.

Lemma ring_add_appends_witness :
  exists r',
    add_data_to_buffer ring_init [1; 2; 3] 2 = Done (true, r')
    /\ ring_content r'
       = ring_content ring_init ++ firstn (Z.to_nat 2) [1; 2; 3].
Proof.
  apply (ring_add_appends ring_init [1; 2; 3] 2).
  - apply reach_init.
  - repeat constructor; unfold is_byte; lia.
  - cbn. lia.
  - cbn. lia.
Defined.



(* --------------------------------------------------------------------- *)
(** ** The packet layers: short destinations, and the framed round trip   *)
(* --------------------------------------------------------------------- *)

Lemma store_length (m : list Z) (p v : Z) (m' : list Z) :
  store m p v = Some m' -> zlen m' = zlen m.
Proof.
  unfold store.
  destruct (Z.leb_spec 0 p); [|discriminate].
  destruct (Z.ltb_spec p (zlen m)); [|discriminate].
  cbn [andb]. intros Hm'. injection Hm' as <-. unfold zlen in *.
  destruct m as [|x m]; [cbn [length] in *; lia|].
  rewrite length_app, length_firstn, !length_cons, length_skipn.
  rewrite length_cons in *. lia.
Qed.

Lemma read_bytes_beyond (m : list Z) (off n : Z) :
  n <> 0 -> zlen m < off + n -> read_bytes m off n = None.
Proof.
  intros Hn Hm. unfold read_bytes.
  destruct (Z.eqb_spec n 0); [contradiction|].
  destruct (Z.leb_spec (off + n) (zlen m)); [lia|].
  rewrite andb_false_r. reflexivity.
Qed.

Lemma write_bytes_beyond (m : list Z) (off : Z) (bs : list Z) :
  bs <> [] -> zlen m < off + zlen bs -> write_bytes m off bs = None.
Proof.
  intros Hbs Hm. unfold write_bytes. destruct bs as [|b bs]; [contradiction|].
  destruct (Z.leb_spec (off + zlen (b :: bs)) (zlen m)); [lia|].
  rewrite andb_false_r. reflexivity.
Qed.

(** [fh_packet_encode] has no test of the destination size for the two data
    packets: when the destination object is shorter than the packet
    ([src_length + 3] bytes), the function does not report
    [PACKET_ERROR_DST_BUFFER_OVERFLOW]; computing or storing the CRC leaves
    the destination. *)
Theorem encode_overruns_short_destination (crc16 : list Z -> Z)
  (big_endian : bool) (id : Z) (s d : list Z) (src_length : Z) :
  id = PROTOCOL_PACKET \/ id = END_OF_TRANSFER_PACKET ->
  1 <= src_length < 4294967296 - 3 -> zlen d < src_length + 3 ->
  fh_packet_encode crc16 big_endian id (Some s) src_length (Some d) (zlen d)
  = Crash.
Proof.
  intros Hid Hlen Hshort. unfold fh_packet_encode.
  assert (Hsel : (id =? ACK_PACKET) = false /\ (id =? NAK_PACKET) = false
                 /\ (id =? VERSION_PACKET) = false
                 /\ (id =? READY_TO_READ_PACKET) = false
                 /\ ((id =? PROTOCOL_PACKET)
                     || (id =? END_OF_TRANSFER_PACKET)) = true)
    by (destruct Hid; subst id; repeat split; reflexivity).
  destruct Hsel as (-> & -> & -> & -> & ->).
  destruct (Z.eqb_spec src_length 0); [lia|].
  destruct (store d 0 id) as [d1|] eqn:Hd1; [|reflexivity].
  assert (Hd0 : 1 <= zlen d).
  { destruct d as [|x d]; [discriminate|].
    rewrite zlen_cons. pose proof (zlen_nonneg d). lia. }
  apply store_length in Hd1.
  destruct (memscpy d1 _ _ s 0 src_length) as [d2|] eqn:Hd2; [|reflexivity].
  apply memscpy_length in Hd2.
  unfold fh_crc_calculate_crc16, packet_id_size, PACKET_ID_SIZE,
    sizeof_crc_data.
  rewrite (uint32_small (1 + src_length)) by lia.
  destruct (Z.lt_ge_cases (zlen d) (1 + src_length)) as [Hcrc|Hcrc].
  - rewrite read_bytes_beyond by lia. reflexivity.
  - destruct (read_bytes_some d2 0 (1 + src_length)) as (bs & -> & _);
      try lia.
    cbn [option_map].
    unfold memscpy_from_crc, memscpy, sizeof_crc_data.
    rewrite (uint32_small (zlen d - 1)) by lia.
    assert (Hcopy : exists b bs',
              read_bytes
                (uint16_to_bytes big_endian
                   (to_wire_order big_endian (uint16 (crc16 bs)))) 0
                (if zlen d - 1 <=? 2 then zlen d - 1 else 2)
              = Some (b :: bs')).
    { unfold uint16_to_bytes.
      destruct (Z.leb_spec (zlen d - 1) 2) as [Hle|Hgt].
      - assert (Hone : zlen d - 1 = 1 \/ zlen d - 1 = 2) by lia.
        destruct Hone as [-> | ->]; destruct big_endian;
          cbv [read_bytes Z.eqb Z.leb Z.add Z.compare Pos.compare
               Pos.compare_cont zlen length Z.of_nat Pos.of_succ_nat
               Pos.succ andb Z.to_nat Pos.to_nat Pos.iter_op Nat.add
               firstn skipn];
          eauto.
      - destruct big_endian;
          cbv [read_bytes Z.eqb Z.leb Z.add Z.compare Pos.compare
               Pos.compare_cont zlen length Z.of_nat Pos.of_succ_nat
               Pos.succ andb Z.to_nat Pos.to_nat Pos.iter_op Nat.add
               firstn skipn];
          eauto. }
    destruct Hcopy as (b & bs' & Hread).
    rewrite Hread.
    apply read_bytes_length in Hread;
      [|destruct (zlen d - 1 <=? 2); lia].
    rename Hread into Hn.
    rewrite write_bytes_beyond; [reflexivity|discriminate|].
    rewrite Hn. destruct (Z.leb_spec (zlen d - 1) 2); lia.
Qed.

Lemma encode_overruns_short_destination_witness :
  fh_packet_encode crc16_of_sum false PROTOCOL_PACKET (Some [1; 2; 3]) 3
    (Some [0; 0; 0; 0; 0]) (zlen [0; 0; 0; 0; 0])
  = Crash.
Proof.
  apply (encode_overruns_short_destination crc16_of_sum false PROTOCOL_PACKET
           [1; 2; 3] [0; 0; 0; 0; 0] 3).
  - left. reflexivity.
  - lia.
  - vm_compute. reflexivity.
Defined.

(** The framed round trip, as the link uses the two functions: for a data
    packet id and a payload of 1 to 4000 bytes, [fh_hsuart_packet_encode]
    into the 4096-byte frame buffer succeeds and yields a frame of
    [len + 5] to 4020 bytes in which the only zero byte is the last one,
    and [fh_hsuart_packet_decode] of that frame (whatever follows it in the
    receive buffer) returns the length of the payload with
    [HSUART_PACKET_SUCCESS], the id and the payload. *)
Theorem hsuart_packet_round_trip (crc16 : list Z -> Z) (big_endian : bool)
  (id : Z) (p junk behind : list Z) :
  id = PROTOCOL_PACKET \/ id = END_OF_TRANSFER_PACKET ->
  1 <= zlen p <= 4000 -> Forall is_byte p ->
  exists frame tail body,
    fh_hsuart_packet_encode crc16 big_endian id (Some (p ++ junk)) (zlen p)
      (Some temp_buffer) MAX_HSUART_PACKET_SIZE
    = Done (mk_hsuart_packet_result (zlen frame) HSUART_PACKET_SUCCESS
              (frame ++ tail) None)
    /\ zlen p + 5 <= zlen frame <= 4020
    /\ frame = body ++ [0] /\ Forall (fun b => b <> 0) body
    /\ fh_hsuart_packet_decode crc16 big_endian (Some (frame ++ behind))
         (zlen frame) (Some temp_buffer) MAX_HSUART_PACKET_SIZE
       = Done (mk_hsuart_packet_result (zlen p) HSUART_PACKET_SUCCESS
                 (p ++ skipn (length p) temp_buffer) (Some id)).
Proof.
  intros Hid Hlen Hbytes.
  destruct (hsuart_encode_data crc16 big_endian id p junk Hid Hlen Hbytes)
    as (tail & Henc).
  destruct (cobs_encoding_no_zero
              ((id :: p) ++ crc_bytes crc16 big_endian (id :: p)))
    as (body & Hbody & Hzero).
  exists (wire_frame crc16 big_endian id p), tail, body.
  split; [exact Henc|].
  split; [apply wire_frame_length; lia|].
  split; [exact Hbody|]. split; [exact Hzero|].
  apply hsuart_decode_data; assumption.
Qed.

Lemma hsuart_packet_round_trip_witness :
  exists frame tail body,
    fh_hsuart_packet_encode crc16_of_sum false PROTOCOL_PACKET
      (Some ([1; 0; 3] ++ [])) (zlen [1; 0; 3])
      (Some temp_buffer) MAX_HSUART_PACKET_SIZE
    = Done (mk_hsuart_packet_result (zlen frame) HSUART_PACKET_SUCCESS
              (frame ++ tail) None)
    /\ zlen [1; 0; 3] + 5 <= zlen frame <= 4020
    /\ frame = body ++ [0] /\ Forall (fun b => b <> 0) body
    /\ fh_hsuart_packet_decode crc16_of_sum false (Some (frame ++ []))
         (zlen frame) (Some temp_buffer) MAX_HSUART_PACKET_SIZE
       = Done (mk_hsuart_packet_result (zlen [1; 0; 3]) HSUART_PACKET_SUCCESS
                 ([1; 0; 3] ++ skipn (length [1; 0; 3]) temp_buffer)
                 (Some PROTOCOL_PACKET)).
Proof.
  apply (hsuart_packet_round_trip crc16_of_sum false PROTOCOL_PACKET
           [1; 0; 3] [] []).
  - left. reflexivity.
  - vm_compute. split; discriminate.
  - repeat constructor; unfold is_byte; lia.
Defined.

(* --------------------------------------------------------------------- *)
(** ** The HSUART link: retransmission, and data ahead of READY_TO_READ   *)
(* --------------------------------------------------------------------- *)

Section RetransmitProofs.

Variable crc16 : list Z -> Z.
Variable big_endian : bool.

Lemma wait_for_ack_naked (up : bool) (sent rest : list (list Z)) :
  wait_for_ack crc16 big_endian (mk_uart up sent ([NAK_PACKET] :: rest))
  = Done (false, mk_uart up sent rest).
Proof. vm_compute. reflexivity. Qed.

Lemma retransmit_loop (frame tail : list Z) (rest : list (list Z)) :
  0 < zlen frame < 4294967296 ->
  forall (n : nat) (sent : list (list Z)) (fuel : nat),
    (n + 1 <= fuel)%nat ->
    iterate
      (fun u0 : uart =>
         call (transmit_hsuart_packet u0 (frame ++ tail) (zlen frame))
           (fun t =>
              let (sent0, u1) := t in
              if negb sent0 then Stop (false, u1)
              else
                call (wait_for_ack crc16 big_endian u1)
                  (fun a =>
                     let (acked, u2) := a in
                     if acked then Stop (true, u2) else Next u2)))
      fuel
      (mk_uart true sent (repeat [NAK_PACKET] n ++ [ACK_PACKET] :: rest))
    = Done (true, mk_uart true (sent ++ repeat frame (S n)) rest).
Proof.
  intros Hframe n.
  induction n as [|n IH]; intros sent fuel Hfuel;
    (destruct fuel as [|fuel]; [lia|]); cbn [iterate repeat app].
  - rewrite transmit_hsuart_packet_up;
      [|reflexivity|lia|rewrite zlen_app; pose proof (zlen_nonneg tail); lia].
    cbn [call negb uart_sent uart_incoming]. rewrite firstn_zlen_app.
    rewrite wait_for_ack_acked. reflexivity.
  - rewrite transmit_hsuart_packet_up;
      [|reflexivity|lia|rewrite zlen_app; pose proof (zlen_nonneg tail); lia].
    cbn [call negb uart_sent uart_incoming]. rewrite firstn_zlen_app.
    rewrite wait_for_ack_naked. cbn [call].
    rewrite IH by lia. rewrite <- app_assoc. reflexivity.
Qed.

End RetransmitProofs.

(** [write_hsuart_packet] sends the frame again after every NAK: when the
    target answers a data packet with [n] NAKs and then an ACK, the same
    frame goes out [n + 1] times and the function returns TRUE. *)
Theorem write_retransmits_until_ack (crc16 : list Z -> Z) (big_endian : bool)
  (sent rest : list (list Z)) (id : Z) (p junk : list Z) (n : nat) :
  id = PROTOCOL_PACKET \/ id = END_OF_TRANSFER_PACKET ->
  1 <= zlen p <= 4000 -> Forall is_byte p ->
  write_hsuart_packet crc16 big_endian
    (mk_uart true sent (repeat [NAK_PACKET] n ++ [ACK_PACKET] :: rest))
    (Some (p ++ junk)) (zlen p) id
  = Done (true,
          mk_uart true
            (sent ++ repeat (wire_frame crc16 big_endian id p) (S n)) rest).
Proof.
  intros Hid Hlen Hbytes.
  pose proof (wire_frame_length crc16 big_endian id p ltac:(lia)) as Hframe.
  unfold write_hsuart_packet.
  destruct (hsuart_encode_data crc16 big_endian id p junk Hid Hlen Hbytes)
    as (tail & ->).
  cbn [bind hp_error hp_dst hp_ret].
  apply retransmit_loop; [lia|].
  cbn [uart_incoming]. rewrite length_app, repeat_length. cbn [length]. lia.
Qed.

Lemma write_retransmits_until_ack_witness :
  write_hsuart_packet crc16_of_sum false
    (mk_uart true [] (repeat [NAK_PACKET] 2 ++ [ACK_PACKET] :: []))
    (Some ([1; 0; 3] ++ [])) (zlen [1; 0; 3]) PROTOCOL_PACKET
  = Done (true,
          mk_uart true
            ([] ++ repeat (wire_frame crc16_of_sum false PROTOCOL_PACKET
                             [1; 0; 3]) (S 2)) []).
Proof.
  apply (write_retransmits_until_ack crc16_of_sum false [] []
           PROTOCOL_PACKET [1; 0; 3] [] 2).
  - left. reflexivity.
  - vm_compute. split; discriminate.
  - repeat constructor; unfold is_byte; lia.
Defined.

Section ReadyProofs.

Variable crc16 : list Z -> Z.
Variable big_endian : bool.




End ReadyProofs.





(* --------------------------------------------------------------------- *)
(** ** The XML reassembler: finding the declaration, and raw reads        *)
(* --------------------------------------------------------------------- *)

Lemma skipn_load (m : list Z) (j x : Z) :
  load m j = Some x ->
  skipn (Z.to_nat j) m = x :: skipn (Z.to_nat (j + 1)) m.
Proof.
  unfold load. destruct (Z.ltb_spec j 0); [discriminate|].
  replace (Z.to_nat (j + 1)) with (S (Z.to_nat j)) by lia.
  generalize (Z.to_nat j). intros n. revert m.
  induction n as [|n IH]; intros [|y m]; cbn; try discriminate.
  - intros [= ->]. reflexivity.
  - apply IH.
Qed.

Lemma load_in_range (m : list Z) (j : Z) :
  0 <= j < zlen m -> exists x, load m j = Some x.
Proof.
  intros Hj. unfold load. destruct (Z.ltb_spec j 0); [lia|].
  destruct (nth_error m (Z.to_nat j)) as [x|] eqn:E; [eauto|].
  apply nth_error_None in E. unfold zlen in Hj. lia.
Qed.

Lemma match_chars_yes (m : list Z) (pattern : list Z) : forall j,
  0 <= j -> zlen m < 18446744073709551616 ->
  firstn (length pattern) (skipn (Z.to_nat j) m) = pattern ->
  match_chars m j pattern = Some (true, j + zlen pattern).
Proof.
  induction pattern as [|c pattern IH]; intros j Hj Hm Hw.
  - cbn [match_chars]. rewrite zlen_nil, Z.add_0_r. reflexivity.
  - cbn [match_chars].
    destruct (skipn (Z.to_nat j) m) as [|x tl] eqn:Hsk; [discriminate|].
    assert (Hin : 0 <= j < zlen m).
    { split; [assumption|].
      destruct (Z.lt_ge_cases j (zlen m)); [assumption|].
      rewrite skipn_all2 in Hsk by (unfold zlen in *; lia). discriminate. }
    destruct (load_in_range m j Hin) as (x' & Hl). rewrite Hl.
    pose proof (skipn_load m j x' Hl) as Hsk'. rewrite Hsk in Hsk'.
    injection Hsk' as <- ->. cbn [length firstn] in Hw.
    injection Hw as -> Hw. rewrite Z.eqb_refl.
    rewrite uint64_small by lia.
    rewrite IH by (try assumption; lia). rewrite zlen_cons.
    f_equal. f_equal. lia.
Qed.

Lemma match_at_yes (m : list Z) (pattern : list Z) (j : Z) :
  0 <= j -> zlen m < 18446744073709551616 ->
  firstn (length pattern) (skipn (Z.to_nat j) m) = pattern ->
  match_at m j pattern = Some true.
Proof.
  intros Hj Hm Hw. unfold match_at. rewrite match_chars_yes by assumption.
  reflexivity.
Qed.

Lemma match_at_no (m : list Z) (pattern : list Z) : forall j,
  0 <= j -> j + zlen pattern <= zlen m -> zlen m < 18446744073709551616 ->
  firstn (length pattern) (skipn (Z.to_nat j) m) <> pattern ->
  match_at m j pattern = Some false.
Proof.
  unfold match_at.
  induction pattern as [|c pattern IH]; intros j Hj Hfit Hm Hw.
  - cbn in Hw. contradiction.
  - cbn [match_chars]. rewrite zlen_cons in Hfit.
    pose proof (zlen_nonneg pattern).
    destruct (load_in_range m j ltac:(lia)) as (x & Hl). rewrite Hl.
    rewrite (skipn_load m j x Hl) in Hw. cbn [length firstn] in Hw.
    destruct (Z.eqb_spec x c) as [->|Hne]; [|reflexivity].
    rewrite uint64_small by lia.
    apply IH; try lia. intros E. apply Hw. rewrite E. reflexivity.
Qed.

Lemma match_at_first (m : list Z) (j x c : Z) (pattern : list Z) :
  load m j = Some x -> x <> c -> match_at m j (c :: pattern) = Some false.
Proof.
  intros Hl Hne. unfold match_at. cbn [match_chars]. rewrite Hl.
  destruct (Z.eqb_spec x c); [contradiction|reflexivity].
Qed.

Lemma advanced_nothing (s : scratch) : advanced s 0 = s.
Proof.
  destruct s as [b n]. unfold advanced. cbn [fh_rx_buffer fh_rx_buffer_bytes].
  cbn [Z.to_nat skipn repeat app]. rewrite Z.sub_0_r, firstn_skipn.
  reflexivity.
Qed.

Lemma start_buf_with_xml_search (s : scratch) :
  start_buf_with_xml s
  = if fh_rx_buffer_bytes s <? 6 then Done (1, s)
    else
      bind (iterate (xml_search s) (S (Z.to_nat (fh_rx_buffer_bytes s))) 0)
        (fun offset =>
           if offset =? 0 then Done (0, s)
           else if offset <? fh_rx_buffer_bytes s
           then
             crash_unless
               (option_map (fun s' => (0, s'))
                  (shift_fh_rx_buffer_left s offset))
           else
             crash_unless
               (option_map (fun b => (-1, mk_scratch b 0))
                  (zero_bytes (fh_rx_buffer s) 0 (fh_rx_buffer_bytes s)))).
Proof. reflexivity. Qed.

Lemma xml_search_skips (s : scratch) (k : Z) :
  (forall j, 0 <= j < k ->
     j < fh_rx_buffer_bytes s
     /\ match_at (fh_rx_buffer s) j (chars "<?xml") = Some false) ->
  k < 18446744073709551616 ->
  forall (d : nat) (offset : Z) (fuel : nat),
    0 <= offset -> offset + Z.of_nat d = k ->
    iterate (xml_search s) (d + fuel) offset = iterate (xml_search s) fuel k.
Proof.
  intros Hno Hk d. induction d as [|d IH]; intros offset fuel Ho Hd.
  - replace offset with k by lia. reflexivity.
  - cbn [Nat.add iterate]. unfold xml_search at 1.
    destruct (Hno offset ltac:(lia)) as (Hlt & ->).
    destruct (Z.ltb_spec offset (fh_rx_buffer_bytes s)); [|lia].
    cbn [negb]. rewrite uint64_small by lia. apply IH; lia.
Qed.

Lemma start_buf_with_xml_at (s : scratch) (k : Z) :
  scratch_ok s -> 6 <= fh_rx_buffer_bytes s ->
  0 <= k -> k + 5 <= fh_rx_buffer_bytes s ->
  firstn 5 (skipn (Z.to_nat k) (fh_rx_buffer s)) = chars "<?xml" ->
  (forall j, 0 <= j < k ->
     firstn 5 (skipn (Z.to_nat j) (fh_rx_buffer s)) <> chars "<?xml") ->
  start_buf_with_xml s = Done (0, advanced s k).
Proof.
  intros Hs Hn Hk Hfit Hat Hbefore.
  pose proof Hs as (Hlen & Hb & Hc). unfold sizeof_fh_rx_buffer in *.
  rewrite start_buf_with_xml_search.
  destruct (Z.ltb_spec (fh_rx_buffer_bytes s) 6); [lia|].
  replace (S (Z.to_nat (fh_rx_buffer_bytes s)))
    with (Z.to_nat k + S (Z.to_nat (fh_rx_buffer_bytes s - k)))%nat by lia.
  rewrite (xml_search_skips s k); try lia.
  - cbn [iterate]. unfold xml_search.
    destruct (Z.ltb_spec k (fh_rx_buffer_bytes s)); [|lia]. cbn [negb].
    rewrite match_at_yes by (try assumption; lia).
    cbn [bind].
    destruct (Z.eqb_spec k 0) as [->|Hk0].
    + rewrite advanced_nothing. reflexivity.
    + destruct (Z.ltb_spec k (fh_rx_buffer_bytes s)); [|lia].
      rewrite shift_fh_rx_buffer_left_advances by (try assumption; lia).
      reflexivity.
  - intros j Hj. split; [lia|].
    apply match_at_no; try lia.
    + change (zlen (chars "<?xml")) with 5. lia.
    + apply Hbefore, Hj.
Qed.

(** [start_buf_with_xml] on a scratch of at least six bytes in which the
    first [<?xml] starts at offset [k]: the [k] bytes ahead of it are
    discarded, what follows moves to the front of the buffer, the vacated
    end is zeroed, and 0 is returned. *)
Theorem start_buf_with_xml_discards_junk (s : scratch) (k : Z) :
  scratch_ok s -> 6 <= fh_rx_buffer_bytes s ->
  0 <= k -> k + 5 <= fh_rx_buffer_bytes s ->
  firstn 5 (skipn (Z.to_nat k) (fh_rx_buffer s)) = chars "<?xml" ->
  (forall j, 0 <= j < k ->
     firstn 5 (skipn (Z.to_nat j) (fh_rx_buffer s)) <> chars "<?xml") ->
  start_buf_with_xml s = Done (0, advanced s k).
Proof. apply start_buf_with_xml_at. Qed.

(** [start_buf_with_xml] on a scratch of 6 to 4092 bytes that holds no
    complete [<?xml]: everything is discarded, the start of a declaration
    at the end of the bytes included; the count becomes 0 and -1 is
    returned. *)
Theorem start_buf_with_xml_discards_all (s : scratch) :
  scratch_ok s -> 6 <= fh_rx_buffer_bytes s <= 4092 ->
  (forall j, 0 <= j < fh_rx_buffer_bytes s ->
     firstn 5 (skipn (Z.to_nat j) (fh_rx_buffer s)) <> chars "<?xml") ->
  start_buf_with_xml s
  = Done (-1,
          mk_scratch
            (repeat 0 (Z.to_nat (fh_rx_buffer_bytes s))
             ++ skipn (Z.to_nat (fh_rx_buffer_bytes s)) (fh_rx_buffer s))
            0).
Proof.
  intros Hs Hn Hnone.
  pose proof Hs as (Hlen & Hb & Hc). unfold sizeof_fh_rx_buffer in *.
  rewrite start_buf_with_xml_search.
  destruct (Z.ltb_spec (fh_rx_buffer_bytes s) 6); [lia|].
  replace (S (Z.to_nat (fh_rx_buffer_bytes s)))
    with (Z.to_nat (fh_rx_buffer_bytes s) + 1)%nat by lia.
  rewrite (xml_search_skips s (fh_rx_buffer_bytes s)); try lia.
  - cbn [iterate]. unfold xml_search. rewrite Z.ltb_irrefl. cbn [negb bind].
    destruct (Z.eqb_spec (fh_rx_buffer_bytes s) 0); [lia|].
    rewrite Z.ltb_irrefl. unfold zero_bytes.
    rewrite write_bytes_exact
      by (unfold zlen in *; rewrite ?repeat_length; lia).
    cbn [option_map crash_unless Z.to_nat firstn app Nat.add].
    rewrite map_uint8_repeat_zero, repeat_length. reflexivity.
  - intros j Hj. split; [lia|].
    apply match_at_no; try lia.
    + change (zlen (chars "<?xml")) with 5. lia.
    + apply Hnone, Hj.
Qed.

(** [start_buf_with_xml] compares five characters from every offset below
    the count: on a full scratch whose last byte is the first [<] in it,
    the comparison goes on to [fh_rx_buffer[4096]], behind the array. *)
Theorem start_buf_with_xml_reads_behind_buffer (s : scratch) :
  scratch_ok s -> fh_rx_buffer_bytes s = 4096 ->
  Forall (fun x => x <> char "<") (firstn 4095 (fh_rx_buffer s)) ->
  load (fh_rx_buffer s) 4095 = Some (char "<") ->
  start_buf_with_xml s = Crash.
Proof.
  intros Hs Hn Hnone Hlast.
  pose proof Hs as (Hlen & Hb & Hc). unfold sizeof_fh_rx_buffer in *.
  rewrite start_buf_with_xml_search. rewrite Hn.
  change (4096 <? 6) with false. cbv iota.
  change (S (Z.to_nat 4096)) with (Z.to_nat 4095 + 2)%nat.
  rewrite (xml_search_skips s 4095); try lia.
  - cbn [iterate]. unfold xml_search. rewrite Hn.
    change (4095 <? 4096) with true. cbn [negb].
    unfold match_at. change (chars "<?xml") with (char "<" :: chars "?xml").
    cbn [match_chars]. rewrite Hlast, Z.eqb_refl.
    change (uint64 (4095 + 1)) with 4096.
    change (chars "?xml") with (char "?" :: chars "xml").
    cbn [match_chars].
    replace (load (fh_rx_buffer s) 4096) with (@None Z); [reflexivity|].
    unfold load. change (4096 <? 0) with false. cbv iota.
    symmetry. apply nth_error_None. unfold zlen in Hlen. lia.
  - intros j Hj. split; [lia|].
    destruct (load_in_range (fh_rx_buffer s) j ltac:(lia)) as (x & Hl).
    change (chars "<?xml") with (char "<" :: chars "?xml").
    apply (match_at_first _ _ x); [exact Hl|].
    rewrite Forall_forall in Hnone. apply Hnone.
    unfold load in Hl. destruct (j <? 0); [discriminate|].
    apply nth_error_In with (n := Z.to_nat j).
    rewrite nth_error_firstn.
    destruct (Nat.ltb_spec (Z.to_nat j) 4095); [exact Hl|lia].
Qed.

Lemma none_equal_sound (c : Z) (l : list Z) :
  forallb (fun x => negb (x =? c)) l = true -> Forall (fun x => x <> c) l.
Proof.
  intros H. apply Forall_forall. intros x Hx.
  apply (proj1 (forallb_forall _ l) H) in Hx.
  destruct (Z.eqb_spec x c); [discriminate|assumption].
Qed.

Lemma start_buf_with_xml_discards_junk_witness :
  start_buf_with_xml (scratch_with (chars "ab<?xml>"))
  = Done (0, advanced (scratch_with (chars "ab<?xml>")) 2).
Proof.
  apply (start_buf_with_xml_discards_junk (scratch_with (chars "ab<?xml>")) 2).
  - split; [vm_compute; reflexivity|].
    split; [apply all_bytes_sound; vm_compute; reflexivity|].
    vm_compute. split; discriminate.
  - vm_compute. discriminate.
  - lia.
  - vm_compute. discriminate.
  - vm_compute. reflexivity.
  - intros j Hj. assert (Hc : j = 0 \/ j = 1) by lia.
    destruct Hc as [-> | ->]; vm_compute; discriminate.
Defined.

Lemma start_buf_with_xml_discards_all_witness :
  start_buf_with_xml (scratch_with (chars "ab<?xm"))
  = Done (-1,
          mk_scratch
            (repeat 0 (Z.to_nat (fh_rx_buffer_bytes (scratch_with (chars "ab<?xm"))))
             ++ skipn (Z.to_nat (fh_rx_buffer_bytes (scratch_with (chars "ab<?xm"))))
                  (fh_rx_buffer (scratch_with (chars "ab<?xm"))))
            0).
Proof.
  apply (start_buf_with_xml_discards_all (scratch_with (chars "ab<?xm"))).
  - split; [vm_compute; reflexivity|].
    split; [apply all_bytes_sound; vm_compute; reflexivity|].
    vm_compute. split; discriminate.
  - vm_compute. split; discriminate.
  - intros j Hj. change (fh_rx_buffer_bytes (scratch_with (chars "ab<?xm")))
      with 6 in Hj.
    assert (Hc : j = 0 \/ j = 1 \/ j = 2 \/ j = 3 \/ j = 4 \/ j = 5) by lia.
    destruct Hc as [-> | [-> | [-> | [-> | [-> | ->]]]]];
      vm_compute; discriminate.
Defined.

Lemma start_buf_with_xml_reads_behind_buffer_witness :
  start_buf_with_xml (mk_scratch (repeat 0 4095 ++ [char "<"]) 4096) = Crash.
Proof.
  apply (start_buf_with_xml_reads_behind_buffer
           (mk_scratch (repeat 0 4095 ++ [char "<"]) 4096)).
  - split; [vm_compute; reflexivity|].
    split; [apply all_bytes_sound; vm_compute; reflexivity|].
    vm_compute. split; discriminate.
  - reflexivity.
  - apply none_equal_sound. vm_compute. reflexivity.
  - vm_compute. reflexivity.
Defined.

Lemma advanced_all (s : scratch) :
  advanced s (fh_rx_buffer_bytes s)
  = mk_scratch
      (repeat 0 (Z.to_nat (fh_rx_buffer_bytes s))
       ++ skipn (Z.to_nat (fh_rx_buffer_bytes s)) (fh_rx_buffer s))
      0.
Proof.
  unfold advanced. rewrite Z.sub_diag. reflexivity.
Qed.

Lemma serve_from_scratch_copies (data : list Z) (size : Z) (s : scratch) :
  scratch_ok s -> 0 <= size <= zlen data ->
  serve_from_scratch data size s
  = Done (firstn (Z.to_nat (Z.min size (fh_rx_buffer_bytes s)))
            (fh_rx_buffer s)
          ++ skipn (Z.to_nat (Z.min size (fh_rx_buffer_bytes s))) data,
          Z.min size (fh_rx_buffer_bytes s),
          advanced s (Z.min size (fh_rx_buffer_bytes s))).
Proof.
  intros Hs Hsize. pose proof Hs as (Hlen & Hb & Hc).
  unfold sizeof_fh_rx_buffer in *. unfold serve_from_scratch.
  destruct (Z.eqb_spec (fh_rx_buffer_bytes s) 0) as [Hz|Hnz]; cbn [negb].
  - rewrite Hz, Z.min_r by lia. cbn [Z.to_nat firstn skipn app].
    rewrite <- Hz at 2. rewrite <- (advanced_nothing s) at 1.
    rewrite Hz. reflexivity.
  - set (c := Z.min size (fh_rx_buffer_bytes s)).
    assert (Hcopy : (if size <=? fh_rx_buffer_bytes s then size
                     else fh_rx_buffer_bytes s) = c).
    { unfold c. destruct (Z.leb_spec size (fh_rx_buffer_bytes s)); lia. }
    assert (Hc0 : 0 <= c <= fh_rx_buffer_bytes s) by (unfold c; lia).
    unfold memscpy at 1. rewrite !Hcopy.
    rewrite read_bytes_exact by lia. cbn [Z.to_nat skipn].
    assert (Hfl : length (firstn (Z.to_nat c) (fh_rx_buffer s)) = Z.to_nat c).
    { rewrite length_firstn. unfold zlen in Hlen. lia. }
    rewrite write_bytes_exact by (unfold zlen in *; rewrite ?Hfl; lia).
    rewrite map_uint8_bytes by (apply Forall_firstn_keep, Hb).
    cbn [Z.to_nat firstn app Nat.add]. rewrite Hfl.
    destruct (Z.ltb_spec c (fh_rx_buffer_bytes s)) as [Hpart|Hall].
    + pose proof (shift_fh_rx_buffer_left_advances s c Hs ltac:(lia)) as Hsh.
      unfold shift_fh_rx_buffer_left in Hsh.
      destruct (memsmove _ _ _ _ _ _) as [b1|]; [|discriminate].
      destruct (zero_bytes b1 _ c) as [b2|]; [|discriminate].
      cbn [option_map] in Hsh. injection Hsh as Hsh Hrem.
      cbn [option_map crash_unless]. rewrite Hsh, Hrem. reflexivity.
    + assert (Hcb : c = fh_rx_buffer_bytes s) by lia.
      unfold zero_bytes.
      rewrite write_bytes_exact
        by (unfold zlen in *; rewrite ?repeat_length; lia).
      cbn [option_map crash_unless Z.to_nat firstn app Nat.add].
      rewrite map_uint8_repeat_zero, repeat_length.
      rewrite Hcb, advanced_all. reflexivity.
Qed.

(** [fh_rx_blocking_raw] serves the caller from the scratch first and asks
    the transport only for what is still missing.  A request the scratch
    can satisfy is answered with [SUCCESS] without a call of the transport,
    and the scratch keeps the rest.  Otherwise the whole scratch is handed
    over, the transport is asked for [size - count] bytes, what it stores
    follows the scratch bytes in [data], and its result is the result of
    the call: after a transport failure [*bytes_read] is the number of
    scratch bytes handed over, and they are gone from the scratch. *)
Theorem rx_raw_drains_scratch_first (W : Type)
  (transport_rx_blocking : W -> Z -> fh_res_t * list Z * W)
  (data : list Z) (size : Z) (s : scratch) (w : W) :
  scratch_ok s -> 0 <= size <= zlen data -> size < 18446744073709551616 ->
  (size <= fh_rx_buffer_bytes s ->
   fh_rx_blocking_raw W transport_rx_blocking data size s w
   = Done (mk_rx_result SUCCESS
             (firstn (Z.to_nat size) (fh_rx_buffer s)
              ++ skipn (Z.to_nat size) data)
             size (advanced s size) w))
  /\ (fh_rx_buffer_bytes s < size ->
      forall (res : fh_res_t) (received : list Z) (w' : W),
        transport_rx_blocking w (size - fh_rx_buffer_bytes s)
        = (res, received, w') ->
        Forall is_byte received ->
        zlen received <= size - fh_rx_buffer_bytes s ->
        fh_rx_blocking_raw W transport_rx_blocking data size s w
        = Done (mk_rx_result res
                  (firstn (Z.to_nat (fh_rx_buffer_bytes s)) (fh_rx_buffer s)
                   ++ received
                   ++ skipn (Z.to_nat (fh_rx_buffer_bytes s)
                             + length received) data)
                  (match res with
                   | SUCCESS => fh_rx_buffer_bytes s + zlen received
                   | _ => fh_rx_buffer_bytes s
                   end)
                  (advanced s (fh_rx_buffer_bytes s)) w')).
Proof.
  intros Hs Hsize Hmax. pose proof Hs as (Hlen & Hb & Hc).
  unfold sizeof_fh_rx_buffer in *.
  unfold fh_rx_blocking_raw.
  rewrite serve_from_scratch_copies by assumption. cbn [bind].
  split.
  - intros Hfits. rewrite Z.min_l by lia. rewrite Z.sub_diag.
    reflexivity.
  - intros Hmore res received w' Hrx Hbytes Hrecv.
    rewrite Z.min_r by lia.
    rewrite uint64_small by lia.
    destruct (Z.ltb_spec 0 (size - fh_rx_buffer_bytes s)); [|lia].
    rewrite Hrx.
    set (n := fh_rx_buffer_bytes s) in *.
    assert (Hfl : length (firstn (Z.to_nat n) (fh_rx_buffer s)) = Z.to_nat n).
    { rewrite length_firstn. unfold zlen in Hlen. lia. }
    pose proof (zlen_nonneg received) as Hr0.
    rewrite write_bytes_exact.
    2: lia.
    2:{ unfold zlen in *. rewrite length_app, Hfl, length_skipn. lia. }
    rewrite map_uint8_bytes by assumption.
    rewrite firstn_app, Hfl, Nat.sub_diag. cbn [firstn].
    rewrite app_nil_r, firstn_all2 by lia.
    rewrite skipn_app, Hfl.
    rewrite (skipn_all2 (firstn (Z.to_nat n) (fh_rx_buffer s))) by lia.
    cbn [app]. rewrite skipn_skipn.
    replace (Z.to_nat n + length received - Z.to_nat n + Z.to_nat n)%nat
      with (Z.to_nat n + length received)%nat by lia.
    destruct res; try reflexivity.
    rewrite uint64_small by lia. reflexivity.
Qed.

Lemma rx_raw_drains_scratch_first_witness :
  (10 <= fh_rx_buffer_bytes (scratch_with [1; 2; 3]) ->
   fh_rx_blocking_raw unit (fun w _ => (READ_PORT_ERROR, [], w))
     (repeat 7 10) 10 (scratch_with [1; 2; 3]) tt
   = Done (mk_rx_result SUCCESS
             (firstn (Z.to_nat 10) (fh_rx_buffer (scratch_with [1; 2; 3]))
              ++ skipn (Z.to_nat 10) (repeat 7 10))
             10 (advanced (scratch_with [1; 2; 3]) 10) tt))
  /\ (fh_rx_buffer_bytes (scratch_with [1; 2; 3]) < 10 ->
      forall (res : fh_res_t) (received : list Z) (w' : unit),
        (fun (w : unit) (_ : Z) => (READ_PORT_ERROR, @nil Z, w)) tt
          (10 - fh_rx_buffer_bytes (scratch_with [1; 2; 3]))
        = (res, received, w') ->
        Forall is_byte received ->
        zlen received <= 10 - fh_rx_buffer_bytes (scratch_with [1; 2; 3]) ->
        fh_rx_blocking_raw unit (fun w _ => (READ_PORT_ERROR, [], w))
          (repeat 7 10) 10 (scratch_with [1; 2; 3]) tt
        = Done (mk_rx_result res
                  (firstn (Z.to_nat (fh_rx_buffer_bytes (scratch_with [1; 2; 3])))
                     (fh_rx_buffer (scratch_with [1; 2; 3]))
                   ++ received
                   ++ skipn (Z.to_nat (fh_rx_buffer_bytes (scratch_with [1; 2; 3]))
                             + length received) (repeat 7 10))
                  (match res with
                   | SUCCESS =>
                       fh_rx_buffer_bytes (scratch_with [1; 2; 3])
                       + zlen received
                   | _ => fh_rx_buffer_bytes (scratch_with [1; 2; 3])
                   end)
                  (advanced (scratch_with [1; 2; 3])
                     (fh_rx_buffer_bytes (scratch_with [1; 2; 3]))) w')).
Proof.
  apply (rx_raw_drains_scratch_first unit
           (fun w _ => (READ_PORT_ERROR, [], w)) (repeat 7 10) 10
           (scratch_with [1; 2; 3]) tt).
  - split; [vm_compute; reflexivity|].
    split; [apply all_bytes_sound; vm_compute; reflexivity|].
    vm_compute. split; discriminate.
  - vm_compute. split; discriminate.
  - lia.
Defined.

(* --------------------------------------------------------------------- *)
(** ** The session: repeated initialisation, configuration, shutdown      *)
(* --------------------------------------------------------------------- *)

Section SessionProofs.

Variable W : Type.
Variable send_signed send_chained : W -> fh_res_t * W.
Variable tx : W -> list Z -> Z -> fh_res_t * W.

Lemma tx_run_disabled (calls : list (list Z * Z)) : forall (t : transfer W),
  state (vip t) = VIP_DISABLED ->
  vip (tx_run W send_signed send_chained tx t calls) = vip t
  /\ rev (tx_log (tx_run W send_signed send_chained tx t calls))
     = rev (tx_log t) ++ map (fun c => data_sent (fst c) (snd c)) calls.
Proof.
  induction calls as [|[data size] calls IH]; intros t Hs.
  - cbn. rewrite app_nil_r. auto.
  - cbn [tx_run map fst snd]. unfold fh_tx_blocking. rewrite Hs.
    destruct (tx (world t) data size) as [res w']. cbn [snd].
    destruct (IH (mk_transfer (vip t) w' (data_sent data size :: tx_log t)) Hs)
      as [Hv Hl].
    cbn [vip tx_log] in Hv, Hl. rewrite Hv, Hl. cbn [rev].
    rewrite <- app_assoc. auto.
Qed.

End SessionProofs.

(** A second [fh_transfer_init] is refused, and yet it acts: on a session
    whose transport is installed and whose VIP injector has started
    sending, [fh_transfer_init] with any valid transport type returns
    [INVALID_PARAMETER] and leaves the transport as it was, but it has set
    the VIP state to [VIP_DISABLED]; from then on [fh_tx_blocking] passes
    the caller's data to the transport and sends no table any more. *)
Theorem reinit_switches_vip_off (W : Type)
  (send_signed send_chained : W -> fh_res_t * W)
  (tx : W -> list Z -> Z -> fh_res_t * W)
  (ss : session) (transport_type : Z) (w : W) (calls : list (list Z * Z)) :
  session_transport_type (slot ss) <> FH_TRANSPORT_NONE ->
  state (vip_data ss) = VIP_SEND_DATA
  \/ state (vip_data ss) = VIP_SEND_NEXT_TABLE ->
  FH_TRANSPORT_NONE < transport_type < FH_TRANSPORT_MAX ->
  fh_transfer_init ss transport_type
  = (INVALID_PARAMETER,
     mk_session
       (mk_fh_transfer_data VIP_DISABLED (frame_sent (vip_data ss))
          (frames_to_next_table (vip_data ss)))
       (files ss) (slot ss) (fclose_calls ss))
  /\ rev (tx_log
            (tx_run W send_signed send_chained tx
               (mk_transfer
                  (vip_data (snd (fh_transfer_init ss transport_type))) w [])
               calls))
     = map (fun c => data_sent (fst c) (snd c)) calls.
Proof.
  intros Hinst Hstate Htype.
  assert (E : fh_transfer_init ss transport_type
              = (INVALID_PARAMETER,
                 mk_session
                   (mk_fh_transfer_data VIP_DISABLED (frame_sent (vip_data ss))
                      (frames_to_next_table (vip_data ss)))
                   (files ss) (slot ss) (fclose_calls ss))).
  { unfold fh_transfer_init, FH_TRANSPORT_NONE, FH_TRANSPORT_MAX in *.
    destruct (Z.eqb_spec transport_type 0); [lia|].
    destruct (Z.leb_spec 5 transport_type); [lia|]. cbn [orb].
    unfold fh_transport_init, FH_TRANSPORT_NONE.
    destruct (Z.eqb_spec (session_transport_type (slot ss)) 0);
      [contradiction|].
    cbn [negb].
    destruct Hstate as [-> | ->]; reflexivity. }
  split; [exact E|].
  rewrite E. cbn [snd vip_data].
  destruct (tx_run_disabled W send_signed send_chained tx calls
              (mk_transfer
                 (mk_fh_transfer_data VIP_DISABLED (frame_sent (vip_data ss))
                    (frames_to_next_table (vip_data ss))) w []))
    as [_ Hl]; [reflexivity|].
  exact Hl.
Qed.

Lemma reinit_switches_vip_off_witness :
  fh_transfer_init
    (mk_session (mk_fh_transfer_data VIP_SEND_DATA 7 53)
       (mk_vip_files (Some 3) (Some 4) 256 8192)
       (mk_dispatch FH_TRANSPORT_HSUART (Some FH_TRANSPORT_HSUART) []) [])
    FH_TRANSPORT_COM
  = (INVALID_PARAMETER,
     mk_session (mk_fh_transfer_data VIP_DISABLED 7 53)
       (mk_vip_files (Some 3) (Some 4) 256 8192)
       (mk_dispatch FH_TRANSPORT_HSUART (Some FH_TRANSPORT_HSUART) []) [])
  /\ rev (tx_log
            (tx_run unit (fun w => (SUCCESS, w)) (fun w => (SUCCESS, w))
               (fun w _ _ => (SUCCESS, w))
               (mk_transfer
                  (vip_data
                     (snd (fh_transfer_init
                             (mk_session (mk_fh_transfer_data VIP_SEND_DATA 7 53)
                                (mk_vip_files (Some 3) (Some 4) 256 8192)
                                (mk_dispatch FH_TRANSPORT_HSUART
                                   (Some FH_TRANSPORT_HSUART) []) [])
                             FH_TRANSPORT_COM)))
                  tt [])
               (repeat ([1; 2], 2) 60)))
     = map (fun c => data_sent (fst c) (snd c)) (repeat ([1; 2], 2) 60).
Proof.
  apply (reinit_switches_vip_off unit (fun w => (SUCCESS, w))
           (fun w => (SUCCESS, w)) (fun w _ _ => (SUCCESS, w))
           (mk_session (mk_fh_transfer_data VIP_SEND_DATA 7 53)
              (mk_vip_files (Some 3) (Some 4) 256 8192)
              (mk_dispatch FH_TRANSPORT_HSUART (Some FH_TRANSPORT_HSUART) [])
              [])
           FH_TRANSPORT_COM tt (repeat ([1; 2], 2) 60)).
  - vm_compute. discriminate.
  - left. reflexivity.
  - vm_compute. split; reflexivity.
Defined.

Lemma concat_repeat_shift {A : Type} (l : list A) (n : nat) (tl : list A) :
  concat (repeat l n) ++ l ++ tl = l ++ concat (repeat l n) ++ tl.
Proof.
  induction n as [|n IH]; [reflexivity|].
  cbn [repeat concat]. rewrite <- !app_assoc, IH. reflexivity.
Qed.

Lemma deinit_run_closes (n : nat) : forall (ss : session),
  state (vip_data ss) <> VIP_DISABLED ->
  deinit_run n ss
  = (repeat (fst (fh_transport_deinit (slot ss))) n,
     mk_session (vip_data ss) (files ss) (slot ss)
       (concat (repeat [chained_table (files ss); signed_table (files ss)] n)
        ++ fclose_calls ss)).
Proof.
  induction n as [|n IH]; intros ss Hs.
  - destruct ss. reflexivity.
  - cbn [deinit_run]. unfold fh_transfer_deinit at 1.
    assert (Hd : fh_transport_deinit (slot ss)
                 = (fst (fh_transport_deinit (slot ss)), slot ss)).
    { unfold fh_transport_deinit.
      destruct (session_transport_type (slot ss) =? FH_TRANSPORT_NONE);
        reflexivity. }
    rewrite Hd. cbn [fst].
    rewrite IH by (cbn [vip_data]; exact Hs).
    cbn [vip_data files slot fclose_calls repeat concat].
    destruct (state (vip_data ss)) eqn:E; try contradiction;
      change (chained_table (files ss) :: signed_table (files ss)
              :: fclose_calls ss)
        with ([chained_table (files ss); signed_table (files ss)]
              ++ fclose_calls ss);
      rewrite concat_repeat_shift; reflexivity.
Qed.

(** [fh_transfer_deinit] closes the two table files whenever the VIP state
    is not [VIP_DISABLED], and nothing it calls changes that state or
    forgets the streams: [n] calls in a row on a session with VIP
    configured call [fclose] on each of the two streams [n] times, all
    return the same result, and the session is otherwise as before. *)
Theorem deinit_closes_tables_every_time (n : nat) (ss : session) :
  state (vip_data ss) <> VIP_DISABLED ->
  deinit_run n ss
  = (repeat (if session_transport_type (slot ss) =? FH_TRANSPORT_NONE
             then NOT_INITALIZED else SUCCESS) n,
     mk_session (vip_data ss) (files ss) (slot ss)
       (concat (repeat [chained_table (files ss); signed_table (files ss)] n)
        ++ fclose_calls ss)).
Proof.
  intros Hs. rewrite deinit_run_closes by exact Hs.
  unfold fh_transport_deinit.
  destruct (session_transport_type (slot ss) =? FH_TRANSPORT_NONE);
    reflexivity.
Qed.

Lemma deinit_closes_tables_every_time_witness :
  deinit_run 2
    (mk_session (mk_fh_transfer_data VIP_INIT 0 53)
       (mk_vip_files (Some 3) (Some 4) 256 8192)
       (mk_dispatch FH_TRANSPORT_HSUART (Some FH_TRANSPORT_HSUART) []) [])
  = (repeat (if FH_TRANSPORT_HSUART =? FH_TRANSPORT_NONE
             then NOT_INITALIZED else SUCCESS) 2,
     mk_session (mk_fh_transfer_data VIP_INIT 0 53)
       (mk_vip_files (Some 3) (Some 4) 256 8192)
       (mk_dispatch FH_TRANSPORT_HSUART (Some FH_TRANSPORT_HSUART) [])
       (concat (repeat [Some 4; Some 3] 2) ++ [])).
Proof.
  apply (deinit_closes_tables_every_time 2
           (mk_session (mk_fh_transfer_data VIP_INIT 0 53)
              (mk_vip_files (Some 3) (Some 4) 256 8192)
              (mk_dispatch FH_TRANSPORT_HSUART (Some FH_TRANSPORT_HSUART) [])
              [])).
  discriminate.
Defined.



(* --------------------------------------------------------------------- *)
(** ** The XML parser on a well-formed envelope                           *)
(* --------------------------------------------------------------------- *)

Lemma iterate_walk {S R : Type} (body : S -> step S R) (at_ : Z -> S)
  (hi : Z) :
  forall (n : nat) (lo : Z) (fuel : nat),
    lo + Z.of_nat n = hi ->
    (forall o, lo <= o < hi -> body (at_ o) = Next (at_ (o + 1))) ->
    iterate body (n + fuel) (at_ lo) = iterate body fuel (at_ hi).
Proof.
  induction n as [|n IH]; intros lo fuel Hn Hstep.
  - replace lo with hi by lia. reflexivity.
  - cbn [Nat.add iterate]. rewrite Hstep by lia.
    apply IH; [lia|]. intros o Ho. apply Hstep. lia.
Qed.

Lemma load_region (P R Q : list Z) (o : Z) :
  zlen P <= o < zlen P + zlen R ->
  exists x, load (P ++ R ++ Q) o = Some x /\ In x R.
Proof.
  intros Ho. unfold load. pose proof (zlen_nonneg P).
  destruct (Z.ltb_spec o 0); [lia|].
  rewrite nth_error_app2 by (unfold zlen in *; lia).
  rewrite nth_error_app1 by (unfold zlen in *; lia).
  destruct (nth_error R (Z.to_nat o - length P)) as [x|] eqn:E.
  - exists x. split; [reflexivity|]. eapply nth_error_In, E.
  - apply nth_error_None in E. unfold zlen in *. lia.
Qed.

Lemma load_at (P Q : list Z) (x : Z) (o : Z) :
  o = zlen P -> load (P ++ x :: Q) o = Some x.
Proof. intros ->. apply load_middle. reflexivity. Qed.

Lemma match_chars_at (P pattern Q : list Z) (o : Z) :
  o = zlen P -> zlen (P ++ pattern ++ Q) < 18446744073709551616 ->
  match_chars (P ++ pattern ++ Q) o pattern = Some (true, o + zlen pattern).
Proof.
  intros -> Hm. apply match_chars_yes; [apply zlen_nonneg|assumption|].
  unfold zlen. rewrite Nat2Z.id, skipn_app, skipn_all, Nat.sub_diag.
  cbn [skipn app]. rewrite firstn_app, Nat.sub_diag, firstn_all.
  cbn [firstn]. apply app_nil_r.
Qed.

Lemma match_chars_first (m : list Z) (o x c : Z) (pattern : list Z) :
  load m o = Some x -> x <> c ->
  match_chars m o (c :: pattern) = Some (false, uint64 (o + 1)).
Proof.
  intros Hl Hne. cbn [match_chars]. rewrite Hl.
  destruct (Z.eqb_spec x c); [contradiction|reflexivity].
Qed.

(** The 7 bytes at [o] are not the attribute name with its [=] and opening
    quote when the sixth of them is not [=]. *)
Lemma memcmp_value_no (m : list Z) (o x : Z) :
  0 <= o -> o + 7 <= zlen m -> load m (o + 5) = Some x -> x <> char "=" ->
  memcmp_eq m o (chars "value=" ++ [double_quote]) = Some false.
Proof.
  intros Ho Hfit Hl Hne. unfold memcmp_eq.
  change (zlen (chars "value=" ++ [double_quote])) with 7.
  rewrite read_bytes_exact by lia. cbn [option_map].
  destruct (list_eq_dec Z.eq_dec _ _) as [E|]; [|reflexivity].
  exfalso. apply Hne.
  assert (Hn : nth_error (firstn (Z.to_nat 7) (skipn (Z.to_nat o) m)) 5
               = Some x).
  { rewrite nth_error_firstn. change (5 <? Z.to_nat 7)%nat with true.
    cbv iota. rewrite nth_error_skipn. unfold load in Hl.
    destruct (o + 5 <? 0); [discriminate|].
    replace (Z.to_nat o + 5)%nat with (Z.to_nat (o + 5)) by lia. exact Hl. }
  rewrite E in Hn. vm_compute in Hn. injection Hn as <-. reflexivity.
Qed.

Lemma memcmp_value_yes (P Q : list Z) (o : Z) :
  o = zlen P ->
  memcmp_eq (P ++ (chars "value=" ++ [double_quote]) ++ Q) o
    (chars "value=" ++ [double_quote]) = Some true.
Proof.
  intros ->. unfold memcmp_eq.
  rewrite (read_bytes_middle P) by reflexivity. cbn [option_map].
  destruct (list_eq_dec Z.eq_dec _ _); [reflexivity|contradiction].
Qed.

Lemma scan_to_finds (P R Q : list Z) (c last a : Z) (fuel : nat) :
  a = zlen P -> Forall (fun x => x <> c) R ->
  zlen P + zlen R <= last -> last < 18446744073709551615 ->
  (length R + 1 <= fuel)%nat ->
  scan_to (P ++ R ++ c :: Q) c last a fuel = Done (Some (zlen P + zlen R)).
Proof.
  intros -> HR Hlast Hmax Hfuel. unfold scan_to.
  pose proof (zlen_nonneg P). pose proof (zlen_nonneg R).
  replace fuel with (length R + (fuel - length R))%nat by lia.
  rewrite (iterate_walk _ (fun o => o) (zlen P + zlen R));
    [|unfold zlen; lia|].
  - destruct (fuel - length R)%nat as [|f] eqn:Hf; [lia|].
    cbn [iterate]. rewrite app_assoc.
    rewrite (load_at (P ++ R) Q c) by (rewrite zlen_app; reflexivity).
    rewrite Z.eqb_refl. reflexivity.
  - intros o Ho.
    destruct (load_region P R (c :: Q) o Ho) as (x & -> & Hin).
    rewrite Forall_forall in HR. specialize (HR x Hin).
    destruct (Z.eqb_spec x c); [contradiction|]. cbn [negb].
    rewrite uint64_small by lia.
    destruct (Z.ltb_spec last (o + 1)); [lia|]. reflexivity.
Qed.

Lemma envelope_length (decl mid tag v : list Z) :
  zlen (envelope decl mid tag v)
  = zlen decl + 6 + zlen mid + 1 + zlen tag + 1 + 7 + zlen v + 11.
Proof.
  unfold envelope. rewrite !zlen_app.
  change (zlen (chars "<data>")) with 6. change (zlen [char "<"]) with 1.
  change (zlen [char " "]) with 1. change (zlen (chars "value=")) with 6.
  change (zlen [double_quote]) with 1.
  change (zlen (chars " /></data>")) with 10. lia.
Qed.

Section ParseProofs.

Variables decl mid tag v post : list Z.
Variable xml_size : Z.

Let xml : list Z := envelope decl mid tag v ++ post.
Let tag_offset : Z := zlen decl + 6 + zlen mid + 1.
Let value_offset : Z := tag_offset + zlen tag + 1 + 7.
Let total : Z := value_offset + zlen v + 11.
Let last_offset : Z := xml_size - 7.

Hypothesis Hok : envelope_ok decl mid tag v.
Hypothesis Hsize : zlen (envelope decl mid tag v) <= xml_size.
Hypothesis Hmax : xml_size < 18446744073709551616.
Hypothesis Hxml : zlen xml < 18446744073709551616.

Local Ltac sizes :=
  pose proof (envelope_length decl mid tag v) as Hlen;
  pose proof (zlen_nonneg decl); pose proof (zlen_nonneg mid);
  pose proof (zlen_nonneg tag); pose proof (zlen_nonneg v);
  pose proof (zlen_nonneg post);
  destruct Hok as (Hdecl & Hd6 & Hmid & Htag & Hv);
  unfold total, value_offset, tag_offset, last_offset in *.

Lemma xml_shape :
  xml
  = decl ++ chars "<data>" ++ mid ++ [char "<"] ++ tag ++ [char " "]
    ++ (chars "value=" ++ [double_quote]) ++ v ++ [double_quote]
    ++ chars " /></data>" ++ post.
Proof. unfold xml, envelope. rewrite <- !app_assoc. reflexivity. Qed.

Lemma skip_data_open_finds (fuel : nat) :
  (Z.to_nat (zlen decl) <= fuel)%nat ->
  skip_data_open xml last_offset fuel = Done (zlen decl + 6).
Proof.
  intros Hfuel. sizes. unfold skip_data_open.
  replace fuel with (Z.to_nat (zlen decl - 6) + (fuel - Z.to_nat (zlen decl - 6)))%nat
    by lia.
  rewrite (iterate_walk _ (fun o => o) (zlen decl)); [| lia |].
  - destruct (fuel - Z.to_nat (zlen decl - 6))%nat as [|f] eqn:Hf; [lia|].
    cbn [iterate].
    destruct (Z.ltb_spec (zlen decl) (xml_size - 7)); [|lia]. cbn [negb].
    pose proof Hxml as Hxml'. rewrite xml_shape in Hxml' |- *.
    rewrite (match_chars_at decl (chars "<data>")); [reflexivity|reflexivity|].
    exact Hxml'.
  - intros o Ho.
    destruct (Z.ltb_spec o (xml_size - 7)); [|lia]. cbn [negb].
    assert (Hx : exists x, load xml o = Some x /\ x <> char "<").
    { rewrite xml_shape.
      rewrite <- (firstn_skipn 6 decl), <- !app_assoc.
      destruct (load_region (firstn 6 decl) (skipn 6 decl)
                  (chars "<data>" ++ mid ++ [char "<"] ++ tag ++ [char " "]
                   ++ chars "value=" ++ [double_quote] ++ v ++ [double_quote]
                   ++ chars " /></data>" ++ post) o) as (x & Hl & Hin).
      { unfold zlen in *. rewrite length_firstn, length_skipn. lia. }
      exists x. split; [exact Hl|].
      rewrite Forall_forall in Hd6. apply Hd6, Hin. }
    destruct Hx as (x & Hl & Hne).
    change (chars "<data>") with (char "<" :: chars "data>").
    rewrite (match_chars_first _ _ x) by assumption.
    rewrite uint64_small by lia. reflexivity.
Qed.

Lemma find_tag_close_finds (fuel : nat) :
  (Z.to_nat (zlen v) + 4 <= fuel)%nat ->
  find_tag_close xml last_offset (tag_offset + zlen tag + 1) fuel
  = Done (value_offset + zlen v + 4, Some value_offset).
Proof.
  intros Hfuel. sizes. unfold find_tag_close.
  set (P := decl ++ chars "<data>" ++ mid ++ [char "<"] ++ tag ++ [char " "]).
  set (P7 := P ++ chars "value=" ++ [double_quote]).
  set (vq := v ++ [double_quote; char " "]).
  assert (HP : zlen P = zlen decl + 6 + zlen mid + 1 + zlen tag + 1).
  { unfold P. rewrite !zlen_app.
    change (zlen (chars "<data>")) with 6. change (zlen [char "<"]) with 1.
    change (zlen [char " "]) with 1. lia. }
  assert (HP7 : zlen P7 = zlen P + 7).
  { unfold P7. rewrite !zlen_app. reflexivity. }
  assert (Hvq : zlen vq = zlen v + 2).
  { unfold vq. rewrite zlen_app. reflexivity. }
  assert (E1 : xml = P ++ (chars "value=" ++ [double_quote])
                       ++ vq ++ chars "/></data>" ++ post).
  { rewrite xml_shape. unfold P, vq. rewrite <- !app_assoc. reflexivity. }
  assert (E2 : xml = P7 ++ (vq ++ chars "/></data>") ++ post).
  { rewrite E1. unfold P7. rewrite <- !app_assoc. reflexivity. }
  assert (E3 : xml = (P7 ++ vq) ++ chars "/>" ++ chars "</data>" ++ post).
  { rewrite E2. rewrite <- !app_assoc. reflexivity. }
  assert (Hxl : zlen xml = zlen P7 + zlen vq + 9 + zlen post).
  { rewrite E2, !zlen_app. change (zlen (chars "/></data>")) with 9. lia. }
  assert (Hno_slash : Forall (fun c => c <> char "/") vq).
  { unfold vq. apply Forall_app. split.
    - eapply Forall_impl; [|exact Hv]. cbv beta. intros c [_ Hc]. exact Hc.
    - repeat constructor; discriminate. }
  assert (Hno_eq : Forall (fun c => c <> char "=") (vq ++ chars "/></data>")).
  { unfold vq. rewrite <- app_assoc. apply Forall_app. split.
    - eapply Forall_impl; [|exact Hv]. cbv beta. intros c [Hc _]. exact Hc.
    - repeat constructor; discriminate. }
  assert (Hmem : forall o, zlen P7 <= o <= zlen P7 + zlen vq ->
            memcmp_eq xml o (chars "value=" ++ [double_quote]) = Some false).
  { intros o Ho.
    destruct (load_region P7 (vq ++ chars "/></data>") post (o + 5))
      as (x & Hl & Hin).
    { rewrite zlen_app. change (zlen (chars "/></data>")) with 9. lia. }
    rewrite <- E2 in Hl.
    apply (memcmp_value_no xml o x); try lia; try assumption.
    rewrite Forall_forall in Hno_eq. apply Hno_eq, Hin. }
  destruct fuel as [|fuel]; [lia|]. cbn [iterate].
  destruct (Z.ltb_spec (zlen decl + 6 + zlen mid + 1 + zlen tag + 1)
              (xml_size - 7)); [|lia].
  cbn [negb].
  rewrite E1 at 1. rewrite memcmp_value_yes by lia.
  rewrite uint64_small by lia.
  replace fuel with (Z.to_nat (zlen vq) + (fuel - Z.to_nat (zlen vq)))%nat
    by lia.
  rewrite (iterate_walk _
             (fun o => (o, Some (zlen decl + 6 + zlen mid + 1 + zlen tag + 1 + 7)))
             (zlen P7 + zlen vq)); [|lia|].
  - destruct (fuel - Z.to_nat (zlen vq))%nat as [|f] eqn:Hf; [lia|].
    cbn [iterate].
    destruct (Z.ltb_spec (zlen P7 + zlen vq) (xml_size - 7)); [|lia].
    cbn [negb]. rewrite Hmem by lia.
    rewrite E3.
    rewrite (match_chars_at (P7 ++ vq) (chars "/>"));
      [|rewrite zlen_app; reflexivity|rewrite <- E3; exact Hxml].
    change (zlen (chars "/>")) with 2. f_equal. f_equal. lia.
  - intros o Ho.
    destruct (Z.ltb_spec o (xml_size - 7)); [|lia]. cbn [negb].
    rewrite Hmem by lia.
    destruct (load_region P7 vq (chars "/></data>" ++ post) o ltac:(lia))
      as (x & Hl & Hin).
    rewrite (app_assoc vq), <- E2 in Hl.
    change (chars "/>") with (char "/" :: chars ">").
    rewrite (match_chars_first _ _ x);
      [|exact Hl|rewrite Forall_forall in Hno_slash; apply Hno_slash, Hin].
    rewrite uint64_small by lia. reflexivity.
Qed.

Lemma find_data_close_finds (fuel : nat) :
  (1 <= fuel)%nat ->
  find_data_close xml last_offset (value_offset + zlen v + 4) fuel
  = Done total.
Proof.
  intros Hfuel. sizes. unfold find_data_close.
  destruct fuel as [|fuel]; [lia|]. cbn [iterate].
  destruct (Z.leb_spec (zlen decl + 6 + zlen mid + 1 + zlen tag + 1 + 7
                        + zlen v + 4) (xml_size - 7)); [|lia].
  cbn [negb].
  set (P := decl ++ chars "<data>" ++ mid ++ [char "<"] ++ tag ++ [char " "]
            ++ (chars "value=" ++ [double_quote]) ++ v ++ [double_quote]
            ++ chars " />").
  assert (HP : zlen P = zlen decl + 6 + zlen mid + 1 + zlen tag + 1 + 7
                        + zlen v + 4).
  { unfold P. rewrite !zlen_app.
    change (zlen (chars "<data>")) with 6. change (zlen [char "<"]) with 1.
    change (zlen [char " "]) with 1. change (zlen (chars "value=")) with 6.
    change (zlen [double_quote]) with 1. change (zlen (chars " />")) with 3.
    lia. }
  assert (E : xml = P ++ chars "</data>" ++ post).
  { rewrite xml_shape. unfold P. rewrite <- !app_assoc. reflexivity. }
  rewrite E.
  rewrite (match_chars_at P (chars "</data>"));
    [|lia|rewrite <- E; exact Hxml].
  change (zlen (chars "</data>")) with 7. f_equal. lia.
Qed.

Lemma response_xml_parse_envelope :
  response_xml_parse xml xml_size
  = Done (mk_parse_result total (Some tag_offset) (Some value_offset)).
Proof.
  pose proof skip_data_open_finds as H1.
  pose proof find_tag_close_finds as H4.
  pose proof find_data_close_finds as H5.
  sizes. unfold response_xml_parse.
  destruct (Z.ltb_spec xml_size 12); [lia|].
  rewrite uint64_small by lia.
  rewrite H1 by lia. cbn [bind].
  set (P := decl ++ chars "<data>").
  assert (HP : zlen P = zlen decl + 6).
  { unfold P. rewrite zlen_app. reflexivity. }
  assert (E2 : xml = P ++ mid ++ char "<"
                       :: (tag ++ [char " "]
                           ++ (chars "value=" ++ [double_quote]) ++ v
                           ++ [double_quote] ++ chars " /></data>" ++ post)).
  { rewrite xml_shape. unfold P. rewrite <- !app_assoc. reflexivity. }
  rewrite E2 at 1.
  rewrite scan_to_finds; try assumption; try lia.
  2:{ unfold zlen in *. lia. }
  cbn [bind]. rewrite HP.
  rewrite (uint64_small (zlen decl + 6 + zlen mid + 1)) by lia.
  set (P3 := decl ++ chars "<data>" ++ mid ++ [char "<"]).
  assert (HP3 : zlen P3 = zlen decl + 6 + zlen mid + 1).
  { unfold P3. rewrite !zlen_app.
    change (zlen (chars "<data>")) with 6. change (zlen [char "<"]) with 1.
    lia. }
  assert (E3 : xml = P3 ++ tag ++ char " "
                       :: ((chars "value=" ++ [double_quote]) ++ v
                           ++ [double_quote] ++ chars " /></data>" ++ post)).
  { rewrite xml_shape. unfold P3. rewrite <- !app_assoc. reflexivity. }
  rewrite E3 at 1.
  rewrite scan_to_finds; try assumption; try lia.
  2:{ unfold zlen in *. lia. }
  cbn [bind]. rewrite HP3.
  rewrite (uint64_small (zlen decl + 6 + zlen mid + 1 + zlen tag + 1)) by lia.
  rewrite H4 by lia. cbn [bind fst snd].
  rewrite H5 by lia. reflexivity.
Qed.

End ParseProofs.

(** [response_xml_parse] recognises a well-formed envelope: for a buffer
    that starts with an envelope whose parts keep to [envelope_ok], and a
    size that covers the envelope, it returns the length of the envelope,
    [*tag] points to the first character of the tag and [*value] to the
    first character of the value.  Whatever follows the envelope in the
    buffer is not looked at. *)
Theorem parse_finds_envelope (decl mid tag v post : list Z) (xml_size : Z) :
  envelope_ok decl mid tag v ->
  zlen (envelope decl mid tag v) <= xml_size ->
  xml_size < 18446744073709551616 ->
  zlen (envelope decl mid tag v ++ post) < 18446744073709551616 ->
  response_xml_parse (envelope decl mid tag v ++ post) xml_size
  = Done (mk_parse_result (zlen (envelope decl mid tag v))
            (Some (zlen decl + 6 + zlen mid + 1))
            (Some (zlen decl + 6 + zlen mid + 1 + zlen tag + 1 + 7)))
  /\ firstn (length tag)
       (skipn (Z.to_nat (zlen decl + 6 + zlen mid + 1))
          (envelope decl mid tag v ++ post)) = tag
  /\ firstn (length v)
       (skipn (Z.to_nat (zlen decl + 6 + zlen mid + 1 + zlen tag + 1 + 7))
          (envelope decl mid tag v ++ post)) = v.
Proof.
  intros Hok Hsize Hmax Hxml.
  split; [|split].
  - pose proof (response_xml_parse_envelope decl mid tag v post xml_size
                  Hok Hsize Hmax Hxml) as H.
    pose proof (envelope_length decl mid tag v) as L.
    cbv zeta in H, L. rewrite H, L. reflexivity.
  - unfold envelope. rewrite <- !app_assoc.
    rewrite !(app_assoc decl), !(app_assoc (decl ++ chars "<data>")).
    rewrite (app_assoc ((decl ++ chars "<data>") ++ mid)).
    rewrite skipn_app, skipn_all2.
    2:{ rewrite !length_app. unfold zlen. cbn [length chars]. 
        change (length (chars "<data>")) with 6%nat. cbn [length]. lia. }
    cbn [app].
    replace (Z.to_nat (zlen decl + 6 + zlen mid + 1)
             - length (((decl ++ chars "<data>") ++ mid) ++ [char "<"]))%nat
      with 0%nat.
    2:{ rewrite !length_app. unfold zlen.
        change (length (chars "<data>")) with 6%nat. cbn [length]. lia. }
    cbn [skipn]. rewrite firstn_app, Nat.sub_diag, firstn_all.
    cbn [firstn]. apply app_nil_r.
  - unfold envelope. rewrite <- !app_assoc.
    set (P := decl ++ chars "<data>" ++ mid ++ [char "<"] ++ tag
              ++ [char " "] ++ chars "value=" ++ [double_quote]).
    replace (decl ++ chars "<data>" ++ mid ++ [char "<"] ++ tag
             ++ [char " "] ++ chars "value=" ++ [double_quote] ++ v
             ++ [double_quote] ++ chars " /></data>" ++ post)
      with (P ++ v ++ [double_quote] ++ chars " /></data>" ++ post)
      by (unfold P; rewrite <- !app_assoc; reflexivity).
    assert (HP : length P
                 = Z.to_nat (zlen decl + 6 + zlen mid + 1 + zlen tag + 1 + 7)).
    { unfold P. rewrite !length_app. unfold zlen.
      change (length (chars "<data>")) with 6%nat.
      change (length (chars "value=")) with 6%nat. cbn [length]. lia. }
    rewrite <- HP, skipn_app, skipn_all, Nat.sub_diag. cbn [skipn app].
    rewrite firstn_app, Nat.sub_diag, firstn_all. cbn [firstn].
    apply app_nil_r.
Qed.

Lemma parse_finds_envelope_witness :
  response_xml_parse
    (envelope (chars "<?xml version='1.0' ?>") [10] (chars "log")
       (chars "hello") ++ [1; 2; 3]) 64
  = Done (mk_parse_result
            (zlen (envelope (chars "<?xml version='1.0' ?>") [10]
                     (chars "log") (chars "hello")))
            (Some (zlen (chars "<?xml version='1.0' ?>") + 6 + zlen [10] + 1))
            (Some (zlen (chars "<?xml version='1.0' ?>") + 6 + zlen [10] + 1
                   + zlen (chars "log") + 1 + 7)))
  /\ firstn (length (chars "log"))
       (skipn (Z.to_nat (zlen (chars "<?xml version='1.0' ?>") + 6
                         + zlen [10] + 1))
          (envelope (chars "<?xml version='1.0' ?>") [10] (chars "log")
             (chars "hello") ++ [1; 2; 3]))
     = chars "log"
  /\ firstn (length (chars "hello"))
       (skipn (Z.to_nat (zlen (chars "<?xml version='1.0' ?>") + 6
                         + zlen [10] + 1 + zlen (chars "log") + 1 + 7))
          (envelope (chars "<?xml version='1.0' ?>") [10] (chars "log")
             (chars "hello") ++ [1; 2; 3]))
     = chars "hello".
Proof.
  apply (parse_finds_envelope (chars "<?xml version='1.0' ?>") [10]
           (chars "log") (chars "hello") [1; 2; 3] 64).
  - split; [vm_compute; discriminate|].
    split; [apply none_equal_sound; vm_compute; reflexivity|].
    split; [apply none_equal_sound; vm_compute; reflexivity|].
    split; [apply none_equal_sound; vm_compute; reflexivity|].
    repeat constructor; vm_compute; discriminate.
  - vm_compute. discriminate.
  - lia.
  - vm_compute. reflexivity.
Defined.

Lemma memcmp_eq_at (P pattern Q : list Z) (o : Z) :
  o = zlen P -> memcmp_eq (P ++ pattern ++ Q) o pattern = Some true.
Proof.
  intros ->. unfold memcmp_eq.
  rewrite (read_bytes_middle P) by reflexivity. cbn [option_map].
  destruct (list_eq_dec Z.eq_dec _ _); [reflexivity|contradiction].
Qed.

Section EnvelopeTurns.

Variable W : Type.
Variable timeval : Type.
Variable transport_rx_blocking : W -> Z -> fh_res_t * list Z * W.
Variable gettimeofday : W -> timeval * W.
Variable ReturnTimeInSeconds : timeval -> timeval -> QArith_base.Q.

Lemma start_buf_with_xml_aligned (decl mid tag v post : list Z) (s : scratch) :
  scratch_ok s ->
  fh_rx_buffer s = envelope decl mid tag v ++ post ->
  firstn 5 decl = chars "<?xml" -> 6 <= zlen decl ->
  zlen (envelope decl mid tag v) <= fh_rx_buffer_bytes s ->
  start_buf_with_xml s = Done (0, s).
Proof.
  intros Hs Hbuf Hdecl Hd Hfits.
  pose proof (envelope_length decl mid tag v) as HL. cbv zeta in HL.
  pose proof (zlen_nonneg mid). pose proof (zlen_nonneg tag).
  pose proof (zlen_nonneg v).
  rewrite <- (advanced_nothing s) at 2.
  apply start_buf_with_xml_at; try assumption; try lia.
  cbn [Z.to_nat skipn]. rewrite Hbuf. unfold envelope.
  rewrite <- app_assoc. rewrite firstn_app.
  replace (5 - length decl)%nat with 0%nat by (unfold zlen in Hd; lia).
  cbn [firstn]. rewrite app_nil_r. exact Hdecl.
Qed.

Lemma tag_at (decl mid tag v post : list Z) :
  memcmp_eq (envelope decl mid tag v ++ post) (zlen decl + 6 + zlen mid + 1)
    tag = Some true.
Proof.
  unfold envelope. rewrite <- !app_assoc.
  rewrite !(app_assoc decl), !(app_assoc (decl ++ chars "<data>")).
  rewrite (app_assoc ((decl ++ chars "<data>") ++ mid)).
  apply memcmp_eq_at. rewrite !zlen_app.
  change (zlen (chars "<data>")) with 6. change (zlen [char "<"]) with 1.
  lia.
Qed.

Lemma rx_turn_response (decl mid v post data : list Z) (size : Z)
  (st : rx_state W timeval) (fuel : nat) :
  scratch_ok (now_scratch st) ->
  fh_rx_buffer (now_scratch st)
  = envelope decl mid (chars "response") v ++ post ->
  firstn 5 decl = chars "<?xml" ->
  envelope_ok decl mid (chars "response") v ->
  zlen (envelope decl mid (chars "response") v)
  <= fh_rx_buffer_bytes (now_scratch st) ->
  0 <= size <= zlen data ->
  rx_turn W timeval transport_rx_blocking gettimeofday ReturnTimeInSeconds
    data size (S fuel) st
  = Stop (delivery data size (now_scratch st)
            (zlen (envelope decl mid (chars "response") v)) (now_world st)).
Proof.
  intros Hs Hbuf Hdecl Hok Hfits Hsize.
  pose proof Hs as (Hlen & Hb & Hc). unfold sizeof_fh_rx_buffer in *.
  pose proof (envelope_length decl mid (chars "response") v) as HL.
  cbv zeta in HL.
  pose proof (zlen_nonneg decl). pose proof (zlen_nonneg mid).
  pose proof (zlen_nonneg v).
  change (zlen (chars "response")) with 8 in HL.
  assert (Hparse : response_xml_parse (fh_rx_buffer (now_scratch st))
                     (fh_rx_buffer_bytes (now_scratch st))
                   = Done (mk_parse_result
                             (zlen (envelope decl mid (chars "response") v))
                             (Some (zlen decl + 6 + zlen mid + 1))
                             (Some (zlen decl + 6 + zlen mid + 1 + 8 + 1 + 7)))).
  { pose proof (response_xml_parse_envelope decl mid (chars "response") v
                  post (fh_rx_buffer_bytes (now_scratch st)) Hok Hfits
                  ltac:(lia)) as H2.
    cbv zeta in H2. rewrite <- Hbuf in H2. rewrite H2 by lia.
    rewrite HL. reflexivity. }
  destruct (rx_turn_delivers W timeval transport_rx_blocking gettimeofday
              ReturnTimeInSeconds data size fuel st (now_scratch st)
              (mk_parse_result
                 (zlen (envelope decl mid (chars "response") v))
                 (Some (zlen decl + 6 + zlen mid + 1))
                 (Some (zlen decl + 6 + zlen mid + 1 + 8 + 1 + 7)))
              (zlen decl + 6 + zlen mid + 1))
    as [_ E]; try assumption; try reflexivity.
  - apply (start_buf_with_xml_aligned decl mid (chars "response") v post);
      try assumption. apply Hok.
  - cbn [parsed_size]. lia.
  - rewrite Hbuf. apply tag_at.
Qed.

End EnvelopeTurns.

(** A response of the target, from the wire format to the caller: when
    the scratch starts with a well-formed envelope whose declaration
    begins with [<?xml] and whose element is [response],
    [fh_rx_blocking_response_xml] returns at once, without reading from
    the transport, whatever the clock says: with [SUCCESS], the whole
    envelope in the caller's buffer, its length in [*bytes_read] and the
    scratch advanced past it when the buffer holds the envelope, and with
    [INVALID_PARAMETER] otherwise. *)
Theorem response_envelope_end_to_end (W timeval : Type)
  (transport_rx_blocking : W -> Z -> fh_res_t * list Z * W)
  (gettimeofday : W -> timeval * W)
  (ReturnTimeInSeconds : timeval -> timeval -> QArith_base.Q)
  (decl mid v post data : list Z) (size : Z) (s : scratch) (w : W)
  (fuel : nat) :
  scratch_ok s ->
  fh_rx_buffer s = envelope decl mid (chars "response") v ++ post ->
  firstn 5 decl = chars "<?xml" ->
  envelope_ok decl mid (chars "response") v ->
  zlen (envelope decl mid (chars "response") v) <= fh_rx_buffer_bytes s ->
  0 <= size <= zlen data ->
  fh_rx_blocking_response_xml W timeval transport_rx_blocking gettimeofday
    ReturnTimeInSeconds data size s w (S fuel)
  = Done (delivery data size s
            (zlen (envelope decl mid (chars "response") v))
            (snd (gettimeofday w))).
Proof.
  intros Hs Hbuf Hdecl Hok Hfits Hsize.
  unfold fh_rx_blocking_response_xml.
  destruct (gettimeofday w) as [t w']. cbn [snd].
  unfold rx_loop. cbn [iterate].
  rewrite (rx_turn_response W timeval transport_rx_blocking gettimeofday
             ReturnTimeInSeconds decl mid v post data size
             (mk_rx_state s w' t) fuel); try assumption.
  reflexivity.
Qed.

Lemma response_envelope_end_to_end_witness :
  fh_rx_blocking_response_xml unit unit
    (fun w _ => (READ_PORT_ERROR, [], w)) (fun w => (tt, w))
    (fun _ _ => QArith_base.inject_Z 0)
    (repeat 7 100) 100
    (scratch_with
       (envelope (chars "<?xml version='1.0' ?>") [] (chars "response")
          (chars "NAK"))) tt 1
  = Done (delivery (repeat 7 100) 100
            (scratch_with
               (envelope (chars "<?xml version='1.0' ?>") []
                  (chars "response") (chars "NAK")))
            (zlen (envelope (chars "<?xml version='1.0' ?>") []
                     (chars "response") (chars "NAK")))
            (snd ((fun w : unit => (tt, w)) tt))).
Proof.
  apply (response_envelope_end_to_end unit unit
           (fun w _ => (READ_PORT_ERROR, [], w)) (fun w => (tt, w))
           (fun _ _ => QArith_base.inject_Z 0)
           (chars "<?xml version='1.0' ?>") [] (chars "NAK")
           (repeat 0 (4096 - 59)) (repeat 7 100) 100
           (scratch_with
              (envelope (chars "<?xml version='1.0' ?>") []
                 (chars "response") (chars "NAK")))
           tt 0%nat).
  - split; [vm_compute; reflexivity|].
    split; [apply all_bytes_sound; vm_compute; reflexivity|].
    vm_compute. split; discriminate.
  - vm_compute. reflexivity.
  - vm_compute. reflexivity.
  - split; [vm_compute; discriminate|].
    split; [apply none_equal_sound; vm_compute; reflexivity|].
    split; [constructor|].
    split; [apply none_equal_sound; vm_compute; reflexivity|].
    repeat constructor; vm_compute; discriminate.
  - vm_compute. discriminate.
  - vm_compute. split; discriminate.
Defined.

Lemma store_in_range (b : list Z) (q x : Z) :
  0 <= q < zlen b ->
  store b q x
  = Some (firstn (Z.to_nat q) b ++ uint8 x :: skipn (S (Z.to_nat q)) b).
Proof.
  intros Hq. unfold store.
  destruct (Z.leb_spec 0 q); [|lia]. destruct (Z.ltb_spec q (zlen b)); [|lia].
  reflexivity.
Qed.

Lemma terminate_log_scan (b : list Z) (limit : Z) :
  limit < 18446744073709551616 ->
  forall (n : nat) (value : Z) (fuel : nat),
    0 <= value -> value + Z.of_nat n < limit -> value + Z.of_nat n < zlen b ->
    load b (value + Z.of_nat n) = Some double_quote ->
    (n + 1 <= fuel)%nat ->
    exists q,
      value <= q <= value + Z.of_nat n
      /\ iterate
           (fun st : Z * list Z =>
              let (end_, b0) := st in
              if negb (end_ <? limit) then Stop st
              else
                match load b0 end_ with
                | Some x =>
                    if x =? double_quote
                    then match store b0 end_ 0 with
                         | Some b' => Stop (end_, b')
                         | None => Trap
                         end
                    else Next (uint64 (end_ + 1), b0)
                | None => Trap
                end)
           fuel (value, b)
         = Done (q, firstn (Z.to_nat q) b ++ 0 :: skipn (S (Z.to_nat q)) b).
Proof.
  intros Hlimit n. induction n as [|n IH]; intros value fuel Hv Hlim Hb Hq Hfuel;
    (destruct fuel as [|fuel]; [lia|]); cbn [iterate].
  - rewrite Z.add_0_r in *.
    destruct (Z.ltb_spec value limit); [|lia]. cbn [negb].
    rewrite Hq, Z.eqb_refl. rewrite store_in_range by lia.
    exists value. split; [lia|reflexivity].
  - destruct (Z.ltb_spec value limit); [|lia]. cbn [negb].
    destruct (load_in_range b value ltac:(lia)) as (x & Hx). rewrite Hx.
    destruct (Z.eqb_spec x double_quote).
    + rewrite store_in_range by lia.
      exists value. split; [lia|reflexivity].
    + rewrite uint64_small by lia.
      destruct (IH (value + 1) fuel) as (q & Hqr & E); try lia.
      * replace (value + 1 + Z.of_nat n) with (value + Z.of_nat (S n)) by lia.
        exact Hq.
      * exists q. split; [lia|exact E].
Qed.

Lemma terminate_log_marks (b : list Z) (value xml_size c : Z) :
  7 <= xml_size < 18446744073709551616 ->
  0 <= value <= c -> c < xml_size - 7 -> c < zlen b ->
  load b c = Some double_quote ->
  exists q,
    value <= q <= c
    /\ terminate_log b value xml_size
       = Done (firstn (Z.to_nat q) b ++ 0 :: skipn (S (Z.to_nat q)) b).
Proof.
  intros Hx Hv Hc Hb Hq. unfold terminate_log.
  rewrite uint64_small by lia.
  destruct (terminate_log_scan b (xml_size - 7) ltac:(lia)
              (Z.to_nat (c - value)) value (S (Z.to_nat xml_size)))
    as (q & Hqr & E); try lia.
  - replace (value + Z.of_nat (Z.to_nat (c - value))) with c by lia.
    exact Hq.
  - exists q. split; [lia|]. rewrite E. cbn [bind fst snd].
    rewrite (load_at (firstn (Z.to_nat q) b) (skipn (S (Z.to_nat q)) b) 0).
    + reflexivity.
    + unfold zlen in *. rewrite length_firstn. lia.
Qed.

Lemma skipn_app_cons {A : Type} (l : list A) (x : A) (tl : list A) (n : nat) :
  (length l < n)%nat -> skipn n (l ++ x :: tl) = skipn (n - length l - 1) tl.
Proof.
  intros Hn. rewrite skipn_app, (skipn_all2 l) by lia. cbn [app].
  destruct (n - length l)%nat as [|k] eqn:E; [lia|].
  cbn [skipn Nat.sub]. rewrite Nat.sub_0_r. reflexivity.
Qed.

Lemma skipn_behind_store (b : list Z) (q n : nat) (x : Z) :
  (q < n)%nat -> (q < length b)%nat ->
  skipn n (firstn q b ++ x :: skipn (S q) b) = skipn n b.
Proof.
  intros Hq Hb.
  assert (Hfl : length (firstn q b) = q) by (rewrite length_firstn; lia).
  rewrite skipn_app_cons by lia. rewrite Hfl, skipn_skipn.
  f_equal. lia.
Qed.

Lemma advanced_behind_store (b : list Z) (n L : Z) (q : nat) (x : Z) :
  (q < Z.to_nat L)%nat -> 0 <= L <= n -> (q < length b)%nat ->
  advanced (mk_scratch (firstn q b ++ x :: skipn (S q) b) n) L
  = advanced (mk_scratch b n) L.
Proof.
  intros Hq HL Hb. unfold advanced. cbn [fh_rx_buffer fh_rx_buffer_bytes].
  rewrite !skipn_behind_store by lia. reflexivity.
Qed.

Section LogTurn.

Variable W : Type.
Variable timeval : Type.
Variable transport_rx_blocking : W -> Z -> fh_res_t * list Z * W.
Variable gettimeofday : W -> timeval * W.
Variable ReturnTimeInSeconds : timeval -> timeval -> QArith_base.Q.

Lemma rx_turn_log (decl mid v post data : list Z) (size : Z)
  (st : rx_state W timeval) (fuel : nat) :
  scratch_ok (now_scratch st) ->
  fh_rx_buffer (now_scratch st) = envelope decl mid (chars "log") v ++ post ->
  firstn 5 decl = chars "<?xml" ->
  envelope_ok decl mid (chars "log") v ->
  zlen (envelope decl mid (chars "log") v)
  <= fh_rx_buffer_bytes (now_scratch st) ->
  rx_turn W timeval transport_rx_blocking gettimeofday ReturnTimeInSeconds
    data size (S fuel) st
  = let s' :=
      advanced (now_scratch st) (zlen (envelope decl mid (chars "log") v)) in
    let c1 := gettimeofday (now_world st) in
    let c2 := gettimeofday (snd c1) in
    if below_timeout (ReturnTimeInSeconds (fst c1) (fst c2))
    then Next (mk_rx_state s' (snd c2) (fst c1))
    else Stop (mk_rx_result TRANSPORT_TIMEOUT data 0 s' (snd c2)).
Proof.
  intros Hs Hbuf Hdecl Hok Hfits.
  pose proof Hs as (Hlen & Hb & Hc). unfold sizeof_fh_rx_buffer in *.
  pose proof (envelope_length decl mid (chars "log") v) as HL.
  cbv zeta in HL.
  pose proof (zlen_nonneg decl). pose proof (zlen_nonneg mid).
  pose proof (zlen_nonneg v). pose proof (zlen_nonneg post).
  change (zlen (chars "log")) with 3 in HL.
  set (L := zlen (envelope decl mid (chars "log") v)) in *.
  set (tag_off := zlen decl + 6 + zlen mid + 1).
  set (value_off := tag_off + 3 + 1 + 7).
  assert (Hstart : start_buf_with_xml (now_scratch st)
                   = Done (0, now_scratch st)).
  { apply (start_buf_with_xml_aligned decl mid (chars "log") v post);
      try assumption. apply Hok. }
  assert (Hparse : response_xml_parse (fh_rx_buffer (now_scratch st))
                     (fh_rx_buffer_bytes (now_scratch st))
                   = Done (mk_parse_result L (Some tag_off) (Some value_off))).
  { pose proof (response_xml_parse_envelope decl mid (chars "log") v
                  post (fh_rx_buffer_bytes (now_scratch st)) Hok Hfits
                  ltac:(lia)) as Hp2.
    cbv zeta in Hp2. rewrite <- Hbuf in Hp2. rewrite Hp2 by lia.
    unfold value_off, tag_off. rewrite HL. reflexivity. }
  assert (Htag : memcmp_eq (fh_rx_buffer (now_scratch st)) tag_off
                   (chars "log") = Some true).
  { rewrite Hbuf. apply tag_at. }
  assert (Hquote : load (fh_rx_buffer (now_scratch st)) (value_off + zlen v)
                   = Some double_quote).
  { rewrite Hbuf. unfold envelope. rewrite <- !app_assoc.
    set (P := decl ++ chars "<data>" ++ mid ++ [char "<"] ++ chars "log"
              ++ [char " "] ++ chars "value=" ++ [double_quote] ++ v).
    replace (decl ++ chars "<data>" ++ mid ++ [char "<"] ++ chars "log"
             ++ [char " "] ++ chars "value=" ++ [double_quote] ++ v
             ++ [double_quote] ++ chars " /></data>" ++ post)
      with (P ++ double_quote :: chars " /></data>" ++ post)
      by (unfold P; rewrite <- !app_assoc; reflexivity).
    apply load_at. unfold P, value_off, tag_off. rewrite !zlen_app.
    change (zlen (chars "<data>")) with 6. change (zlen [char "<"]) with 1.
    change (zlen (chars "log")) with 3. change (zlen [char " "]) with 1.
    change (zlen (chars "value=")) with 6.
    change (zlen [double_quote]) with 1. lia. }
  destruct (terminate_log_marks (fh_rx_buffer (now_scratch st)) value_off L
              (value_off + zlen v)) as (q & Hq & Hterm);
    try (unfold value_off, tag_off in *; lia); try assumption.
  unfold rx_turn, await_xml_start. cbn [iterate]. rewrite Hstart.
  cbn [call fst snd negb Z.eqb]. unfold await_envelope. cbn [iterate].
  cbn [now_scratch now_world start_time]. rewrite Hparse. cbn [call].
  cbn [parsed_size].
  destruct (Z.eqb_spec L 0) as [|_]; [lia|].
  cbn [call fst snd now_scratch now_world parsed_tag]. rewrite Htag.
  unfold discard_log. cbn [parsed_value parsed_size now_scratch now_world].
  rewrite Hterm. cbn [bind].
  destruct (gettimeofday (now_world st)) as [t1 w2] eqn:Hc1.
  cbn [bind].
  rewrite shift_fh_rx_buffer_left_advances.
  - cbn [option_map crash_unless bind call]. unfold fh_get_delta_seconds.
    cbn [start_time now_world now_scratch fst snd].
    destruct (gettimeofday w2) as [t2 w3] eqn:Hc2. cbn [fst snd].
    rewrite advanced_behind_store
      by (unfold value_off, tag_off, zlen in *; lia).
    replace (mk_scratch (fh_rx_buffer (now_scratch st))
               (fh_rx_buffer_bytes (now_scratch st)))
      with (now_scratch st) by (destruct (now_scratch st); reflexivity).
    reflexivity.
  - unfold scratch_ok. cbn [fh_rx_buffer fh_rx_buffer_bytes].
    unfold sizeof_fh_rx_buffer.
    split; [|split; [|lia]].
    + unfold zlen in *. rewrite length_app, length_firstn. cbn [length].
      rewrite length_skipn. unfold value_off, tag_off in *. lia.
    + apply Forall_app. split; [apply Forall_firstn_keep, Hb|].
      constructor; [unfold is_byte; lia|apply Forall_skipn_keep, Hb].
  - cbn [fh_rx_buffer_bytes]. lia.
Qed.

End LogTurn.

(** A log ahead of the response is consumed and the response is delivered
    all the same: when the scratch starts with a well-formed [log]
    envelope followed by a well-formed [response] envelope,
    [fh_rx_blocking_response_xml] discards the log, takes the time again
    (the timeout now runs from the log), and, the clock not having reached
    the timeout since, delivers the response as if the log had not been
    there; the transport is not read. *)
Theorem log_is_skipped_before_response (W timeval : Type)
  (transport_rx_blocking : W -> Z -> fh_res_t * list Z * W)
  (gettimeofday : W -> timeval * W)
  (ReturnTimeInSeconds : timeval -> timeval -> QArith_base.Q)
  (d1 m1 v1 d2 m2 v2 post data : list Z) (size : Z) (s : scratch) (w : W)
  (fuel : nat) :
  scratch_ok s ->
  fh_rx_buffer s
  = envelope d1 m1 (chars "log") v1
    ++ envelope d2 m2 (chars "response") v2 ++ post ->
  firstn 5 d1 = chars "<?xml" -> firstn 5 d2 = chars "<?xml" ->
  envelope_ok d1 m1 (chars "log") v1 ->
  envelope_ok d2 m2 (chars "response") v2 ->
  zlen (envelope d1 m1 (chars "log") v1)
  + zlen (envelope d2 m2 (chars "response") v2) <= fh_rx_buffer_bytes s ->
  0 <= size <= zlen data ->
  let c0 := gettimeofday w in
  let c1 := gettimeofday (snd c0) in
  let c2 := gettimeofday (snd c1) in
  below_timeout (ReturnTimeInSeconds (fst c1) (fst c2)) = true ->
  fh_rx_blocking_response_xml W timeval transport_rx_blocking gettimeofday
    ReturnTimeInSeconds data size s w (S (S fuel))
  = Done (delivery data size
            (advanced s (zlen (envelope d1 m1 (chars "log") v1)))
            (zlen (envelope d2 m2 (chars "response") v2)) (snd c2)).
Proof.
  intros Hs Hbuf Hd1 Hd2 Hok1 Hok2 Hfits Hsize c0 c1 c2 Hclock.
  pose proof Hs as (Hlen & Hb & Hc). unfold sizeof_fh_rx_buffer in *.
  set (L1 := zlen (envelope d1 m1 (chars "log") v1)) in *.
  set (L2 := zlen (envelope d2 m2 (chars "response") v2)) in *.
  assert (HL1 : 0 <= L1) by apply zlen_nonneg.
  assert (HL2 : 0 <= L2) by apply zlen_nonneg.
  unfold fh_rx_blocking_response_xml. fold c0.
  destruct c0 as [t0 w1] eqn:Hc0. cbn [snd] in c1.
  unfold rx_loop. cbn [iterate].
  rewrite (rx_turn_log W timeval transport_rx_blocking gettimeofday
             ReturnTimeInSeconds d1 m1 v1
             (envelope d2 m2 (chars "response") v2 ++ post) data size
             (mk_rx_state s w1 t0) (S fuel));
    try assumption; [|cbn [now_scratch]; fold L1; lia].
  cbv zeta. cbn [now_scratch now_world]. fold c1 c2 L1. rewrite Hclock.
  rewrite (rx_turn_response W timeval transport_rx_blocking gettimeofday
             ReturnTimeInSeconds d2 m2 v2
             (firstn (Z.to_nat (fh_rx_buffer_bytes s - L1 - L2)) post
              ++ repeat 0 (Z.to_nat L1)
              ++ skipn (Z.to_nat (fh_rx_buffer_bytes s)) (fh_rx_buffer s))
             data size _ (S fuel)); try assumption.
  - reflexivity.
  - cbn [now_scratch]. apply advanced_ok; [assumption|lia].
  - cbn [now_scratch]. unfold advanced. cbn [fh_rx_buffer].
    rewrite Hbuf at 1.
    replace (Z.to_nat L1) with (length (envelope d1 m1 (chars "log") v1))
      at 1 by (unfold L1, zlen; lia).
    rewrite skipn_app, skipn_all, Nat.sub_diag. cbn [skipn app].
    rewrite firstn_app.
    rewrite firstn_all2 by (unfold L1, L2, zlen in *; lia).
    rewrite <- app_assoc. do 2 f_equal.
    f_equal. unfold L1, L2, zlen in *. lia.
  - cbn [now_scratch]. unfold advanced. cbn [fh_rx_buffer_bytes].
    fold L2. lia.
Qed.

Lemma log_is_skipped_before_response_witness :
  let s :=
    scratch_with
      (envelope (chars "<?xml version='1.0' ?>") [] (chars "log")
         (chars "hello")
       ++ envelope (chars "<?xml version='1.0' ?>") [] (chars "response")
            (chars "ACK")) in
  let c0 := (fun w : unit => (tt, w)) tt in
  let c1 := (fun w : unit => (tt, w)) (snd c0) in
  let c2 := (fun w : unit => (tt, w)) (snd c1) in
  fh_rx_blocking_response_xml unit unit
    (fun w _ => (READ_PORT_ERROR, [], w)) (fun w => (tt, w))
    (fun _ _ => QArith_base.inject_Z 0)
    (repeat 7 100) 100 s tt 2
  = Done (delivery (repeat 7 100) 100
            (advanced s
               (zlen (envelope (chars "<?xml version='1.0' ?>") []
                        (chars "log") (chars "hello"))))
            (zlen (envelope (chars "<?xml version='1.0' ?>") []
                     (chars "response") (chars "ACK")))
            (snd c2)).
Proof.
  cbv zeta.
  apply (log_is_skipped_before_response unit unit
           (fun w _ => (READ_PORT_ERROR, [], w)) (fun w => (tt, w))
           (fun _ _ => QArith_base.inject_Z 0)
           (chars "<?xml version='1.0' ?>") [] (chars "hello")
           (chars "<?xml version='1.0' ?>") [] (chars "ACK")
           (repeat 0 (4096 - 56 - 59)) (repeat 7 100) 100 _ tt 0%nat).
  - split; [vm_compute; reflexivity|].
    split; [apply all_bytes_sound; vm_compute; reflexivity|].
    vm_compute. split; discriminate.
  - vm_compute. reflexivity.
  - vm_compute. reflexivity.
  - vm_compute. reflexivity.
  - split; [vm_compute; discriminate|].
    split; [apply none_equal_sound; vm_compute; reflexivity|].
    split; [constructor|].
    split; [apply none_equal_sound; vm_compute; reflexivity|].
    repeat constructor; vm_compute; discriminate.
  - split; [vm_compute; discriminate|].
    split; [apply none_equal_sound; vm_compute; reflexivity|].
    split; [constructor|].
    split; [apply none_equal_sound; vm_compute; reflexivity|].
    repeat constructor; vm_compute; discriminate.
  - vm_compute. discriminate.
  - vm_compute. split; discriminate.
  - vm_compute. reflexivity.
Defined.

(* --------------------------------------------------------------------- *)
(** ** The HSUART link: the blocking write                                *)
(* --------------------------------------------------------------------- *)

Section BlockingWriteProofs.

Variable crc16 : list Z -> Z.
Variable big_endian : bool.




End BlockingWriteProofs.


